(* ===== verification/_CoqProject ===== *)
-Q . S2P
Prelude.v
Buffer.v
CString.v
PhysMem.v
Klog.v
Printf.v
Scheduler.v
Ramdisk.v
RamdiskInv.v
RamdiskPath.v
RamdiskInit.v
Calc.v
NetBytes.v
Ports.v
Network.v
NetworkSafe.v
NetworkProto.v
Vga.v
Terminal.v
TerminalProps.v
Console.v
JavaClass.v
JavaZip.v
Jvm.v
Hjar.v
JavaCmd.v
JvmSafe.v
JavaFormat.v
JavaProps.v
HjarProps.v
ZipProps.v
Command.v
FsCmd.v
Cpu.v
Input.v
InputProps.v
Devices.v
Play.v
Catnake.v
Pong.v
Plinko.v
Mamu.v
Desktop.v
World.v
SysCmd.v
NetCmd.v
Shell.v
Kernel.v
FsSafe.v
DeviceSafe.v
Settles.v
AppSafe.v
ShellSafe.v
SystemSafe.v
Main64.v
Main64Props.v
Main64Keys.v
