(* ===== verification/Prelude.v ===== *)
(** * Verification of the HeatOS kernel

    HeatOS is a 32-bit x86 kernel in C: it boots to a shell with a RAM disk, a
    process list, an NE2000 network driver, a calculator, a Java bytecode
    interpreter, some games, an editor and a desktop.  A second, 64-bit kernel
    runs a small monitor over the same RAM disk.  This library translates the C
    sources under src/src into Rocq functions and proves what they do.

    ** How the code is modelled

    - Integers are [Z]; every wrap-around or conversion is written with the
      functions [u8] ... [i32] of this file.  A signed overflow, undefined in C,
      wraps.  A division that traps is the fault [Trap].
    - Anything that can go wrong gives a [fault]: [OutOfBounds] (an access
      outside an object), [Trap], [NoFuel] (a loop or a recursion that used up
      its bound).  Code that can do so returns an [outcome].
    - A buffer is the list of its bytes, accessed with bounds checks (Buffer.v);
      a C string argument is the list of its characters before the NUL, [None]
      for NULL.  An array that code fills from its start with a text is the text
      so far, and every character and the NUL put into it is checked against
      the size of the array ([put_char], [end_text], [copy_until],
      [CString.itoa_into]), so that a missing test in the loop is a fault, not a
      truncation.  A handler of received data gets exactly the bytes of its
      packet.  The functions of string.c that write work on a
      byte-addressed memory with overlapping ranges (CString.v).
    - The globals of a C file are one record; a function over them takes and
      returns it.  Drivers are computations over their record and the history
      of port accesses (Ports.v); the hardware is any function from that
      history to the value read, so a theorem about a driver holds for every
      behaviour of the device.  Commands are computations that print, change
      state and may return early (Command.v, Console.v).
    - Timer interrupts happen before reads of the tick counter, as an arbitrary
      schedule says (Devices.v).

    ** The files and the code

    - Prelude.v: words, outcomes, loops with fuel, shared lemmas and tactics.
      Buffer.v, Console.v, Command.v, Ports.v: the four monads and their rules
      ([succeeds], [goes], [ckeeps], [wp]).
    - CString.v: lib/string.c.  Printf.v: kernel/printf.c.  Klog.v:
      kernel/klog.c.  PhysMem.v: kernel/mm.c.  Scheduler.v: kernel/scheduler.c.
      Cpu.v: kernel/gdt.c and idt.c.
    - Ramdisk.v, RamdiskInv.v, RamdiskPath.v, RamdiskInit.v, FsSafe.v:
      lib/ramdisk.c: the operations, the tree invariant and what each
      operation does to it, paths, the boot contents, and the weaker
      invariant that survives every call.
    - NetBytes.v, Network.v: drivers/network.c, its packet formats and its
      driver and handlers; NetworkSafe.v and NetworkProto.v: what they guarantee.
    - Vga.v: drivers/vga.c.  Terminal.v, TerminalProps.v: terminal/terminal.c.
      Input.v, InputProps.v: drivers/keyboard.c and mouse.c.  Devices.v,
      DeviceSafe.v, Settles.v: drivers/pit.c, serial.c, speaker.c, graphics.c,
      their safety and the waits that end.
    - Calc.v: commands/calc.c.  FsCmd.v: the file commands and apps/kat.c.
      SysCmd.v: dmesg, kill, ps, top, uptime, kstats, sleep, beep, date,
      reboot, shutdown.  NetCmd.v: ifconfig, netstat, nslookup, ping, curl,
      telnet, traceroute, wget.  World.v: the state they share.
    - JavaClass.v, JavaZip.v, Jvm.v, Hjar.v, JavaCmd.v: commands/java.c: class
      files, archives, the bytecode interpreter, the HJAR machine, the
      commands.  JavaFormat.v, JavaProps.v, JvmSafe.v, HjarProps.v, ZipProps.v:
      their theorems.
    - Play.v: the drawing functions of drivers/vga.c as the full-screen programs
      use them, and their record of screen, input and variables.  Catnake.v,
      Plinko.v, Mamu.v, Desktop.v: apps/catnake.c, plinko.c, mamu.c, desktop.c.
      Pong.v: commands/pong.c.  AppSafe.v: what holds of all of them, and the editor's
      theorems; those of the games and the desktop are in their files.
    - Shell.v: commands/commands.c, app_commands.c, terminal/shell_stubs.c and the
      loop of [terminal_run].  Kernel.v: kernel/main.c, panic.c and the entry
      points of fat32.c.  ShellSafe.v, SystemSafe.v: the theorems about the
      whole.
    - Main64.v, Main64Props.v, Main64Keys.v: kernel/main64.c and its theorems.

    The names are those of the code; a definition that has no C function of
    its own is a part of one (a loop, the body of a loop, a case).

    ** The parts together

    [Kernel.kernel_main] starts from the loaded image and calls the
    initialisation of every part; [Kernel.world_of] hands the globals to
    [Shell.terminal_run].  A turn of its loop polls the keyboard (which also
    feeds the mouse), edits the line ([Terminal.on_key]), and at Enter looks
    the first word up in [Shell.g_commands].  A file command runs on the RAM
    disk, a network command on the driver, [kill] and [ps] on the scheduler, all as
    commands over [World.world] ([World.on_fs], [on_net], [on_device]).  A
    full-screen program takes screen, keyboard, mouse, devices and file system over
    until it returns ([Shell.run_app]); its own variables stay in [World.w_apps].
    The log
    is a part of the scheduler's state since the scheduler writes it; kmalloc and
    the page allocator are too.

    The 64-bit kernel is a program of its own: [Main64.kernel_main64] starts the
    serial port and the RAM disk and then polls the keyboard itself; its state
    is [Main64.monitor], of which the file system and the serial driver are the
    modelled parts of the other kernel, as are the HJAR interpreter and the
    functions of string.c.

    ** The theorems

    - The whole system: [SystemSafe.kernel_boots] and [SystemSafe.system_safe]:
      booting succeeds and establishes the invariants of all parts, and any
      number of turns of the shell with any hardware, full-screen programs
      included, keeps them and never accesses memory out of bounds.
    - The 64-bit kernel: [Main64Keys.monitor_session]: from power-on, the scan
      codes in the keyboard controller do what an abstract monitor (the text
      printed, the line typed, the file system) does with their keys, every
      command ending, whichever of the [hlt]s of turns without a key return; when
      none does, as in this kernel, the first such turn stops it;
      [Main64Props.monitor_prints]: the screen is a window on the text;
      [Main64Props.monitor_safe]: its loop never leaves its objects.
    - Programs: the keys turn the snake and it moves as its rules say, the
      editor's file is the text typed, a click reaches the topmost window, with
      the menu open or closed, windows stay on the screen.
    - Memory and processes: the heap's block list stays sound and its operations
      are inverse to each other, pages are handed out once, the scheduler's
      pointers never dangle and it runs processes in turn.
    - Text: the log is the last 8192 bytes written, formatted output is the
      reference formatting, itoa and utoa are positional notation, memmove and
      strstr meet their specifications.
    - Files: creating, writing, reading, deleting, resolving and building paths
      on the tree the node tables encode; the boot contents.
    - Network: no packet makes the driver leave its buffers; checksums verify;
      echo requests are answered with the right reply; a DNS answer is the
      address the packet holds; addresses and queries are read back.
    - Terminal and input: the line editor refines a cursor in a text, the history
      is the list of the last lines, the byte stream of the controller splits
      into keys and mouse packets, typed text comes back.
    - Interpreters: the calculator computes what the grammar says and ends;
      class files parse back; the bytecode interpreter stays type safe on
      every bytecode; compiled HJAR programs compute; an archive entry is found.

    ** Fuel and bounds

    Loops that the code bounds itself run with that bound.  Recursions over
    lists and trees run with fuel that theorems show to be enough: 64 nodes for
    the walks of the RAM disk, the length of the input for the calculator, the
    length of the string for the loops of string.c.  Loops that only a device,
    an interrupt or a bytecode program ends take [fuel] as a parameter and the
    theorems hold for every value; [SystemSafe.kernel_boots] says that the only
    one in the boot sequence is the flushing of the keyboard controller, and
    ends it when the controller is empty once.  [DeviceSafe.max_ticks] bounds the
    time up to the overflow of a buffer in uptime.c.  An idle [hlt] that no
    interrupt ends is [NoFuel] too: the program stops there.

    ** Not modelled

    - What the java and jarinfo commands do on arbitrary files is defined but
      left out of [SystemSafe.system_safe]: the class file parser has loops that
      negative lengths make endless and reads behind the file
      ([JavaProps.negative_attribute_length], [ZipProps.zip_walk_loops]).  The
      64-bit kernel cannot write files, so there they are covered.
    - Bounds checks of the page bitmap and of the log's ring, whose indexes the
      invariants [PhysMem.pmm_ok] and [Klog.klog_ok] bound; of the four bytes
      that network_parse_ipv4 writes, of the digits utoa collects for the log's
      sequence number, and of the buffers of the java and jarinfo commands.
    - drivers/wifi.c, which cannot be compiled; the empty bodies of tcp_stack.c and web_stack.c;
      fat32_read_file, a stub that nothing calls; the assembly, the boot
      loader and the build scripts.
    - The copy on the serial port of the lines that the kill command logs; delay
      loops; [cli] and the final halts. *)
From Stdlib Require Import ZArith Lia Ascii String.
From stdpp Require Import base tactics option numbers list list_numbers.
#[local] Open Scope Z_scope.

(** * Machine words

    C integers are [Z]; every conversion or wrap-around the code performs is
    written with one of these functions. *)

Definition u8 (z : Z) : Z := z mod 256.
Definition u16 (z : Z) : Z := z mod 65536.
Definition u32 (z : Z) : Z := z mod 4294967296.
Definition u64 (z : Z) : Z := z mod 18446744073709551616.
Definition i8 (z : Z) : Z := (z + 128) mod 256 - 128.
Definition i16 (z : Z) : Z := (z + 32768) mod 65536 - 32768.
Definition i32 (z : Z) : Z := (z + 2147483648) mod 4294967296 - 2147483648.

Definition is_u8 (z : Z) : Prop := 0 <= z < 256.
Definition is_u16 (z : Z) : Prop := 0 <= z < 65536.
Definition is_u32 (z : Z) : Prop := 0 <= z < 4294967296.
Definition is_i32 (z : Z) : Prop := -2147483648 <= z < 2147483648.

(** Unfolds the word functions and closes the goal with [lia]. *)
Ltac words :=
  unfold u8, u16, u32, u64, i8, i16, i32,
    is_u8, is_u16, is_u32, is_i32 in *;
  Z.to_euclidean_division_equations; lia.

Section words.
Lemma u8_range z : is_u8 (u8 z).
Proof. words. Qed.
Lemma u16_range z : is_u16 (u16 z).
Proof. words. Qed.
Lemma u32_range z : is_u32 (u32 z).
Proof. words. Qed.
Lemma i32_range z : is_i32 (i32 z).
Proof. words. Qed.
Lemma u8_small z : is_u8 z -> u8 z = z.
Proof. words. Qed.
Lemma u16_small z : is_u16 z -> u16 z = z.
Proof. words. Qed.
Lemma u32_small z : is_u32 z -> u32 z = z.
Proof. words. Qed.
Lemma i32_small z : is_i32 z -> i32 z = z.
Proof. words. Qed.
End words.

Arguments u8 : simpl never.
Arguments u16 : simpl never.
Arguments u32 : simpl never.
Arguments u64 : simpl never.
Arguments i8 : simpl never.
Arguments i16 : simpl never.
Arguments i32 : simpl never.

(** Splits every boolean comparison of the goal and closes it with [lia]. *)
Ltac zcases :=
  repeat match goal with
  | |- context [ (?a <=? ?b)%Z ] => destruct (Z.leb_spec a b)
  | |- context [ (?a <? ?b)%Z ] => destruct (Z.ltb_spec a b)
  | |- context [ (?a =? ?b)%Z ] => destruct (Z.eqb_spec a b)
  end; simpl.

(** Rewrites the boolean comparisons of the goal that [lia] decides. *)
Ltac zdec :=
  repeat match goal with
  | |- context [ (?a <? ?b)%Z ] =>
    first [rewrite (proj2 (Z.ltb_lt a b)) by lia | rewrite (proj2 (Z.ltb_ge a b)) by lia]
  | |- context [ (?a <=? ?b)%Z ] =>
    first [rewrite (proj2 (Z.leb_le a b)) by lia | rewrite (proj2 (Z.leb_gt a b)) by lia]
  | |- context [ (?a =? ?b)%Z ] =>
    first [rewrite (proj2 (Z.eqb_eq a b)) by lia | rewrite (proj2 (Z.eqb_neq a b)) by lia]
  | |- context [ (?a >? ?b)%Z ] => rewrite (Z.gtb_ltb a b)
  | |- context [ (?a >=? ?b)%Z ] => rewrite (Z.geb_leb a b)
  end.

Create HintDb words.
#[export] Hint Resolve u8_range u16_range u32_range i32_range : words.
#[export] Hint Rewrite u8_small u16_small u32_small i32_small using words : words.

(** * Characters, byte strings and buffers

    A character is its unsigned 8-bit code.  A [const char *] that is only
    read is the list of bytes from the pointer on; reading past the end of the
    list gives the terminating NUL, so ["abc"] is [[97; 98; 99]]. *)

Definition ch (a : ascii) : Z := Z.of_N (N_of_ascii a).
Arguments ch _%_char_scope.

Fixpoint bs (s : string) : list Z :=
  match s with
  | EmptyString => []
  | String a s' => ch a :: bs s'
  end.
Arguments bs _%_string_scope.

(** Evaluates every character literal in the goal and the hypotheses. *)
Ltac chars :=
  repeat match goal with
  | |- context [ch ?c] => let v := eval vm_compute in (ch c) in change (ch c) with v
  | H : context [ch ?c] |- _ => let v := eval vm_compute in (ch c) in change (ch c) with v in H
  end.

(** Byte [i] of a buffer or string view. *)
Definition byte_at (l : list Z) (i : nat) : Z := nth i l 0.

(** The byte a string pointer points to, and the pointer after [p++]. *)
Definition hd0 (l : list Z) : Z := byte_at l 0.
Definition tl0 (l : list Z) : list Z := tail l.

(** A string without embedded NUL: the contents of a C string. *)
Definition nul_free (l : list Z) : Prop := Forall (fun c => c <> 0) l.

Lemma byte_at_lookup l i c : l !! i = Some c -> byte_at l i = c.
Proof. intros H. unfold byte_at. by rewrite nth_lookup, H. Qed.

Lemma byte_at_app_l l k i : (i < length l)%nat -> byte_at (l ++ k) i = byte_at l i.
Proof. intros. unfold byte_at. by rewrite app_nth1. Qed.

Lemma byte_at_app_r l k i :
  (length l <= i)%nat -> byte_at (l ++ k) i = byte_at k (i - length l).
Proof. intros. unfold byte_at. by rewrite app_nth2. Qed.

Lemma byte_at_ge l i : (length l <= i)%nat -> byte_at l i = 0.
Proof. intros. unfold byte_at. by rewrite nth_overflow. Qed.

Lemma byte_at_insert_eq l i (c : Z) : (i < length l)%nat -> byte_at (<[i:=c]> l) i = c.
Proof. intros. apply byte_at_lookup. by apply list_lookup_insert_eq. Qed.

Lemma byte_at_insert_ne l i j (c : Z) : i <> j -> byte_at (<[i:=c]> l) j = byte_at l j.
Proof. intros. unfold byte_at. by rewrite !nth_lookup, list_lookup_insert_ne. Qed.

(** * Outcomes

    A computation ends with a value, or gets stuck: its loop fuel ran out, the
    CPU trapped (a division error), or the C code left the objects it owns. *)

Inductive fault := NoFuel | Trap | OutOfBounds.

#[export] Instance fault_eq_dec : EqDecision fault.
Proof. solve_decision. Defined.

Inductive outcome (A : Type) :=
| Ok (a : A)
| Stuck (e : fault).
Arguments Ok {A} a.
Arguments Stuck {A} e.

#[export] Instance outcome_ret : MRet outcome := fun A a => Ok a.
#[export] Instance outcome_bind : MBind outcome := fun A B f m =>
  match m with Ok a => f a | Stuck e => Stuck e end.
#[export] Instance outcome_fmap : FMap outcome := fun A B f m =>
  match m with Ok a => Ok (f a) | Stuck e => Stuck e end.

Definition of_option {A} (e : fault) (o : option A) : outcome A :=
  match o with Some a => Ok a | None => Stuck e end.

(** The computation ends with a value satisfying [Q]. *)
Definition succeeds {A} (m : outcome A) (Q : A -> Prop) : Prop :=
  exists a, m = Ok a /\ Q a.

(** The computation does not leave its objects and does not trap. *)
Definition safe {A} (m : outcome A) : Prop :=
  m <> Stuck OutOfBounds /\ m <> Stuck Trap.

Lemma succeeds_bind {A B} (m : outcome A) (f : A -> outcome B) (P : A -> Prop) (Q : B -> Prop) :
  succeeds m P -> (forall a, P a -> succeeds (f a) Q) -> succeeds (m ≫= f) Q.
Proof. intros (a & -> & Ha) Hf. exact (Hf a Ha). Qed.

Lemma succeeds_ret {A} (a : A) (Q : A -> Prop) : Q a -> succeeds (Ok a) Q.
Proof. intros. by exists a. Qed.

Lemma succeeds_mono {A} (m : outcome A) (P Q : A -> Prop) :
  succeeds m P -> (forall a, P a -> Q a) -> succeeds m Q.
Proof. intros (a & -> & Ha) HPQ. exists a. auto. Qed.

Lemma safe_bind {A B} (m : outcome A) (f : A -> outcome B) :
  safe m -> (forall a, m = Ok a -> safe (f a)) -> safe (m ≫= f).
Proof.
  intros [H1 H2] Hf. destruct m as [a|e]; [by apply Hf|].
  split; intros [= ->]; congruence.
Qed.

Lemma safe_ok {A} (a : A) : safe (Ok a).
Proof. by split. Qed.

Lemma succeeds_safe {A} (m : outcome A) Q : succeeds m Q -> safe m.
Proof. intros (a & -> & _). apply safe_ok. Qed.

#[export] Hint Resolve succeeds_ret safe_ok : core.

(** [m] ends with a value satisfying [P] or with a fault that [E] allows. *)
Definition goes {A} (E : fault -> Prop) (m : outcome A) (P : A -> Prop) : Prop :=
  match m with Ok a => P a | Stuck e => E e end.

Section goes.
Context (E : fault -> Prop).

Lemma goes_ok {A} (a : A) (P : A -> Prop) : P a -> goes E (Ok a) P.
Proof. done. Qed.

Lemma goes_bind {A B} (m : outcome A) (f : A -> outcome B) P Q :
  goes E m P -> (forall a, P a -> goes E (f a) Q) -> goes E (m ≫= f) Q.
Proof. destruct m as [a|e]; cbn; auto. Qed.

Lemma goes_mono {A} (m : outcome A) (P Q : A -> Prop) : goes E m P -> (forall a, P a -> Q a) -> goes E m Q.
Proof. destruct m; cbn; auto. Qed.

Lemma succeeds_goes {A} (m : outcome A) (P : A -> Prop) : succeeds m P -> goes E m P.
Proof. by intros (a & -> & Ha). Qed.

Lemma goes_impl {A} (E' : fault -> Prop) (m : outcome A) P : (forall e, E e -> E' e) -> goes E m P -> goes E' m P.
Proof. destruct m; cbn; auto. Qed.
End goes.

Lemma goes_never {A} (m : outcome A) P : goes (fun _ => False) m P -> succeeds m P.
Proof. destruct m as [a|e]; [|done]. intros. by apply succeeds_ret. Qed.

(** Reads of a buffer with the bounds the C object has. *)
Definition read (l : list Z) (i : Z) : outcome Z :=
  if (0 <=? i) && (i <? Z.of_nat (length l)) then Ok (byte_at l (Z.to_nat i))
  else Stuck OutOfBounds.

Lemma read_ok l i :
  0 <= i < Z.of_nat (length l) -> read l i = Ok (byte_at l (Z.to_nat i)).
Proof. intros. unfold read. by rewrite (proj2 (andb_true_iff _ _)) by lia. Qed.

Lemma read_oob l i : i < 0 \/ Z.of_nat (length l) <= i -> read l i = Stuck OutOfBounds.
Proof. intros. unfold read. by rewrite (proj2 (andb_false_iff _ _)) by lia. Qed.

(** Entry [i] of an array, read and written. *)
Definition item {A} (l : list A) (i : Z) : outcome A :=
  if i <? 0 then Stuck OutOfBounds else of_option OutOfBounds (l !! Z.to_nat i).
Definition store {A} (i : Z) (x : A) (l : list A) : outcome (list A) :=
  if (0 <=? i) && (i <? Z.of_nat (length l)) then Ok (<[Z.to_nat i := x]> l) else Stuck OutOfBounds.

Lemma store_nat {A} (l : list A) n x : (n < length l)%nat -> store (Z.of_nat n) x l = Ok (<[n := x]> l).
Proof. intros Hn. unfold store. by rewrite (proj2 (andb_true_iff _ _)), Nat2Z.id by lia. Qed.

Lemma item_ok {A} (l : list A) i : 0 <= i < Z.of_nat (length l) -> succeeds (item l i) (fun x => l !! Z.to_nat i = Some x).
Proof.
  intros Hi. unfold item. rewrite (proj2 (Z.ltb_ge i 0)) by lia.
  destruct (lookup_lt_is_Some_2 l (Z.to_nat i)) as [x E]; [lia|]. rewrite E. by apply succeeds_ret.
Qed.

Lemma store_ok {A} i (x : A) l : 0 <= i < Z.of_nat (length l) -> store i x l = Ok (<[Z.to_nat i := x]> l).
Proof. intros. unfold store. by rewrite (proj2 (andb_true_iff _ _)) by lia. Qed.

(** * Loops

    [cloop fuel body s] runs a C loop: each turn either goes on with a new
    state ([inl]) or leaves the loop with a result ([inr]). *)

Fixpoint cloop {S R} (fuel : nat) (body : S -> outcome (S + R)) (s : S) : outcome R :=
  match fuel with
  | O => Stuck NoFuel
  | S n =>
    match body s with
    | Ok (inl s') => cloop n body s'
    | Ok (inr r) => Ok r
    | Stuck e => Stuck e
    end
  end.

Section cloop.
Context {S R : Type} (body : S -> outcome (S + R)).

(** Total correctness: a postcondition and an invariant ranked by the number
    of turns left. *)
Lemma cloop_ranked (I : nat -> S -> Prop) (Q : R -> Prop) :
  (forall k s, I k s -> succeeds (body s) (fun x =>
    match x with inl s' => exists k', (k' < k)%nat /\ I k' s' | inr r => Q r end)) ->
  forall fuel k s, I k s -> (k < fuel)%nat -> succeeds (cloop fuel body s) Q.
Proof.
  intros Hb fuel. induction fuel as [|n IH]; intros k s Hs Hk; [lia|].
  simpl. destruct (Hb k s Hs) as ([s'|r] & -> & H); [|by apply succeeds_ret].
  destruct H as (k' & Hk' & H). apply (IH k'); [done|lia].
Qed.

(** The same with the rank computed from the state. *)
Lemma cloop_total (I : S -> Prop) (Q : R -> Prop) (mu : S -> nat) :
  (forall s, I s -> succeeds (body s) (fun x =>
    match x with inl s' => I s' /\ (mu s' < mu s)%nat | inr r => Q r end)) ->
  forall fuel s, I s -> (mu s < fuel)%nat -> succeeds (cloop fuel body s) Q.
Proof.
  intros Hb fuel s Hs Hmu.
  apply (cloop_ranked (fun k s => I s /\ mu s = k) Q) with (k := mu s); [|done|done].
  intros k s1 [H1 <-]. eapply succeeds_mono; [by apply Hb|].
  intros [s'|r]; [|done]. intros [H2 H3]. by exists (mu s').
Qed.

(** Safety: an invariant kept by every turn rules out the faults. *)
Lemma cloop_safe (I : S -> Prop) :
  (forall s, I s -> safe (body s) /\ forall s', body s = Ok (inl s') -> I s') ->
  forall fuel s, I s -> safe (cloop fuel body s).
Proof.
  intros Hb fuel. induction fuel as [|n IH]; intros s Hs; simpl; [by split|].
  destruct (Hb s Hs) as [[H1 H2] H3]. destruct (body s) as [[s'|r]|e].
  - apply IH, H3. done.
  - done.
  - split; congruence.
Qed.

(** Divergence: an invariant under which every turn goes on. *)
Lemma cloop_diverges (I : S -> Prop) :
  (forall s, I s -> exists s', body s = Ok (inl s') /\ I s') ->
  forall fuel s, I s -> cloop fuel body s = Stuck NoFuel.
Proof.
  intros Hb fuel. induction fuel as [|n IH]; intros s Hs; simpl; [done|].
  destruct (Hb s Hs) as (s' & -> & ?). by apply IH.
Qed.

(** More fuel does not change a result. *)
Lemma cloop_mono fuel fuel' s r :
  cloop fuel body s = Ok r -> (fuel <= fuel')%nat -> cloop fuel' body s = Ok r.
Proof.
  revert fuel' s. induction fuel as [|n IH]; intros [|n'] s H Hle; try done; [lia|].
  simpl in *. destruct (body s) as [[s'|r']|e]; try done. apply IH; [done|lia].
Qed.

Lemma goes_cloop (E : fault -> Prop) (I : S -> Prop) (Q : R -> Prop) fuel : E NoFuel ->
  (forall s, I s -> goes E (body s) (fun x => match x with inl s' => I s' | inr r => Q r end)) ->
  forall s, I s -> goes E (cloop fuel body s) Q.
Proof.
  intros HE Hb. induction fuel as [|n IH]; intros s Hs; [done|]. cbn [cloop].
  specialize (Hb s Hs). destruct (body s) as [[s'|r]|e]; cbn in *; auto.
Qed.

(** Less fuel gives the same result or none. *)
Lemma cloop_less fuel fuel' s : (fuel <= fuel')%nat ->
  cloop fuel body s = Stuck NoFuel \/ cloop fuel body s = cloop fuel' body s.
Proof.
  revert fuel' s. induction fuel as [|n IH]; intros [|n'] s Hle; try lia; [by left|by left|].
  cbn [cloop]. destruct (body s) as [[s'|r]|e]; [|by right|by right]. apply IH. lia.
Qed.

Lemma cloop_unfold n s : cloop (Datatypes.S n) body s =
  match body s with
  | Ok (inl s') => cloop n body s'
  | Ok (inr r) => Ok r
  | Stuck e => Stuck e
  end.
Proof. done. Qed.
End cloop.

(** [for (i = lo; i < hi; i++)] with a body that never leaves early. *)
Definition for_loop {S} (lo hi : Z) (body : Z -> S -> S) (s : S) : S :=
  foldl (fun s i => body i s) s (seqZ lo (hi - lo)).

Lemma for_loop_empty {S} lo hi (body : Z -> S -> S) s : hi <= lo -> for_loop lo hi body s = s.
Proof. intros. unfold for_loop. by rewrite seqZ_nil by lia. Qed.

Lemma for_loop_step {S} lo hi (body : Z -> S -> S) s :
  lo < hi -> for_loop lo hi body s = for_loop (lo + 1) hi body (body lo s).
Proof.
  intros. unfold for_loop. rewrite seqZ_cons by lia. simpl.
  do 2 f_equal; lia.
Qed.

(** Invariant rule for [for_loop]. *)
Lemma for_loop_ind {S} (P : Z -> S -> Prop) lo hi (body : Z -> S -> S) s :
  lo <= hi -> P lo s ->
  (forall i s, lo <= i < hi -> P i s -> P (i + 1) (body i s)) ->
  P hi (for_loop lo hi body s).
Proof.
  intros Hle H0 Hstep. remember (Z.to_nat (hi - lo)) as n eqn:Hn.
  revert lo s Hle H0 Hstep Hn. induction n as [|n IH]; intros lo s Hle H0 Hstep Hn.
  - rewrite for_loop_empty by lia. by replace hi with lo by lia.
  - rewrite for_loop_step by lia. apply IH; [lia| |intros; apply Hstep; [lia|done]|lia].
    apply Hstep; [lia|done].
Qed.

(** [for (i = lo; i < hi; i++) if (p(i)) return i;] *)
Definition first_index (lo hi : Z) (p : Z -> bool) : option Z :=
  List.find p (seqZ lo (hi - lo)).

Lemma first_index_spec lo hi p :
  match first_index lo hi p with
  | Some i => lo <= i < hi /\ p i = true /\ forall j, lo <= j < i -> p j = false
  | None => forall j, lo <= j < hi -> p j = false
  end.
Proof.
  unfold first_index. remember (Z.to_nat (hi - lo)) as n eqn:Hn. revert lo Hn.
  induction n as [|n IH]; intros lo Hn.
  - rewrite seqZ_nil by lia. simpl. lia.
  - rewrite seqZ_cons by lia. simpl. destruct (p lo) eqn:Hp; [by split_and!; try lia|].
    specialize (IH (Z.succ lo) ltac:(lia)).
    replace (Z.pred (hi - lo)) with (hi - Z.succ lo) by lia.
    destruct (List.find p _) as [i|].
    + destruct IH as (Hi & Hpi & Hlt). split; [lia|]. split; [done|].
      intros j Hj. destruct (decide (j = lo)) as [->|]; [done|]. apply Hlt. lia.
    + intros j Hj. destruct (decide (j = lo)) as [->|]; [done|]. apply IH. lia.
Qed.

(** Bits of a byte. *)
Lemma land_pow2 x k : 0 <= k -> Z.land x (Z.shiftl 1 k) = if Z.testbit x k then 2 ^ k else 0.
Proof.
  intros Hk. rewrite Z.shiftl_1_l. apply Z.bits_inj'. intros n Hn.
  rewrite Z.land_spec, Z.pow2_bits_eqb by done.
  destruct (Z.eqb_spec k n) as [->|Hne].
  - rewrite andb_true_r. destruct (Z.testbit x n); [by rewrite Z.pow2_bits_true|by rewrite Z.bits_0].
  - rewrite andb_false_r. destruct (Z.testbit x k); [by rewrite Z.pow2_bits_false|by rewrite Z.bits_0].
Qed.

Lemma bit_set_test x k : 0 <= k -> negb (Z.land x (Z.shiftl 1 k) =? 0) = Z.testbit x k.
Proof.
  intros Hk. rewrite land_pow2 by done. pose proof (Z.pow_pos_nonneg 2 k).
  destruct (Z.testbit x k); [|done]. destruct (Z.eqb_spec (2 ^ k) 0); [lia|done].
Qed.

Lemma testbit_u8 x k : 0 <= k < 8 -> Z.testbit (u8 x) k = Z.testbit x k.
Proof. intros. unfold u8. change 256 with (2 ^ 8). by rewrite Z.mod_pow2_bits_low by lia. Qed.

(** Counting: two tests that differ at one element of a list. *)
Lemma filter_flip {A} (p q : A -> bool) (i : A) (l : list A) :
  NoDup l -> i ∈ l -> p i = false -> q i = true ->
  (forall j, j ∈ l -> j <> i -> p j = q j) ->
  length (List.filter q l) = S (length (List.filter p l)).
Proof.
  induction 1 as [|x l Hx Hnd IH]; intros Hi Hp Hq Hpq; [by apply elem_of_nil in Hi|].
  simpl. apply elem_of_cons in Hi as [<-|Hi].
  - rewrite Hp, Hq. simpl. f_equal. f_equal. apply List.filter_ext_in.
    intros j Hj. apply list_elem_of_In in Hj. symmetry. apply Hpq; [by right|congruence].
  - assert (x <> i) by congruence.
    rewrite (Hpq x) by (done || left). specialize (IH Hi Hp Hq).
    destruct (q x); simpl; rewrite IH; try done; intros; apply Hpq; by try right.
Qed.

Lemma filter_none {A} (p : A -> bool) (l : list A) :
  (forall x, x ∈ l -> p x = false) -> List.filter p l = [].
Proof.
  induction l as [|x l IH]; intros H; [done|]. simpl. rewrite H by left.
  apply IH. intros. apply H. by right.
Qed.

Lemma filter_le_length {A} (p : A -> bool) (l : list A) :
  (length (List.filter p l) <= length l)%nat.
Proof. induction l as [|x l IH]; simpl; [done|]. destruct (p x); simpl; lia. Qed.

Lemma foldl_rev {A B} (f : A -> B -> A) (a : A) (l : list B) :
  foldl f a (rev l) = foldr (fun x acc => f acc x) a l.
Proof. induction l as [|x l IH]; [done|]. simpl. by rewrite foldl_app, IH. Qed.

Lemma map_eq_Forall {A B} (f g : A -> B) (l : list A) :
  map f l = map g l -> Forall (fun x => f x = g x) l.
Proof. induction l as [|x l IH]; intros H; [constructor|]. injection H as H1 H2. constructor; auto. Qed.

Lemma Ok_inj {A} (a b : A) : Ok a = Ok b -> a = b.
Proof. by intros [= ->]. Qed.
