(* ===== verification/Buffer.v ===== *)
(** Buffers: byte arrays accessed through a pointer and an offset, every access
    checked against the end of the array, and arrays filled from their start with
    a text, every character checked against their size. *)
From Stdlib Require Import ZArith Lia Ascii String.
From stdpp Require Import base tactics option numbers list.
From S2P Require Import Prelude.
#[local] Open Scope Z_scope.

(** The [n] bytes from [p + i]. *)
Definition slice (p : list Z) (i n : Z) : outcome (list Z) :=
  if (0 <=? i) && (0 <=? n) && (i + n <=? Z.of_nat (length p))
  then Ok (take (Z.to_nat n) (drop (Z.to_nat i) p)) else Stuck OutOfBounds.

(** The pointer [p + i]. *)
Definition from (p : list Z) (i : Z) : list Z := drop (Z.to_nat i) p.

(** Stores [data] at [p + i]. *)
Definition blit (p : list Z) (i : Z) (data : list Z) : outcome (list Z) :=
  if (0 <=? i) && (i + Z.of_nat (length data) <=? Z.of_nat (length p))
  then Ok (take (Z.to_nat i) p ++ data ++ drop (Z.to_nat i + length data) p) else Stuck OutOfBounds.

(** An array of [cap] characters filled from the front: its first characters
    are [b].  [b[pos++] = c] and the NUL that ends the text. *)
Definition put_char (cap : nat) (b : list Z) (c : Z) : outcome (list Z) :=
  if (length b <? cap)%nat then Ok (b ++ [c]) else Stuck OutOfBounds.
Definition end_text (cap : nat) (b : list Z) : outcome (list Z) :=
  if (length b <? cap)%nat then Ok b else Stuck OutOfBounds.

(** Characters go to [b[pos++]] up to the end of [s], one that [stop] names, or
    [pos + 1 == cap]: the characters
    of the array and what is left of [s]. *)
Fixpoint copy_until (stop : Z -> bool) (cap : nat) (b s : list Z) : outcome (list Z * list Z) :=
  match s with
  | [] => Ok (b, [])
  | c :: s' =>
    if negb (c =? 0) && negb (stop c) && (length b + 1 <? cap)%nat then
      b ← put_char cap b c; copy_until stop cap b s'
    else Ok (b, s)
  end.

(** The loop from the start of the array, and the NUL. *)
Definition copy_text (stop : Z -> bool) (cap : nat) (s : list Z) : outcome (list Z * list Z) :=
  '(b, s) ← copy_until stop cap [] s; b ← end_text cap b; Ok (b, s).

(** [l] stored from the front of an array of [cap] cells. *)
Definition fill_array {A} (cap : nat) (l : list A) : outcome (list A) :=
  if (length l <=? cap)%nat then Ok l else Stuck OutOfBounds.

(** [strncpy(dst, s, n); dst[n] = 0;] in an array of [cap] characters. *)
Definition strncpy_text (cap n : nat) (s : list Z) : outcome (list Z) :=
  if (n <? cap)%nat then Ok (take n s) else Stuck OutOfBounds.

(** All entries are bytes. *)
Definition bytes (l : list Z) : Prop := Forall is_u8 l.

(** * What an access inside the array gives *)

Lemma bytes_at l i : bytes l -> is_u8 (byte_at l i).
Proof.
  intros H. unfold byte_at. destruct (decide (i < length l)%nat) as [Hi|].
  - rewrite nth_lookup. destruct (lookup_lt_is_Some_2 l i Hi) as [x Hx]. rewrite Hx.
    by apply (Forall_lookup_1 _ _ _ _ H Hx).
  - rewrite nth_overflow by lia. unfold is_u8. lia.
Qed.

Lemma read_safe p i : bytes p -> 0 <= i < Z.of_nat (length p) -> succeeds (read p i) is_u8.
Proof. intros Hp Hi. rewrite read_ok by done. by apply succeeds_ret, bytes_at. Qed.

Lemma slice_safe p i n : bytes p -> 0 <= i -> 0 <= n -> i + n <= Z.of_nat (length p) ->
  succeeds (slice p i n) (fun l => length l = Z.to_nat n /\ bytes l).
Proof.
  intros Hp Hi Hn Hlen. unfold slice. rewrite (proj2 (andb_true_iff _ _)) by lia. apply succeeds_ret.
  split; [rewrite length_take, length_drop; lia|]. by apply Forall_take, Forall_drop.
Qed.

Lemma blit_safe p i d n : length p = n -> bytes p -> bytes d -> 0 <= i ->
  i + Z.of_nat (length d) <= Z.of_nat n -> succeeds (blit p i d) (fun p' => length p' = n /\ bytes p').
Proof.
  intros <- Hp Hd Hi Hlen. unfold blit. rewrite (proj2 (andb_true_iff _ _)) by lia. apply succeeds_ret.
  split; [rewrite !length_app, length_take, length_drop; lia|].
  apply Forall_app; split; [by apply Forall_take|]. apply Forall_app; split; [done|by apply Forall_drop].
Qed.

Lemma from_bytes p i : bytes p -> bytes (from p i).
Proof. apply Forall_drop. Qed.

Lemma from_length p i : 0 <= i -> Z.of_nat (length (from p i)) = Z.max 0 (Z.of_nat (length p) - i).
Proof. intros. unfold from. rewrite length_drop. lia. Qed.

Lemma blit_ok p i d : 0 <= i -> i + Z.of_nat (length d) <= Z.of_nat (length p) ->
  blit p i d = Ok (take (Z.to_nat i) p ++ d ++ drop (Z.to_nat i + length d) p).
Proof. intros. unfold blit. by rewrite (proj2 (andb_true_iff _ _)) by lia. Qed.

Lemma blit_app pre old post i d : i = Z.of_nat (length pre) -> length old = length d ->
  blit (pre ++ old ++ post) i d = Ok (pre ++ d ++ post).
Proof.
  intros -> Hd. rewrite blit_ok by (rewrite ?length_app; lia).
  rewrite Nat2Z.id, take_app_length, <- Hd.
  rewrite !drop_app_ge by lia. by replace (_ - _ - _)%nat with 0%nat by lia.
Qed.

Lemma read_at pre c post i : Z.of_nat (length pre) = i -> read (pre ++ c :: post) i = Ok c.
Proof.
  intros <-. rewrite read_ok by (rewrite length_app; simpl; lia).
  by rewrite Nat2Z.id, byte_at_app_r, Nat.sub_diag by lia.
Qed.

Lemma slice_at pre l post i n : Z.of_nat (length pre) = i -> Z.of_nat (length l) = n ->
  slice (pre ++ l ++ post) i n = Ok l.
Proof.
  intros <- <-. unfold slice. rewrite !length_app. zdec. cbn [andb].
  by rewrite !Nat2Z.id, drop_app_length, take_app_length.
Qed.

Lemma from_at pre l i : Z.of_nat (length pre) = i -> from (pre ++ l) i = l.
Proof. intros <-. unfold from. by rewrite Nat2Z.id, drop_app_length. Qed.

(** * Filling an array *)

Lemma put_char_ok cap b c : (length b < cap)%nat -> put_char cap b c = Ok (b ++ [c]).
Proof. intros H. unfold put_char. by rewrite (proj2 (Nat.ltb_lt _ _)). Qed.

Lemma end_text_ok cap b : (length b < cap)%nat -> end_text cap b = Ok b.
Proof. intros H. unfold end_text. by rewrite (proj2 (Nat.ltb_lt _ _)). Qed.

Lemma copy_until_ok stop cap s : forall b, (length b < cap)%nat ->
  succeeds (copy_until stop cap b s) (fun r => (length r.1 < cap)%nat).
Proof.
  induction s as [|c s IH]; intros b Hb; cbn [copy_until]; [by apply succeeds_ret|].
  destruct (_ && negb (stop c)); [|by apply succeeds_ret]. cbn [andb].
  destruct (Nat.ltb_spec (length b + 1) cap) as [H|H]; [|by apply succeeds_ret].
  rewrite put_char_ok by lia. apply IH. rewrite length_app. cbn. lia.
Qed.

Lemma copy_text_ok stop cap s : (0 < cap)%nat -> succeeds (copy_text stop cap s) (fun r => (length r.1 < cap)%nat).
Proof.
  intros Hc. unfold copy_text. eapply succeeds_bind; [by apply copy_until_ok|]. intros [b s'] Hb. cbn [fst] in Hb.
  rewrite end_text_ok by done. by apply succeeds_ret.
Qed.

Lemma fill_array_ok {A} cap (l : list A) : (length l <= cap)%nat -> fill_array cap l = Ok l.
Proof. intros H. unfold fill_array. by rewrite (proj2 (Nat.leb_le _ _)). Qed.

Lemma strncpy_text_ok cap n s : (n < cap)%nat -> strncpy_text cap n s = Ok (take n s).
Proof. intros H. unfold strncpy_text. by rewrite (proj2 (Nat.ltb_lt _ _)). Qed.
