(* ===== verification/CString.v ===== *)
(** The freestanding C library of the kernel, src/src/lib/string.c.

    Functions that only read work on string views (lists of bytes, see
    Prelude); functions that write work on a byte-addressed memory, so that
    overlap and aliasing are part of the model; the tokenizer works on the
    buffer it cuts, with pointers as offsets.  Sizes ([size_t]) and offsets
    inside an object are [nat]. *)
From Stdlib Require Import ZArith Lia Ascii String.
From stdpp Require Import base tactics option numbers list.
From S2P Require Import Prelude.
#[local] Open Scope Z_scope.

(** * Reading functions *)

Fixpoint strlen (s : list Z) : nat :=
  match s with
  | [] => 0%nat
  | c :: s' => if c =? 0 then 0%nat else S (strlen s')
  end.

Fixpoint strnlen (s : list Z) (max_len : nat) : nat :=
  match max_len with
  | O => 0%nat
  | S k => if hd0 s =? 0 then 0%nat else S (strnlen (tl0 s) k)
  end.

Fixpoint strcmp (a b : list Z) : Z :=
  match a with
  | [] => 0 - hd0 b
  | c :: a' =>
    if negb (c =? 0) && (c =? hd0 b) then strcmp a' (tl0 b) else c - hd0 b
  end.

Fixpoint strncmp (a b : list Z) (n : nat) : Z :=
  match n with
  | O => 0
  | S k =>
    if negb (hd0 a =? 0) && (hd0 a =? hd0 b) then strncmp (tl0 a) (tl0 b) k
    else hd0 a - hd0 b
  end.

Fixpoint memcmp (a b : list Z) (n : nat) : Z :=
  match n with
  | O => 0
  | S k => if negb (hd0 a =? hd0 b) then hd0 a - hd0 b else memcmp (tl0 a) (tl0 b) k
  end.

(** Returns the offset of the match, [None] for NULL. *)
Fixpoint strchr (s : list Z) (c : Z) : option nat :=
  match s with
  | [] => if 0 =? u8 c then Some 0%nat else None
  | x :: s' =>
    if x =? u8 c then Some 0%nat
    else if x =? 0 then None
    else S <$> strchr s' c
  end.

Fixpoint strstr_loop (hay needle : list Z) (needle_len : nat) : option nat :=
  match hay with
  | [] => None
  | x :: hay' =>
    if x =? 0 then None
    else if strncmp hay needle needle_len =? 0 then Some 0%nat
    else S <$> strstr_loop hay' needle needle_len
  end.

Definition strstr (haystack needle : option (list Z)) : option nat :=
  match haystack, needle with
  | Some h, Some n =>
    if (strlen n =? 0)%nat then Some 0%nat else strstr_loop h n (strlen n)
  | _, _ => None
  end.

Fixpoint is_delim_char (c : Z) (delim : list Z) : bool :=
  match delim with
  | [] => false
  | d :: delim' => if d =? 0 then false else if c =? d then true else is_delim_char c delim'
  end.

(** * The tokenizer

    [buf] is the buffer that [str] and [*saveptr] point into. *)

Fixpoint skip_while (f : Z -> bool) (l : list Z) : nat :=
  match l with
  | [] => 0%nat
  | c :: l' => if negb (c =? 0) && f c then S (skip_while f l') else 0%nat
  end.

Definition strtok_r (buf : list Z) (str : option nat) (delim : option (list Z))
    (saveptr : option nat) : option nat * list Z * option nat :=
  let delim := match delim with
               | Some d => if hd0 d =? 0 then bs " " else d
               | None => bs " "
               end in
  match (match str with Some p => Some p | None => saveptr end) with
  | None => (None, buf, saveptr)
  | Some p0 =>
    let p := (p0 + skip_while (fun c => is_delim_char c delim) (drop p0 buf))%nat in
    if byte_at buf p =? 0 then (None, buf, Some p)
    else
      let q := (p + skip_while (fun c => negb (is_delim_char c delim)) (drop p buf))%nat in
      if byte_at buf q =? 0 then (Some p, buf, Some q)
      else (Some p, <[q := 0]> buf, Some (S q))
  end.

(** [strtok]: the save pointer is a static variable. *)
Definition strtok (buf : list Z) (str : option nat) (delim : option (list Z))
    (state : option nat) : option nat * list Z * option nat :=
  strtok_r buf str delim state.

(** * Number formatting *)

(** The digits of the [do ... while] loop, least significant first; [room]
    is what is left of [char tmp[34]]. *)
Fixpoint tmp_digits (room : nat) (uval base : Z) : outcome (list Z) :=
  match room with
  | O => Stuck OutOfBounds
  | S room' =>
    if base =? 0 then Stuck Trap
    else
      let d := i32 (uval mod base) in
      let c := u8 (if d <? 10 then ch "0" + d else ch "A" + d - 10) in
      let uval' := uval / base in
      if uval' =? 0 then Ok [c]
      else rest ← tmp_digits room' uval' base; Ok (c :: rest)
  end.

(** The text left in [buf], without its NUL. *)
Definition utoa (value base : Z) : outcome (list Z) :=
  tmp ← tmp_digits 34 (u32 value) (u32 base);
  Ok (rev tmp).

Definition itoa (value base : Z) : outcome (list Z) :=
  let neg := (value <? 0) && (base =? 10) in
  let value' := if neg then i32 (- value) else value in
  tmp ← tmp_digits 34 (u32 value') (u32 base);
  if neg then
    (if (length tmp <? 34)%nat then Ok (ch "-" :: rev tmp) else Stuck OutOfBounds)
  else Ok (rev tmp).

(** The text a caller finds in its buffer. *)
Definition text (o : outcome (list Z)) : list Z :=
  match o with Ok l => l | Stuck _ => [] end.
Definition utoa_text (value base : Z) : list Z := text (utoa value base).
Definition itoa_text (value base : Z) : list Z := text (itoa value base).

(** [itoa(value, buf, 10)] and [utoa(value, buf, base)] into an array of [room]
    characters. *)
Definition itoa_into (room value : Z) : outcome (list Z) :=
  let s := itoa_text value 10 in
  if Z.of_nat (length s) + 1 <=? room then Ok s else Stuck OutOfBounds.
Definition utoa_into (room value base : Z) : outcome (list Z) :=
  let s := utoa_text value base in
  if Z.of_nat (length s) + 1 <=? room then Ok s else Stuck OutOfBounds.

(** * Writing functions *)

(** Memory: one byte per address. *)
Definition mem := Z -> Z.
Definition upd (m : mem) (a v : Z) : mem := fun x => if x =? a then u8 v else m x.

Fixpoint memset (m : mem) (dst val : Z) (n : nat) : mem :=
  match n with
  | O => m
  | S k => memset (upd m dst val) (dst + 1) val k
  end.

(** [*dw++ = *sw++] on [uint32_t *]: the whole word is read before it is
    written. *)
Definition load32 (m : mem) (a : Z) : Z :=
  m a + 256 * m (a + 1) + 65536 * m (a + 2) + 16777216 * m (a + 3).
Definition store32 (m : mem) (a w : Z) : mem :=
  upd (upd (upd (upd m a w) (a + 1) (w / 256)) (a + 2) (w / 65536)) (a + 3) (w / 16777216).

Fixpoint copy_bytes (m : mem) (d s : Z) (n : nat) : mem :=
  match n with
  | O => m
  | S k => copy_bytes (upd m d (m s)) (d + 1) (s + 1) k
  end.

Fixpoint copy_until_aligned (m : mem) (d s : Z) (n : nat) : mem * Z * Z * nat :=
  match n with
  | O => (m, d, s, O)
  | S k =>
    if negb (Z.land d 3 =? 0) || negb (Z.land s 3 =? 0)
    then copy_until_aligned (upd m d (m s)) (d + 1) (s + 1) k
    else (m, d, s, n)
  end.

Fixpoint copy_words (m : mem) (d s : Z) (n : nat) : mem * Z * Z * nat :=
  match n with
  | S (S (S (S k))) => copy_words (store32 m d (load32 m s)) (d + 4) (s + 4) k
  | _ => (m, d, s, n)
  end.

Definition memcpy (m : mem) (dst src : Z) (n : nat) : mem :=
  if (dst =? src) || (n =? 0)%nat then m
  else
    let '(m1, d1, s1, n1) := copy_until_aligned m dst src n in
    let '(m2, d2, s2, n2) := copy_words m1 d1 s1 n1 in
    copy_bytes m2 d2 s2 n2.

(** [while (n--) *--d = *--s], with [d] and [s] one past the end. *)
Fixpoint copy_backward (m : mem) (d s : Z) (n : nat) : mem :=
  match n with
  | O => m
  | S k => copy_backward (upd m (d - 1) (m (s - 1))) (d - 1) (s - 1) k
  end.

Definition memmove (m : mem) (dst src : Z) (n : nat) : mem :=
  if (dst =? src) || (n =? 0)%nat then m
  else if (dst <? src) || (src + Z.of_nat n <=? dst) then memcpy m dst src n
  else copy_backward m (dst + Z.of_nat n) (src + Z.of_nat n) n.

(** Copies up to and including the first NUL. *)
Definition strcpy (fuel : nat) (m : mem) (dst src : Z) : outcome mem :=
  cloop fuel (fun '(m, d, s) =>
    let m' := upd m d (m s) in
    Ok (if u8 (m s) =? 0 then inr m' else inl (m', d + 1, s + 1)))
    (m, dst, src).

Definition str_end (fuel : nat) (m : mem) (d : Z) : outcome Z :=
  cloop fuel (fun d => Ok (if m d =? 0 then inr d else inl (d + 1))) d.

Definition strcat (fuel : nat) (m : mem) (dst src : Z) : outcome mem :=
  d ← str_end fuel m dst;
  strcpy fuel m d src.

Fixpoint strncpy_pad (m : mem) (d : Z) (n : nat) : mem :=
  match n with
  | O => m
  | S k => strncpy_pad (upd m d 0) (d + 1) k
  end.

Fixpoint strncpy (m : mem) (dst src : Z) (n : nat) : mem :=
  match n with
  | O => m
  | S k =>
    if m src =? 0 then strncpy_pad m dst n
    else strncpy (upd m dst (m src)) (dst + 1) (src + 1) k
  end.

(** * Memory functions: what they leave in memory *)

Definition bytes_ok (m : mem) : Prop := forall a, is_u8 (m a).

(** [m'] is [m] with [n] bytes of the original [m0] copied from [src]. *)
Definition copied (m0 m' : mem) (dst src : Z) (n : nat) : Prop :=
  forall a, m' a = if (dst <=? a) && (a <? dst + Z.of_nat n)
                   then m0 (src + (a - dst)) else m0 a.

Lemma upd_ok m a v : bytes_ok m -> bytes_ok (upd m a v).
Proof. intros H x. unfold upd. zcases; [apply u8_range | apply H]. Qed.

Lemma copied_0 m dst src : copied m m dst src 0.
Proof. intros a. zcases; lia || done. Qed.

Lemma copied_ok m m' dst src n : bytes_ok m -> copied m m' dst src n -> bytes_ok m'.
Proof. intros Hm Hc a. rewrite Hc. by case_match. Qed.

(** The direction a forward copy can handle. *)
Definition forward_safe (dst src : Z) (n : nat) : Prop :=
  dst < src \/ src + Z.of_nat n <= dst.

(** One more byte at the end of the region copied so far. *)
Lemma copied_snoc m0 m dst src k n :
  bytes_ok m0 -> forward_safe dst src n -> (k < n)%nat ->
  copied m0 m dst src k ->
  copied m0 (upd m (dst + Z.of_nat k) (m (src + Z.of_nat k))) dst src (S k).
Proof.
  intros Hok Hfs Hk Hc a. unfold upd.
  destruct (Z.eqb_spec a (dst + Z.of_nat k)) as [->|Hne].
  - unfold forward_safe in Hfs. rewrite Hc.
    rewrite u8_small by (case_match; apply Hok).
    zcases; try lia; f_equal; lia.
  - rewrite Hc. zcases; lia || done.
Qed.

Lemma u8_div_mod b0 b1 b2 b3 :
  is_u8 b0 -> is_u8 b1 -> is_u8 b2 -> is_u8 b3 ->
  let w := b0 + 256 * b1 + 65536 * b2 + 16777216 * b3 in
  u8 w = b0 /\ u8 (w / 256) = b1 /\ u8 (w / 65536) = b2 /\ u8 (w / 16777216) = b3.
Proof. words. Qed.

(** A word store of a loaded word is four byte copies, when the later source
    bytes are not overwritten by the earlier stores. *)
Lemma store32_load32 m d s :
  bytes_ok m -> forall a, store32 m d (load32 m s) a =
    if (d <=? a) && (a <? d + 4) then m (s + (a - d)) else m a.
Proof.
  intros Hok a. unfold store32, load32.
  destruct (u8_div_mod (m s) (m (s + 1)) (m (s + 2)) (m (s + 3))) as (E0 & E1 & E2 & E3);
    try apply Hok.
  unfold upd. zcases; try lia; rewrite ?E0, ?E1, ?E2, ?E3; f_equal; lia.
Qed.

Lemma copied_word m0 m dst src k n :
  bytes_ok m0 -> forward_safe dst src n -> (k + 4 <= n)%nat ->
  copied m0 m dst src k ->
  copied m0 (store32 m (dst + Z.of_nat k) (load32 m (src + Z.of_nat k))) dst src (k + 4).
Proof.
  intros Hok Hfs Hk Hc a. rewrite store32_load32 by (eapply copied_ok; eauto).
  unfold forward_safe in Hfs. rewrite !Hc.
  zcases; try lia; try done; f_equal; lia.
Qed.

Section forward.
Context (m0 : mem) (dst src : Z) (n : nat).
Context (Hok : bytes_ok m0) (Hfs : forward_safe dst src n).

Lemma copy_bytes_copied j k m :
  (k + j = n)%nat -> copied m0 m dst src k ->
  copied m0 (copy_bytes m (dst + Z.of_nat k) (src + Z.of_nat k) j) dst src n.
Proof using Hok Hfs.
  revert k m. induction j as [|j IH]; intros k m Hj Hc; simpl.
  - by replace n with k by lia.
  - replace (dst + Z.of_nat k + 1) with (dst + Z.of_nat (S k)) by lia.
    replace (src + Z.of_nat k + 1) with (src + Z.of_nat (S k)) by lia.
    apply IH; [lia|]. eapply copied_snoc; eauto. lia.
Qed.

(** The state a copy phase leaves: the bytes done and those to do. *)
Definition copy_state (x : mem * Z * Z * nat) : Prop :=
  let '(m, d, s, j) := x in
  exists k, (k + j = n)%nat /\ d = dst + Z.of_nat k /\ s = src + Z.of_nat k
            /\ copied m0 m dst src k.

Lemma copy_until_aligned_state j k m :
  (k + j = n)%nat -> copied m0 m dst src k ->
  copy_state (copy_until_aligned m (dst + Z.of_nat k) (src + Z.of_nat k) j).
Proof using Hok Hfs.
  revert k m. induction j as [|j IH]; intros k m Hj Hc; simpl; [by exists k|].
  case_match; [|by exists k].
  replace (dst + Z.of_nat k + 1) with (dst + Z.of_nat (S k)) by lia.
  replace (src + Z.of_nat k + 1) with (src + Z.of_nat (S k)) by lia.
  apply IH; [lia|]. eapply copied_snoc; eauto. lia.
Qed.

Lemma copy_words_state j : forall k m,
  (k + j = n)%nat -> copied m0 m dst src k ->
  copy_state (copy_words m (dst + Z.of_nat k) (src + Z.of_nat k) j).
Proof using Hok Hfs.
  induction j as [j IH] using lt_wf_ind; intros k m Hj Hc.
  destruct j as [|[|[|[|j]]]]; simpl; try by exists k.
  replace (dst + Z.of_nat k + 4) with (dst + Z.of_nat (k + 4)) by lia.
  replace (src + Z.of_nat k + 4) with (src + Z.of_nat (k + 4)) by lia.
  apply IH; [lia|lia|]. eapply copied_word; eauto. lia.
Qed.

Lemma memcpy_copied : copied m0 (memcpy m0 dst src n) dst src n.
Proof using Hok Hfs.
  unfold memcpy. destruct (Z.eqb_spec dst src) as [->|Hne].
  { intros a. simpl. zcases; try done. f_equal. lia. }
  destruct (Nat.eqb_spec n 0) as [->|Hn]; simpl; [apply copied_0|].
  pose proof (copy_until_aligned_state n 0 m0 ltac:(lia) (copied_0 _ _ _)) as H1.
  rewrite !Z.add_0_r in H1.
  destruct (copy_until_aligned m0 dst src n) as [[[m1 d1] s1] n1].
  destruct H1 as (k1 & Hk1 & -> & -> & H1).
  pose proof (copy_words_state n1 k1 m1 Hk1 H1) as H2.
  destruct (copy_words m1 _ _ n1) as [[[m2 d2] s2] n2].
  destruct H2 as (k2 & Hk2 & -> & -> & H2).
  by apply copy_bytes_copied.
Qed.
End forward.

Lemma copy_backward_copied m0 dst src n :
  bytes_ok m0 -> src < dst -> forall j m,
  (j <= n)%nat ->
  (forall a, m a = if (dst + Z.of_nat j <=? a) && (a <? dst + Z.of_nat n)
                   then m0 (src + (a - dst)) else m0 a) ->
  copied m0 (copy_backward m (dst + Z.of_nat j) (src + Z.of_nat j) j) dst src n.
Proof.
  intros Hok Hlt. induction j as [|j IH]; intros m Hj Hm; simpl.
  - intros a. rewrite Hm. by rewrite Z.add_0_r.
  - replace (dst + Z.of_nat (S j) - 1) with (dst + Z.of_nat j) by lia.
    replace (src + Z.of_nat (S j) - 1) with (src + Z.of_nat j) by lia.
    apply IH; [lia|]. intros a. unfold upd.
    destruct (Z.eqb_spec a (dst + Z.of_nat j)) as [->|Hne].
    + rewrite Hm, u8_small by (case_match; apply Hok).
      zcases; try lia; f_equal; lia.
    + rewrite Hm. zcases; lia || done.
Qed.

Lemma memmove_copied m dst src n :
  bytes_ok m -> copied m (memmove m dst src n) dst src n.
Proof.
  intros Hok. unfold memmove.
  destruct (Z.eqb_spec dst src) as [->|Hne]; simpl.
  { intros a. zcases; try done. f_equal. lia. }
  destruct (Nat.eqb_spec n 0) as [->|Hn]; simpl; [apply copied_0|].
  destruct ((dst <? src) || (src + Z.of_nat n <=? dst)) eqn:Hdir.
  - apply memcpy_copied; [done|]. unfold forward_safe. lia.
  - apply copy_backward_copied; [done|lia|lia|]. intros a. zcases; lia || done.
Qed.

(** * C strings in memory *)

Definition cstr (m : mem) (p : Z) (s : list Z) : Prop :=
  (forall i c, s !! i = Some c -> m (p + Z.of_nat i) = c) /\
  m (p + Z.of_nat (length s)) = 0 /\ nul_free s.

Lemma cstr_nonzero m p s i :
  cstr m p s -> (i < length s)%nat -> m (p + Z.of_nat i) <> 0.
Proof.
  intros (Hs & _ & Hn) Hi. destruct (lookup_lt_is_Some_2 s i Hi) as [c Hc].
  rewrite (Hs _ _ Hc). eapply Forall_lookup_1 in Hn; eauto.
Qed.

Lemma cstr_copied m m' dst src s :
  cstr m src s -> copied m m' dst src (S (length s)) -> cstr m' dst s.
Proof.
  intros (Hs & H0 & Hn) Hc. split; [|split]; [| |done].
  - intros i c Hi. pose proof (lookup_lt_Some _ _ _ Hi). rewrite Hc.
    zcases; try lia. rewrite <- (Hs _ _ Hi). f_equal. lia.
  - rewrite Hc. zcases; try lia. rewrite <- H0. f_equal. lia.
Qed.

Lemma strcpy_copied fuel m dst src s :
  bytes_ok m -> cstr m src s -> forward_safe dst src (S (length s)) ->
  (length s < fuel)%nat ->
  succeeds (strcpy fuel m dst src) (fun m' => copied m m' dst src (S (length s))).
Proof.
  intros Hok Hs Hfs Hfuel. unfold strcpy.
  apply (cloop_total _ (fun '(m', d, s') => exists k, (k <= length s)%nat /\
      d = dst + Z.of_nat k /\ s' = src + Z.of_nat k /\ copied m m' dst src k)
    _ (fun '(_, d, _) => Z.to_nat (Z.of_nat (length s) - (d - dst)))).
  - intros [[m1 d1] s1] (k & Hk & -> & -> & Hc). apply succeeds_ret.
    assert (E : m1 (src + Z.of_nat k) = m (src + Z.of_nat k)).
    { rewrite Hc. unfold forward_safe in Hfs. zcases; lia || done. }
    rewrite u8_small by (rewrite E; apply Hok).
    pose proof (copied_snoc m m1 dst src k (S (length s)) Hok Hfs ltac:(lia) Hc) as Hc'.
    destruct (Z.eqb_spec (m1 (src + Z.of_nat k)) 0) as [E0|E0].
    + enough (k = length s) as <- by done.
      destruct (Nat.lt_ge_cases k (length s)); [|lia].
      exfalso. by eapply cstr_nonzero; [| |rewrite <- E].
    + assert (k <> length s) by (intros ->; destruct Hs as (_ & Hz & _); congruence).
      split; [exists (S k)|]; try lia. split; [lia|]. split; [lia|]. by split; [lia|].
  - exists 0%nat. rewrite !Z.add_0_r. split; [lia|]. split; [done|]. split; [done|]. apply copied_0.
  - lia.
Qed.

Lemma str_end_spec fuel m p s :
  cstr m p s -> (length s < fuel)%nat ->
  str_end fuel m p = Ok (p + Z.of_nat (length s)).
Proof.
  intros Hs Hf. unfold str_end.
  destruct (cloop_total (fun d => Ok (if m d =? 0 then inr d else inl (d + 1)))
    (fun d => exists k, (k <= length s)%nat /\ d = p + Z.of_nat k)
    (fun d => d = p + Z.of_nat (length s))
    (fun d => Z.to_nat (p + Z.of_nat (length s) - d))) with (fuel := fuel) (s := p)
    as (d & -> & ->); [| |lia|done].
  - intros d (k & Hk & ->). apply succeeds_ret.
    destruct (Z.eqb_spec (m (p + Z.of_nat k)) 0) as [E|E].
    + destruct (Nat.lt_ge_cases k (length s)); [|do 2 f_equal; lia].
      exfalso. by eapply cstr_nonzero.
    + assert (k <> length s) by (intros ->; destruct Hs as (_ & Hz & _); congruence).
      split; [exists (S k)|]; lia.
  - exists 0%nat. lia.
Qed.

Lemma cstr_app m p s t :
  (forall i c, s !! i = Some c -> m (p + Z.of_nat i) = c) -> nul_free s ->
  cstr m (p + Z.of_nat (length s)) t -> cstr m p (s ++ t).
Proof.
  intros Hs Hn (Ht & H0 & Htn). split; [|split].
  - intros i c Hi. apply lookup_app_Some in Hi as [Hi|[Hge Hi]]; [by apply Hs|].
    rewrite <- (Ht _ _ Hi). f_equal. lia.
  - rewrite length_app. rewrite <- H0. f_equal. lia.
  - by apply Forall_app.
Qed.

(** * Comparison and search *)

Lemma hd0_cons c s : hd0 (c :: s) = c.
Proof. done. Qed.

Lemma strlen_nul_free s : nul_free s -> strlen s = length s.
Proof.
  induction 1 as [|c s Hc _ IH]; [done|]. simpl.
  destruct (Z.eqb_spec c 0); [done|]. by rewrite IH.
Qed.

Lemma strcmp_eq a b : nul_free a -> nul_free b -> strcmp a b = 0 <-> a = b.
Proof.
  intros Ha. revert b. induction Ha as [|c a Hc _ IH]; intros b Hb.
  - simpl. destruct Hb as [|d b Hd _]; unfold hd0, byte_at; simpl; [done|].
    split; [lia|done].
  - simpl. destruct (Z.eqb_spec c 0) as [|_]; [done|]. simpl.
    destruct Hb as [|d b Hd Hb]; unfold hd0, byte_at; simpl.
    + destruct (Z.eqb_spec c 0); [done|]. split; [lia|done].
    + destruct (Z.eqb_spec c d) as [->|Hne].
      * unfold tl0; simpl. rewrite (IH _ Hb). split; [by intros ->|by intros [=]].
      * split; [lia|]. intros [=]. lia.
Qed.

Lemma strncmp_prefix a b n :
  nul_free a -> nul_free b -> n = length b -> strncmp a b n = 0 <-> b `prefix_of` a.
Proof.
  intros Ha Hb. revert a b Ha Hb. induction n as [|n IH]; intros a b Ha Hb Hlen.
  - destruct b; [|done]. simpl. split; [intros; apply prefix_nil|done].
  - destruct Hb as [|d b Hd Hb]; [done|]. simpl.
    destruct Ha as [|c a Hc Ha]; unfold hd0, byte_at; simpl.
    + split; [lia|]. intros [k Hk]. done.
    + destruct (Z.eqb_spec c 0); [done|]. simpl.
      destruct (Z.eqb_spec c d) as [->|Hne].
      * unfold tl0; simpl. rewrite IH; [|done|done|by simpl in Hlen; lia].
        split; [apply prefix_cons|apply prefix_cons_inv_2].
      * split; [lia|]. intros Hp. apply prefix_cons_inv_1 in Hp. lia.
Qed.

(** [i] is the first position at which [n] occurs in [h]. *)
Definition first_occurrence (n h : list Z) (i : nat) : Prop :=
  n `prefix_of` drop i h /\ (i <= length h)%nat /\
  forall j, (j < i)%nat -> ~ n `prefix_of` drop j h.

Definition no_occurrence (n h : list Z) : Prop := forall j, ~ n `prefix_of` drop j h.

Lemma strstr_loop_spec h n :
  nul_free h -> nul_free n -> n <> [] ->
  match strstr_loop h n (length n) with
  | Some i => first_occurrence n h i
  | None => no_occurrence n h
  end.
Proof.
  intros Hh Hn Hne. induction Hh as [|c h Hc Hh IH]; simpl.
  - intros j Hp. rewrite drop_nil in Hp. by apply prefix_nil_inv in Hp.
  - destruct (Z.eqb_spec c 0); [done|].
    pose proof (strncmp_prefix (c :: h) n _ ltac:(by constructor) Hn eq_refl) as Hcmp.
    destruct (Z.eqb_spec (strncmp (c :: h) n (length n)) 0) as [E|E].
    + split; [by apply Hcmp|]. split; [lia|]. intros j. lia.
    + assert (~ n `prefix_of` c :: h) as H0 by tauto.
      destruct (strstr_loop h n (length n)) as [i|]; simpl.
      * destruct IH as (Hp & Hle & Hfirst). split; [done|]. split; [simpl; lia|].
        intros [|j] Hj; [done|]. apply Hfirst. lia.
      * intros [|j]; [done|]. apply IH.
Qed.

Lemma strchr_spec s c :
  nul_free s -> is_u8 c -> c <> 0 ->
  match strchr s c with
  | Some i => s !! i = Some c /\ Forall (fun x => x <> c) (take i s)
  | None => Forall (fun x => x <> c) s
  end.
Proof.
  intros Hs Hc Hc0. induction Hs as [|x s Hx Hs IH]; cbn [strchr]; rewrite !u8_small by done.
  - destruct (Z.eqb_spec 0 c); [lia|constructor].
  - destruct (Z.eqb_spec x c) as [->|Hne]; [by split|].
    destruct (Z.eqb_spec x 0); [done|].
    destruct (strchr s c) as [i|]; simpl; [|by constructor].
    destruct IH. split; [done|by constructor].
Qed.

(** * Text in a fixed buffer *)

(** The string a [char] array holds. *)
Definition buf_text (b : list Z) : list Z := take (strlen b) b.

Lemma buf_text_app s k : nul_free s -> buf_text (s ++ 0 :: k) = s.
Proof.
  unfold buf_text. induction 1 as [|c s Hc _ IH]; simpl; [done|].
  destruct (Z.eqb_spec c 0); [done|]. simpl. by rewrite IH.
Qed.

Lemma strlen_app_nul s k : nul_free s -> strlen (s ++ 0 :: k) = length s.
Proof.
  induction 1 as [|c s Hc _ IH]; simpl; [done|].
  destruct (Z.eqb_spec c 0); [done|]. by rewrite IH.
Qed.

(** * Number formatting: what the text means *)

(** The value of a digit character and of a digit string in a base. *)
Definition digit_value (c : Z) : Z := if c <=? ch "9" then c - ch "0" else c - ch "A" + 10.
Definition number_of (base : Z) (s : list Z) : Z :=
  foldl (fun acc c => acc * base + digit_value c) 0 s.
(** Least significant digit first. *)
Definition number_rev (base : Z) (s : list Z) : Z :=
  foldr (fun c acc => acc * base + digit_value c) 0 s.

Definition is_digit_char (base c : Z) : Prop :=
  0 <= digit_value c < base /\ (ch "0" <= c <= ch "9" \/ ch "A" <= c <= ch "Z").

Lemma number_of_rev base s : number_of base (rev s) = number_rev base s.
Proof. apply foldl_rev. Qed.

Lemma digit_char d base :
  0 <= d < base -> base <= 36 ->
  let c := u8 (if d <? 10 then ch "0" + d else ch "A" + d - 10) in
  digit_value c = d /\ is_digit_char base c.
Proof.
  intros Hd Hb c. subst c. unfold is_digit_char, digit_value. chars.
  destruct (Z.ltb_spec d 10); rewrite u8_small by words; zcases; lia.
Qed.

Lemma tmp_digits_spec base room : forall k v,
  2 <= base <= 36 -> (k < room)%nat -> 0 <= v < base ^ Z.of_nat (S k) ->
  exists l, tmp_digits room v base = Ok l /\ number_rev base l = v /\
    (0 < length l <= S k)%nat /\ Forall (is_digit_char base) l.
Proof.
  induction room as [|room IH]; intros k v Hb Hk Hv; [lia|]. simpl.
  destruct (Z.eqb_spec base 0); [lia|].
  pose proof (Z.mod_pos_bound v base ltac:(lia)) as Hmod.
  rewrite (i32_small (v mod base)) by words.
  destruct (digit_char (v mod base) base Hmod ltac:(lia)) as [Hdv Hdc].
  set (c := u8 _) in *.
  destruct (Z.eqb_spec (v / base) 0) as [E|E].
  - exists [c]. split; [done|]. unfold number_rev; simpl.
    split; [pose proof (Z.div_mod v base); lia|]. split; [lia|by constructor].
  - destruct k as [|k].
    { exfalso. apply E. rewrite Z.pow_1_r in Hv. by apply Z.div_small. }
    destruct (IH k (v / base) Hb ltac:(lia)) as (l & -> & Hl & Hlen & Hf).
    { split; [apply Z.div_pos; lia|]. apply Z.div_lt_upper_bound; [lia|].
      rewrite (Nat2Z.inj_succ (S k)), Z.pow_succ_r in Hv by lia. lia. }
    exists (c :: l). split; [done|]. unfold number_rev in *; simpl. rewrite Hl, Hdv.
    split; [pose proof (Z.div_mod v base); lia|]. split; [lia|by constructor].
Qed.

Lemma utoa_spec base k v :
  2 <= base <= 36 -> (k < 34)%nat -> is_u32 v -> v < base ^ Z.of_nat (S k) ->
  exists s, utoa v base = Ok s /\ number_of base s = v /\
    (0 < length s <= S k)%nat /\ Forall (is_digit_char base) s.
Proof.
  intros Hb Hk Hv Hlt. unfold utoa. rewrite !u32_small by words.
  destruct (tmp_digits_spec base 34 k v Hb Hk ltac:(words)) as (l & -> & Hl & Hlen & Hf).
  exists (rev l). split; [done|]. rewrite number_of_rev, length_rev.
  split; [done|]. split; [done|]. by apply Forall_rev.
Qed.

(** Reads a decimal number with an optional minus sign. *)
Definition read_int (s : list Z) : Z :=
  match s with
  | c :: s' => if c =? ch "-" then - number_of 10 s' else number_of 10 s
  | [] => 0
  end.

Lemma itoa_spec v :
  is_i32 v -> exists s, itoa v 10 = Ok s /\ read_int s = v /\ (0 < length s <= 11)%nat /\
    Forall (fun c => c = ch "-" \/ is_digit_char 10 c) s.
Proof.
  intros Hv. unfold itoa. rewrite Z.eqb_refl, andb_true_r.
  set (v' := if v <? 0 then i32 (- v) else v).
  assert (Hu : u32 v' = Z.abs v).
  { unfold v'. destruct (Z.ltb_spec v 0); words. }
  rewrite Hu, u32_small by words.
  destruct (tmp_digits_spec 10 34 9 (Z.abs v)) as (l & -> & Hl & Hlen & Hf);
    [lia|lia|words|]. simpl.
  destruct (Z.ltb_spec v 0).
  - destruct (Nat.ltb_spec (length l) 34); [|lia].
    exists (ch "-" :: rev l). split; [done|]. simpl. rewrite number_of_rev, length_rev.
    split; [lia|]. split; [lia|]. constructor; [by left|].
    apply Forall_rev. eapply Forall_impl; [exact Hf|]. intros; by right.
  - exists (rev l). split; [done|]. rewrite length_rev. split.
    + assert (Hh : forall s, s <> [] -> Forall (is_digit_char 10) s -> read_int s = number_of 10 s).
      { intros [|c s] Hs Hc; [done|]. simpl. apply Forall_cons in Hc as [Hc _].
        destruct (Z.eqb_spec c (ch "-")) as [->|]; [|done].
        unfold is_digit_char in Hc. revert Hc. chars. lia. }
      rewrite Hh, number_of_rev; [lia| |by apply Forall_rev].
      intros E. apply (f_equal length) in E. rewrite length_rev in E. simpl in E. lia.
    + split; [lia|]. apply Forall_rev. eapply Forall_impl; [exact Hf|]. intros; by right.
Qed.

Lemma itoa_into_ok room v : is_i32 v -> 12 <= room -> itoa_into room v = Ok (itoa_text v 10).
Proof.
  intros Hv Hr. destruct (itoa_spec v Hv) as (s & E & _ & Hl & _). unfold itoa_into, itoa_text. rewrite E. cbn [text].
  by rewrite (proj2 (Z.leb_le _ _)) by lia.
Qed.

Lemma utoa_into_ok room v base : is_u32 v -> base = 10 \/ base = 16 -> 11 <= room -> utoa_into room v base = Ok (utoa_text v base).
Proof.
  intros Hv Hb Hr. assert (exists s, utoa v base = Ok s /\ (length s <= 10)%nat) as (s & E & Hl).
  { destruct Hb as [->| ->].
    - destruct (utoa_spec 10 9 v) as (s & E & _ & Hl & _); [lia|lia|done|words|]. exists s. split; [done|lia].
    - destruct (utoa_spec 16 7 v) as (s & E & _ & Hl & _); [lia|lia|done|words|]. exists s. split; [done|lia]. }
  unfold utoa_into, utoa_text. rewrite E. cbn [text]. by rewrite (proj2 (Z.leb_le _ _)) by lia.
Qed.

Lemma itoa_into_small v : 0 <= v < 10 ^ 7 -> itoa_into 8 v = Ok (itoa_text v 10).
Proof.
  intros Hv. assert (itoa v 10 = utoa v 10) as E by (unfold itoa, utoa; by rewrite (proj2 (Z.ltb_ge v 0)) by lia).
  unfold itoa_into, itoa_text. rewrite E.
  destruct (utoa_spec 10 6 v) as (s & -> & _ & Hl & _); [lia|lia|words|lia|]. cbn [text].
  by rewrite (proj2 (Z.leb_le _ _)) by lia.
Qed.

(** * Properties *)

(** C26: [memmove] leaves in the destination the bytes the source held before
    the call, whatever the overlap and the alignment, and no other byte of
    memory changes. *)
Theorem memmove_correct m dst src n (Hok : bytes_ok m) :
  forall a, memmove m dst src n a =
    if (dst <=? a) && (a <? dst + Z.of_nat n) then m (src + (a - dst)) else m a.
Proof. exact (memmove_copied m dst src n Hok). Qed.

Lemma memmove_correct_witness :
  let m := fun a => u8 a in
  map (memmove m 101 100 3) [100; 101; 102; 103; 104] = [100; 100; 101; 102; 104].
Proof.
  cbv zeta. assert (Hok : bytes_ok (fun a => u8 a)) by (intros a; apply u8_range).
  cbn [map]. rewrite !(memmove_correct _ 101 100 3 Hok). reflexivity.
Defined.

(** With room behind the first string and no overlap, [strcat] terminates,
    leaves the concatenation at the destination, and touches no byte outside
    the appended one. *)
Theorem strcat_correct fuel m dst src s t (Hok : bytes_ok m) (Hs : cstr m dst s)
    (Ht : cstr m src t) (Hfuel : (length s + length t < fuel)%nat)
    (Hdis : dst + Z.of_nat (length s) + Z.of_nat (length t) < src \/
            src + Z.of_nat (length t) < dst + Z.of_nat (length s)) :
  exists m', strcat fuel m dst src = Ok m' /\ cstr m' dst (s ++ t) /\
    forall a, a < dst + Z.of_nat (length s) \/
      dst + Z.of_nat (length s) + Z.of_nat (length t) < a -> m' a = m a.
Proof.
  unfold strcat. rewrite (str_end_spec _ _ _ s) by (done || lia). simpl.
  destruct (strcpy_copied fuel m (dst + Z.of_nat (length s)) src t Hok Ht)
    as (m' & -> & Hc); [unfold forward_safe; lia|lia|].
  exists m'. split; [done|]. split.
  - apply cstr_app; [|apply Hs|by eapply cstr_copied].
    intros i c Hi. pose proof (lookup_lt_Some _ _ _ Hi). rewrite Hc.
    destruct Hs as (Hs & _). rewrite <- (Hs _ _ Hi). zcases; lia || done.
  - intros a Ha. rewrite Hc. zcases; lia || done.
Qed.

Lemma strcat_correct_witness :
  let m := fun a => if a =? 10 then 65 else if a =? 20 then 66 else 0 in
  exists m', strcat 5 m 10 20 = Ok m' /\ cstr m' 10 [65; 66].
Proof.
  cbv zeta. set (m := fun a : Z => _).
  destruct (strcat_correct 5 m 10 20 [65] [66]) as (m' & H1 & H2 & _).
  - intros a. unfold m. zcases; words.
  - split; [|split; [done|by repeat constructor]]. by intros [|i] c; [intros [= <-]|].
  - split; [|split; [done|by repeat constructor]]. by intros [|i] c; [intros [= <-]|].
  - simpl. lia.
  - simpl. lia.
  - by exists m'.
Defined.

(** [strstr] returns the first position at which the needle occurs in the
    haystack, and NULL exactly when it does not occur. *)
Theorem strstr_correct h n (Hh : nul_free h) (Hn : nul_free n) :
  match strstr (Some h) (Some n) with
  | Some i => first_occurrence n h i
  | None => no_occurrence n h
  end.
Proof.
  simpl. rewrite (strlen_nul_free _ Hn). destruct n as [|c n]; simpl.
  - split; [apply prefix_nil|]. split; [lia|intros; lia].
  - by apply (strstr_loop_spec h (c :: n)).
Qed.

Lemma strstr_correct_witness :
  first_occurrence (bs "lo") (bs "hello lo") 3.
Proof.
  exact (strstr_correct (bs "hello lo") (bs "lo")
    ltac:(by repeat constructor) ltac:(by repeat constructor)).
Defined.

(** C27: [itoa] in base 10 is exact for every [int], INT_MIN included, and
    writes at most 11 characters; [utoa] is exact for every [uint32_t] in
    base 10 (at most 10 digits) and base 16 (at most 8). *)
Theorem itoa_utoa_correct :
  (forall v, is_i32 v -> exists s, itoa v 10 = Ok s /\ read_int s = v /\ (0 < length s <= 11)%nat) /\
  (forall v, is_u32 v ->
     (exists s, utoa v 10 = Ok s /\ number_of 10 s = v /\ (0 < length s <= 10)%nat) /\
     (exists s, utoa v 16 = Ok s /\ number_of 16 s = v /\ (0 < length s <= 8)%nat)).
Proof.
  split.
  - intros v Hv. destruct (itoa_spec v Hv) as (s & ? & ? & ? & _). by exists s.
  - intros v Hv. split.
    + destruct (utoa_spec 10 9 v) as (s & ? & ? & ? & _); [lia|lia|done|words|]. by exists s.
    + destruct (utoa_spec 16 7 v) as (s & ? & ? & ? & _); [lia|lia|done|words|]. by exists s.
Qed.

Lemma itoa_utoa_correct_witness :
  exists s, itoa (-2147483648) 10 = Ok s /\ read_int s = -2147483648 /\ (0 < length s <= 11)%nat.
Proof. apply (proj1 itoa_utoa_correct). words. Defined.
