(* ===== verification/PhysMem.v ===== *)
(** Memory management, src/src/kernel/mm.c: the physical page allocator (a
    bitmap of 4 KiB blocks) and the kernel heap (a first-fit list of blocks).

    The block list is the Rocq list of the headers in [->next] order, each
    with its address; [sizeof(heap_block_t)] is 12 on the 32-bit target. *)
From Stdlib Require Import ZArith Lia.
From stdpp Require Import base tactics option numbers list list_numbers.
From S2P Require Import Prelude.
#[local] Open Scope Z_scope.

Definition PAGE_SIZE : Z := 4096.
Definition HEAP_START : Z := 0x1000000.
Definition HEAP_SIZE : Z := 0x1000000.

(** * Page allocator *)
Record pmm := Pmm {
  pmm_bitmap : list Z;
  pmm_max_blocks : Z;
  pmm_used_blocks : Z;
  pmm_reserved_blocks : Z;
}.

Definition pmm_bitmap_set (bm : list Z) (bit : Z) : list Z :=
  let i := Z.to_nat (bit / 8) in
  <[i := u8 (Z.lor (byte_at bm i) (Z.shiftl 1 (bit mod 8)))]> bm.

Definition pmm_bitmap_clear (bm : list Z) (bit : Z) : list Z :=
  let i := Z.to_nat (bit / 8) in
  <[i := u8 (Z.land (byte_at bm i) (Z.lnot (Z.shiftl 1 (bit mod 8))))]> bm.

Definition pmm_bitmap_test (bm : list Z) (bit : Z) : bool :=
  negb (Z.land (byte_at bm (Z.to_nat (bit / 8))) (Z.shiftl 1 (bit mod 8)) =? 0).

(** [pmm_init] without its last call, [heap_init]. *)
Definition pmm_init (mem_size : Z) : pmm :=
  let mem_size := if mem_size <? PAGE_SIZE then PAGE_SIZE else mem_size in
  let max_blocks := mem_size / PAGE_SIZE in
  let reserve_bytes := u32 (HEAP_START + HEAP_SIZE) in
  let reserve_bytes := if mem_size <? reserve_bytes then mem_size else reserve_bytes in
  let reserved := reserve_bytes / PAGE_SIZE in
  let reserved := if max_blocks <? reserved then max_blocks else reserved in
  let bitmap_bytes := u32 (max_blocks + 7) / 8 in
  let bm0 := replicate (Z.to_nat bitmap_bytes) 0xFF in
  let bm := for_loop reserved max_blocks (fun i bm => pmm_bitmap_clear bm i) bm0 in
  Pmm bm max_blocks reserved reserved.

(** Returns the page address, 0 for NULL. *)
Definition pmm_alloc_page (st : pmm) : Z * pmm :=
  match first_index (pmm_reserved_blocks st) (pmm_max_blocks st)
          (fun i => negb (pmm_bitmap_test (pmm_bitmap st) i)) with
  | Some i =>
    (u32 (i * PAGE_SIZE),
     Pmm (pmm_bitmap_set (pmm_bitmap st) i) (pmm_max_blocks st)
         (u32 (pmm_used_blocks st + 1)) (pmm_reserved_blocks st))
  | None => (0, st)
  end.

Definition pmm_free_page (st : pmm) (p : Z) : pmm :=
  if p =? 0 then st
  else
    let block := u32 p / PAGE_SIZE in
    if (block <? pmm_reserved_blocks st) || (pmm_max_blocks st <=? block) then st
    else if negb (pmm_bitmap_test (pmm_bitmap st) block) then st
    else
      Pmm (pmm_bitmap_clear (pmm_bitmap st) block) (pmm_max_blocks st)
          (if 0 <? pmm_used_blocks st then pmm_used_blocks st - 1 else pmm_used_blocks st)
          (pmm_reserved_blocks st).

Definition pmm_total_blocks (st : pmm) : Z := pmm_max_blocks st.
Definition pmm_used_blocks_count (st : pmm) : Z := pmm_used_blocks st.
Definition pmm_free_blocks_count (st : pmm) : Z :=
  if pmm_max_blocks st <? pmm_used_blocks st then 0
  else pmm_max_blocks st - pmm_used_blocks st.

(** ** Bitmap lemmas *)

Lemma bitmap_test_bit bm bit :
  pmm_bitmap_test bm bit = Z.testbit (byte_at bm (Z.to_nat (bit / 8))) (bit mod 8).
Proof. unfold pmm_bitmap_test. rewrite bit_set_test; [done|]. apply Z.mod_pos_bound. lia. Qed.

Definition in_bitmap (bm : list Z) (bit : Z) : Prop :=
  0 <= bit < 8 * Z.of_nat (length bm).

Lemma same_byte bit bit' :
  0 <= bit -> 0 <= bit' -> Z.to_nat (bit / 8) = Z.to_nat (bit' / 8) ->
  bit mod 8 = bit' mod 8 -> bit = bit'.
Proof. intros. Z.to_euclidean_division_equations. lia. Qed.

(** Writing one byte of the bitmap changes at most its eight bits. *)
Lemma test_insert bm bit v bit' :
  in_bitmap bm bit -> 0 <= bit' ->
  pmm_bitmap_test (<[Z.to_nat (bit / 8) := u8 v]> bm) bit' =
    if decide (Z.to_nat (bit / 8) = Z.to_nat (bit' / 8))
    then Z.testbit v (bit' mod 8) else pmm_bitmap_test bm bit'.
Proof.
  intros Hin Hb. rewrite !bitmap_test_bit.
  assert ((Z.to_nat (bit / 8) < length bm)%nat).
  { unfold in_bitmap in Hin. Z.to_euclidean_division_equations. lia. }
  case_decide as E.
  - rewrite <- E, byte_at_insert_eq by done. apply testbit_u8. Z.to_euclidean_division_equations. lia.
  - by rewrite byte_at_insert_ne.
Qed.

Lemma test_set bm bit bit' :
  in_bitmap bm bit -> 0 <= bit' ->
  pmm_bitmap_test (pmm_bitmap_set bm bit) bit' = (bit =? bit') || pmm_bitmap_test bm bit'.
Proof.
  intros Hin Hb. unfold pmm_bitmap_set. rewrite test_insert by done.
  pose proof (Z.mod_pos_bound bit' 8 ltac:(lia)).
  pose proof (Z.mod_pos_bound bit 8 ltac:(lia)).
  case_decide as E.
  - rewrite Z.lor_spec, Z.shiftl_1_l, Z.pow2_bits_eqb, E, bitmap_test_bit by lia.
    destruct (Z.eqb_spec bit bit') as [->|Hne]; [by rewrite Z.eqb_refl, orb_true_r|].
    destruct (Z.eqb_spec (bit mod 8) (bit' mod 8)); [|by rewrite orb_false_r].
    exfalso. apply Hne. apply same_byte; unfold in_bitmap in Hin; lia || done.
  - destruct (Z.eqb_spec bit bit') as [->|]; done.
Qed.

Lemma test_clear bm bit bit' :
  in_bitmap bm bit -> 0 <= bit' ->
  pmm_bitmap_test (pmm_bitmap_clear bm bit) bit' =
    negb (bit =? bit') && pmm_bitmap_test bm bit'.
Proof.
  intros Hin Hb. unfold pmm_bitmap_clear. rewrite test_insert by done.
  pose proof (Z.mod_pos_bound bit' 8 ltac:(lia)).
  pose proof (Z.mod_pos_bound bit 8 ltac:(lia)).
  case_decide as E.
  - rewrite Z.land_spec, Z.lnot_spec, Z.shiftl_1_l, Z.pow2_bits_eqb, E, bitmap_test_bit by lia.
    destruct (Z.eqb_spec bit bit') as [->|Hne]; [by rewrite Z.eqb_refl, andb_false_r|].
    destruct (Z.eqb_spec (bit mod 8) (bit' mod 8)); [|by rewrite andb_true_r].
    exfalso. apply Hne. apply same_byte; unfold in_bitmap in Hin; lia || done.
  - destruct (Z.eqb_spec bit bit') as [->|]; done.
Qed.

Lemma length_set bm bit : length (pmm_bitmap_set bm bit) = length bm.
Proof. apply length_insert. Qed.
Lemma length_clear bm bit : length (pmm_bitmap_clear bm bit) = length bm.
Proof. apply length_insert. Qed.

(** Bitmaps of bytes are determined by their tests. *)
Lemma bitmap_ext bm bm' :
  Forall is_u8 bm -> Forall is_u8 bm' -> length bm = length bm' ->
  (forall bit, in_bitmap bm bit -> pmm_bitmap_test bm bit = pmm_bitmap_test bm' bit) ->
  bm = bm'.
Proof.
  intros H1 H2 Hlen Ht. apply list_eq_same_length with (n := length bm); [done|done|].
  intros i x y Hi Hx Hy. apply Z.bits_inj'. intros n Hn.
  rewrite Forall_lookup in H1, H2. specialize (H1 _ _ Hx). specialize (H2 _ _ Hy).
  destruct (Z.lt_ge_cases n 8).
  - specialize (Ht (8 * Z.of_nat i + n)). unfold in_bitmap in Ht.
    rewrite !bitmap_test_bit in Ht.
    replace ((8 * Z.of_nat i + n) / 8) with (Z.of_nat i) in Ht
      by (Z.to_euclidean_division_equations; lia).
    replace ((8 * Z.of_nat i + n) mod 8) with n in Ht
      by (Z.to_euclidean_division_equations; lia).
    rewrite Nat2Z.id, (byte_at_lookup _ _ _ Hx), (byte_at_lookup _ _ _ Hy) in Ht.
    apply Ht. lia.
  - unfold is_u8 in *. rewrite <- (Z.mod_small x (2 ^ 8)), <- (Z.mod_small y (2 ^ 8)) by lia.
    by rewrite !Z.mod_pow2_bits_high by lia.
Qed.

(** ** Invariant *)

(** Number of used blocks in [lo, hi). *)
Definition used_in (bm : list Z) (lo hi : Z) : Z :=
  Z.of_nat (length (List.filter (pmm_bitmap_test bm) (seqZ lo (hi - lo)))).

Record pmm_ok (st : pmm) : Prop := {
  ok_reserved : 0 < pmm_reserved_blocks st <= pmm_max_blocks st;
  ok_max : pmm_max_blocks st <= 1048576;
  ok_length : Z.of_nat (length (pmm_bitmap st)) = (pmm_max_blocks st + 7) / 8;
  ok_bytes : Forall is_u8 (pmm_bitmap st);
  ok_used : pmm_used_blocks st = pmm_reserved_blocks st +
    used_in (pmm_bitmap st) (pmm_reserved_blocks st) (pmm_max_blocks st);
}.

(** Block [i] is managed by the allocator and handed out. *)
Definition managed (st : pmm) (i : Z) : Prop :=
  pmm_reserved_blocks st <= i < pmm_max_blocks st.
Definition allocated (st : pmm) (i : Z) : Prop :=
  managed st i /\ pmm_bitmap_test (pmm_bitmap st) i = true.

Lemma managed_in_bitmap st i : pmm_ok st -> managed st i -> in_bitmap (pmm_bitmap st) i.
Proof.
  intros Hok Hi. unfold in_bitmap. rewrite (ok_length _ Hok). pose proof (ok_reserved _ Hok).
  unfold managed in Hi. Z.to_euclidean_division_equations. lia.
Qed.

Lemma used_in_range bm lo hi : lo <= hi -> 0 <= used_in bm lo hi <= hi - lo.
Proof.
  intros. unfold used_in. pose proof (filter_le_length (pmm_bitmap_test bm) (seqZ lo (hi - lo))).
  rewrite length_seqZ in H0. lia.
Qed.

Lemma used_in_set bm lo hi i :
  lo <= i < hi -> 0 <= lo -> in_bitmap bm i -> pmm_bitmap_test bm i = false ->
  used_in (pmm_bitmap_set bm i) lo hi = used_in bm lo hi + 1.
Proof.
  intros Hi Hlo Hin Ht. unfold used_in.
  rewrite (filter_flip (pmm_bitmap_test bm) _ i); [lia|apply NoDup_seqZ| |done| |].
  - apply elem_of_seqZ. lia.
  - rewrite test_set by (done || lia). by rewrite Z.eqb_refl.
  - intros j Hj Hne. apply elem_of_seqZ in Hj. rewrite test_set by (done || lia).
    by rewrite (proj2 (Z.eqb_neq i j)) by done.
Qed.

Lemma used_in_clear bm lo hi i :
  lo <= i < hi -> 0 <= lo -> in_bitmap bm i -> pmm_bitmap_test bm i = true ->
  used_in (pmm_bitmap_clear bm i) lo hi = used_in bm lo hi - 1.
Proof.
  intros Hi Hlo Hin Ht. unfold used_in.
  rewrite (filter_flip (pmm_bitmap_test (pmm_bitmap_clear bm i)) (pmm_bitmap_test bm) i);
    [lia|apply NoDup_seqZ| | |done|].
  - apply elem_of_seqZ. lia.
  - rewrite test_clear by (done || lia). by rewrite Z.eqb_refl.
  - intros j Hj Hne. apply elem_of_seqZ in Hj. rewrite test_clear by (done || lia).
    by rewrite (proj2 (Z.eqb_neq i j)) by done.
Qed.

Lemma set_bytes bm i : Forall is_u8 bm -> Forall is_u8 (pmm_bitmap_set bm i).
Proof. intros. apply Forall_insert; [done|apply u8_range]. Qed.
Lemma clear_bytes bm i : Forall is_u8 bm -> Forall is_u8 (pmm_bitmap_clear bm i).
Proof. intros. apply Forall_insert; [done|apply u8_range]. Qed.

Lemma pmm_init_ok mem_size : is_u32 mem_size ->
  pmm_ok (pmm_init mem_size) /\
  (forall i, managed (pmm_init mem_size) i -> ~ allocated (pmm_init mem_size) i).
Proof.
  intros Hm. unfold pmm_init. cbv zeta.
  set (ms := if mem_size <? PAGE_SIZE then PAGE_SIZE else mem_size).
  change (u32 (HEAP_START + HEAP_SIZE)) with 33554432.
  set (rb := if ms <? 33554432 then ms else 33554432).
  set (mx := ms / PAGE_SIZE).
  set (rs := if mx <? rb / PAGE_SIZE then mx else rb / PAGE_SIZE).
  assert (H1 : 0 < rs <= mx /\ mx <= 1048576 /\ u32 (mx + 7) = mx + 7).
  { unfold rs, mx, rb, ms, PAGE_SIZE in *. unfold is_u32 in Hm.
    clear rs mx rb ms. zcases; words. }
  destruct H1 as (H1 & H2 & ->).
  set (bm0 := replicate _ 0xFF).
  pose proof (for_loop_ind (fun i bm => length bm = length bm0 /\ Forall is_u8 bm /\
      forall j, rs <= j < i -> pmm_bitmap_test bm j = false)
    rs mx (fun i bm => pmm_bitmap_clear bm i) bm0) as Hloop.
  destruct Hloop as (Hlen & Hby & Hclr); [lia| | |].
  - split; [done|]. split; [|lia]. apply Forall_replicate. words.
  - intros i bm Hi (Hl & Hb & Hc). rewrite length_clear. split; [done|].
    split; [by apply clear_bytes|]. intros j Hj. rewrite test_clear; [|unfold in_bitmap|lia].
    + destruct (Z.eqb_spec i j); [done|]. apply Hc. lia.
    + rewrite Hl. unfold bm0. rewrite length_replicate. Z.to_euclidean_division_equations. lia.
  - split; [|intros i Hi [_ Ha]; unfold managed in Hi; simpl in *; by rewrite Hclr in Ha].
    split; simpl; try done.
    + rewrite Hlen. unfold bm0. rewrite length_replicate. Z.to_euclidean_division_equations. lia.
    + unfold used_in. rewrite filter_none; [simpl; lia|].
      intros x Hx. apply elem_of_seqZ in Hx. apply Hclr. lia.
Qed.

(** ** Functional behaviour of the operations *)

Lemma alloc_page_some st p st' :
  pmm_ok st -> pmm_alloc_page st = (p, st') -> p <> 0 ->
  exists i, p = i * PAGE_SIZE /\ managed st i /\ ~ allocated st i /\ pmm_ok st' /\
    (forall j, managed st j -> ~ allocated st j -> i <= j) /\
    (forall j, allocated st' j <-> j = i \/ allocated st j) /\
    pmm_free_blocks_count st' = pmm_free_blocks_count st - 1 /\
    st' = Pmm (pmm_bitmap_set (pmm_bitmap st) i) (pmm_max_blocks st)
              (pmm_used_blocks st + 1) (pmm_reserved_blocks st).
Proof.
  intros Hok Ha Hp. unfold pmm_alloc_page in Ha.
  pose proof (first_index_spec (pmm_reserved_blocks st) (pmm_max_blocks st)
    (fun i => negb (pmm_bitmap_test (pmm_bitmap st) i))) as Hf.
  destruct (first_index _ _ _) as [i|]; [|congruence].
  destruct Hf as (Hi & Hti & Hlt). apply negb_true_iff in Hti.
  pose proof (ok_reserved _ Hok). pose proof (ok_max _ Hok). pose proof (ok_used _ Hok).
  pose proof (used_in_range (pmm_bitmap st) (pmm_reserved_blocks st) (pmm_max_blocks st)).
  assert (Hin : in_bitmap (pmm_bitmap st) i) by by apply managed_in_bitmap.
  pose proof (used_in_set (pmm_bitmap st) _ _ i Hi ltac:(lia) Hin Hti) as Hset.
  pose proof (used_in_range (pmm_bitmap_set (pmm_bitmap st) i)
    (pmm_reserved_blocks st) (pmm_max_blocks st)).
  rewrite (u32_small (_ + 1)) in Ha by words.
  unfold PAGE_SIZE in *. rewrite u32_small in Ha by words.
  injection Ha as <- <-. exists i. split; [done|]. split; [done|].
  split; [unfold allocated; intros [_ ?]; congruence|].
  split; [|split; [|split; [|split]]].
  - split; simpl; try done; try lia.
    + by rewrite length_set, ok_length.
    + by apply set_bytes, ok_bytes.
  - intros j Hj Hna. destruct (Z.lt_ge_cases j i); [|done].
    exfalso. apply Hna. split; [done|]. apply negb_false_iff, Hlt. unfold managed in Hj. lia.
  - intros j. unfold allocated, managed; simpl. split.
    + intros [Hj Ht]. rewrite test_set in Ht by (done || lia).
      destruct (Z.eqb_spec i j); [by left|by right].
    + intros [->|[Hj Ht]]; (split; [done|]); rewrite test_set by (done || lia).
      * by rewrite Z.eqb_refl.
      * by rewrite Ht, orb_true_r.
  - unfold pmm_free_blocks_count; simpl.
    destruct (Z.ltb_spec (pmm_max_blocks st) (pmm_used_blocks st + 1));
      destruct (Z.ltb_spec (pmm_max_blocks st) (pmm_used_blocks st)); lia.
  - done.
Qed.

Lemma alloc_page_none st p st' :
  pmm_ok st -> pmm_alloc_page st = (p, st') -> p = 0 ->
  st' = st /\ forall i, managed st i -> allocated st i.
Proof.
  intros Hok Ha Hp. unfold pmm_alloc_page in Ha.
  pose proof (first_index_spec (pmm_reserved_blocks st) (pmm_max_blocks st)
    (fun i => negb (pmm_bitmap_test (pmm_bitmap st) i))) as Hf.
  pose proof (ok_reserved _ Hok). pose proof (ok_max _ Hok).
  destruct (first_index _ _ _) as [i|].
  - unfold PAGE_SIZE in Ha. rewrite u32_small in Ha by words. injection Ha. lia.
  - split; [congruence|]. intros i Hi. split; [done|]. by apply negb_false_iff, Hf.
Qed.

Lemma free_page_allocated st i :
  pmm_ok st -> allocated st i ->
  pmm_free_page st (i * PAGE_SIZE) =
    Pmm (pmm_bitmap_clear (pmm_bitmap st) i) (pmm_max_blocks st)
        (pmm_used_blocks st - 1) (pmm_reserved_blocks st).
Proof.
  intros Hok [Hi Ht]. unfold pmm_free_page, PAGE_SIZE, managed in *.
  pose proof (ok_reserved _ Hok). pose proof (ok_max _ Hok). pose proof (ok_used _ Hok).
  pose proof (used_in_range (pmm_bitmap st) (pmm_reserved_blocks st) (pmm_max_blocks st)).
  rewrite u32_small, Z.div_mul by words.
  destruct (Z.eqb_spec (i * 4096) 0); [lia|].
  destruct (Z.ltb_spec i (pmm_reserved_blocks st)); [lia|].
  destruct (Z.leb_spec (pmm_max_blocks st) i); [lia|]. simpl. rewrite Ht; simpl.
  destruct (Z.ltb_spec 0 (pmm_used_blocks st)); [done|lia].
Qed.

Lemma free_page_ok st i :
  pmm_ok st -> allocated st i ->
  pmm_ok (pmm_free_page st (i * PAGE_SIZE)) /\
  (forall j, allocated (pmm_free_page st (i * PAGE_SIZE)) j <-> j <> i /\ allocated st j).
Proof.
  intros Hok Ha. rewrite free_page_allocated by done. destruct Ha as [Hi Ht].
  assert (Hin : in_bitmap (pmm_bitmap st) i) by by apply managed_in_bitmap.
  pose proof (ok_reserved _ Hok). pose proof (ok_used _ Hok).
  pose proof (used_in_clear (pmm_bitmap st) (pmm_reserved_blocks st) (pmm_max_blocks st) i
    Hi ltac:(lia) Hin Ht) as Hc.
  split.
  - split; simpl; [done|by apply Hok|by rewrite length_clear, ok_length|
      by apply clear_bytes, ok_bytes|lia].
  - intros j. unfold allocated, managed; simpl. split.
    + intros [Hj Htj]. rewrite test_clear in Htj by (done || lia).
      apply andb_true_iff in Htj as [Hne Htj]. apply negb_true_iff, Z.eqb_neq in Hne.
      by split; [congruence|].
    + intros [Hne [Hj Htj]]. split; [done|]. rewrite test_clear, Htj by (done || lia).
      by rewrite (proj2 (Z.eqb_neq i j)) by done.
Qed.

(** Anything that is not the address of an allocated block leaves the state. *)
Lemma free_page_other st p :
  pmm_ok st -> ~ allocated st (u32 p / PAGE_SIZE) -> pmm_free_page st p = st.
Proof.
  intros Hok Hn. unfold pmm_free_page. destruct (p =? 0); [done|].
  destruct (Z.ltb_spec (u32 p / PAGE_SIZE) (pmm_reserved_blocks st)); [done|].
  destruct (Z.leb_spec (pmm_max_blocks st) (u32 p / PAGE_SIZE)); [done|]. simpl.
  destruct (pmm_bitmap_test _ _) eqn:Ht; [|done]. exfalso. by apply Hn.
Qed.

Lemma clear_set bm i :
  Forall is_u8 bm -> in_bitmap bm i -> pmm_bitmap_test bm i = false ->
  pmm_bitmap_clear (pmm_bitmap_set bm i) i = bm.
Proof.
  intros Hby Hin Ht. apply bitmap_ext.
  - by apply clear_bytes, set_bytes.
  - done.
  - by rewrite length_clear, length_set.
  - intros j Hj. unfold in_bitmap in Hj. rewrite length_clear, length_set in Hj.
    assert (in_bitmap (pmm_bitmap_set bm i) i) by by unfold in_bitmap; rewrite length_set.
    rewrite test_clear, test_set by (done || lia).
    destruct (Z.eqb_spec i j) as [->|]; done.
Qed.

(** * Kernel heap *)
Definition sizeof_header : Z := 12.
Definition HEAP_END : Z := HEAP_START + HEAP_SIZE.

Record heap_block := Block { hb_addr : Z; hb_size : Z; hb_free : bool }.
Record heap := MkHeap { heap_ready : bool; heap_head : list heap_block }.

#[export] Instance heap_block_eq_dec : EqDecision heap_block.
Proof. solve_decision. Defined.

Definition heap_align8 (value : Z) : Z := Z.land (u32 (value + 7)) (u32 (Z.lnot 7)).

Definition heap_init : heap :=
  MkHeap true [Block HEAP_START (HEAP_SIZE - sizeof_header) true].

Definition block_end (b : heap_block) : Z := hb_addr b + sizeof_header + hb_size b.

Fixpoint coalesce_from (b : heap_block) (l : list heap_block) : list heap_block :=
  match l with
  | [] => [b]
  | n :: l' =>
    if hb_free b && hb_free n && (block_end b =? hb_addr n)
    then coalesce_from
           (Block (hb_addr b) (u32 (hb_size b + (sizeof_header + hb_size n))) (hb_free b)) l'
    else b :: coalesce_from n l'
  end.

Definition heap_coalesce (l : list heap_block) : list heap_block :=
  match l with [] => [] | b :: l' => coalesce_from b l' end.

(** What first fit does to the block it takes: the used block, and the free
    remainder when there is room for a header and 8 bytes. *)
Definition take_block (need : Z) (b : heap_block) : list heap_block :=
  if u32 (need + sizeof_header + 8) <=? hb_size b then
    [Block (hb_addr b) need false;
     Block (hb_addr b + sizeof_header + need)
           (u32 (hb_size b - need - sizeof_header)) true]
  else [Block (hb_addr b) (hb_size b) false].

Fixpoint first_fit (need : Z) (l : list heap_block) : option (Z * list heap_block) :=
  match l with
  | [] => None
  | b :: l' =>
    if hb_free b && (need <=? hb_size b)
    then Some (hb_addr b + sizeof_header, take_block need b ++ l')
    else '(p, l'') ← first_fit need l'; Some (p, b :: l'')
  end.

(** Returns the pointer, 0 for NULL. *)
Definition kmalloc (h : heap) (size : Z) : Z * heap :=
  if negb (heap_ready h) || (size =? 0) then (0, h)
  else
    let need := heap_align8 size in
    if (need =? 0) || (HEAP_SIZE <? need) then (0, h)
    else match first_fit need (heap_head h) with
         | Some (p, l) => (p, MkHeap true l)
         | None => (0, h)
         end.

Fixpoint set_free (a : Z) (l : list heap_block) : option (list heap_block) :=
  match l with
  | [] => None
  | b :: l' =>
    if hb_addr b =? a then Some (Block (hb_addr b) (hb_size b) true :: l')
    else cons b <$> set_free a l'
  end.

(** [block->free = 1] writes to a header only if [p] is the payload of a block
    of the list; any other pointer into the heap makes the code write into
    somebody's payload, which is an error here. *)
Definition kfree (h : heap) (p : Z) : outcome heap :=
  if negb (heap_ready h) || (p =? 0) then Ok h
  else if (p <? HEAP_START + sizeof_header) || (HEAP_END <=? p) then Ok h
  else
    let block := p - sizeof_header in
    if (block <? HEAP_START) || (HEAP_END <=? block) then Ok h
    else match set_free block (heap_head h) with
         | Some l => Ok (MkHeap true (heap_coalesce l))
         | None => Stuck OutOfBounds
         end.

Definition sum_if (want_free : bool) (l : list heap_block) : Z :=
  foldl (fun acc b => if Bool.eqb (hb_free b) want_free then u32 (acc + hb_size b) else acc) 0 l.

Definition kheap_used_bytes (h : heap) : Z :=
  if negb (heap_ready h) then 0 else sum_if false (heap_head h).
Definition kheap_free_bytes (h : heap) : Z :=
  if negb (heap_ready h) then 0 else sum_if true (heap_head h).

(** ** Invariant: the blocks tile the heap and free blocks are never adjacent *)

Fixpoint tiles (a : Z) (l : list heap_block) : Prop :=
  match l with
  | [] => a = HEAP_END
  | b :: l' => hb_addr b = a /\ 8 <= hb_size b /\ tiles (block_end b) l'
  end.

Fixpoint no_adjacent_free (l : list heap_block) : Prop :=
  match l with
  | [] => True
  | b :: l' => (hb_free b = true -> match l' with [] => True | n :: _ => hb_free n = false end)
               /\ no_adjacent_free l'
  end.

Record heap_ok (h : heap) : Prop := {
  ok_ready : heap_ready h = true;
  ok_tiles : tiles HEAP_START (heap_head h);
  ok_coalesced : no_adjacent_free (heap_head h);
}.

Lemma naf_tail b l : no_adjacent_free (b :: l) -> no_adjacent_free l.
Proof. by intros []. Qed.

Lemma tiles_bound l : forall a, tiles a l -> a <= HEAP_END.
Proof.
  induction l as [|b l IH]; simpl; intros a; [lia|].
  intros (<- & Hs & Ht). apply IH in Ht. unfold block_end, sizeof_header in Ht. lia.
Qed.

Lemma tiles_size l a b : tiles a l -> b ∈ l -> HEAP_START <= a ->
  HEAP_START <= hb_addr b /\ a <= hb_addr b /\ 8 <= hb_size b /\ block_end b <= HEAP_END.
Proof.
  revert a. induction l as [|c l IH]; intros a Ht Hb Ha; [by apply elem_of_nil in Hb|].
  destruct Ht as (<- & Hs & Ht). apply elem_of_cons in Hb as [->|Hb].
  - apply tiles_bound in Ht. lia.
  - apply (IH _ Ht) in Hb; unfold block_end, sizeof_header in *; lia.
Qed.

Lemma tiles_app l1 : forall a l2 , tiles a (l1 ++ l2) ->
  exists m, a <= m /\ tiles m l2 /\ forall l2', tiles m l2' -> tiles a (l1 ++ l2').
Proof.
  induction l1 as [|b l1 IH]; intros a l2 Ht; simpl in *; [by exists a|].
  destruct Ht as (<- & Hs & Ht). destruct (IH _ _ Ht) as (m & Hle & Hm & Hrep).
  exists m. unfold block_end, sizeof_header in *. split; [lia|]. split; [done|].
  intros l2' H2. split; [done|]. split; [done|]. by apply Hrep.
Qed.

Lemma naf_app l1 : forall l2, no_adjacent_free (l1 ++ l2) -> no_adjacent_free l2.
Proof.
  induction l1 as [|b l1 IH]; intros l2 H; [done|]. apply IH.
  by destruct H.
Qed.

(** Disjointness of the blocks of a tiling. *)
Lemma tiles_disjoint l a i j b c :
  tiles a l -> l !! i = Some b -> l !! j = Some c -> (i < j)%nat -> block_end b <= hb_addr c.
Proof.
  revert a i j. induction l as [|d l IH]; intros a i j Ht Hi Hj Hij; [done|].
  destruct Ht as (<- & Hs & Ht). destruct j as [|j]; [lia|]. simpl in Hj.
  destruct i as [|i]; simpl in Hi.
  - injection Hi as ->. clear IH Hs Hij. revert Ht. generalize (block_end b) as m. revert j Hj.
    induction l as [|e l IH]; intros j Hj m Ht; [done|]. destruct Ht as (<- & Hs & Ht).
    destruct j as [|j]; simpl in Hj; [injection Hj as ->; lia|].
    specialize (IH _ Hj _ Ht). unfold block_end, sizeof_header in *. lia.
  - eapply IH; eauto. lia.
Qed.

(** ** Rounding *)

Lemma align8_spec size : is_u32 size ->
  heap_align8 size = if size <=? 4294967288 then (size + 7) / 8 * 8 else 0.
Proof.
  intros Hs. unfold heap_align8. change (u32 (Z.lnot 7)) with (Z.ones 32 - 7).
  assert (Hl : forall x, is_u32 x -> Z.land x (Z.ones 32 - 7) = x / 8 * 8).
  { intros x Hx. change (Z.ones 32 - 7) with (Z.ldiff (Z.ones 32) (Z.ones 3)).
    assert (E : Z.land x (Z.ldiff (Z.ones 32) (Z.ones 3)) = Z.ldiff x (Z.ones 3)).
    { apply Z.bits_inj'. intros n Hn. rewrite Z.land_spec, !Z.ldiff_spec.
      destruct (Z.lt_ge_cases n 32).
      - rewrite (Z.testbit_ones_nonneg 32) by lia. by rewrite (proj2 (Z.ltb_lt n 32)).
      - assert (Z.testbit x n = false) as ->; [|done].
        rewrite <- (Z.mod_small x (2 ^ 32)) by (unfold is_u32 in Hx; lia).
        by apply Z.mod_pow2_bits_high. }
    rewrite E, Z.ldiff_ones_r by lia. rewrite Z.shiftr_div_pow2, Z.shiftl_mul_pow2 by lia. done. }
  rewrite Hl by apply u32_range. destruct (Z.leb_spec size 4294967288); words.
Qed.

Lemma align8_bounds size : is_u32 size -> size <> 0 ->
  heap_align8 size = 0 \/ (size <= heap_align8 size /\ 8 <= heap_align8 size /\ heap_align8 size < 4294967296).
Proof.
  intros Hs H0. rewrite align8_spec by done. destruct (Z.leb_spec size 4294967288); [right|by left].
  words.
Qed.

(** ** First fit *)

Lemma first_fit_some need l p l' :
  first_fit need l = Some (p, l') ->
  exists l1 b l2, l = l1 ++ b :: l2 /\ l' = l1 ++ take_block need b ++ l2 /\
    p = hb_addr b + sizeof_header /\ hb_free b = true /\ need <= hb_size b /\
    Forall (fun c => hb_free c = false \/ hb_size c < need) l1.
Proof.
  revert p l'. induction l as [|b l IH]; intros p l' H; [done|]. simpl in H.
  destruct (hb_free b && (need <=? hb_size b)) eqn:E.
  - injection H as <- <-. exists [], b, l. apply andb_true_iff in E as [??].
    split_and!; done || lia.
  - destruct (first_fit need l) as [[p' l'']|]; [|done]. simpl in H. injection H as <- <-.
    destruct (IH _ _ eq_refl) as (l1 & c & l2 & -> & -> & -> & Hf & Hs & Hall).
    exists (b :: l1), c, l2. split_and!; try done. constructor; [|done].
    apply andb_false_iff in E as [|]; [by left|right; lia].
Qed.

Lemma first_fit_none need l :
  first_fit need l = None <-> Forall (fun c => hb_free c = false \/ hb_size c < need) l.
Proof.
  induction l as [|b l IH]; [by split|]. simpl. rewrite Forall_cons.
  destruct (hb_free b && (need <=? hb_size b)) eqn:E.
  - split; [done|]. intros [[?|?] _]; apply andb_true_iff in E as [??]; [congruence|lia].
  - destruct (first_fit need l) as [[p l']|]; simpl.
    + split; [done|]. intros [_ H]. by apply IH in H.
    + split; [|done]. intros _. split; [|by apply IH].
      apply andb_false_iff in E as [|]; [by left|right; lia].
Qed.

(** [take_block] cuts a block into its used part and a free remainder. *)
Lemma take_block_spec need b :
  8 <= need <= HEAP_SIZE -> need <= hb_size b < 4294967296 -> exists u,
  hb_addr u = hb_addr b /\ hb_free u = false /\ need <= hb_size u /\
  ((take_block need b = [u] /\ hb_size u = hb_size b) \/
   exists r, take_block need b = [u; r] /\ hb_free r = true /\ 8 <= hb_size r /\
     hb_addr r = block_end u /\ block_end r = block_end b /\ hb_size u = need /\
     hb_size b = need + sizeof_header + hb_size r).
Proof.
  intros Hn Hb. unfold take_block, block_end, HEAP_SIZE, sizeof_header in *.
  rewrite (u32_small (need + _ + _)) by words.
  destruct (Z.leb_spec (need + 12 + 8) (hb_size b)).
  - exists (Block (hb_addr b) need false); simpl.
    split; [done|]. split; [done|]. split; [lia|]. right. exists (Block (hb_addr b + 12 + need) (u32 (hb_size b - need - 12)) true); simpl.
    rewrite u32_small by words. split_and!; lia || done.
  - exists (Block (hb_addr b) (hb_size b) false); simpl.
    split; [done|]. split; [done|]. split; [lia|by left].
Qed.

Lemma take_block_tiles need b l2 :
  8 <= need <= HEAP_SIZE -> need <= hb_size b < 4294967296 ->
  tiles (block_end b) l2 -> tiles (hb_addr b) (take_block need b ++ l2).
Proof.
  intros Hn Hb Ht. destruct (take_block_spec need b Hn Hb)
    as (u & Ha & _ & Hs & [[-> Hsz]|(r & -> & _ & Hr & Har & Hend & Hsu & Hsb)]);
    simpl; rewrite ?Ha.
  - unfold block_end in *. rewrite Ha, Hsz. split_and!; lia || done.
  - rewrite Hend, Har. split_and!; lia || done.
Qed.

Lemma take_block_naf need b l2 :
  8 <= need <= HEAP_SIZE -> need <= hb_size b < 4294967296 -> hb_free b = true ->
  no_adjacent_free (b :: l2) -> no_adjacent_free (take_block need b ++ l2).
Proof.
  intros Hn Hb Hf Hnaf. destruct (take_block_spec need b Hn Hb)
    as (u & _ & Hu & _ & [[-> _]|(r & -> & Hr & _)]); simpl in *; rewrite Hu.
  - by destruct Hnaf.
  - destruct Hnaf as [H1 H2]. split; [done|]. split; [intros _; by apply H1|done].
Qed.

(** Replacing a block by blocks that start with a used one keeps the list
    coalesced. *)
Lemma naf_replace l1 b l2 u k :
  no_adjacent_free (l1 ++ b :: l2) -> hb_free u = false -> no_adjacent_free (u :: k) ->
  no_adjacent_free (l1 ++ u :: k).
Proof.
  intros H Hu Hk. induction l1 as [|c l1 IH]; [done|]. simpl in *. destruct H as [Hc H].
  split; [|by apply IH]. intros Hcf. specialize (Hc Hcf). by destruct l1.
Qed.

(** ** Coalescing *)

Lemma coalesce_naf_id b l : no_adjacent_free (b :: l) -> coalesce_from b l = b :: l.
Proof.
  revert b. induction l as [|n l IH]; intros b H; [done|]. simpl in *. destruct H as [Hb H].
  destruct (hb_free b); simpl; [rewrite Hb by done; simpl|]; by rewrite IH.
Qed.

(** A coalesced prefix is not touched. *)
Lemma coalesce_prefix c l1 b l2 u k :
  no_adjacent_free (c :: l1 ++ b :: l2) -> hb_free u = hb_free b ->
  coalesce_from c (l1 ++ u :: k) = c :: l1 ++ coalesce_from u k.
Proof.
  revert c. induction l1 as [|d l1 IH]; intros c H Hu; simpl in *; destruct H as [Hc H].
  - destruct (hb_free c); simpl; [|done]. by rewrite Hu, Hc.
  - destruct (hb_free c); simpl; [rewrite Hc by done; simpl|]; by rewrite IH.
Qed.

Lemma coalesce_app l1 b l2 u k :
  no_adjacent_free (l1 ++ b :: l2) -> hb_free u = hb_free b ->
  heap_coalesce (l1 ++ u :: k) = l1 ++ coalesce_from u k.
Proof. destruct l1 as [|c l1]; intros H Hu; [done|]. by eapply coalesce_prefix. Qed.

Definition merge (b n : heap_block) : heap_block :=
  Block (hb_addr b) (u32 (hb_size b + (sizeof_header + hb_size n))) (hb_free b).

Lemma merge_tiles a b n l :
  HEAP_START <= a -> tiles a (b :: n :: l) -> tiles a (merge b n :: l).
Proof.
  intros Ha (<- & Hs & Hn & Hsn & Ht). pose proof (tiles_bound _ _ Ht).
  unfold merge, block_end, sizeof_header, HEAP_END, HEAP_START, HEAP_SIZE in *; simpl in *.
  unfold block_end, sizeof_header; simpl.
  rewrite u32_small by words. split; [done|]. split; [lia|].
  by replace (hb_addr b + 12 + (hb_size b + (12 + hb_size n)))
    with (hb_addr n + 12 + hb_size n) by lia.
Qed.

(** Coalescing keeps the tiling and the blocks in use, keeps the first
    block's state, and leaves no two adjacent free blocks. *)
Lemma coalesce_spec l : forall a b, HEAP_START <= a -> tiles a (b :: l) ->
  tiles a (coalesce_from b l) /\ no_adjacent_free (coalesce_from b l) /\
  (exists c k, coalesce_from b l = c :: k /\ hb_free c = hb_free b) /\
  List.filter (fun c => negb (hb_free c)) (coalesce_from b l) =
    List.filter (fun c => negb (hb_free c)) (b :: l).
Proof.
  induction l as [|n l IH]; intros a b Ha Ht.
  { simpl. split; [done|]. split; [done|]. split; [by exists b, []|done]. }
  cbn [coalesce_from]. change (Block _ _ _) with (merge b n).
  destruct (hb_free b && hb_free n && (block_end b =? hb_addr n)) eqn:E.
  - apply andb_true_iff in E as [E _]. apply andb_true_iff in E as [Eb En].
    destruct (IH a (merge b n) Ha) as (H1 & H2 & H3 & H4); [by apply merge_tiles|].
    split; [done|]. split; [done|]. split; [done|]. rewrite H4. simpl. by rewrite Eb, En.
  - destruct Ht as (<- & Hs & Ht). assert (Hn := Ht). destruct Hn as (Hn & Hsn & _).
    rewrite (proj2 (Z.eqb_eq _ _)), andb_true_r in E by done.
    destruct (IH (block_end b) n) as (H1 & H2 & (c & k & Ec & Hc) & H4);
      [unfold block_end, sizeof_header; lia|done|].
    rewrite Ec in *. split; [by split|]. split.
    + split; [|done]. intros Hb. rewrite Hb in E. by rewrite Hc.
    + split; [by exists b, (c :: k)|]. simpl in *. by rewrite H4.
Qed.

(** ** The operations keep the invariant *)

(** The blocks in use. *)
Definition live (h : heap) : list heap_block :=
  List.filter (fun c => negb (hb_free c)) (heap_head h).

Lemma heap_init_ok : heap_ok heap_init.
Proof. split; [done| |by split]. simpl. split; [done|]. split; [done|]. done. Qed.

Lemma tiles_size_bound a l b : HEAP_START <= a -> tiles a l -> b ∈ l ->
  8 <= hb_size b < 4294967296.
Proof.
  intros Ha Ht Hb. destruct (tiles_size _ _ _ Ht Hb Ha) as (H1 & _ & H2 & H3).
  unfold block_end, sizeof_header, HEAP_END, HEAP_START, HEAP_SIZE in *. lia.
Qed.

(** What a successful [kmalloc] does to the block list. *)
Lemma kmalloc_some h size p h' :
  heap_ok h -> is_u32 size -> kmalloc h size = (p, h') -> p <> 0 ->
  exists l1 b l2 u tl, let need := heap_align8 size in
    8 <= need <= HEAP_SIZE /\ (size <= need <= hb_size b /\ hb_size b < 4294967296) /\
    heap_head h = l1 ++ b :: l2 /\ h' = MkHeap true (l1 ++ take_block need b ++ l2) /\
    take_block need b = u :: tl /\ p = hb_addr u + sizeof_header /\ hb_addr u = hb_addr b /\
    hb_free b = true /\ hb_free u = false /\ need <= hb_size u /\
    Forall (fun c => hb_free c = true) tl /\
    Forall (fun c => hb_free c = false \/ hb_size c < need) l1.
Proof.
  intros Hok Hsz Hk Hp. unfold kmalloc in Hk. rewrite (ok_ready _ Hok) in Hk.
  destruct (Z.eqb_spec size 0) as [|H0]; [simpl in Hk; congruence|]. simpl in Hk.
  destruct (align8_bounds size Hsz H0) as [E|E]; [rewrite E in Hk; simpl in Hk; congruence|].
  destruct (Z.eqb_spec (heap_align8 size) 0); [simpl in Hk; congruence|]. simpl in Hk.
  destruct (Z.ltb_spec HEAP_SIZE (heap_align8 size)); [congruence|].
  destruct (first_fit _ _) as [[q l]|] eqn:Hff; [|congruence]. injection Hk as <- <-.
  destruct (first_fit_some _ _ _ _ Hff) as (l1 & b & l2 & Hl & -> & -> & Hf & Hfit & Hall).
  assert (Hb : 8 <= hb_size b < 4294967296).
  { eapply tiles_size_bound; [| apply Hok |rewrite Hl; apply elem_of_app; right; left]. done. }
  destruct (take_block_spec (heap_align8 size) b) as (u & Ha & Hu & Hus & Htb); [lia|lia|].
  destruct Htb as [[Htb _]|(r & Htb & Hr & _)]; [exists l1, b, l2, u, []|exists l1, b, l2, u, [r]];
    cbv zeta; rewrite Ha; split_and!; try done; try lia; by repeat constructor.
Qed.

Lemma kmalloc_ok h size p h' :
  heap_ok h -> is_u32 size -> kmalloc h size = (p, h') -> p <> 0 ->
  heap_ok h' /\ exists u,
    p = hb_addr u + sizeof_header /\ size <= hb_size u /\ hb_free u = false /\
    live h' ≡ₚ u :: live h.
Proof.
  intros Hok Hsz Hk Hp.
  destruct (kmalloc_some _ _ _ _ Hok Hsz Hk Hp)
    as (l1 & b & l2 & u & tl & Hneed & Hfit & Hl & -> & Htb & -> & Ha & Hb & Hu & Hus & Htl & _).
  split.
  - split; [done| |]; simpl.
    + destruct (tiles_app l1 HEAP_START (b :: l2)) as (m & Hm & Ht & Hrep);
        [rewrite <- Hl; apply Hok|].
      apply Hrep. destruct Ht as (<- & Hs & Ht). apply take_block_tiles; [done|lia|done].
    + pose proof (ok_coalesced _ Hok) as Hnaf. rewrite Hl in Hnaf.
      pose proof (take_block_naf (heap_align8 size) b l2 ltac:(lia) ltac:(lia) Hb
        (naf_app _ _ Hnaf)) as Hk2.
      rewrite Htb in *. simpl app in *. by eapply naf_replace.
  - exists u. split; [done|]. split; [lia|]. split; [done|]. unfold live; simpl.
    rewrite Hl, Htb, !List.filter_app. simpl. rewrite Hu, Hb. simpl.
    rewrite (filter_none _ tl).
    + simpl. by rewrite Permutation_middle.
    + intros x Hx. rewrite Forall_forall in Htl. by rewrite Htl.
Qed.

Lemma kmalloc_fail h size h' :
  heap_ok h -> is_u32 size -> kmalloc h size = (0, h') ->
  h' = h /\ (size = 0 \/ heap_align8 size = 0 \/ HEAP_SIZE < heap_align8 size \/
    Forall (fun c => hb_free c = false \/ hb_size c < heap_align8 size) (heap_head h)).
Proof.
  intros Hok Hsz Hk. unfold kmalloc in Hk. rewrite (ok_ready _ Hok) in Hk. simpl in Hk.
  destruct (Z.eqb_spec size 0) as [|H0]; [split; [congruence|by left]|].
  destruct (Z.eqb_spec (heap_align8 size) 0); [split; [simpl in Hk; congruence|by right; left]|].
  simpl in Hk. destruct (Z.ltb_spec HEAP_SIZE (heap_align8 size));
    [split; [congruence|by right; right; left]|].
  destruct (first_fit _ _) as [[q l]|] eqn:Hff.
  - exfalso. destruct (first_fit_some _ _ _ _ Hff) as (l1 & b & l2 & Hl & -> & -> & _).
    injection Hk as Hk _. assert (Hb : b ∈ heap_head h) by (rewrite Hl; apply elem_of_app; right; left).
    destruct (tiles_size _ _ _ (ok_tiles _ Hok) Hb) as [Hge _]; [done|].
    unfold HEAP_START, sizeof_header in *. lia.
  - split; [congruence|]. right; right; right. by apply first_fit_none.
Qed.

Lemma tiles_nodup l : forall a, HEAP_START <= a -> tiles a l -> NoDup (hb_addr <$> l).
Proof.
  induction l as [|b l IH]; intros a Ha Ht; [constructor|]. destruct Ht as (<- & Hs & Ht).
  assert (hb_addr b < block_end b) by (unfold block_end, sizeof_header; lia).
  constructor; [|eapply IH; [|done]; lia]. intros Hin.
  apply list_elem_of_fmap in Hin as (c & E & Hc).
  destruct (tiles_size _ _ _ Ht Hc) as (_ & ? & _); lia.
Qed.

(** Blocks in use have different addresses. *)
Lemma live_nodup h : heap_ok h -> NoDup (hb_addr <$> live h).
Proof.
  intros Hok. pose proof (tiles_nodup _ HEAP_START ltac:(lia) (ok_tiles _ Hok)) as Hl.
  unfold live. induction (heap_head h) as [|b l IH]; simpl; [constructor|].
  apply NoDup_cons in Hl as [Hb Hl]. destruct (negb (hb_free b)); [|by apply IH].
  simpl. constructor; [|by apply IH]. intros Hin. apply Hb.
  apply list_elem_of_fmap in Hin as (c & E & Hc). apply list_elem_of_fmap. exists c.
  split; [done|]. by apply list_elem_of_In, List.filter_In in Hc as [Hc%list_elem_of_In _].
Qed.

(** ** Freeing *)

Lemma set_free_tiles l1 b l2 : forall a, tiles a (l1 ++ b :: l2) ->
  set_free (hb_addr b) (l1 ++ b :: l2) = Some (l1 ++ Block (hb_addr b) (hb_size b) true :: l2).
Proof.
  induction l1 as [|c l1 IH]; intros a Ht; simpl.
  - by rewrite Z.eqb_refl.
  - destruct Ht as (<- & Hs & Ht).
    assert (block_end c <= hb_addr b).
    { destruct (tiles_app l1 _ _ Ht) as (m & Hm & (<- & _) & _). done. }
    unfold block_end, sizeof_header in *.
    destruct (Z.eqb_spec (hb_addr c) (hb_addr b)); [lia|]. by erewrite IH.
Qed.

Lemma kfree_unfold h l1 b l2 :
  heap_ready h = true -> tiles HEAP_START (heap_head h) -> heap_head h = l1 ++ b :: l2 ->
  kfree h (hb_addr b + sizeof_header) =
    Ok (MkHeap true (heap_coalesce (l1 ++ Block (hb_addr b) (hb_size b) true :: l2))).
Proof.
  intros Hr Ht Hl. assert (Hb : b ∈ heap_head h) by (rewrite Hl; apply elem_of_app; right; left).
  destruct (tiles_size _ _ _ Ht Hb) as (Hge & _ & Hsz & Hend); [done|].
  rewrite Hl in Ht. unfold kfree. rewrite Hr. cbn [negb orb].
  unfold block_end, HEAP_END, HEAP_START, HEAP_SIZE, sizeof_header in *.
  destruct (Z.eqb_spec (hb_addr b + 12) 0); [lia|].
  destruct (Z.ltb_spec (hb_addr b + 12) (16777216 + 12)); [lia|].
  destruct (Z.leb_spec (16777216 + 16777216) (hb_addr b + 12)); [lia|]. cbn [orb].
  replace (hb_addr b + 12 - 12) with (hb_addr b) by lia.
  destruct (Z.ltb_spec (hb_addr b) 16777216); [lia|].
  destruct (Z.leb_spec (16777216 + 16777216) (hb_addr b)); [lia|]. cbn [orb].
  rewrite Hl. by erewrite set_free_tiles.
Qed.

Lemma kfree_ok h l1 b l2 :
  heap_ok h -> heap_head h = l1 ++ b :: l2 ->
  exists h', kfree h (hb_addr b + sizeof_header) = Ok h' /\ heap_ok h' /\
    live h' = List.filter (fun c => negb (hb_free c)) (l1 ++ l2).
Proof.
  intros Hok Hl. erewrite kfree_unfold by (done || apply Hok). eexists. split; [done|].
  destruct (tiles_app l1 HEAP_START (b :: l2)) as (m & Hm & (Ha & Hs & Ht2) & Hrep);
    [rewrite <- Hl; apply Hok|].
  set (l := l1 ++ _ :: l2).
  assert (Ht : tiles HEAP_START l) by by apply Hrep.
  assert (Hf : List.filter (fun c => negb (hb_free c)) l =
    List.filter (fun c => negb (hb_free c)) (l1 ++ l2)).
  { unfold l. by rewrite !List.filter_app. }
  assert (Hne : l <> []) by (unfold l; by destruct l1). clearbody l.
  destruct l as [|c k]; [done|].
  destruct (coalesce_spec k HEAP_START c ltac:(done) Ht) as (H1 & H2 & _ & H4).
  split; [by split|]. unfold live; simpl. by rewrite H4.
Qed.

Lemma live_split h b : b ∈ live h -> exists l1 l2, heap_head h = l1 ++ b :: l2.
Proof.
  intros Hb. apply list_elem_of_In, List.filter_In in Hb as [Hb _].
  apply list_elem_of_In, list_elem_of_split in Hb as (l1 & l2 & ->). by exists l1, l2.
Qed.


(** Freeing a block in use: the others stay in use. *)
Lemma kfree_live h b : heap_ok h -> b ∈ live h ->
  exists h', kfree h (hb_addr b + sizeof_header) = Ok h' /\ heap_ok h' /\
    forall c, c ∈ live h -> hb_addr c <> hb_addr b -> c ∈ live h'.
Proof.
  intros Hok Hb. destruct (live_split _ _ Hb) as (l1 & l2 & Hl).
  destruct (kfree_ok _ _ _ _ Hok Hl) as (h' & E & Hok' & Hlive). exists h'.
  split; [done|]. split; [done|]. intros c Hc Hne. rewrite Hlive.
  unfold live in Hc. rewrite Hl in Hc. apply list_elem_of_In, List.filter_In in Hc as [Hc Hf].
  apply list_elem_of_In, List.filter_In. split; [|done].
  apply list_elem_of_In in Hc. apply list_elem_of_In.
  apply elem_of_app in Hc as [Hc|Hc]; [apply elem_of_app; by left|].
  apply elem_of_cons in Hc as [->|Hc]; [done|]. apply elem_of_app; by right.
Qed.

(** Freeing what was just allocated gives the heap back as it was. *)
Lemma kmalloc_kfree h size p h' :
  heap_ok h -> is_u32 size -> kmalloc h size = (p, h') -> p <> 0 -> kfree h' p = Ok h.
Proof.
  intros Hok Hsz Hk Hp. destruct (kmalloc_ok _ _ _ _ Hok Hsz Hk Hp) as [Hok' _].
  destruct (kmalloc_some _ _ _ _ Hok Hsz Hk Hp)
    as (l1 & b & l2 & u & tl & Hneed & Hfit & Hl & -> & Htb & -> & Ha & Hb & Hu & Hus & _ & _).
  rewrite (kfree_unfold _ l1 u (tl ++ l2)); [|done|apply Hok'|simpl; by rewrite Htb].
  pose proof (ok_coalesced _ Hok) as Hnaf. rewrite Hl in Hnaf.
  rewrite (coalesce_app l1 b l2) by done. pose proof (naf_app _ _ Hnaf) as Hnaf2.
  assert (coalesce_from (Block (hb_addr u) (hb_size u) true) (tl ++ l2) = b :: l2) as ->.
  { destruct b as [ba bz bf]; simpl in *; subst bf.
    destruct (take_block_spec (heap_align8 size) (Block ba bz true)) as (u' & Ha' & Hu' & _ & Hcase);
      [lia|simpl; lia|].
    destruct Hcase as [[E Es]|(r & E & Hr & Hrs & Hra & Hre & Hus' & Hbs)];
      rewrite Htb in E; injection E as <- ->; simpl in *.
    - rewrite Ha, Es. by apply coalesce_naf_id.
    - rewrite Hr, Hra. unfold block_end at 1 2. simpl. rewrite Z.eqb_refl. simpl.
      rewrite u32_small by (unfold sizeof_header in *; words).
      replace (hb_size u + (sizeof_header + hb_size r)) with bz by lia.
      rewrite Ha. by apply coalesce_naf_id. }
  destruct h as [r l]; simpl in *. by rewrite Hl, <- (ok_ready _ Hok).
Qed.

(** ** Byte accounting *)

Fixpoint size_sum (f : bool) (l : list heap_block) : Z :=
  match l with
  | [] => 0
  | b :: l' => (if Bool.eqb (hb_free b) f then hb_size b else 0) + size_sum f l'
  end.

Lemma tiles_sum l : forall a, tiles a l ->
  0 <= size_sum true l /\ 0 <= size_sum false l /\
  a + size_sum true l + size_sum false l + sizeof_header * Z.of_nat (length l) = HEAP_END.
Proof.
  induction l as [|b l IH]; intros a Ht; simpl in *; [lia|].
  destruct Ht as (<- & Hs & Ht). apply IH in Ht. unfold block_end, sizeof_header in *.
  destruct (hb_free b); simpl; lia.
Qed.

Lemma sum_if_size_sum f l a : HEAP_START <= a -> tiles a l -> sum_if f l = size_sum f l.
Proof.
  intros Ha Ht. unfold sum_if.
  assert (H : forall acc, 0 <= acc -> acc + size_sum true l + size_sum false l < 4294967296 ->
    foldl (fun acc b => if Bool.eqb (hb_free b) f then u32 (acc + hb_size b) else acc) acc l =
    acc + size_sum f l).
  { clear Ha. revert a Ht. induction l as [|b l IH]; intros a Ht acc H0 Hacc; simpl in *; [lia|].
    destruct Ht as (<- & Hs & Ht). pose proof (tiles_sum _ _ Ht).
    destruct (hb_free b), f; simpl in *; rewrite ?u32_small by words; rewrite (IH _ Ht); lia. }
  pose proof (tiles_sum _ _ Ht). rewrite H; [lia|lia|].
  unfold HEAP_END, HEAP_START, HEAP_SIZE, sizeof_header in *. lia.
Qed.

(** ** Reachable heaps *)

(** One call of the allocator: [kmalloc] with any size, [kfree] of a block
    in use, or of a pointer the guards reject. *)
Inductive heap_step : heap -> heap -> Prop :=
| step_kmalloc h size p h' :
    is_u32 size -> kmalloc h size = (p, h') -> heap_step h h'
| step_kfree h b h' :
    b ∈ live h -> kfree h (hb_addr b + sizeof_header) = Ok h' -> heap_step h h'
| step_kfree_rejected h p h' :
    p < HEAP_START + sizeof_header \/ HEAP_END <= p -> kfree h p = Ok h' -> heap_step h h'.

Inductive heap_reachable : heap -> Prop :=
| reach_init : heap_reachable heap_init
| reach_step h h' : heap_reachable h -> heap_step h h' -> heap_reachable h'.

Lemma heap_step_ok h h' : heap_ok h -> heap_step h h' -> heap_ok h'.
Proof.
  intros Hok Hs. destruct Hs as [h size p h' Hsz Hk|h b h' Hb Hk|h p h' Hp Hk].
  - destruct (decide (p = 0)) as [->|Hp]; [by destruct (kmalloc_fail _ _ _ Hok Hsz Hk) as [-> _]|].
    by destruct (kmalloc_ok _ _ _ _ Hok Hsz Hk Hp).
  - destruct (live_split _ _ Hb) as (l1 & l2 & Hl).
    destruct (kfree_ok _ _ _ _ Hok Hl) as (h2 & E & Hok2 & _). congruence.
  - unfold kfree in Hk. destruct (negb (heap_ready h) || (p =? 0)); [congruence|].
    replace ((p <? HEAP_START + sizeof_header) || (HEAP_END <=? p)) with true in Hk by lia.
    congruence.
Qed.

Lemma reachable_ok h : heap_reachable h -> heap_ok h.
Proof. induction 1; [apply heap_init_ok|by eapply heap_step_ok]. Qed.

(** * Properties *)

(** From a well-formed page allocator, [pmm_alloc_page] returns NULL only
    when every managed page is in use, leaving the state alone; otherwise it
    returns the address of the lowest free managed page, which becomes the
    only newly allocated page, the invariant holds again and the free count
    drops by one. *)
Theorem pmm_alloc_page_correct st p st' (Hok : pmm_ok st)
    (Ha : pmm_alloc_page st = (p, st')) :
  (p = 0 /\ st' = st /\ forall i, managed st i -> allocated st i) \/
  (exists i, p = i * PAGE_SIZE /\ managed st i /\ ~ allocated st i /\
    (forall j, managed st j -> ~ allocated st j -> i <= j) /\
    (forall j, allocated st' j <-> j = i \/ allocated st j) /\
    pmm_ok st' /\
    pmm_free_blocks_count st' = pmm_free_blocks_count st - 1).
Proof.
  destruct (decide (p = 0)) as [->|Hp].
  - left. destruct (alloc_page_none _ _ _ Hok Ha eq_refl). done.
  - right. destruct (alloc_page_some _ _ _ Hok Ha Hp)
      as (i & ? & ? & ? & ? & ? & ? & ? & _). by exists i.
Qed.

Lemma pmm_alloc_page_correct_witness :
  let st := pmm_init 0x4000000 in
  fst (pmm_alloc_page st) = 0x2000000 /\ pmm_ok (snd (pmm_alloc_page st)).
Proof.
  cbv zeta. assert (Hok : pmm_ok (pmm_init 0x4000000)) by (apply pmm_init_ok; words).
  assert (E : fst (pmm_alloc_page (pmm_init 0x4000000)) = 0x2000000) by by vm_compute.
  split; [exact E|]. revert E Hok. generalize (pmm_init 0x4000000) as st. intros st E Hok.
  destruct (pmm_alloc_page_correct st _ _ Hok (surjective_pairing _))
    as [(E0 & _)|(i & _ & _ & _ & _ & _ & H & _)]; [congruence|exact H].
Defined.

(** Freeing the page just allocated restores the page allocator exactly,
    and freeing any pointer that is not an allocated page (NULL, reserved,
    out of range, already free) changes nothing. *)
Theorem pmm_alloc_free_roundtrip st p st' (Hok : pmm_ok st)
    (Ha : pmm_alloc_page st = (p, st')) :
  pmm_free_page st' p = st /\
  forall q, ~ allocated st (u32 q / PAGE_SIZE) -> pmm_free_page st q = st.
Proof.
  split; [|intros; by apply free_page_other]. destruct (decide (p = 0)) as [->|Hp].
  - by destruct (alloc_page_none _ _ _ Hok Ha eq_refl) as [-> _].
  - destruct (alloc_page_some _ _ _ Hok Ha Hp)
      as (i & -> & Hi & Hna & Hok' & _ & Hall & _ & E).
    rewrite free_page_allocated; [|done|apply Hall; by left]. rewrite E; simpl.
    rewrite clear_set; [|apply Hok|by apply managed_in_bitmap|].
    + destruct st; simpl. f_equal; lia.
    + apply not_true_is_false. intros Ht. by apply Hna.
Qed.

Lemma pmm_alloc_free_roundtrip_witness :
  let st := pmm_init 0x4000000 in
  pmm_free_page (snd (pmm_alloc_page st)) 0x2000000 = st.
Proof.
  cbv zeta. assert (Hok : pmm_ok (pmm_init 0x4000000)) by (apply pmm_init_ok; words).
  assert (E : fst (pmm_alloc_page (pmm_init 0x4000000)) = 0x2000000) by by vm_compute.
  revert E Hok. generalize (pmm_init 0x4000000) as st. intros st <- Hok.
  exact (proj1 (pmm_alloc_free_roundtrip st _ _ Hok (surjective_pairing _))).
Defined.

(** C5: in every heap reachable from [heap_init] by allocator calls, the
    blocks tile the 16 MiB region, no two adjacent blocks are free, the
    payloads of two different blocks are disjoint and inside the region, and
    the byte counters account for every byte but the headers. *)
Theorem heap_reachable_invariant h (Hr : heap_reachable h) :
  tiles HEAP_START (heap_head h) /\
  no_adjacent_free (heap_head h) /\
  (forall i j b c, heap_head h !! i = Some b -> heap_head h !! j = Some c -> (i < j)%nat ->
     block_end b <= hb_addr c) /\
  (forall b, b ∈ heap_head h ->
     HEAP_START <= hb_addr b /\ block_end b <= HEAP_END) /\
  kheap_used_bytes h + kheap_free_bytes h +
    sizeof_header * Z.of_nat (length (heap_head h)) = HEAP_SIZE.
Proof.
  pose proof (reachable_ok _ Hr) as [Hrd Ht Hn].
  split_and!; [done|done| | |].
  - intros. by eapply tiles_disjoint.
  - intros b Hb. destruct (tiles_size _ _ _ Ht Hb ltac:(done)) as (? & _ & _ & ?). done.
  - unfold kheap_used_bytes, kheap_free_bytes. rewrite Hrd. simpl.
    rewrite !(sum_if_size_sum _ _ HEAP_START) by done.
    pose proof (tiles_sum _ _ Ht) as (_ & _ & Hsum). revert Hsum.
    unfold HEAP_END, HEAP_SIZE, HEAP_START, sizeof_header. lia.
Qed.

Lemma heap_reachable_invariant_witness :
  let h1 := snd (kmalloc heap_init 100) in
  kheap_used_bytes h1 + kheap_free_bytes h1 + 24 = HEAP_SIZE.
Proof.
  refine (proj2 (proj2 (proj2 (proj2 (heap_reachable_invariant
    (snd (kmalloc heap_init 100)) _))))).
  eapply reach_step; [apply reach_init|].
  apply (step_kmalloc _ 100 (fst (kmalloc heap_init 100))); [words|].
  apply surjective_pairing.
Defined.

(** C28: a successful [kmalloc] returns the payload of a block at least as
    large as requested that joins the blocks in use, all of which stay as
    they were; freeing it gives back exactly the previous heap. *)
Theorem kmalloc_kfree_roundtrip h size p h' (Hok : heap_ok h) (Hsz : is_u32 size)
    (Hk : kmalloc h size = (p, h')) (Hp : p <> 0) :
  (exists u, p = hb_addr u + sizeof_header /\ size <= hb_size u /\
     live h' ≡ₚ u :: live h) /\
  kfree h' p = Ok h.
Proof.
  split; [|by eapply kmalloc_kfree].
  destruct (kmalloc_ok _ _ _ _ Hok Hsz Hk Hp) as (_ & u & ? & ? & _ & ?). by exists u.
Qed.

Lemma kmalloc_kfree_roundtrip_witness :
  kfree (snd (kmalloc heap_init 28)) 0x100000C = Ok heap_init.
Proof.
  refine (proj2 (kmalloc_kfree_roundtrip heap_init 28 0x100000C _ heap_init_ok _ _ _)).
  - words.
  - by vm_compute.
  - done.
Defined.
