(* ===== verification/Klog.v ===== *)
(** The kernel log, src/src/kernel/klog.c: an 8 KiB ring of text, refined to
    the sequence of the last 8192 bytes logged.

    [serial] is what [serial_is_ready] answers; the bytes a call passes to the
    serial port are returned beside the new state. *)
From Stdlib Require Import ZArith Lia Ascii String.
From stdpp Require Import base tactics option numbers list.
From S2P Require Import Prelude CString.
#[local] Open Scope Z_scope.

Definition KLOG_RING_CAPACITY : Z := 8192.

Record klog := Klog {
  g_klog_ring : list Z;
  g_klog_head : Z;
  g_klog_size : Z;
  g_klog_lines : Z;
}.

Inductive klog_level_t :=
| KLOG_EMERG | KLOG_ALERT | KLOG_CRIT | KLOG_ERR
| KLOG_WARN | KLOG_NOTICE | KLOG_INFO | KLOG_DEBUG.

Definition klog_level_char (level : klog_level_t) : Z :=
  match level with
  | KLOG_EMERG => ch "0"
  | KLOG_ALERT => ch "1"
  | KLOG_CRIT => ch "2"
  | KLOG_ERR => ch "3"
  | KLOG_WARN => ch "4"
  | KLOG_NOTICE => ch "5"
  | KLOG_INFO => ch "6"
  | KLOG_DEBUG => ch "7"
  end.

Definition klog_ring_putc (st : klog) (c : Z) : klog :=
  Klog (<[Z.to_nat (g_klog_head st) := c]> (g_klog_ring st))
       (u32 (g_klog_head st + 1) mod KLOG_RING_CAPACITY)
       (if g_klog_size st <? KLOG_RING_CAPACITY then g_klog_size st + 1 else g_klog_size st)
       (g_klog_lines st).

Fixpoint klog_ring_puts (st : klog) (s : list Z) : klog :=
  match s with
  | [] => st
  | c :: s' => if c =? 0 then st else klog_ring_puts (klog_ring_putc st c) s'
  end.

(** The copy loop of [klog_append]: [dst[len++] = *src++] while there is room. *)
Fixpoint append_loop (dst : list Z) (len cap : nat) (src : list Z) : outcome (list Z) :=
  match src with
  | c :: src' =>
    if (len + 1 <? cap)%nat && negb (c =? 0)
    then dst ← store (Z.of_nat len) c dst; append_loop dst (S len) cap src'
    else store (Z.of_nat len) 0 dst
  | [] => store (Z.of_nat len) 0 dst
  end.

Definition klog_append (dst : list Z) (cap : nat) (src : list Z) : outcome (list Z) :=
  if (cap =? 0)%nat then Ok dst else append_loop dst (strlen dst) cap src.

Definition klog_init : klog :=
  Klog (replicate (Z.to_nat KLOG_RING_CAPACITY) 0) 0 0 0.

Definition klog_clear (st : klog) : klog :=
  Klog (replicate (Z.to_nat KLOG_RING_CAPACITY) 0) 0 0 (g_klog_lines st).

(** The calls [klog_log] makes on the ring, and again on the serial port. *)
Definition log_pieces (level_c : Z) (seq subsys msg : list Z) : list (list Z) :=
  [[ch "<"]; [level_c]; [ch ">"]; [ch " "]; [ch "["]; seq; [ch "]"]; [ch " "];
   [ch "["]; subsys; [ch "]"]; [ch " "]; msg; [10]].

Definition klog_log (serial : bool) (st : klog) (level : klog_level_t)
    (subsys msg : option (list Z)) : klog * list Z :=
  let subsys := match subsys with
                | Some s => if hd0 s =? 0 then bs "core" else s
                | None => bs "core"
                end in
  let msg := default [] msg in
  let st := Klog (g_klog_ring st) (g_klog_head st) (g_klog_size st)
                 (u32 (g_klog_lines st + 1)) in
  let seq := utoa_text (g_klog_lines st) 10 in
  let pieces := log_pieces (klog_level_char level) seq subsys msg in
  (foldl klog_ring_puts st pieces,
   if serial then concat (map (fun p => buf_text (p ++ [0])) pieces) else []).

(** [char line[96]] and [char value_buf[16]]. *)
Definition klog_log_u32 (serial : bool) (st : klog) (level : klog_level_t)
    (subsys prefix : option (list Z)) (value base : Z) : outcome (klog * list Z) :=
  let base := if negb (base =? 16) then 10 else base in
  let line := replicate 96 0 in
  line ← match prefix with
         | Some p => if hd0 p =? 0 then Ok line else klog_append line 96 p
         | None => Ok line
         end;
  line ← (if hd0 line =? 0 then Ok line else klog_append line 96 (bs " "));
  line ← (if base =? 16 then klog_append line 96 (bs "0x") else Ok line);
  value_buf ← utoa_into 16 value base;
  line ← klog_append line 96 value_buf;
  Ok (klog_log serial st level subsys (Some (buf_text line))).

(** [klog_read(out, max_len)]: the text left in [out] (NULL is [None]) and the
    return value. *)
Definition klog_read (st : klog) (max_len : Z) : list Z * Z :=
  if max_len <=? 0 then ([], 0)
  else if g_klog_size st =? 0 then ([], 0)
  else
    let copy_len := i32 (g_klog_size st) in
    let copy_len := if max_len - 1 <? copy_len then max_len - 1 else copy_len in
    let start := u32 (g_klog_head st + KLOG_RING_CAPACITY - g_klog_size st)
                 mod KLOG_RING_CAPACITY in
    (map (fun i => byte_at (g_klog_ring st)
                     (Z.to_nat (u32 (start + Z.of_nat i) mod KLOG_RING_CAPACITY)))
         (seq 0 (Z.to_nat copy_len)),
     copy_len).

Definition klog_bytes_used (st : klog) : Z := g_klog_size st.
Definition klog_line_count (st : klog) : Z := g_klog_lines st.

Arguments klog_log : simpl never.
Arguments klog_log_u32 : simpl never.

(** * Invariant and abstraction *)

Record klog_ok (st : klog) : Prop := {
  ok_ring : Z.of_nat (length (g_klog_ring st)) = KLOG_RING_CAPACITY;
  ok_head : 0 <= g_klog_head st < KLOG_RING_CAPACITY;
  ok_size : 0 <= g_klog_size st <= KLOG_RING_CAPACITY;
}.

(** The logged bytes the ring holds, oldest first. *)
Definition contents (st : klog) : list Z :=
  map (fun i => byte_at (g_klog_ring st)
         (Z.to_nat ((g_klog_head st - g_klog_size st + Z.of_nat i) mod KLOG_RING_CAPACITY)))
      (seq 0 (Z.to_nat (g_klog_size st))).

(** The last [KLOG_RING_CAPACITY] bytes of a sequence. *)
Definition newest (l : list Z) : list Z := drop (length l - Z.to_nat KLOG_RING_CAPACITY) l.

Lemma length_contents st : length (contents st) = Z.to_nat (g_klog_size st).
Proof. unfold contents. by rewrite length_map, length_seq. Qed.

Lemma contents_lookup st i :
  (i < Z.to_nat (g_klog_size st))%nat ->
  contents st !! i = Some (byte_at (g_klog_ring st)
    (Z.to_nat ((g_klog_head st - g_klog_size st + Z.of_nat i) mod KLOG_RING_CAPACITY))).
Proof.
  intros Hi. unfold contents. rewrite list_lookup_fmap, lookup_seq_lt by done. done.
Qed.

Lemma newest_app a b : newest (newest a ++ b) = newest (a ++ b).
Proof.
  unfold newest. set (n := Z.to_nat KLOG_RING_CAPACITY).
  rewrite !length_app, !length_drop, !drop_app.
  rewrite !drop_drop, !length_drop. f_equal; f_equal; lia.
Qed.

Lemma newest_short l : (length l <= Z.to_nat KLOG_RING_CAPACITY)%nat -> newest l = l.
Proof. intros. unfold newest. by replace (_ - _)%nat with 0%nat by lia. Qed.

Lemma putc_ok st c : klog_ok st -> klog_ok (klog_ring_putc st c).
Proof.
  intros [Hr Hh Hs]. split; simpl.
  - by rewrite length_insert.
  - apply Z.mod_pos_bound. done.
  - destruct (Z.ltb_spec (g_klog_size st) KLOG_RING_CAPACITY); lia.
Qed.

Lemma mod_capacity_inj h a b :
  0 <= a < KLOG_RING_CAPACITY -> 0 <= b < KLOG_RING_CAPACITY -> a <> b ->
  (h + a) mod KLOG_RING_CAPACITY <> (h + b) mod KLOG_RING_CAPACITY.
Proof. unfold KLOG_RING_CAPACITY. intros. Z.to_euclidean_division_equations. lia. Qed.

(** One character: the queue loses its oldest byte when it is full. *)
Lemma putc_contents st c :
  klog_ok st -> contents (klog_ring_putc st c) = newest (contents st ++ [c]).
Proof.
  intros Hok. destruct Hok as [Hr Hh Hs]. unfold newest.
  rewrite length_app, length_contents. simpl.
  set (k := (Z.to_nat (g_klog_size st) + 1 - Z.to_nat KLOG_RING_CAPACITY)%nat).
  assert (Hk : (k = 0%nat /\ g_klog_size st < KLOG_RING_CAPACITY) \/
               (k = 1%nat /\ g_klog_size st = KLOG_RING_CAPACITY)).
  { subst k. unfold KLOG_RING_CAPACITY in *. lia. }
  assert (Hsz : g_klog_size (klog_ring_putc st c) = g_klog_size st + 1 - Z.of_nat k).
  { simpl. destruct (Z.ltb_spec (g_klog_size st) KLOG_RING_CAPACITY); lia. }
  apply list_eq_same_length with (n := Z.to_nat (g_klog_size st + 1 - Z.of_nat k)).
  { rewrite length_drop, length_app, length_contents. simpl. lia. }
  { rewrite length_contents. by rewrite Hsz. }
  intros i x y Hi Hx Hy.
  rewrite contents_lookup in Hx by (rewrite Hsz; lia). rewrite Hsz in Hx. injection Hx as <-.
  rewrite lookup_drop in Hy. cbn [g_klog_ring g_klog_head klog_ring_putc].
  rewrite u32_small by (unfold KLOG_RING_CAPACITY in *; words).
  set (j := (g_klog_size st - Z.of_nat (k + i))).
  assert (Hj : 0 <= j <= g_klog_size st /\ j < KLOG_RING_CAPACITY) by (subst j; lia).
  replace (_ - (g_klog_size st + 1 - Z.of_nat k) + Z.of_nat i)
    with ((g_klog_head st + 1) mod KLOG_RING_CAPACITY + (- 1 - j)) by (subst j; lia).
  rewrite Zplus_mod_idemp_l.
  replace (g_klog_head st + 1 + (-1 - j)) with (g_klog_head st - j) by lia.
  destruct (decide (k + i = Z.to_nat (g_klog_size st))%nat) as [E|E].
  - rewrite lookup_app_r in Hy by (rewrite length_contents; lia).
    rewrite length_contents, E, Nat.sub_diag in Hy. injection Hy as <-.
    replace j with 0 by (subst j; lia). rewrite Z.sub_0_r, Z.mod_small by done.
    apply byte_at_insert_eq. lia.
  - rewrite lookup_app_l in Hy by (rewrite length_contents; lia).
    rewrite contents_lookup in Hy by lia. injection Hy as <-.
    replace (g_klog_head st - g_klog_size st + Z.of_nat (k + i)) with (g_klog_head st - j)
      by (subst j; lia).
    apply byte_at_insert_ne.
    pose proof (mod_capacity_inj (g_klog_head st - j) j 0).
    rewrite Z.add_0_r, Z.sub_add, (Z.mod_small (g_klog_head st)) in H by done.
    pose proof (Z.mod_pos_bound (g_klog_head st - j) KLOG_RING_CAPACITY). 
    assert (0 < j) by (subst j; lia). unfold KLOG_RING_CAPACITY in *. lia.
Qed.

Lemma puts_ok s : forall st, klog_ok st -> klog_ok (klog_ring_puts st s).
Proof.
  induction s as [|c s IH]; intros st H; simpl; [done|]. case_match; [done|].
  by apply IH, putc_ok.
Qed.

Lemma puts_contents s : nul_free s -> forall st, klog_ok st ->
  contents (klog_ring_puts st s) = newest (contents st ++ s).
Proof.
  induction 1 as [|c s Hc _ IH]; intros st H; simpl.
  - rewrite app_nil_r, newest_short; [done|]. rewrite length_contents. destruct H. lia.
  - destruct (Z.eqb_spec c 0); [done|]. rewrite IH by by apply putc_ok.
    rewrite putc_contents, newest_app by done. by rewrite <- app_assoc.
Qed.

Lemma puts_lines s : forall st, g_klog_lines (klog_ring_puts st s) = g_klog_lines st.
Proof. induction s as [|c s IH]; intros st; simpl; [done|]. case_match; [done|]. by rewrite IH. Qed.

(** ** Log lines *)

(** One record of the log as text. *)
Definition log_line (n : Z) (level : klog_level_t) (subsys msg : list Z) : list Z :=
  concat (log_pieces (klog_level_char level) (utoa_text n 10) subsys msg).

Lemma pieces_contents ps : Forall nul_free ps -> forall st, klog_ok st ->
  klog_ok (foldl klog_ring_puts st ps) /\
  contents (foldl klog_ring_puts st ps) = newest (contents st ++ concat ps) /\
  g_klog_lines (foldl klog_ring_puts st ps) = g_klog_lines st.
Proof.
  induction 1 as [|p ps Hp _ IH]; intros st Hok; simpl.
  - rewrite app_nil_r, newest_short; [done|]. rewrite length_contents. destruct Hok. lia.
  - destruct (IH _ (puts_ok p st Hok)) as (H1 & H2 & H3). split; [done|].
    rewrite H2, H3, puts_lines, (puts_contents p) by done.
    by rewrite newest_app, <- app_assoc.
Qed.

Lemma utoa_text_nul_free n base : is_u32 n -> base = 10 \/ base = 16 -> nul_free (utoa_text n base).
Proof.
  intros Hn Hb. unfold utoa_text.
  destruct (utoa_spec base 31 n) as (s & -> & _ & _ & Hf); [lia|lia|done| |].
  - eapply Z.lt_le_trans; [apply Hn|]. destruct Hb as [-> | ->]; vm_compute; discriminate.
  - simpl. eapply Forall_impl; [exact Hf|]. intros c Hc. unfold is_digit_char in Hc.
    revert Hc. chars. lia.
Qed.

Lemma level_char_nul_free l : nul_free [klog_level_char l].
Proof. repeat constructor. by destruct l. Qed.

Lemma log_pieces_nul_free n l subsys msg : is_u32 n -> nul_free subsys -> nul_free msg ->
  Forall nul_free (log_pieces (klog_level_char l) (utoa_text n 10) subsys msg).
Proof.
  intros Hn Hs Hm. unfold log_pieces.
  repeat match goal with |- Forall nul_free _ => constructor end;
    try done; try (by repeat constructor).
  - apply level_char_nul_free.
  - apply utoa_text_nul_free; [done|by left].
Qed.

(** The subsystem name [klog_log] prints. *)
Definition subsys_name (subsys : list Z) : list Z :=
  match subsys with [] => bs "core" | _ => subsys end.

Lemma subsys_name_nul_free s : nul_free s -> nul_free (subsys_name s).
Proof. destruct 1; [by repeat constructor|by constructor]. Qed.

Lemma klog_log_spec serial st level subsys msg :
  klog_ok st -> nul_free subsys -> nul_free msg ->
  let st' := (klog_log serial st level (Some subsys) (Some msg)).1 in
  klog_ok st' /\
  g_klog_lines st' = u32 (g_klog_lines st + 1) /\
  contents st' = newest (contents st ++
    log_line (u32 (g_klog_lines st + 1)) level (subsys_name subsys) msg).
Proof.
  intros Hok Hs Hm. unfold klog_log.
  assert (E : (if hd0 subsys =? 0 then bs "core" else subsys) = subsys_name subsys).
  { destruct Hs as [|c s Hc _]; [done|]. unfold hd0, byte_at; simpl.
    by destruct (Z.eqb_spec c 0). }
  cbn [fst default from_option id]. rewrite E. cbn [g_klog_lines].
  unfold log_line.
  pose proof (log_pieces_nul_free (u32 (g_klog_lines st + 1)) level _ msg
    (u32_range _) (subsys_name_nul_free _ Hs) Hm) as HF.
  revert HF. generalize (log_pieces (klog_level_char level)
    (utoa_text (u32 (g_klog_lines st + 1)) 10) (subsys_name subsys) msg) as ps. intros ps HF.
  destruct (pieces_contents ps HF (Klog (g_klog_ring st) (g_klog_head st) (g_klog_size st)
    (u32 (g_klog_lines st + 1)))) as (H1 & H2 & H3); [by destruct Hok|].
  split; [exact H1|]. split; [exact H3|exact H2].
Qed.

Lemma foldl_puts_ok ps : forall st, klog_ok st -> klog_ok (foldl klog_ring_puts st ps).
Proof. induction ps as [|p ps IH]; intros st H; simpl; [done|]. by apply IH, puts_ok. Qed.

Lemma klog_log_ok serial st level subsys msg :
  klog_ok st -> klog_ok (klog_log serial st level subsys msg).1.
Proof.
  intros H. unfold klog_log. cbn [fst]. generalize (log_pieces (klog_level_char level)) as ps.
  intros ps. apply foldl_puts_ok. by destruct H.
Qed.

Lemma klog_init_ok : klog_ok klog_init.
Proof. split; done. Qed.

(** A logged message, and the text a list of messages leaves. *)
Record message := Message { m_level : klog_level_t; m_subsys : list Z; m_text : list Z }.

Definition message_ok (m : message) : Prop := nul_free (m_subsys m) /\ nul_free (m_text m).

Fixpoint log_all (serial : bool) (st : klog) (ms : list message) : klog :=
  match ms with
  | [] => st
  | m :: ms' =>
    log_all serial (klog_log serial st (m_level m) (Some (m_subsys m)) (Some (m_text m))).1 ms'
  end.

Fixpoint log_text (n : Z) (ms : list message) : list Z :=
  match ms with
  | [] => []
  | m :: ms' =>
    log_line (u32 (n + 1)) (m_level m) (subsys_name (m_subsys m)) (m_text m)
      ++ log_text (u32 (n + 1)) ms'
  end.

Lemma log_all_spec serial ms : Forall message_ok ms -> forall st, klog_ok st ->
  klog_ok (log_all serial st ms) /\
  contents (log_all serial st ms) = newest (contents st ++ log_text (g_klog_lines st) ms).
Proof.
  induction 1 as [|m ms [Hs Hm] _ IH]; intros st Hok; cbn [log_all log_text].
  - rewrite app_nil_r, newest_short; [done|]. rewrite length_contents. destruct Hok. lia.
  - destruct (klog_log_spec serial st (m_level m) _ _ Hok Hs Hm) as (H1 & H2 & H3).
    destruct (IH _ H1) as (H4 & H5). split; [exact H4|]. rewrite H5, H2, H3.
    by rewrite newest_app, <- app_assoc.
Qed.

(** ** Reading *)

Lemma klog_read_spec st max_len :
  klog_ok st -> klog_read st max_len =
    (take (Z.to_nat (max_len - 1)) (contents st),
     Z.of_nat (length (take (Z.to_nat (max_len - 1)) (contents st)))).
Proof.
  intros [Hr Hh Hs]. unfold klog_read.
  destruct (Z.leb_spec max_len 0); [by replace (Z.to_nat (max_len - 1)) with 0%nat by lia|].
  destruct (Z.eqb_spec (g_klog_size st) 0) as [E|E].
  { unfold contents. rewrite E. simpl. by rewrite take_nil. }
  unfold KLOG_RING_CAPACITY in *. rewrite i32_small by words.
  set (cl := if _ <? _ then _ else _).
  assert (Hcl : 0 <= cl <= g_klog_size st /\ cl = Z.min (g_klog_size st) (max_len - 1)).
  { subst cl. destruct (Z.ltb_spec (max_len - 1) (g_klog_size st)); lia. }
  rewrite length_take, length_contents. f_equal; [|lia].
  unfold contents. rewrite <- fmap_take, take_seq. unfold KLOG_RING_CAPACITY.
  replace (Z.to_nat (max_len - 1) `min` Z.to_nat (g_klog_size st))%nat with (Z.to_nat cl) by lia.
  apply map_ext_in. intros i Hi. apply in_seq in Hi. f_equal. f_equal.
  rewrite (u32_small (g_klog_head st + 8192 - _)) by words.
  rewrite u32_small by words. rewrite Zplus_mod_idemp_l.
  replace (g_klog_head st + 8192 - g_klog_size st + Z.of_nat i)
    with (g_klog_head st - g_klog_size st + Z.of_nat i + 1 * 8192) by lia.
  by rewrite Z_mod_plus_full.
Qed.

(** ** Bounded appending *)

Lemma append_loop_spec cap src : nul_free src -> forall s k,
  length (s ++ k) = cap -> k <> [] -> exists k',
  append_loop (s ++ k) (length s) cap src = Ok ((s ++ take (cap - 1 - length s) src) ++ 0 :: k') /\
  length ((s ++ take (cap - 1 - length s) src) ++ 0 :: k') = cap.
Proof.
  induction 1 as [|c src Hc Hsrc IH]; intros s k Hlen Hk;
    (destruct k as [|x k]; [done|]); rewrite length_app in Hlen; simpl in Hlen.
  - cbn [append_loop]. rewrite store_nat by (rewrite length_app; simpl; lia).
    rewrite take_nil, app_nil_r, insert_app_r_alt, Nat.sub_diag by lia. simpl.
    exists k. rewrite length_app. simpl. split; [done|lia].
  - cbn [append_loop]. destruct (Z.eqb_spec c 0); [done|]. rewrite andb_true_r.
    destruct (Nat.ltb_spec (length s + 1) cap); rewrite store_nat by (rewrite length_app; simpl; lia).
    + cbn [mbind outcome_bind]. rewrite insert_app_r_alt, Nat.sub_diag by lia. simpl.
      destruct (IH (s ++ [c]) k) as (k' & E & El).
      * rewrite !length_app. simpl. lia.
      * intros ->. simpl in Hlen. lia.
      * rewrite length_app, <- app_assoc in E. cbn [length app] in E. rewrite Nat.add_1_r in E.
        exists k'. rewrite E. replace (cap - 1 - length s)%nat with (S (cap - 1 - S (length s))) by lia. cbn [take].
        split; [by rewrite <- !app_assoc|]. rewrite !length_app, !length_take in *. cbn [length] in *.
        rewrite length_take. lia.
    + rewrite insert_app_r_alt, Nat.sub_diag by lia. simpl.
      replace (cap - 1 - length s)%nat with 0%nat by lia. simpl. rewrite app_nil_r.
      exists k. rewrite length_app. simpl. split; [done|lia].
Qed.

(** [klog_append] on a buffer of [cap] bytes: the text grows by as much of
    the source as fits, and the result is terminated inside the buffer. *)
Lemma klog_append_spec cap s k src :
  nul_free s -> nul_free src -> length (s ++ 0 :: k) = cap -> exists k',
  klog_append (s ++ 0 :: k) cap src = Ok (take (cap - 1) (s ++ src) ++ 0 :: k') /\
  length (take (cap - 1) (s ++ src) ++ 0 :: k') = cap.
Proof.
  intros Hs Hsrc Hlen. unfold klog_append.
  destruct (Nat.eqb_spec cap 0); [rewrite length_app in Hlen; simpl in Hlen; lia|].
  rewrite strlen_app_nul by done.
  destruct (append_loop_spec cap src Hsrc s (0 :: k) Hlen) as (k' & -> & E); [done|].
  exists k'. rewrite take_app. rewrite length_app in Hlen. simpl in Hlen.
  rewrite (take_ge s) by lia. split; [done|]. exact E.
Qed.

(** ** Every store is in the line *)

Lemma append_loop_safe cap src : forall dst len, length dst = cap -> (len < cap)%nat ->
  succeeds (append_loop dst len cap src) (fun d => length d = cap /\ 0 ∈ d).
Proof.
  assert (Hend : forall dst len, length dst = cap -> (len < cap)%nat ->
    succeeds (store (Z.of_nat len) 0 dst) (fun d => length d = cap /\ 0 ∈ d)).
  { intros dst len Hd Hl. rewrite store_nat by lia. apply succeeds_ret. split; [by rewrite length_insert|].
    apply list_elem_of_lookup. exists len. apply list_lookup_insert_eq. lia. }
  induction src as [|c src IH]; intros dst len Hd Hl; cbn [append_loop]; [by apply Hend|].
  destruct (Nat.ltb_spec (len + 1) cap); cbn [andb]; [|by apply Hend]. destruct (c =? 0); cbn [negb]; [by apply Hend|].
  rewrite store_nat by lia. apply IH; [by rewrite length_insert|lia].
Qed.

Lemma strlen_inside l : 0 ∈ l -> (strlen l < length l)%nat.
Proof.
  intros H. apply list_elem_of_lookup in H as [i Hi]. revert i Hi. induction l as [|c l IH]; intros i Hi; [done|].
  simpl. destruct (Z.eqb_spec c 0); [lia|]. destruct i as [|i]; [by simplify_eq/=|]. specialize (IH i Hi). lia.
Qed.

Definition line_ok (l : list Z) : Prop := length l = 96%nat /\ 0 ∈ l.

Lemma klog_append_safe line src : line_ok line -> succeeds (klog_append line 96 src) line_ok.
Proof. intros [Hl H0]. unfold klog_append. simpl. apply append_loop_safe; [done|]. rewrite <- Hl. by apply strlen_inside. Qed.

Lemma klog_log_u32_ok serial st level subsys prefix value base : klog_ok st -> is_u32 value ->
  succeeds (klog_log_u32 serial st level subsys prefix value base) (fun r => klog_ok r.1).
Proof.
  intros Hok Hv. unfold klog_log_u32. set (b := if negb (base =? 16) then 10 else base).
  assert (Hb : b = 10 \/ b = 16) by (unfold b; destruct (Z.eqb_spec base 16); simpl; lia). clearbody b.
  assert (H0 : line_ok (replicate 96 0)) by (split; [done|by left]).
  eapply succeeds_bind with (P := line_ok).
  { destruct prefix as [p|]; [|by apply succeeds_ret]. destruct (hd0 p =? 0); [by apply succeeds_ret|by apply klog_append_safe]. }
  intros l1 H1. eapply succeeds_bind with (P := line_ok).
  { destruct (hd0 l1 =? 0); [by apply succeeds_ret|by apply klog_append_safe]. }
  intros l2 H2. eapply succeeds_bind with (P := line_ok).
  { destruct (b =? 16); [by apply klog_append_safe|by apply succeeds_ret]. }
  intros l3 H3. rewrite utoa_into_ok by (done || lia). cbn [mbind outcome_bind].
  eapply succeeds_bind; [by apply klog_append_safe|]. intros l4 _. apply succeeds_ret. by apply klog_log_ok.
Qed.

(** * Properties *)

(** C6: after [klog_init] and any sequence of [klog_log] calls, [klog_read]
    gives the beginning, cut to the reader's buffer, of the last 8192 bytes of
    the text of all messages in order (numbered from 1), and returns the
    length it wrote; [klog_clear] empties the log. *)
Theorem klog_read_history serial ms max_len (Hms : Forall message_ok ms) :
  let st := log_all serial klog_init ms in
  let shown := take (Z.to_nat (max_len - 1)) (newest (log_text 0 ms)) in
  klog_read st max_len = (shown, Z.of_nat (length shown)) /\
  klog_bytes_used st = Z.of_nat (length (newest (log_text 0 ms))) /\
  contents (klog_clear st) = [].
Proof.
  cbv zeta. destruct (log_all_spec serial ms Hms klog_init klog_init_ok) as [Hok Hc].
  change (contents klog_init) with (@nil Z) in Hc. cbn [app] in Hc.
  change (g_klog_lines klog_init) with 0 in Hc.
  rewrite klog_read_spec, Hc by done. split; [done|]. split; [|done].
  rewrite <- Hc, length_contents. destruct Hok. unfold klog_bytes_used. lia.
Qed.

Lemma klog_read_history_witness :
  klog_read (log_all false klog_init [Message KLOG_INFO (bs "boot") (bs "up")]) 4096 =
    (bs "<6> [1] [boot] up" ++ [10], 18).
Proof.
  destruct (klog_read_history false [Message KLOG_INFO (bs "boot") (bs "up")] 4096) as [H _].
  - repeat constructor; done.
  - rewrite H. vm_compute. reflexivity.
Defined.

(** [klog_append] on a buffer of [cap] bytes holding the string [s] never
    writes outside the buffer and leaves in it, NUL-terminated, the first
    [cap - 1] bytes of [s] followed by the source. *)
Theorem klog_append_bounded cap s k src (Hs : nul_free s) (Hsrc : nul_free src)
    (Hlen : length (s ++ 0 :: k) = cap) : exists d,
  klog_append (s ++ 0 :: k) cap src = Ok d /\ length d = cap /\ buf_text d = take (cap - 1) (s ++ src).
Proof.
  destruct (klog_append_spec cap s k src Hs Hsrc Hlen) as (k' & E & Hl).
  eexists. split; [exact E|]. split; [done|]. apply buf_text_app. by apply Forall_take, Forall_app.
Qed.

Lemma klog_append_bounded_witness : exists d,
  klog_append (bs "ab" ++ [0; 0]) 4 (bs "cdef") = Ok d /\ length d = 4%nat /\ buf_text d = bs "abc".
Proof.
  exact (klog_append_bounded 4 (bs "ab") [0] (bs "cdef")
    ltac:(by repeat constructor) ltac:(by repeat constructor) eq_refl).
Defined.
