(* ===== verification/Printf.v ===== *)
(** Formatted output, src/src/kernel/printf.c.

    The callback [printf_putc_fn] with its context is a state transformer
    [Z -> S -> S] over a state type [S]; the variable arguments are a list,
    and taking a missing argument or one of another kind is an error. *)
From Stdlib Require Import ZArith Lia Ascii String.
From stdpp Require Import base tactics option numbers list.
From S2P Require Import Prelude CString.
#[local] Open Scope Z_scope.

(** What [va_arg] can find. *)
Inductive va_value :=
| VInt (z : Z)
| VStr (s : option (list Z)).

Definition va_int (ap : list va_value) : outcome (Z * list va_value) :=
  match ap with VInt z :: ap' => Ok (z, ap') | _ => Stuck OutOfBounds end.
Definition va_str (ap : list va_value) : outcome (option (list Z) * list va_value) :=
  match ap with VStr s :: ap' => Ok (s, ap') | _ => Stuck OutOfBounds end.

Section kvprintf.
Context {S : Type} (out : option (Z -> S -> S)).

Definition emit_char (ctx : S) (c : Z) : S * Z :=
  match out with
  | None => (ctx, 0)
  | Some out => (out c ctx, 1)
  end.

Fixpoint emit_str_loop (ctx : S) (s : list Z) (written : Z) : S * Z :=
  match s with
  | [] => (ctx, written)
  | c :: s' =>
    if c =? 0 then (ctx, written)
    else let '(ctx, n) := emit_char ctx c in emit_str_loop ctx s' (i32 (written + n))
  end.

Definition emit_str (ctx : S) (s : option (list Z)) : S * Z :=
  emit_str_loop ctx (default (bs "(null)") s) 0.

(** The [do ... while (value && pos < sizeof(tmp))] loop, least significant
    digit first; [room] is [sizeof(tmp) - pos]. *)
Fixpoint base_digits (room : nat) (value base : Z) (upper : bool) : list Z :=
  match room with
  | O => []
  | Datatypes.S room' =>
    let digit := u32 (value mod base) in
    let c := if digit <? 10 then u8 (ch "0" + digit)
             else u8 ((if upper then ch "A" else ch "a") + (digit - 10)) in
    let value' := value / base in
    c :: (if value' =? 0 then [] else base_digits room' value' base upper)
  end.

(** [while (pos > 0) written += emit_char(out, ctx, tmp[--pos])] *)
Fixpoint emit_list (ctx : S) (l : list Z) (written : Z) : S * Z :=
  match l with
  | [] => (ctx, written)
  | c :: l' => let '(ctx, n) := emit_char ctx c in emit_list ctx l' (i32 (written + n))
  end.

Definition emit_u64_base (ctx : S) (value base : Z) (upper : bool) : S * Z :=
  if (base <? 2) || (16 <? base) then (ctx, 0)
  else emit_list ctx (rev (base_digits 32 value base upper)) 0.

(** One conversion: the characters after a percent sign. *)
Definition convert (c : Z) (ap : list va_value) (ctx : S) (written : Z)
    : outcome (list va_value * S * Z) :=
  if c =? ch "%" then
    let '(ctx, n) := emit_char ctx (ch "%") in Ok (ap, ctx, i32 (written + n))
  else if c =? ch "c" then
    '(v, ap) ← va_int ap;
    let '(ctx, n) := emit_char ctx (u8 v) in Ok (ap, ctx, i32 (written + n))
  else if c =? ch "s" then
    '(s, ap) ← va_str ap;
    let '(ctx, n) := emit_str ctx s in Ok (ap, ctx, i32 (written + n))
  else if (c =? ch "d") || (c =? ch "i") then
    '(v, ap) ← va_int ap;
    let v := i32 v in
    let '(ctx, written, uv) :=
      if v <? 0 then
        let '(ctx, n) := emit_char ctx (ch "-") in (ctx, i32 (written + n), u64 (- v))
      else (ctx, written, u64 v) in
    let '(ctx, n) := emit_u64_base ctx uv 10 false in
    Ok (ap, ctx, i32 (written + n))
  else if c =? ch "u" then
    '(v, ap) ← va_int ap;
    let '(ctx, n) := emit_u64_base ctx (u32 v) 10 false in Ok (ap, ctx, i32 (written + n))
  else if c =? ch "x" then
    '(v, ap) ← va_int ap;
    let '(ctx, n) := emit_u64_base ctx (u32 v) 16 false in Ok (ap, ctx, i32 (written + n))
  else if c =? ch "X" then
    '(v, ap) ← va_int ap;
    let '(ctx, n) := emit_u64_base ctx (u32 v) 16 true in Ok (ap, ctx, i32 (written + n))
  else if c =? ch "p" then
    '(v, ap) ← va_int ap;
    let '(ctx, n) := emit_str ctx (Some (bs "0x")) in
    let written := i32 (written + n) in
    let '(ctx, n) := emit_u64_base ctx (u32 v) 16 false in
    Ok (ap, ctx, i32 (written + n))
  else
    let '(ctx, n) := emit_char ctx (ch "%") in
    let written := i32 (written + n) in
    let '(ctx, n) := emit_char ctx c in
    Ok (ap, ctx, i32 (written + n)).

Fixpoint kvprintf_loop (fmt : list Z) (ap : list va_value) (ctx : S) (written : Z)
    : outcome (S * Z) :=
  match fmt with
  | [] => Ok (ctx, written)
  | c :: fmt' =>
    if c =? 0 then Ok (ctx, written)
    else if negb (c =? ch "%") then
      let '(ctx, n) := emit_char ctx c in kvprintf_loop fmt' ap ctx (i32 (written + n))
    else
      match fmt' with
      | [] => Ok (ctx, written)
      | d :: fmt'' =>
        if d =? 0 then Ok (ctx, written)
        else '(ap, ctx, written) ← convert d ap ctx written;
             kvprintf_loop fmt'' ap ctx written
      end
  end.

Definition kvprintf (ctx : S) (fmt : option (list Z)) (ap : list va_value) : outcome (S * Z) :=
  match fmt with
  | None => Ok (ctx, 0)
  | Some fmt => kvprintf_loop fmt ap ctx 0
  end.
End kvprintf.

Record snprintf_ctx_t := SnprintfCtx { sn_buf : list Z; sn_cap : nat; sn_pos : nat }.

(** The callback on the context, or on the fault of an earlier store. *)
Definition snprintf_putc (c : Z) (ctx : outcome snprintf_ctx_t) : outcome snprintf_ctx_t :=
  ctx ← ctx;
  buf ← (if (0 <? sn_cap ctx)%nat && (sn_pos ctx + 1 <? sn_cap ctx)%nat
         then store (Z.of_nat (sn_pos ctx)) c (sn_buf ctx) else Ok (sn_buf ctx));
  Ok (SnprintfCtx buf (sn_cap ctx) (S (sn_pos ctx))).

(** Returns the buffer after the call and the return value. *)
Definition kvsnprintf (buf : option (list Z)) (cap : nat) (fmt : option (list Z))
    (ap : list va_value) : outcome (option (list Z) * Z) :=
  match buf with
  | None =>
    if (0 <? cap)%nat then Ok (None, 0)
    else '(ctx, total) ← kvprintf (Some snprintf_putc) (Ok (SnprintfCtx [] cap 0)) fmt ap;
         _ ← ctx; Ok (None, total)
  | Some b =>
    '(ctx, total) ← kvprintf (Some snprintf_putc) (Ok (SnprintfCtx b cap 0)) fmt ap;
    ctx ← ctx;
    buf ← (if (0 <? cap)%nat then
             let term := if (sn_pos ctx <? cap)%nat then sn_pos ctx else (cap - 1)%nat in
             store (Z.of_nat term) 0 (sn_buf ctx)
           else Ok (sn_buf ctx));
    Ok (Some buf, total)
  end.

Definition ksnprintf := kvsnprintf.

(** [kprintf]: the characters handed to [serial_putc], and the return value. *)
Definition kprintf (fmt : option (list Z)) (ap : list va_value) : outcome (list Z * Z) :=
  '(rev_out, total) ← kvprintf (Some cons) [] fmt ap;
  Ok (rev rev_out, total).

(** * Reference: the text a format denotes *)

Definition digits_text (value base : Z) (upper : bool) : list Z :=
  rev (base_digits 32 value base upper).

Definition signed_text (v : Z) : list Z :=
  if v <? 0 then ch "-" :: digits_text (- v) 10 false else digits_text v 10 false.

(** The text of one conversion and the arguments left. *)
Definition conversion_text (c : Z) (ap : list va_value) : outcome (list Z * list va_value) :=
  if c =? ch "%" then Ok ([ch "%"], ap)
  else if c =? ch "c" then '(v, ap) ← va_int ap; Ok ([u8 v], ap)
  else if c =? ch "s" then '(s, ap) ← va_str ap; Ok (buf_text (default (bs "(null)") s), ap)
  else if (c =? ch "d") || (c =? ch "i") then '(v, ap) ← va_int ap; Ok (signed_text (i32 v), ap)
  else if c =? ch "u" then '(v, ap) ← va_int ap; Ok (digits_text (u32 v) 10 false, ap)
  else if c =? ch "x" then '(v, ap) ← va_int ap; Ok (digits_text (u32 v) 16 false, ap)
  else if c =? ch "X" then '(v, ap) ← va_int ap; Ok (digits_text (u32 v) 16 true, ap)
  else if c =? ch "p" then '(v, ap) ← va_int ap; Ok (bs "0x" ++ digits_text (u32 v) 16 false, ap)
  else Ok ([ch "%"; c], ap).

Fixpoint format_text (fmt : list Z) (ap : list va_value) : outcome (list Z) :=
  match fmt with
  | [] => Ok []
  | c :: fmt' =>
    if c =? 0 then Ok []
    else if negb (c =? ch "%") then cons c <$> format_text fmt' ap
    else match fmt' with
         | [] => Ok []
         | d :: fmt'' =>
           if d =? 0 then Ok []
           else '(t, ap) ← conversion_text d ap; app t <$> format_text fmt'' ap
         end
  end.

Lemma i32_i32_add a b : i32 (i32 a + b) = i32 (a + b).
Proof. words. Qed.

Section refinement.
Context {S : Type} (putc : Z -> S -> S).

(** Emitting a text: each character once, in order. *)
Definition put_all (ctx : S) (l : list Z) : S := foldl (fun ctx c => putc c ctx) ctx l.

Lemma emit_list_spec l : forall ctx w,
  emit_list (Some putc) ctx l (i32 w) = (put_all ctx l, i32 (w + Z.of_nat (length l))).
Proof.
  induction l as [|c l IH]; intros ctx w; simpl; [by rewrite Z.add_0_r|].
  rewrite i32_i32_add, IH. do 2 f_equal. lia.
Qed.

Lemma emit_str_loop_spec s : forall ctx w,
  emit_str_loop (Some putc) ctx s (i32 w) =
    (put_all ctx (buf_text s), i32 (w + Z.of_nat (length (buf_text s)))).
Proof.
  unfold buf_text. induction s as [|c s IH]; intros ctx w; simpl; [by rewrite Z.add_0_r|].
  destruct (c =? 0); simpl; [by rewrite Z.add_0_r|].
  rewrite i32_i32_add, IH. do 2 f_equal. lia.
Qed.

Lemma emit_u64_base_spec ctx v base upper : base = 10 \/ base = 16 ->
  emit_u64_base (Some putc) ctx v base upper =
    (put_all ctx (digits_text v base upper), i32 (Z.of_nat (length (digits_text v base upper)))).
Proof.
  intros Hb. unfold emit_u64_base, digits_text.
  replace ((base <? 2) || (16 <? base)) with false by (destruct Hb as [-> | ->]; done).
  by rewrite <- (i32_small 0), emit_list_spec by words.
Qed.

Lemma emit_str_spec ctx s :
  emit_str (Some putc) ctx s =
    (put_all ctx (buf_text (default (bs "(null)") s)),
     i32 (Z.of_nat (length (buf_text (default (bs "(null)") s))))).
Proof. unfold emit_str. by rewrite <- (i32_small 0), emit_str_loop_spec by words. Qed.

Lemma put_all_app ctx a b : put_all ctx (a ++ b) = put_all (put_all ctx a) b.
Proof. unfold put_all. by rewrite foldl_app. Qed.

(** What a conversion does, given its reference text. *)
Definition converts (ap : list va_value) (ctx : S) (w : Z) (t : list Z) (ap' : list va_value)
    : outcome (list va_value * S * Z) :=
  Ok (ap', put_all ctx t, i32 (w + Z.of_nat (length t))).

Lemma i32_add_i32 a b : i32 (a + i32 b) = i32 (a + b).
Proof. words. Qed.

Lemma convert_spec c ap ctx w :
  convert (Some putc) c ap ctx (i32 w) =
    ('(t, ap') ← conversion_text c ap; converts ap ctx w t ap').
Proof.
  unfold convert, conversion_text, converts.
  repeat match goal with |- (if ?b then _ else _) = _ => destruct b end;
    try (destruct ap as [|[v|s] ap]); simpl; try done;
    rewrite ?emit_u64_base_spec, ?emit_str_spec, ?i32_i32_add by (by left) || (by right); simpl;
    rewrite ?i32_add_i32, ?i32_i32_add; try done.
  - unfold signed_text. pose proof (i32_range v) as Hv.
    destruct (Z.ltb_spec (i32 v) 0); simpl;
      rewrite ?emit_u64_base_spec by (by left); simpl;
      rewrite ?i32_add_i32, ?i32_i32_add.
    + replace (u64 (- i32 v)) with (- i32 v) by words. do 2 f_equal. f_equal. lia.
    + by replace (u64 (i32 v)) with (i32 v) by words.
  - do 2 f_equal. words.
  - do 2 f_equal. words.
  - do 2 f_equal. words.
  - do 2 f_equal. words.
Qed.

(** The whole loop emits the reference text and counts it. *)
Lemma kvprintf_loop_spec fmt : forall ap ctx w,
  kvprintf_loop (Some putc) fmt ap ctx (i32 w) =
    (t ← format_text fmt ap; Ok (put_all ctx t, i32 (w + Z.of_nat (length t)))).
Proof.
  induction fmt as [fmt IH] using (induction_ltof1 _ (@length Z)). unfold ltof in IH.
  intros ap ctx w. destruct fmt as [|c fmt]; [simpl; by rewrite Z.add_0_r|].
  cbn [kvprintf_loop format_text].
  destruct (c =? 0); [simpl; by rewrite Z.add_0_r|].
  destruct (negb (c =? ch "%")).
  - simpl. rewrite i32_i32_add, IH by (simpl; lia).
    destruct (format_text fmt ap); simpl; [|done]. do 3 f_equal. lia.
  - destruct fmt as [|d fmt]; [simpl; by rewrite Z.add_0_r|].
    destruct (d =? 0); [simpl; by rewrite Z.add_0_r|].
    rewrite convert_spec. destruct (conversion_text d ap) as [[t ap']|e]; [|done].
    unfold converts. simpl. rewrite IH by (simpl; lia).
    destruct (format_text fmt ap') as [t'|e]; simpl; [|done].
    rewrite put_all_app, length_app. do 3 f_equal. lia.
Qed.

Lemma kvprintf_spec ctx fmt ap :
  kvprintf (Some putc) ctx (Some fmt) ap =
    (t ← format_text fmt ap; Ok (put_all ctx t, i32 (Z.of_nat (length t)))).
Proof. unfold kvprintf. by rewrite <- (i32_small 0), kvprintf_loop_spec by words. Qed.
End refinement.

(** ** The buffer callback *)

Lemma snprintf_putc_step c b cap pos : ((cap <= pos + 1)%nat \/ length b = cap) ->
  snprintf_putc c (Ok (SnprintfCtx b cap pos)) =
    Ok (SnprintfCtx (if (pos + 1 <? cap)%nat then <[pos := c]> b else b) cap (S pos)).
Proof.
  intros H. unfold snprintf_putc. cbn [mbind outcome_bind sn_buf sn_cap sn_pos].
  destruct (Nat.ltb_spec (pos + 1) cap); [|by rewrite andb_false_r].
  destruct H as [H|H]; [lia|]. rewrite (proj2 (Nat.ltb_lt 0 cap)) by lia. cbn [andb].
  by rewrite store_nat by lia.
Qed.

Lemma put_all_cons {S} (putc : Z -> S -> S) ctx c t : put_all putc ctx (c :: t) = put_all putc (putc c ctx) t.
Proof. done. Qed.

(** Past the end of the buffer characters are only counted. *)
Lemma snprintf_putc_full t : forall b cap pos, (cap <= pos + 1)%nat ->
  put_all snprintf_putc (Ok (SnprintfCtx b cap pos)) t = Ok (SnprintfCtx b cap (pos + length t)).
Proof.
  induction t as [|c t IH]; intros b cap pos Hp; [simpl; by rewrite Nat.add_0_r|]. rewrite put_all_cons. cbn [length].
  rewrite snprintf_putc_step by (by left). destruct (Nat.ltb_spec (pos + 1) cap); [lia|].
  rewrite IH by lia. do 2 f_equal. lia.
Qed.

(** The first [cap - 1] characters land in the buffer; all are counted. *)
Lemma snprintf_putc_all t : forall b cap pos,
  (pos < cap)%nat -> length b = cap -> exists k,
  put_all snprintf_putc (Ok (SnprintfCtx b cap pos)) t =
    Ok (SnprintfCtx (take pos b ++ take (cap - 1 - pos) t ++ k) cap (pos + length t)) /\
  length (take pos b ++ take (cap - 1 - pos) t ++ k) = cap.
Proof.
  induction t as [|c t IH]; intros b cap pos Hp Hb.
  - exists (drop pos b). simpl. rewrite take_nil, Nat.add_0_r. cbn [app]. by rewrite take_drop.
  - destruct (Nat.ltb_spec (pos + 1) cap).
    + rewrite put_all_cons, snprintf_putc_step by (by right). rewrite (proj2 (Nat.ltb_lt (pos + 1) cap)) by lia. cbn [length].
      destruct (IH (<[pos:=c]> b) cap (S pos)) as (k & E & El);
        [lia|by rewrite length_insert|].
      assert (Ht : take (S pos) (<[pos:=c]> b) = take pos b ++ [c]).
      { rewrite (take_S_r _ _ c) by (apply list_lookup_insert_eq; lia).
        by rewrite take_insert_ge by lia. }
      exists k. rewrite E. rewrite Ht in *.
      replace (cap - 1 - pos)%nat with (S (cap - 1 - S pos)) by lia. simpl.
      rewrite <- app_assoc in *. cbn [app] in *. split; [do 2 f_equal; lia|done].
    + rewrite snprintf_putc_full by lia. exists (drop pos b).
      replace (cap - 1 - pos)%nat with 0%nat by lia. simpl. by rewrite take_drop.
Qed.

Lemma kvsnprintf_spec b cap fmt ap t :
  length b = cap -> (0 < cap)%nat -> format_text fmt ap = Ok t -> exists k,
  kvsnprintf (Some b) cap (Some fmt) ap =
    Ok (Some (take (cap - 1) t ++ 0 :: k), i32 (Z.of_nat (length t))) /\
  length (take (cap - 1) t ++ 0 :: k) = cap.
Proof.
  intros Hb Hcap Ht. unfold kvsnprintf. rewrite kvprintf_spec, Ht. cbn [mbind outcome_bind].
  destruct (snprintf_putc_all t b cap 0 Hcap Hb) as (k & -> & El).
  rewrite take_0 in *. cbn [mbind outcome_bind sn_pos sn_buf app Nat.add] in *.
  rewrite Nat.sub_0_r in *. rewrite (proj2 (Nat.ltb_lt 0 cap)) by done.
  rewrite length_app in El. pose proof (length_take t (cap - 1)) as Hlt.
  assert (E : (if (length t <? cap)%nat then length t else (cap - 1)%nat) = length (take (cap - 1) t)).
  { rewrite Hlt. destruct (Nat.ltb_spec (length t) cap); lia. }
  rewrite E. destruct k as [|x k]; [simpl in El; lia|].
  rewrite store_nat by (rewrite length_app; simpl; lia). cbn [mbind outcome_bind].
  rewrite insert_app_r_alt, Nat.sub_diag by lia. simpl. exists k. split; [done|].
  rewrite length_app. simpl in *. lia.
Qed.

(** Without capacity nothing is stored, whatever the array. *)
Lemma kvsnprintf_count b fmt ap t : format_text fmt ap = Ok t ->
  kvsnprintf (Some b) 0 (Some fmt) ap = Ok (Some b, i32 (Z.of_nat (length t))).
Proof.
  intros Ht. unfold kvsnprintf. rewrite kvprintf_spec, Ht. cbn [mbind outcome_bind].
  by rewrite snprintf_putc_full by lia.
Qed.

(** ** Digits *)

Definition hex_value (c : Z) : Z :=
  if c <=? ch "9" then c - ch "0" else if c <=? ch "F" then c - ch "A" + 10 else c - ch "a" + 10.

(** The number a digit text denotes, most significant digit first. *)
Definition text_number (base : Z) (l : list Z) : Z :=
  foldl (fun acc c => acc * base + hex_value c) 0 l.

Lemma base_digits_spec room upper base : base = 10 \/ base = 16 -> forall v k,
  (k < room)%nat -> 0 <= v < base ^ Z.of_nat (S k) ->
  foldr (fun c acc => acc * base + hex_value c) 0 (base_digits room v base upper) = v /\
  (0 < length (base_digits room v base upper) <= S k)%nat /\
  Forall (fun c => ch "0" <= c <= ch "f") (base_digits room v base upper).
Proof.
  intros Hb. induction room as [|room IH]; intros v k Hk Hv; [lia|]. cbn [base_digits].
  set (c := if u32 (v mod base) <? 10 then _ else _).
  assert (Hc : hex_value c = v mod base /\ ch "0" <= c <= ch "f").
  { assert (0 <= v mod base < base) by (destruct Hb; subst base; words).
    subst c. rewrite u32_small by (destruct Hb; subst base; words).
    unfold hex_value. chars.
    destruct (Z.ltb_spec (v mod base) 10); destruct upper; rewrite u8_small by words; zcases; lia. }
  destruct Hc as [Hc Hcr]. pose proof (Z.div_mod v base ltac:(lia)).
  destruct (Z.eqb_spec (v / base) 0).
  - simpl. split; [lia|]. split; [lia|by constructor].
  - destruct k as [|k].
    { exfalso. rewrite Z.pow_1_r in Hv. by rewrite Z.div_small in n by lia. }
    destruct (IH (v / base) k ltac:(lia)) as (H1 & H2 & H3).
    { split; [apply Z.div_pos; lia|]. apply Z.div_lt_upper_bound; [lia|].
      rewrite (Nat2Z.inj_succ (S k)), Z.pow_succ_r in Hv by lia. lia. }
    simpl. rewrite H1. split; [lia|]. split; [lia|by constructor].
Qed.

Lemma digits_text_spec v k base upper : base = 10 \/ base = 16 ->
  (k < 32)%nat -> 0 <= v < base ^ Z.of_nat (S k) ->
  text_number base (digits_text v base upper) = v /\
  (0 < length (digits_text v base upper) <= S k)%nat /\
  Forall (fun c => ch "0" <= c <= ch "f") (digits_text v base upper).
Proof.
  intros Hb Hk Hv. destruct (base_digits_spec 32 upper base Hb v k Hk Hv) as (H1 & H2 & H3).
  unfold text_number, digits_text. rewrite foldl_rev, length_rev.
  split; [exact H1|]. split; [done|by apply Forall_rev].
Qed.

(** The number a signed text denotes. *)
Definition signed_number (l : list Z) : Z :=
  match l with
  | c :: l' => if c =? ch "-" then - text_number 10 l' else text_number 10 l
  | [] => 0
  end.

Lemma signed_text_spec v : is_i32 v ->
  signed_number (signed_text v) = v /\ (0 < length (signed_text v) <= 11)%nat.
Proof.
  intros Hv. unfold signed_text. destruct (Z.ltb_spec v 0).
  - destruct (digits_text_spec (- v) 9 10 false) as (H1 & H2 & _); [by left|lia|words|].
    simpl. rewrite H1. lia.
  - destruct (digits_text_spec v 9 10 false) as (H1 & H2 & H3); [by left|lia|words|].
    split; [|lia]. destruct (digits_text v 10 false) as [|c l]; [simpl in H2; lia|].
    apply Forall_cons in H3 as [H3 _]. unfold signed_number.
    destruct (Z.eqb_spec c (ch "-")) as [->|]; [revert H3; chars; lia|exact H1].
Qed.

(** * Properties *)

(** C7: [kvprintf] refines the reference text of its format: on any callback
    and context it passes exactly the characters of [format_text] in order,
    returns their number, and fails exactly where the arguments do not fit
    the format. *)
Theorem kvprintf_refines (S : Type) (putc : Z -> S -> S) (ctx : S) fmt ap :
  kvprintf (Some putc) ctx (Some fmt) ap =
    match format_text fmt ap with
    | Ok t => Ok (foldl (fun ctx c => putc c ctx) ctx t, i32 (Z.of_nat (length t)))
    | Stuck e => Stuck e
    end.
Proof. rewrite kvprintf_spec. by destruct (format_text fmt ap). Qed.

(** C29: [ksnprintf] into a buffer of [cap > 0] bytes succeeds: no store, the
    terminating NUL's included, leaves the buffer, where each is checked against
    its end. It leaves the first [cap - 1] characters of the formatted text
    NUL-terminated, and returns the length of the whole text; with capacity 0
    it stores nothing and returns the same length; and the digits of [%d] and [%u]
    denote the argument in decimal, those of [%x] in hexadecimal. *)
Theorem ksnprintf_bounded b cap fmt ap t (Hb : length b = cap) (Hcap : (0 < cap)%nat)
    (Ht : format_text fmt ap = Ok t) :
  (exists k, ksnprintf (Some b) cap (Some fmt) ap =
     Ok (Some (take (cap - 1) t ++ 0 :: k), i32 (Z.of_nat (length t))) /\
     length (take (cap - 1) t ++ 0 :: k) = cap) /\
  ksnprintf (Some b) 0 (Some fmt) ap = Ok (Some b, i32 (Z.of_nat (length t))) /\
  (forall v, is_i32 v -> exists d,
     format_text (bs "%d") [VInt v] = Ok d /\ signed_number d = v /\ (length d <= 11)%nat) /\
  (forall v, is_u32 v -> exists d x,
     format_text (bs "%u") [VInt v] = Ok d /\ text_number 10 d = v /\ (length d <= 10)%nat /\
     format_text (bs "%x") [VInt v] = Ok x /\ text_number 16 x = v /\ (length x <= 8)%nat).
Proof.
  split; [by apply kvsnprintf_spec|]. split; [by apply kvsnprintf_count|]. split; intros v Hv.
  - exists (signed_text v). destruct (signed_text_spec v Hv). split; [|split; [done|lia]].
    transitivity (Ok (signed_text (i32 v) ++ [])); [done|].
    by rewrite app_nil_r, i32_small.
  - exists (digits_text v 10 false), (digits_text v 16 false).
    destruct (digits_text_spec v 9 10 false) as (H1 & H2 & _); [by left|lia|words|].
    destruct (digits_text_spec v 7 16 false) as (H3 & H4 & _); [by right|lia|words|].
    split; [|split; [done|split; [lia|split; [|split; [done|lia]]]]].
    + transitivity (Ok (digits_text (u32 v) 10 false ++ [])); [done|].
      by rewrite app_nil_r, u32_small.
    + transitivity (Ok (digits_text (u32 v) 16 false ++ [])); [done|].
      by rewrite app_nil_r, u32_small.
Qed.

Lemma ksnprintf_bounded_witness :
  ksnprintf (Some (replicate 6 0)) 6 (Some (bs "v=%d!%x")) [VInt (-12); VInt 255] =
    Ok (Some (bs "v=-12" ++ [0]), 8).
Proof.
  destruct (ksnprintf_bounded (replicate 6 0) 6 (bs "v=%d!%x") [VInt (-12); VInt 255]
    (bs "v=-12!ff")) as ((k & E & El) & _); [done|lia|by vm_compute|].
  rewrite E. destruct k as [|x k]; [done|]. simpl in El. lia.
Defined.
