(* ===== verification/Scheduler.v ===== *)
(** The process scheduler, src/src/kernel/scheduler.c: a ring of process
    structures on the kernel heap, refined to a list of processes.

    Pointers are addresses into a store of process structures; following a
    pointer that is not in the store (NULL, freed) is an error.  The allocator
    and log states the calls change are part of the state. *)
From Stdlib Require Import ZArith Lia Ascii String.
From stdpp Require Import base tactics option numbers gmap list.
From S2P Require Import Prelude CString PhysMem Klog.
#[local] Open Scope Z_scope.

Record process_t := Process {
  id : Z;
  esp : Z;
  ebp : Z;
  eip : Z;
  stack_base : Z;
  state : Z;
  next : Z;
}.

Definition sizeof_process : Z := 28.

Lemma sizeof_process_u32 : is_u32 sizeof_process.
Proof. done. Qed.

Record sched := Sched {
  procs : gmap Z process_t;
  words_of : gmap Z Z;
  current_process : Z;
  process_list : Z;
  next_pid : Z;
  scheduler_ticks : Z;
  pages : pmm;
  kheap : heap;
  log : klog;
}.

#[export] Instance process_eq_dec : EqDecision process_t.
Proof. solve_decision. Defined.

(** The state at boot, before [scheduler_init]. *)
Definition boot (pages : pmm) (kheap : heap) (log : klog) : sched :=
  Sched ∅ ∅ 0 0 1 0 pages kheap log.

Definition deref (st : sched) (p : Z) : outcome process_t :=
  of_option OutOfBounds (procs st !! p).

Definition set_procs (st : sched) (f : gmap Z process_t -> gmap Z process_t) : sched :=
  Sched (f (procs st)) (words_of st) (current_process st) (process_list st) (next_pid st)
        (scheduler_ticks st) (pages st) (kheap st) (log st).
Definition set_heap (st : sched) (h : heap) : sched :=
  Sched (procs st) (words_of st) (current_process st) (process_list st) (next_pid st)
        (scheduler_ticks st) (pages st) h (log st).
Definition set_pages (st : sched) (p : pmm) : sched :=
  Sched (procs st) (words_of st) (current_process st) (process_list st) (next_pid st)
        (scheduler_ticks st) p (kheap st) (log st).
Definition set_log (st : sched) (l : klog) : sched :=
  Sched (procs st) (words_of st) (current_process st) (process_list st) (next_pid st)
        (scheduler_ticks st) (pages st) (kheap st) l.
Definition set_current (st : sched) (p : Z) : sched :=
  Sched (procs st) (words_of st) p (process_list st) (next_pid st)
        (scheduler_ticks st) (pages st) (kheap st) (log st).
Definition set_next_pid (st : sched) (n : Z) : sched :=
  Sched (procs st) (words_of st) (current_process st) (process_list st) n
        (scheduler_ticks st) (pages st) (kheap st) (log st).
Definition set_words (st : sched) (w : gmap Z Z) : sched :=
  Sched (procs st) w (current_process st) (process_list st) (next_pid st)
        (scheduler_ticks st) (pages st) (kheap st) (log st).

Definition with_next (p : process_t) (n : Z) : process_t :=
  Process (id p) (esp p) (ebp p) (eip p) (stack_base p) (state p) n.

Section scheduler.
(** Whether the serial port is up, and what uninitialised memory holds. *)
Context (serial : bool) (junk : Z).

Definition klog_error (st : sched) (msg : list Z) : sched :=
  set_log st (klog_log serial (log st) KLOG_ERR (Some (bs "sched")) (Some msg)).1.

Definition scheduler_count_internal (st : sched) : outcome Z :=
  if process_list st =? 0 then Ok 0
  else
    p0 ← deref st (process_list st);
    cloop 4097 (fun '(count, p) =>
        if negb (p =? 0) && negb (p =? process_list st) then
          let count := count + 1 in
          q ← deref st p;
          Ok (if 4096 <? count then inr count else inl (count, next q))
        else Ok (inr count))
      (1, next p0).

(** [PANIC] stops the machine: an error here. *)
Definition scheduler_init (st : sched) : outcome sched :=
  let '(k, h) := kmalloc (kheap st) sizeof_process in
  if k =? 0 then Stuck Trap
  else
    let st := set_procs (set_heap st h) (<[k := Process 0 0 0 0 0 1 k]>) in
    Ok (Sched (procs st) (words_of st) k k (next_pid st) (scheduler_ticks st)
              (pages st) (kheap st) (log st)).

(** The six pushes that fake the first context. *)
Definition push_context (entry : Z) (stack_top : Z) (w : gmap Z Z) : gmap Z Z * Z :=
  foldl (fun '(w, top) v => let top := u32 (top - 4) in (<[top := v]> w, top))
        (w, stack_top) [entry; 0; 0; 0; 0; 0].

Definition create_process (st : sched) (entry_point : Z) : outcome (sched * Z) :=
  let '(np, h) := kmalloc (kheap st) sizeof_process in
  let st := set_heap st h in
  if (np =? 0) || (process_list st =? 0) then
    Ok (klog_error st (bs "create_process failed: no process struct memory"), -1)
  else
    let pid := next_pid st in
    let st := set_next_pid st (u32 (pid + 1)) in
    let new_proc := Process pid junk junk junk junk 1 junk in
    let '(stack, pm) := pmm_alloc_page (pages st) in
    let st := set_pages st pm in
    if stack =? 0 then
      Ok (klog_error (set_procs st (<[np := new_proc]>))
            (bs "create_process failed: no free page for stack"), -1)
    else
      let '(w, stack_top) := push_context (u32 entry_point) (u32 (stack + 4096)) (words_of st) in
      let st := set_words st w in
      head ← deref st (process_list st);
      let new_proc := Process pid stack_top junk junk stack 1 (next head) in
      let st := set_procs st (fun m => <[process_list st := with_next head np]> (<[np := new_proc]> m)) in
      '(l, _) ← klog_log_u32 serial (log st) KLOG_INFO (Some (bs "sched")) (Some (bs "created pid")) (u32 pid) 10;
      Ok (set_log st l, i32 pid).

Definition yield (st : sched) : outcome sched :=
  if current_process st =? 0 then Ok st
  else
    cur ← deref st (current_process st);
    if current_process st =? next cur then Ok st
    else Ok (Sched (procs st) (words_of st) (next cur) (process_list st) (next_pid st)
                   (u32 (scheduler_ticks st + 1)) (pages st) (kheap st) (log st)).

(** Rows of [scheduler_proc_info_t]: id, state, current. *)
Definition scheduler_snapshot (st : sched) (max_count : Z) : outcome (list (Z * Z * bool)) :=
  if (max_count <=? 0) || (process_list st =? 0) then Ok []
  else
    rows ← cloop (S (Z.to_nat max_count)) (fun '(written, p) =>
        if max_count <=? Z.of_nat (length written) then Ok (inr written)
        else
          q ← deref st p;
          let written := (id q, state q, p =? current_process st) :: written in
          Ok (if negb (next q =? 0) && negb (next q =? process_list st)
              then inl (written, next q) else inr written))
      ([], process_list st);
    Ok (rev rows).

Definition scheduler_process_count (st : sched) : outcome Z := scheduler_count_internal st.

Definition scheduler_current_pid (st : sched) : outcome Z :=
  if current_process st =? 0 then Ok 0
  else cur ← deref st (current_process st); Ok (id cur).

Definition scheduler_tick_count (st : sched) : Z := scheduler_ticks st.

(** The body of the [if (cur->id == pid)] branch. *)
Definition remove_process (st : sched) (prev cur : Z) (q : process_t) (pid : Z)
    : outcome sched :=
  p ← deref st prev;
  let st := set_procs st (<[prev := with_next p (next q)]>) in
  let st := if current_process st =? cur
            then set_current st (if negb (next q =? 0) then next q else process_list st)
            else st in
  let st := if negb (stack_base q =? 0)
            then set_pages st (pmm_free_page (pages st) (stack_base q)) else st in
  h ← kfree (kheap st) cur;
  let st := set_heap (set_procs st (delete cur)) h in
  '(l, _) ← klog_log_u32 serial (log st) KLOG_WARN (Some (bs "sched")) (Some (bs "killed pid")) (u32 pid) 10;
  Ok (set_log st l).

Definition scheduler_kill (fuel : nat) (st : sched) (pid : Z) : outcome (sched * bool) :=
  if process_list st =? 0 then Ok (st, false)
  else if pid =? 0 then Ok (st, false)
  else
    head ← deref st (process_list st);
    cloop fuel (fun '(prev, cur) =>
        if negb (cur =? 0) && negb (cur =? process_list st) then
          q ← deref st cur;
          if id q =? pid then
            st' ← remove_process st prev cur q pid; Ok (inr (st', true))
          else Ok (inl (cur, next q))
        else Ok (inr (st, false)))
      (process_list st, next head).
End scheduler.

#[local] Opaque klog_log klog_log_u32.
Arguments klog_error : simpl never.
Arguments push_context : simpl never.

(** * The ring *)

(** The nodes of the ring in [next] order, each with its address. *)
Notation node := (Z * process_t)%type.

Definition first_addr (l : list node) (z : Z) : Z :=
  match l with [] => z | n :: _ => fst n end.

(** Every node points to the following one, the last one to [z]. *)
Fixpoint linked (l : list node) (z : Z) : Prop :=
  match l with
  | [] => True
  | n :: l' => next (snd n) = first_addr l' z /\ linked l' z
  end.

Lemma linked_app l1 l2 z :
  linked (l1 ++ l2) z <-> linked l1 (first_addr l2 z) /\ linked l2 z.
Proof.
  induction l1 as [|n l1 IH]; simpl; [tauto|]. rewrite IH.
  assert (first_addr (l1 ++ l2) z = first_addr l1 (first_addr l2 z)) as -> by by destruct l1.
  tauto.
Qed.

(** A process's page is an allocated page. *)
Definition stack_ok (pg : pmm) (s : Z) : Prop := exists i, s = i * PAGE_SIZE /\ allocated pg i.

Definition block_ok (h : heap) (a : Z) : Prop :=
  exists b, b ∈ live h /\ a = hb_addr b + sizeof_header.

Definition pids (l : list node) : list Z := map (fun n => id (snd n)) l.
Definition stacks (l : list node) : list Z := map (fun n => stack_base (snd n)) l.
Definition stored (m : gmap Z process_t) (n : node) : Prop := m !! fst n = Some (snd n).

(** [l] is the ring: the kernel process, then the created ones. *)
Record ring_ok (st : sched) (l : list node) : Prop := {
  ok_head : exists p0 tl, l = (process_list st, p0) :: tl /\ id p0 = 0 /\ stack_base p0 = 0;
  ok_store : Forall (stored (procs st)) l;
  ok_linked : linked l (process_list st);
  ok_distinct : NoDup (map fst l);
  ok_current : current_process st ∈ map fst l;
  ok_blocks : Forall (fun n => block_ok (kheap st) (fst n)) l;
  ok_pids : NoDup (pids l);
  ok_pid_range : Forall (fun i => 0 <= i < next_pid st) (pids l);
  ok_next_pid : 0 < next_pid st < 4294967296;
  ok_stacks : NoDup (stacks (tail l));
  ok_stack : Forall (stack_ok (pages st)) (stacks (tail l));
  ok_heap : heap_ok (kheap st);
  ok_pages : pmm_ok (pages st);
  ok_log : klog_ok (log st);
}.

Lemma block_ok_nonzero h a : heap_ok h -> block_ok h a -> a <> 0.
Proof.
  intros Hok (b & Hb & ->). destruct (live_split _ _ Hb) as (l1 & l2 & Hl).
  destruct (tiles_size (heap_head h) HEAP_START b) as [H _]; [apply Hok| |lia|].
  - rewrite Hl. apply elem_of_app. right. left.
  - unfold HEAP_START, sizeof_header in *. lia.
Qed.

Lemma stack_ok_nonzero pg s : pmm_ok pg -> stack_ok pg s -> s <> 0.
Proof.
  intros Hok (i & -> & [Hm _]). destruct Hok. unfold managed, PAGE_SIZE in *. lia.
Qed.

Section ring.
Context (st : sched) (l : list node) (Hok : ring_ok st l).

Lemma ring_nonzero n : n ∈ l -> fst n <> 0.
Proof using Hok.
  intros Hn. eapply block_ok_nonzero; [apply Hok|].
  pose proof (ok_blocks _ _ Hok) as H. rewrite Forall_forall in H. by apply H.
Qed.

Lemma ring_deref n : n ∈ l -> deref st (fst n) = Ok (snd n).
Proof using Hok.
  intros Hn. pose proof (ok_store _ _ Hok) as H. rewrite Forall_forall in H.
  unfold deref. by rewrite (H _ Hn).
Qed.

Lemma ring_list_nonzero : process_list st <> 0.
Proof using Hok.
  destruct (ok_head _ _ Hok) as (p0 & tl & Hl & _).
  apply (ring_nonzero (process_list st, p0)). rewrite Hl. left.
Qed.

(** The successor of the node at position [i]. *)
Lemma ring_next i n : l !! i = Some n ->
  exists n', l !! ((i + 1) mod length l)%nat = Some n' /\ next (snd n) = fst n'.
Proof using Hok.
  intros Hi. pose proof (lookup_lt_Some _ _ _ Hi) as Hlt.
  pose proof (ok_linked _ _ Hok) as Hlk. rewrite <- (take_drop_middle _ _ _ Hi) in Hlk.
  apply linked_app in Hlk as [_ [Hlk _]].
  destruct (decide (i + 1 = length l)%nat) as [E|E].
  - rewrite E, Nat.Div0.mod_same. destruct (ok_head _ _ Hok) as (p0 & tl & Hl & _).
    rewrite drop_ge in Hlk by lia. rewrite Hl. by exists (process_list st, p0).
  - rewrite Nat.mod_small by lia. destruct (lookup_lt_is_Some_2 l (i + 1)%nat) as [n' Hn']; [lia|].
    exists n'. split; [done|]. rewrite Hlk. replace (S i) with (i + 1)%nat by lia.
    by rewrite (drop_S _ _ _ Hn').
Qed.

Lemma ring_next_nonzero n : n ∈ l -> next (snd n) <> 0 /\ next (snd n) ∈ map fst l.
Proof using Hok.
  intros Hn. apply list_elem_of_lookup in Hn as [i Hi].
  destruct (ring_next i n Hi) as (n' & Hn' & ->). apply list_elem_of_lookup_2 in Hn'.
  split; [by apply ring_nonzero|]. by apply (list_elem_of_fmap_2 fst).
Qed.
End ring.

(** ** Yielding *)

Definition at_position (st : sched) (l : list node) (i : nat) : Prop :=
  map fst l !! i = Some (current_process st).

Lemma yield_spec st l i : ring_ok st l -> at_position st l i ->
  succeeds (yield st) (fun st' => ring_ok st' l /\ at_position st' l ((i + 1) mod length l) /\
    next_pid st' = next_pid st).
Proof.
  intros Hok Hi. unfold at_position in Hi. rewrite list_lookup_fmap in Hi.
  destruct (l !! i) as [n|] eqn:Hn; [|done]. injection Hi as Hi.
  assert (Hin : n ∈ l) by by eapply list_elem_of_lookup_2.
  unfold yield. rewrite <- Hi. destruct (Z.eqb_spec (fst n) 0); [by apply (ring_nonzero _ _ Hok) in Hin|].
  rewrite (ring_deref _ _ Hok _ Hin). simpl. destruct (ring_next _ _ Hok _ _ Hn) as (n' & Hn' & En).
  unfold at_position. rewrite list_lookup_fmap, Hn'. simpl.
  destruct (Z.eqb_spec (fst n) (next (snd n))) as [E|E].
  - apply succeeds_ret. split; [done|]. split; [|done]. congruence.
  - apply succeeds_ret. split; [|split; [by simpl; rewrite En|done]].
    destruct Hok; split; simpl; try done.
    rewrite En. apply (list_elem_of_fmap_2 fst). by eapply list_elem_of_lookup_2.
Qed.

Fixpoint yields (k : nat) (st : sched) : outcome sched :=
  match k with O => Ok st | S k' => st' ← yield st; yields k' st' end.

Lemma yields_spec k : forall st l i, ring_ok st l -> at_position st l i ->
  succeeds (yields k st) (fun st' => ring_ok st' l /\ at_position st' l ((i + k) mod length l)).
Proof.
  induction k as [|k IH]; intros st l i Hok Hi; simpl.
  - apply succeeds_ret. split; [done|]. rewrite Nat.add_0_r, Nat.mod_small; [done|].
    apply lookup_lt_Some in Hi. by rewrite length_map in Hi.
  - destruct (yield_spec st l i Hok Hi) as (st1 & -> & Hok1 & Hi1 & _). simpl.
    destruct (IH st1 l _ Hok1 Hi1) as (st2 & E & Hok2 & Hi2). rewrite E. apply succeeds_ret.
    split; [done|]. replace (i + S k)%nat with (i + 1 + k)%nat by lia.
    rewrite Nat.Div0.add_mod_idemp_l in Hi2. exact Hi2.
Qed.

(** ** Creating *)

Lemma set_log_ok st l lg : ring_ok st l -> klog_ok lg -> ring_ok (set_log st lg) l.
Proof. intros [] ?. by split. Qed.

Lemma klog_error_ok serial st l msg : ring_ok st l -> ring_ok (klog_error serial st msg) l.
Proof. intros H. apply set_log_ok; [done|]. apply klog_log_ok, H. Qed.

Lemma block_ok_kmalloc h p h' a : heap_ok h -> kmalloc h sizeof_process = (p, h') -> p <> 0 ->
  block_ok h a -> block_ok h' a /\ a <> p.
Proof.
  intros Hok Hk Hp (b & Hb & ->).
  destruct (kmalloc_ok h sizeof_process p h' Hok sizeof_process_u32 Hk Hp) as (Hok' & u & -> & _ & _ & Hl).
  split; [exists b; split; [rewrite Hl; by right|done]|].
  pose proof (live_nodup _ Hok') as Hnd. rewrite Hl in Hnd. apply NoDup_cons in Hnd as [Hu _].
  intros E. apply Hu. apply list_elem_of_fmap. exists b. split; [lia|done].
Qed.

Lemma create_ring serial junk st l entry :
  ring_ok st l -> next_pid st < 4294967295 ->
  succeeds (create_process serial junk st entry) (fun '(st', r) =>
    (r = -1 /\ ring_ok st' l /\ current_process st' = current_process st /\
      ((kheap st' = kheap st /\ next_pid st' = next_pid st) \/
       (exists u, live (kheap st') ≡ₚ u :: live (kheap st) /\ next_pid st' = next_pid st + 1 /\
          pages st' = pages st /\ forall i, managed (pages st) i -> allocated (pages st) i))) \/
    (r = i32 (next_pid st) /\ next_pid st' = next_pid st + 1 /\
     current_process st' = current_process st /\ exists n0 n tl,
      l = n0 :: tl /\ id (snd n) = next_pid st /\ state (snd n) = 1 /\
      ring_ok st' ((fst n0, with_next (snd n0) (fst n)) :: n :: tl))).
Proof.
  intros Hok Hpid. unfold create_process.
  destruct (kmalloc (kheap st) sizeof_process) as [np h] eqn:Hk.
  destruct (Z.eqb_spec np 0) as [->|Hnp].
  { apply succeeds_ret. left. destruct (kmalloc_fail _ _ _ (ok_heap _ _ Hok) sizeof_process_u32 Hk)
      as [-> _]. split; [done|]. split; [|by split; [|left]].
    apply klog_error_ok. destruct Hok; by split. }
  destruct (Z.eqb_spec (process_list (set_heap st h)) 0) as [E|_];
    [by apply (ring_list_nonzero _ _ Hok) in E|]. cbn [orb].
  destruct (kmalloc_ok _ _ _ _ (ok_heap _ _ Hok) sizeof_process_u32 Hk Hnp) as (Hh & u & Hu & _ & _ & Hlive).
  assert (Hbl : forall n, n ∈ l -> block_ok h (fst n) /\ fst n <> np).
  { intros n Hn. pose proof (ok_blocks _ _ Hok) as Hb. rewrite Forall_forall in Hb.
    apply (block_ok_kmalloc (kheap st)); [apply Hok|done|done|by apply Hb]. }
  destruct (pmm_alloc_page _) as [stack pm] eqn:Ha. cbn [pages set_heap set_next_pid] in Ha.
  change (next_pid (set_heap st h)) with (next_pid st).
  pose proof (ok_next_pid _ _ Hok) as Hnx. rewrite (u32_small (next_pid st + 1)) by words.
  destruct (Z.eqb_spec stack 0) as [->|Hs].
  { apply succeeds_ret. left.
    destruct (alloc_page_none _ _ _ (ok_pages _ _ Hok) Ha eq_refl) as [-> Hfull].
    split; [done|]. split; [|split; [done|right; by exists u]]. apply klog_error_ok.
    destruct Hok; split; simpl; try done; try lia.
    - apply Forall_forall. intros n Hn. rewrite Forall_forall in ok_store0. unfold stored.
      rewrite lookup_insert_ne; [by apply ok_store0|]. intros E. by apply (Hbl n Hn).
    - apply Forall_forall. intros n Hn. by apply Hbl.
    - eapply Forall_impl; [done|]. simpl. lia. }
  destruct (push_context _ _ _) as [w top].
  destruct (ok_head _ _ Hok) as (p0 & tl & Hl & Hid0 & Hst0).
  cbn [set_words set_pages set_next_pid set_heap process_list].
  unfold deref at 1. cbn [procs].
  assert (Hin0 : (process_list st, p0) ∈ l) by (rewrite Hl; left).
  pose proof (ok_store _ _ Hok) as Hsto. rewrite Forall_forall in Hsto.
  rewrite (Hsto _ Hin0). cbn [mbind outcome_bind of_option set_procs set_words set_pages set_next_pid set_heap log].
  eapply succeeds_bind; [apply klog_log_u32_ok; [apply Hok|apply u32_range]|]. intros [lg out] Hlg. cbn [fst] in Hlg.
  apply succeeds_ret. right.
  split; [done|]. split; [done|]. split; [done|].
  exists (process_list st, p0), (np, Process (next_pid st) top junk junk stack 1 (next p0)), tl.
  split; [done|]. split; [done|]. split; [done|]. apply set_log_ok; [|exact Hlg].
  destruct (alloc_page_some _ _ _ (ok_pages _ _ Hok) Ha Hs)
    as (i & -> & Hi & Hna & Hpm & _ & Hall & _).
  destruct Hok as [_ _ Hlk Hd Hc Hb Hpids Hpr _ Hss Hsk _ _ Hlog].
  rewrite Hl in *. simpl in *. apply NoDup_cons in Hd as [Hd0 Hd].
  assert (Hfresh : forall n, n ∈ tl -> stored (procs st) n /\ fst n <> process_list st /\ fst n <> np).
  { intros n Hn. split; [by apply Hsto; right|]. split.
    - intros E. apply Hd0. rewrite <- E. by apply (list_elem_of_fmap_2 fst).
    - apply (Hbl n). by right. }
  assert (Hnp0 : process_list st <> np) by (apply (Hbl (process_list st, p0)); left).
  split; simpl; try done.
  - by exists (with_next p0 np), ((np, Process (next_pid st) top junk junk (i * PAGE_SIZE) 1 (next p0)) :: tl).
  - repeat constructor; unfold stored; simpl.
    + apply lookup_insert_eq.
    + rewrite lookup_insert_ne by done. apply lookup_insert_eq.
    + apply Forall_forall. intros n Hn. destruct (Hfresh n Hn) as (? & ? & ?).
      rewrite !lookup_insert_ne by congruence. done.
  - constructor.
    + intros [E|Hx]%elem_of_cons; [done|by apply Hd0].
    + constructor; [|done]. intros Hx. apply list_elem_of_fmap in Hx as (n & E & Hn).
      destruct (Hfresh n Hn) as (_ & _ & ?). congruence.
  - apply elem_of_cons in Hc as [->|Hc]; [left|by right; right].
  - repeat constructor.
    + apply (Hbl (process_list st, p0)). left.
    + exists u. split; [rewrite Hlive; left|done].
    + apply Forall_forall. intros n Hn. apply Hbl. by right.
  - apply NoDup_cons in Hpids as [Hp0 Hpids]. apply Forall_cons in Hpr as [Hr0 Hpr].
    assert (Hnew : next_pid st ∉ pids tl).
    { intros Hx. rewrite Forall_forall in Hpr. apply Hpr in Hx. lia. }
    constructor; [intros [E|Hx]%elem_of_cons; [lia|done]|by constructor].
  - apply Forall_cons in Hpr as [Hr0 Hpr]. repeat constructor; try lia.
    eapply Forall_impl; [done|]. simpl. lia.
  - lia.
  - constructor; [|done]. intros Hx. rewrite Forall_forall in Hsk.
    destruct (Hsk _ Hx) as (j & E & Hj). unfold PAGE_SIZE in E.
    assert (j = i) as -> by lia. done.
  - constructor; [exists i; split; [done|]; apply Hall; by left|].
    eapply Forall_impl; [done|]. intros s (j & -> & Hj). exists j. split; [done|]. apply Hall. by right.
Qed.

(** ** Killing *)

(** Taking the node [y] out behind [x], whose [next] changes. *)
Section unlink.
Context (l1 l2 : list node) (x x' y : node).

Lemma unlink_perm {A} (f : node -> A) : f x' = f x ->
  map f (l1 ++ x :: y :: l2) ≡ₚ f y :: map f (l1 ++ x' :: l2).
Proof.
  intros E. rewrite !map_app. simpl. rewrite E, Permutation_middle.
  apply Permutation_app; [done|]. constructor.
Qed.

Lemma unlink_perm_tail {A} (f : node -> A) : f x' = f x ->
  map f (tail (l1 ++ x :: y :: l2)) ≡ₚ f y :: map f (tail (l1 ++ x' :: l2)).
Proof.
  intros E. destruct l1 as [|n k]; simpl; [done|].
  rewrite !map_app. simpl. rewrite E, Permutation_middle.
  apply Permutation_app; [done|]. constructor.
Qed.

Lemma elem_of_unlinked n : n ∈ l1 ++ x' :: l2 ->
  n = x' \/ (n ∈ l1 ++ l2 /\ n ∈ l1 ++ x :: y :: l2).
Proof.
  rewrite !elem_of_app, !elem_of_cons. tauto.
Qed.

Lemma unlink_linked z : linked (l1 ++ x :: y :: l2) z ->
  fst x' = fst x -> next (snd x') = next (snd y) -> linked (l1 ++ x' :: l2) z.
Proof.
  rewrite !linked_app. simpl. intros (H1 & _ & H2 & H3) E1 E2. rewrite E1, E2. done.
Qed.

(** The store after writing [x'] and freeing [y]. *)
Lemma unlink_store m :
  Forall (stored m) (l1 ++ x :: y :: l2) -> NoDup (map fst (l1 ++ x :: y :: l2)) ->
  fst x' = fst x ->
  Forall (stored (delete (fst y) (<[fst x := snd x']> m))) (l1 ++ x' :: l2).
Proof.
  intros Hs Hd E. pose proof Hd as Hd'. rewrite (unlink_perm fst E) in Hd'.
  apply NoDup_cons in Hd' as [Hy Hd']. apply Forall_forall. intros n Hn. unfold stored.
  rewrite lookup_delete_ne; [|intros Ey; apply Hy; rewrite Ey; by apply (list_elem_of_fmap_2 fst)].
  apply elem_of_unlinked in Hn as [->|[Hn Hnl]].
  - rewrite E. apply lookup_insert_eq.
  - rewrite lookup_insert_ne; [rewrite Forall_forall in Hs; by apply Hs|].
    rewrite map_app in Hd'. simpl in Hd'. rewrite <- Permutation_middle in Hd'.
    apply NoDup_cons in Hd' as [Hx _]. rewrite E, <- map_app in Hx. intros Ex. apply Hx.
    rewrite Ex. by apply (list_elem_of_fmap_2 fst).
Qed.
End unlink.

(** The state after unlinking keeps the ring, given what happens to the page,
    the block and the current process. *)
Lemma unlink_ring st l1 prev p cur q l2 curp' pg' h' :
  let l' := l1 ++ (prev, with_next p (next q)) :: l2 in
  ring_ok st (l1 ++ (prev, p) :: (cur, q) :: l2) ->
  curp' ∈ map fst l' ->
  pmm_ok pg' -> (forall s, s <> stack_base q -> stack_ok (pages st) s -> stack_ok pg' s) ->
  heap_ok h' -> (forall a, a <> cur -> block_ok (kheap st) a -> block_ok h' a) ->
  ring_ok (Sched (delete cur (<[prev := with_next p (next q)]> (procs st))) (words_of st) curp'
             (process_list st) (next_pid st) (scheduler_ticks st) pg' h' (log st)) l'.
Proof.
  intros l' Hok Hcur Hpg Hstk Hh Hblk.
  destruct Hok as [Hhd Hsto Hlk Hd _ Hb Hpids Hpr Hnx Hss Hsk _ _ Hlog].
  pose proof (unlink_perm_tail l1 l2 (prev, p) (prev, with_next p (next q)) (cur, q)
    (fun n => stack_base (snd n)) eq_refl) as Hpt.
  pose proof (unlink_perm l1 l2 (prev, p) (prev, with_next p (next q)) (cur, q)
    (fun n => id (snd n)) eq_refl) as Hpp.
  pose proof (unlink_perm l1 l2 (prev, p) (prev, with_next p (next q)) (cur, q) fst eq_refl) as Hpf.
  split; simpl; try done.
  - destruct Hhd as (p0 & tl & E & E1 & E2). unfold l'.
    clear -E E1 E2. destruct l1 as [|n k]; simplify_eq/=; by eexists _, _.
  - apply (unlink_store l1 l2 (prev, p) (prev, with_next p (next q)) (cur, q)); done.
  - by apply (unlink_linked l1 l2 (prev, p) (prev, with_next p (next q)) (cur, q)).
  - rewrite Hpf in Hd. by apply NoDup_cons in Hd as [_ Hd].
  - assert (Hall : Forall (block_ok (kheap st)) (map fst l')).
    { apply (List.Forall_map fst) in Hb. rewrite Hpf in Hb.
      by apply Forall_cons in Hb as [_ Hb]. }
    rewrite Hpf in Hd. apply NoDup_cons in Hd as [Hd _]. apply Forall_forall. intros n Hn.
    apply (list_elem_of_fmap_2 fst) in Hn. rewrite Forall_forall in Hall.
    apply Hblk; [intros E; apply Hd; by rewrite <- E|by apply Hall].
  - unfold pids in *. rewrite Hpp in Hpids. by apply NoDup_cons in Hpids as [_ Hpids].
  - unfold pids in *. rewrite Hpp in Hpr. by apply Forall_cons in Hpr as [_ Hpr].
  - unfold stacks in *. rewrite Hpt in Hss. by apply NoDup_cons in Hss as [_ Hss].
  - unfold stacks in *. rewrite Hpt in Hss, Hsk. apply NoDup_cons in Hss as [Hss _].
    apply Forall_cons in Hsk as [_ Hsk]. rewrite Forall_forall in Hsk. apply Forall_forall.
    intros s Hs. apply Hstk; [intros ->; by apply Hss|by apply Hsk].
Qed.

(** A created process's resources can be given back. *)
Lemma free_resources st l1 prev p cur q l2 :
  ring_ok st (l1 ++ (prev, p) :: (cur, q) :: l2) ->
  stack_base q <> 0 /\ pmm_ok (pmm_free_page (pages st) (stack_base q)) /\
  (forall s, s <> stack_base q -> stack_ok (pages st) s ->
     stack_ok (pmm_free_page (pages st) (stack_base q)) s) /\
  exists h', kfree (kheap st) cur = Ok h' /\ heap_ok h' /\
    (forall a, a <> cur -> block_ok (kheap st) a -> block_ok h' a).
Proof.
  intros Hok.
  assert (Hs : stack_ok (pages st) (stack_base q)).
  { pose proof (ok_stack _ _ Hok) as Hs. rewrite Forall_forall in Hs. apply Hs.
    apply list_elem_of_fmap. exists (cur, q). split; [done|].
    destruct l1; simpl; [left|apply elem_of_app; right; right; left]. }
  split; [eapply stack_ok_nonzero; [apply Hok|done]|].
  destruct Hs as (i & -> & Hi). destruct (free_page_ok _ _ (ok_pages _ _ Hok) Hi) as [H1 H2].
  split; [done|]. split.
  { intros s Hne (j & -> & Hj). exists j. split; [done|]. apply H2. split; [|done]. congruence. }
  pose proof (ok_blocks _ _ Hok) as Hb. rewrite Forall_forall in Hb.
  destruct (Hb (cur, q)) as (b & Hbl & Ec); [apply elem_of_app; right; right; left|].
  simpl in Ec. subst cur. destruct (kfree_live _ _ (ok_heap _ _ Hok) Hbl) as (h' & E & Hh & Hl).
  exists h'. split; [done|]. split; [done|]. intros a Ha (c & Hc & ->). exists c. split; [|done].
  apply Hl; [done|]. intros E'. apply Ha. by rewrite E'.
Qed.

(** The successor of the removed node is still in the ring. *)
Lemma next_stays st l1 prev p cur q l2 :
  ring_ok st (l1 ++ (prev, p) :: (cur, q) :: l2) ->
  next q ∈ map fst (l1 ++ (prev, with_next p (next q)) :: l2).
Proof.
  intros Hok. pose proof (ok_distinct _ _ Hok) as Hd.
  destruct (ring_next_nonzero _ _ Hok (cur, q)) as [_ Hql]; [apply elem_of_app; right; right; left|].
  pose proof (ok_linked _ _ Hok) as Hlk. apply linked_app in Hlk as (_ & _ & Hlkq & _).
  rewrite (unlink_perm l1 l2 (prev, p) (prev, with_next p (next q)) (cur, q) fst eq_refl) in Hql.
  apply elem_of_cons in Hql as [Hql|Hql]; [|done]. exfalso. simpl in *.
  rewrite map_app in Hd. apply NoDup_app in Hd as (_ & Hd1 & Hd). simpl in *.
  apply NoDup_cons in Hd as [Hd2 Hd]. apply NoDup_cons in Hd as [Hd3 _].
  destruct l2 as [|n2 l2]; simpl in *; [|apply Hd3; rewrite <- Hql, Hlkq; left].
  destruct (ok_head _ _ Hok) as (p0 & tl & E0 & _). rewrite Hlkq in Hql.
  assert (Hin : process_list st ∈ map fst (l1 ++ [(prev, p)])).
  { clear -E0. destruct l1 as [|n1 k]; simplify_eq/=; left. }
  rewrite map_app in Hin. apply elem_of_app in Hin as [Hin|Hin].
  - apply (Hd1 _ Hin). rewrite Hql. right. left.
  - apply list_elem_of_singleton in Hin. simpl in Hin. apply Hd2. rewrite <- Hin, Hql. left.
Qed.

Lemma remove_process_spec serial st l1 prev p cur q l2 pid :
  ring_ok st (l1 ++ (prev, p) :: (cur, q) :: l2) ->
  succeeds (remove_process serial st prev cur q pid) (fun st' =>
    ring_ok st' (l1 ++ (prev, with_next p (next q)) :: l2) /\ next_pid st' = next_pid st /\
    (current_process st <> cur -> current_process st' = current_process st)).
Proof.
  intros Hok. destruct (free_resources _ _ _ _ _ _ _ Hok) as (Hnz & Hpg & Hstk & h' & Hk & Hh & Hbl).
  unfold remove_process, deref. pose proof (ok_store _ _ Hok) as Hsto.
  rewrite Forall_forall in Hsto. unfold stored in Hsto.
  specialize (Hsto (prev, p)). cbn [fst snd] in Hsto.
  rewrite Hsto by (apply elem_of_app; right; left). cbn [mbind outcome_bind of_option].
  destruct (ring_next_nonzero _ _ Hok (cur, q)) as [Hq Hql]; [apply elem_of_app; right; right; left|].
  simpl in Hq. rewrite (proj2 (Z.eqb_neq (next q) 0)) by done. cbn [negb].
  rewrite (proj2 (Z.eqb_neq (stack_base q) 0)) by done. cbn [negb].
  set (curp := if current_process st =? cur then next q else current_process st).
  assert (Hcur : curp ∈ map fst (l1 ++ (prev, with_next p (next q)) :: l2)).
  { pose proof (ok_current _ _ Hok) as Hc.
    rewrite (unlink_perm l1 l2 (prev, p) (prev, with_next p (next q)) (cur, q) fst eq_refl) in Hc.
    subst curp. destruct (Z.eqb_spec (current_process st) cur) as [E|E].
    - by eapply next_stays.
    - apply elem_of_cons in Hc as [Hc|Hc]; [by simpl in Hc|done]. }
  set (st1 := if current_process (set_procs st _) =? cur then _ else _).
  assert (Est1 : st1 = Sched (<[prev := with_next p (next q)]> (procs st)) (words_of st)
    curp (process_list st) (next_pid st) (scheduler_ticks st) (pages st) (kheap st) (log st)).
  { subst st1 curp. simpl. by case_match. }
  rewrite Est1. cbn [set_pages kheap pages]. rewrite Hk. cbn [mbind outcome_bind set_heap set_procs log].
  eapply succeeds_bind; [apply klog_log_u32_ok; [exact (ok_log _ _ Hok)|apply u32_range]|]. intros [lg out] Hlg. cbn [fst] in Hlg.
  apply succeeds_ret. split; [|split; [done|]].
  - apply set_log_ok; [|exact Hlg].
    exact (unlink_ring st l1 prev p cur q l2 curp _ h' Hok Hcur Hpg Hstk Hh Hbl).
  - intros Hne. cbn. subst curp. by rewrite (proj2 (Z.eqb_neq _ _)).
Qed.

Definition not_pid (pid : Z) (i : Z) : bool := negb (i =? pid).

(** Where a walk along the ring stands: [l1 ++ [(prev, p)]] is behind it. *)
Lemma walk_step st l1 n l2 : ring_ok st (l1 ++ n :: l2) ->
  next (snd n) = first_addr l2 (process_list st) /\
  match l2 with
  | [] => True
  | m :: _ => fst m <> 0 /\ fst m <> process_list st /\ deref st (fst m) = Ok (snd m)
  end.
Proof.
  intros Hok. pose proof (ok_linked _ _ Hok) as Hlk. apply linked_app in Hlk as (_ & Hlk & _).
  split; [done|]. destruct l2 as [|m l2]; [done|].
  assert (Hm : m ∈ l1 ++ n :: m :: l2) by (apply elem_of_app; right; right; left).
  split; [by apply (ring_nonzero _ _ Hok)|]. split; [|by apply (ring_deref _ _ Hok)].
  pose proof (ok_distinct _ _ Hok) as Hd. destruct (ok_head _ _ Hok) as (p0 & tl & E & _).
  intros Em. rewrite E in Hd. simpl in Hd. apply NoDup_cons in Hd as [Hd _]. apply Hd.
  rewrite <- Em. apply (list_elem_of_fmap_2 fst). clear -E.
  destruct l1 as [|n1 k]; simplify_eq/=; [left|apply elem_of_app; right; right; left].
Qed.

Lemma kill_spec serial st l pid fuel :
  ring_ok st l -> pid <> 0 -> (length l <= fuel)%nat ->
  succeeds (scheduler_kill serial fuel st pid) (fun '(st', r) =>
    r = bool_decide (pid ∈ pids l) /\ next_pid st' = next_pid st /\
    (r = false -> st' = st) /\
    exists l', ring_ok st' l' /\ pids l' = List.filter (not_pid pid) (pids l)).
Proof.
  intros Hok Hpid Hfuel. unfold scheduler_kill.
  rewrite (proj2 (Z.eqb_neq _ _) (ring_list_nonzero _ _ Hok)).
  rewrite (proj2 (Z.eqb_neq pid 0)) by done.
  destruct (ok_head _ _ Hok) as (p0 & tl & Hl & Hid0 & _).
  assert (Hd0 : deref st (process_list st) = Ok p0).
  { apply (ring_deref _ _ Hok (process_list st, p0)). rewrite Hl. left. }
  rewrite Hd0. cbn [mbind outcome_bind].
  assert (Hnf : forall k, pid ∉ k -> List.filter (not_pid pid) k = k).
  { induction k as [|i k IH]; intros Hk; [done|]. apply not_elem_of_cons in Hk as [H1 H2].
    simpl. unfold not_pid at 1. rewrite (proj2 (Z.eqb_neq i pid)) by done. simpl. by rewrite IH. }
  apply (cloop_ranked _ (fun k '(prev, cur) => exists l1 p l2, l = l1 ++ (prev, p) :: l2 /\
      cur = first_addr l2 (process_list st) /\ pid ∉ pids (l1 ++ [(prev, p)]) /\
      k = length l2)) with (k := length tl).
  - clear Hl Hid0 Hd0 p0 tl. intros k [prev cur] (l1 & p & l2 & -> & -> & Hni & ->).
    destruct (walk_step _ _ _ _ Hok) as [_ Hm]. destruct l2 as [|[c q] l2]; simpl in *.
    + rewrite Z.eqb_refl, andb_false_r. apply succeeds_ret.
      rewrite bool_decide_eq_false_2 by done. repeat (split; [done|]).
      eexists. split; [done|]. by rewrite Hnf.
    + destruct Hm as (H0 & H1 & H2).
      rewrite (proj2 (Z.eqb_neq c 0)), (proj2 (Z.eqb_neq c (process_list st))) by done. simpl.
      rewrite H2. simpl. destruct (Z.eqb_spec (id q) pid) as [E|E].
      * destruct (remove_process_spec serial _ _ _ _ _ _ _ pid Hok) as (st' & -> & Hok' & Hn & _).
        simpl. apply succeeds_ret. rewrite bool_decide_eq_true_2.
        2: { unfold pids. rewrite map_app. apply elem_of_app. right. right. simpl. rewrite E. left. }
        split; [done|]. split; [done|]. split; [done|]. eexists. split; [done|].
        pose proof (ok_pids _ _ Hok) as Hnd. unfold pids in *.
        rewrite map_app in Hnd, Hni. rewrite !map_app. simpl in *. rewrite List.filter_app. simpl.
        apply not_elem_of_app in Hni as [Hn1 Hn2]. apply not_elem_of_cons in Hn2 as [Hn2 _].
        apply NoDup_app in Hnd as (_ & _ & Hnd). apply NoDup_cons in Hnd as [_ Hnd].
        apply NoDup_cons in Hnd as [Hnd _]. rewrite E in *.
        unfold not_pid at 2 3. rewrite Z.eqb_refl. rewrite (proj2 (Z.eqb_neq (id p) pid)) by done.
        simpl. by rewrite !Hnf.
      * apply succeeds_ret. exists (length l2). split; [lia|].
        exists (l1 ++ [(prev, p)]), q, l2. rewrite <- app_assoc. split; [done|].
        pose proof (walk_step st (l1 ++ [(prev, p)]) (c, q) l2) as Hw. rewrite <- app_assoc in Hw.
        split; [by apply Hw|]. split; [|done].
        unfold pids in *. rewrite map_app. apply not_elem_of_app. split; [done|].
        simpl. apply not_elem_of_cons. split; [done|apply not_elem_of_nil].
  - exists [], p0, tl. split; [done|]. split.
    + rewrite Hl in Hok. by destruct (walk_step st [] _ _ Hok).
    + split; [|done]. simpl. rewrite Hid0. apply not_elem_of_cons. split; [done|apply not_elem_of_nil].
  - rewrite Hl in Hfuel. simpl in Hfuel. lia.
Qed.

(** ** Snapshot and count *)

Definition row (cur : Z) (n : node) : Z * Z * bool :=
  (id (snd n), state (snd n), fst n =? cur).

Lemma snapshot_spec st l max_count : ring_ok st l ->
  scheduler_snapshot st max_count =
    Ok (take (Z.to_nat max_count) (map (row (current_process st)) l)).
Proof.
  intros Hok. unfold scheduler_snapshot.
  rewrite (proj2 (Z.eqb_neq _ _) (ring_list_nonzero _ _ Hok)), orb_false_r.
  destruct (Z.leb_spec max_count 0); [by replace (Z.to_nat max_count) with 0%nat by lia|].
  set (rows := map (row (current_process st)) l).
  match goal with |- ?X ≫= _ = _ => enough (succeeds X (fun r => r = rev (take (Z.to_nat max_count) rows)))
    as (r & -> & ->) end; [simpl; by rewrite rev_involutive|].
  apply (cloop_ranked _ (fun k '(written, p) => exists l1 n l2, l = l1 ++ n :: l2 /\ p = fst n /\
    written = rev (map (row (current_process st)) l1) /\ (length l1 <= Z.to_nat max_count)%nat /\
    k = (Z.to_nat max_count - length l1)%nat)) with (k := Z.to_nat max_count).
  - intros k [written p] (l1 & n & l2 & Hl & -> & -> & Hle & ->).
    rewrite length_rev, length_map. destruct (Z.leb_spec max_count (Z.of_nat (length l1))).
    + apply succeeds_ret. unfold rows. rewrite Hl, map_app, take_app_length'; [done|].
      rewrite length_map. lia.
    + rewrite (ring_deref _ _ Hok n) by (rewrite Hl; apply elem_of_app; right; left). simpl.
      assert (Hok' := Hok). rewrite Hl in Hok'. destruct (walk_step _ _ _ _ Hok') as [-> Hm].
      destruct l2 as [|m l2]; simpl in *.
      * rewrite Z.eqb_refl, andb_false_r. apply succeeds_ret.
        unfold rows. rewrite Hl, take_ge by (rewrite length_map, length_app; simpl; lia).
        by rewrite map_app, rev_app_distr.
      * destruct Hm as (H1 & H2 & _).
        rewrite (proj2 (Z.eqb_neq (fst m) 0)), (proj2 (Z.eqb_neq (fst m) (process_list st))) by done.
        apply succeeds_ret. exists (Z.to_nat max_count - length (l1 ++ [n]))%nat.
        split; [rewrite length_app; simpl; lia|].
        exists (l1 ++ [n]), m, l2. rewrite map_app, rev_app_distr, <- app_assoc, length_app. simpl.
        split_and!; done || lia.
  - destruct (ok_head _ _ Hok) as (p0 & tl & Hl & _). exists [], (process_list st, p0), tl.
    simpl. rewrite Nat.sub_0_r. split_and!; done || lia.
  - lia.
Qed.

Lemma count_spec st l : ring_ok st l -> (length l <= 4096)%nat ->
  scheduler_process_count st = Ok (Z.of_nat (length l)).
Proof.
  intros Hok Hlen. unfold scheduler_process_count, scheduler_count_internal.
  rewrite (proj2 (Z.eqb_neq _ _) (ring_list_nonzero _ _ Hok)).
  destruct (ok_head _ _ Hok) as (p0 & tl & Hl & _).
  pose proof (ring_deref _ _ Hok (process_list st, p0)) as Hd0. simpl in Hd0.
  rewrite Hd0 by (rewrite Hl; left). cbn [mbind outcome_bind].
  match goal with |- ?X = _ => enough (succeeds X (fun r => r = Z.of_nat (length l)))
    as (r & -> & ->) end; [done|].
  apply (cloop_ranked _ (fun k '(count, p) => exists l1 n l2, l = l1 ++ n :: l2 /\
    p = next (snd n) /\ count = Z.of_nat (length l1) + 1 /\ k = length l2)) with (k := length tl).
  - intros k [count p] (l1 & n & l2 & Hll & -> & -> & ->).
    assert (Hok' := Hok). rewrite Hll in Hok'. destruct (walk_step _ _ _ _ Hok') as [-> Hm].
    destruct l2 as [|m l2]; simpl in *.
    + rewrite Z.eqb_refl, andb_false_r. apply succeeds_ret. rewrite Hll, length_app. simpl. lia.
    + destruct Hm as (H1 & H2 & H3).
      rewrite (proj2 (Z.eqb_neq (fst m) 0)), (proj2 (Z.eqb_neq (fst m) (process_list st))) by done.
      simpl. rewrite H3. simpl. rewrite Hll, length_app in Hlen. simpl in Hlen.
      destruct (Z.ltb_spec 4096 (Z.of_nat (length l1) + 1 + 1)); [lia|]. apply succeeds_ret.
      exists (length l2). split; [lia|]. exists (l1 ++ [n]), m, l2. rewrite <- app_assoc, length_app.
      simpl. split_and!; done || lia.
  - exists [], (process_list st, p0), tl. simpl. split_and!; done || lia.
  - rewrite Hl in Hlen. simpl in Hlen. lia.
Qed.

(** ** Reachable schedulers *)

Lemma init_spec st : heap_ok (kheap st) -> pmm_ok (pages st) -> klog_ok (log st) ->
  next_pid st = 1 -> (kmalloc (kheap st) sizeof_process).1 <> 0 ->
  succeeds (scheduler_init st) (fun st' => exists n, ring_ok st' [n] /\ next_pid st' = 1).
Proof.
  intros Hh Hp Hl Hn Hk. unfold scheduler_init.
  destruct (kmalloc (kheap st) sizeof_process) as [k h] eqn:E. simpl in Hk.
  rewrite (proj2 (Z.eqb_neq k 0)) by done. apply succeeds_ret.
  destruct (kmalloc_ok _ _ _ _ Hh sizeof_process_u32 E Hk) as (Hh' & u & -> & _ & _ & Hlive).
  exists (hb_addr u + sizeof_header, Process 0 0 0 0 0 1 (hb_addr u + sizeof_header)).
  split; [|done]. split; simpl; try done.
  - by eexists _, [].
  - repeat constructor. apply lookup_insert_eq.
  - repeat constructor. apply not_elem_of_nil.
  - left.
  - repeat constructor. exists u. split; [rewrite Hlive; left|done].
  - repeat constructor. apply not_elem_of_nil.
  - repeat constructor; lia.
  - lia.
  - constructor.
Qed.

Section reachable.
Context (serial : bool) (junk : Z).

(** One call of an operation that changes the scheduler.  [create_process]
    is called while fewer than 2^32 - 1 pids have been handed out. *)
Inductive sched_step : sched -> sched -> Prop :=
| step_create st entry st' r :
    next_pid st < 4294967295 -> create_process serial junk st entry = Ok (st', r) ->
    sched_step st st'
| step_yield st st' : yield st = Ok st' -> sched_step st st'
| step_kill st fuel pid st' r :
    scheduler_kill serial fuel st pid = Ok (st', r) -> sched_step st st'.

Inductive sched_reachable : sched -> Prop :=
| reach_boot mem st :
    is_u32 mem ->
    scheduler_init (boot (pmm_init mem) heap_init klog_init) = Ok st -> sched_reachable st
| reach_call st st' : sched_reachable st -> sched_step st st' -> sched_reachable st'.

Lemma kill_mono fuel fuel' st pid x :
  scheduler_kill serial fuel st pid = Ok x -> (fuel <= fuel')%nat ->
  scheduler_kill serial fuel' st pid = Ok x.
Proof.
  unfold scheduler_kill. destruct (process_list st =? 0); [done|].
  destruct (pid =? 0); [done|]. destruct (deref _ _); [|done]. by apply cloop_mono.
Qed.

Lemma kill_any fuel st l pid st' r : ring_ok st l ->
  scheduler_kill serial fuel st pid = Ok (st', r) -> exists l', ring_ok st' l'.
Proof.
  intros Hok E. destruct (decide (pid = 0)) as [->|Hpid].
  - unfold scheduler_kill in E. rewrite Z.eqb_refl in E. exists l.
    destruct (process_list st =? 0); congruence.
  - eapply kill_mono in E; [|apply (Nat.le_add_r fuel (length l))].
    destruct (kill_spec serial st l pid (fuel + length l) Hok Hpid ltac:(lia))
      as ([st2 r2] & E2 & _ & _ & _ & l' & Hok' & _).
    rewrite E in E2. injection E2 as <- <-. by exists l'.
Qed.

Lemma reachable_ring st : sched_reachable st -> exists l, ring_ok st l.
Proof.
  induction 1 as [mem st Hm Hi|st st' _ [l Hok] Hs].
  - destruct (init_spec (boot (pmm_init mem) heap_init klog_init))
      as (st2 & E & n & Hok & _).
    + apply heap_init_ok.
    + by apply pmm_init_ok.
    + apply klog_init_ok.
    + done.
    + by vm_compute.
    + rewrite Hi in E. injection E as ->. by exists [n].
  - destruct Hs as [st entry st' r Hp E|st st' E|st fuel pid st' r E].
    + destruct (create_ring serial junk st l entry Hok Hp)
        as ([st2 r2] & E2 & [(_ & H & _)|(_ & _ & _ & n0 & n & tl & _ & _ & _ & H)]);
        rewrite E in E2; injection E2 as <- <-; by eexists.
    + pose proof (ok_current _ _ Hok) as Hc. apply list_elem_of_lookup in Hc as [i Hi].
      destruct (yield_spec st l i Hok Hi) as (st2 & E2 & H & _). exists l. congruence.
    + by eapply kill_any.
Qed.
End reachable.

(** A run used as a concrete instance: [scheduler_init], then one process. *)
Definition demo (st : sched) : outcome (sched * Z) :=
  st ← scheduler_init st; create_process false 0 st 0x1000.

Lemma demo_spec st0 : heap_ok (kheap st0) -> pmm_ok (pages st0) -> klog_ok (log st0) ->
  next_pid st0 = 1 -> (kmalloc (kheap st0) sizeof_process).1 <> 0 -> snd <$> demo st0 = Ok 1 ->
  exists st1 st l, scheduler_init st0 = Ok st1 /\ sched_step false 0 st1 st /\
    ring_ok st l /\ pids l = [0; 1] /\ next_pid st = 2.
Proof.
  intros Hh Hp Hl Hn Hk Hd. destruct (init_spec st0) as (st1 & E0 & n & Hok & Hn1); [done..|].
  destruct (create_ring false 0 st1 [n] 0x1000 Hok) as ([st r] & E & H); [by rewrite Hn1|].
  unfold demo in Hd. rewrite E0 in Hd. cbn [mbind outcome_bind] in Hd. rewrite E in Hd.
  injection Hd as ->.
  destruct H as [(? & _)|(_ & Hn' & _ & n0 & n1 & tl & El & Hid & _ & Hr)]; [done|].
  exists st1, st. eexists. split; [done|]. split; [eapply step_create; [|exact E]; by rewrite Hn1|].
  split; [exact Hr|]. injection El as <- <-. destruct (ok_head _ _ Hok) as (p0 & tl & E1 & E2 & _).
  injection E1 as -> _. unfold pids. simpl. rewrite Hid, E2, Hn', Hn1. done.
Qed.

Lemma demo_result : snd <$> demo (boot (pmm_init 0x2008000) heap_init klog_init) = Ok 1.
Proof. vm_compute. reflexivity. Qed.

Lemma demo_ring : exists st l,
  sched_reachable false 0 st /\ ring_ok st l /\ pids l = [0; 1] /\ next_pid st = 2.
Proof.
  assert (Hp : is_u32 0x2008000) by words. destruct (pmm_init_ok _ Hp) as [Hok _].
  destruct (demo_spec (boot (pmm_init 0x2008000) heap_init klog_init) heap_init_ok Hok klog_init_ok
    eq_refl ltac:(by vm_compute) demo_result) as (st1 & st & l & E & Hs & Hr & H1 & H2).
  exists st, l. split; [|done]. eapply reach_call; [|exact Hs]. by eapply reach_boot.
Qed.

(** * Properties *)

(** C8: in every state reachable from boot by scheduler calls the process
    structures form a ring headed by the kernel process with distinct pids,
    distinct live heap blocks and distinct allocated stack pages, and no call
    fails: none follows a freed or NULL pointer, and the walks of
    [scheduler_kill] and [scheduler_snapshot] end within the ring's length
    (creating a process, as long as pids are left below 4294967295, and counting
    them, up to 4096 processes). *)
Theorem scheduler_safe serial junk st (Hr : sched_reachable serial junk st) :
  exists l, ring_ok st l /\
    succeeds (yield st) (fun _ => True) /\
    (forall entry, next_pid st < 4294967295 ->
       succeeds (create_process serial junk st entry) (fun _ => True)) /\
    (forall pid, succeeds (scheduler_kill serial (length l) st pid) (fun _ => True)) /\
    (forall m, scheduler_snapshot st m =
       Ok (take (Z.to_nat m) (map (row (current_process st)) l))) /\
    ((length l <= 4096)%nat -> scheduler_process_count st = Ok (Z.of_nat (length l))).
Proof.
  destruct (reachable_ring _ _ _ Hr) as [l Hok]. exists l. split; [done|]. split_and!.
  - pose proof (ok_current _ _ Hok) as Hc. apply list_elem_of_lookup in Hc as [i Hi].
    eapply succeeds_mono; [by eapply yield_spec|done].
  - intros entry Hp. eapply succeeds_mono; [by eapply create_ring|done].
  - intros pid. destruct (decide (pid = 0)) as [->|Hpid].
    + unfold scheduler_kill. rewrite Z.eqb_refl. case_match; by eexists.
    + eapply succeeds_mono; [by apply (kill_spec serial st l)|done].
  - intros m. by apply snapshot_spec.
  - intros. by apply (count_spec st l).
Qed.

Lemma scheduler_safe_witness :
  exists st l, ring_ok st l /\ succeeds (scheduler_kill false (length l) st 1) (fun _ => True).
Proof.
  destruct demo_ring as (st & _ & Hr & _).
  destruct (scheduler_safe false 0 st Hr) as (l & Hok & _ & _ & Hk & _). by exists st, l.
Defined.

(** C30: scheduling is round robin: from position [i] of a ring of [n]
    processes, [k] yields lead to position [(i + k) mod n], so each of the
    [n] processes becomes the current one within [n] yields. *)
Theorem yield_round_robin st l i (Hok : ring_ok st l) (Hi : at_position st l i) :
  (forall k, exists st', yields k st = Ok st' /\ ring_ok st' l /\
     at_position st' l ((i + k) mod length l)) /\
  (forall pid, pid ∈ pids l -> exists k st', (k < length l)%nat /\ yields k st = Ok st' /\
     scheduler_current_pid st' = Ok pid).
Proof.
  split.
  - intros k. destruct (yields_spec k st l i Hok Hi) as (st' & ? & ? & ?). by exists st'.
  - intros pid Hp. apply list_elem_of_lookup in Hp as [j Hj]. unfold pids in Hj.
    rewrite list_lookup_fmap in Hj. destruct (l !! j) as [n|] eqn:Hn; [|done]. injection Hj as <-.
    pose proof (lookup_lt_Some _ _ _ Hn) as Hjl.
    assert (Hil : (i < length l)%nat) by (apply lookup_lt_Some in Hi; by rewrite length_map in Hi).
    exists ((j + length l - i) mod length l)%nat.
    destruct (yields_spec ((j + length l - i) mod length l) st l i Hok Hi) as (st' & E & Hok' & Hat).
    exists st'. split; [apply Nat.mod_upper_bound; lia|]. split; [done|].
    rewrite Nat.Div0.add_mod_idemp_r in Hat.
    replace (i + (j + length l - i))%nat with (j + 1 * length l)%nat in Hat by lia.
    rewrite Nat.Div0.mod_add, Nat.mod_small in Hat by lia.
    unfold at_position in Hat. rewrite list_lookup_fmap, Hn in Hat. injection Hat as Hat.
    assert (Hin : n ∈ l) by by eapply list_elem_of_lookup_2.
    unfold scheduler_current_pid. rewrite <- Hat.
    rewrite (proj2 (Z.eqb_neq _ _)) by by apply (ring_nonzero _ _ Hok').
    by rewrite (ring_deref _ _ Hok').
Qed.

Lemma yield_round_robin_witness :
  exists st l, pids l = [0; 1] /\ exists k st', (k < length l)%nat /\ yields k st = Ok st' /\
    scheduler_current_pid st' = Ok 1.
Proof.
  destruct demo_ring as (st & l & _ & Hok & Hp & _). exists st, l. split; [done|].
  pose proof (ok_current _ _ Hok) as Hc. apply list_elem_of_lookup in Hc as [i Hi].
  apply (proj2 (yield_round_robin st l i Hok Hi)). rewrite Hp. right. left.
Defined.

(** [create_process] either returns a fresh pid, the new runnable process
    standing right behind the kernel process and all other processes where
    they were, or returns -1 and leaves the ring alone; when it fails for want
    of a stack page, the process structure it allocated stays in use and its
    pid is spent. *)
Theorem create_process_correct serial junk st l entry (Hok : ring_ok st l)
    (Hpid : next_pid st < 4294967295) :
  exists st' r, create_process serial junk st entry = Ok (st', r) /\
    current_process st' = current_process st /\
    ((r = i32 (next_pid st) /\ next_pid st ∉ pids l /\ exists l' p0 rest,
        ring_ok st' l' /\ pids l = p0 :: rest /\ pids l' = p0 :: next_pid st :: rest) \/
     (r = -1 /\ ring_ok st' l /\
      ((kheap st' = kheap st /\ next_pid st' = next_pid st) \/
       (exists u, live (kheap st') ≡ₚ u :: live (kheap st) /\ next_pid st' = next_pid st + 1 /\
          forall i, managed (pages st) i -> allocated (pages st) i)))).
Proof.
  destruct (create_ring serial junk st l entry Hok Hpid)
    as ([st' r] & E & [(-> & H & Hc & Hleak)|(-> & _ & Hc & n0 & n & tl & -> & Hid & _ & H)]);
    eexists st', _; (split; [exact E|]); (split; [done|]).
  - right. split; [done|]. split; [done|]. destruct Hleak as [?|(u & ? & ? & _ & ?)]; [by left|right].
    by exists u.
  - left. split; [done|]. split.
    + intros Hin. pose proof (ok_pid_range _ _ Hok) as Hr. rewrite Forall_forall in Hr.
      apply Hr in Hin. lia.
    + eexists _, (id (snd n0)), (pids tl). split; [exact H|]. split; [done|].
      unfold pids. simpl. by rewrite Hid.
Qed.

Lemma create_process_correct_witness :
  exists st l, pids l = [0; 1] /\ exists st' r, create_process false 0 st 0x2000 = Ok (st', r) /\
    current_process st' = current_process st.
Proof.
  destruct demo_ring as (st & l & _ & Hok & Hp & Hn). exists st, l. split; [done|].
  destruct (create_process_correct false 0 st l 0x2000 Hok) as (st' & r & E & Hc & _).
  - by rewrite Hn.
  - by exists st', r.
Defined.

(** [scheduler_kill] returns true exactly when a process other than the
    kernel has the pid, and then takes that process alone out of the ring;
    it returns false and changes nothing for pid 0 and unknown pids. *)
Theorem scheduler_kill_correct serial st l pid (Hok : ring_ok st l) :
  exists st' r, scheduler_kill serial (length l) st pid = Ok (st', r) /\
    r = bool_decide (pid <> 0 /\ pid ∈ pids l) /\
    (r = false -> st' = st) /\
    (pid <> 0 -> exists l', ring_ok st' l' /\ pids l' = List.filter (not_pid pid) (pids l)).
Proof.
  destruct (decide (pid = 0)) as [->|Hpid].
  - exists st, false. rewrite bool_decide_eq_false_2 by tauto. unfold scheduler_kill.
    rewrite Z.eqb_refl. split; [by case_match|done].
  - destruct (kill_spec serial st l pid (length l) Hok Hpid ltac:(lia))
      as ([st' r] & E & -> & _ & H1 & H2). exists st', (bool_decide (pid ∈ pids l)).
    split; [done|]. split; [by apply bool_decide_ext; tauto|]. split; [exact H1|by intros _].
Qed.

Lemma scheduler_kill_correct_witness :
  exists st l l', pids l = [0; 1] /\ pids l' = [0] /\
    exists st', scheduler_kill false (length l) st 1 = Ok (st', true) /\ ring_ok st' l'.
Proof.
  destruct demo_ring as (st & l & _ & Hok & Hp & _).
  destruct (scheduler_kill_correct false st l 1 Hok) as (st' & r & E & Hr & _ & H).
  destruct (H ltac:(done)) as (l' & Hok' & Hp'). exists st, l, l'. rewrite Hp in *.
  split; [done|]. split; [exact Hp'|]. exists st'. split; [|done]. rewrite E, Hr. reflexivity.
Defined.
