(* ===== verification/Ramdisk.v ===== *)
(** The RAM disk file system, src/src/lib/ramdisk.c.

    The node tables are lists of length 64 indexed by node number, the data
    pool a list of 8192 bytes.  Table accesses are checked; the loops over
    sibling chains and paths run with fuel, 64 turns for a chain (there are 63
    nodes besides the root) and one per character for a path. *)
From Stdlib Require Import ZArith Lia Ascii String.
From stdpp Require Import base tactics option numbers list.
From S2P Require Import Prelude Buffer CString.
#[local] Open Scope Z_scope.

Definition RAMDISK_MAX_NODES : nat := 64.
Definition RAMDISK_NAME_LEN : nat := 12.
Definition RAMDISK_DATA_CAP : Z := 8192.

Inductive fs_node_type_t := FS_TYPE_FREE | FS_TYPE_DIR | FS_TYPE_FILE.

#[export] Instance fs_node_type_eq_dec : EqDecision fs_node_type_t.
Proof. solve_decision. Defined.

Record fs := Fs {
  fs_cwd : nat;
  fs_data_free : Z;
  fs_node_type : list fs_node_type_t;
  fs_node_parent : list nat;
  fs_node_first_child : list nat;
  fs_node_next_sibling : list nat;
  fs_node_size : list Z;
  fs_node_data_off : list Z;
  fs_node_name : list (list Z);
  fs_data_pool : list Z;
}.

(** The tables [ramdisk_init] starts from. *)
Definition ramdisk_clear : fs :=
  Fs 0 0
     (<[0%nat := FS_TYPE_DIR]> (replicate RAMDISK_MAX_NODES FS_TYPE_FREE))
     (replicate RAMDISK_MAX_NODES 0%nat) (replicate RAMDISK_MAX_NODES 0%nat)
     (replicate RAMDISK_MAX_NODES 0%nat) (replicate RAMDISK_MAX_NODES 0)
     (replicate RAMDISK_MAX_NODES 0) (replicate RAMDISK_MAX_NODES (replicate RAMDISK_NAME_LEN 0))
     (replicate (Z.to_nat RAMDISK_DATA_CAP) 0).

(** Checked table accesses. *)
Definition get {A} (l : list A) (i : nat) : outcome A := of_option OutOfBounds (l !! i).
Definition put {A} (l : list A) (i : nat) (v : A) : outcome (list A) :=
  if (i <? length l)%nat then Ok (<[i := v]> l) else Stuck OutOfBounds.

Definition is_free (t : fs_node_type_t) : bool := bool_decide (t = FS_TYPE_FREE).

(** * Names and tokens *)

Definition to_lower_c (c : Z) : Z :=
  if (ch "A" <=? c) && (c <=? ch "Z") then u8 (c - ch "A" + ch "a") else c.

Fixpoint copy_lower (room : nat) (src : list Z) : list Z :=
  match room with
  | O => []
  | S k => if hd0 src =? 0 then [] else to_lower_c (hd0 src) :: copy_lower k (tl0 src)
  end.

(** The bytes stored in [dst] from its front. *)
Definition fs_copy_name12_lower (src : list Z) : list Z :=
  let s := copy_lower (RAMDISK_NAME_LEN - 1) src in
  s ++ replicate (RAMDISK_NAME_LEN - length s) 0.

Definition is_sep (c : Z) : bool := (c =? ch " ") || (c =? ch "/").

Fixpoint skip_sep (p : list Z) : list Z :=
  match p with [] => [] | c :: p' => if is_sep c then skip_sep p' else p end.

Fixpoint skip_token (p : list Z) : list Z :=
  match p with
  | [] => []
  | c :: p' => if negb (c =? 0) && negb (is_sep c) then skip_token p' else p
  end.

Fixpoint copy_token (room : nat) (p : list Z) : list Z :=
  match room with
  | O => []
  | S k =>
    if negb (hd0 p =? 0) && negb (is_sep (hd0 p))
    then to_lower_c (hd0 p) :: copy_token k (tl0 p) else []
  end.

(** Returns whether there is a token, the token stored with its NUL in [buf],
    and the moved pointer; the callers check both results of these two
    functions against their arrays of 12. *)
Definition fs_next_token (p : list Z) : bool * list Z * list Z :=
  let p := skip_sep p in
  if hd0 p =? 0 then (false, [], p)
  else (true, copy_token (RAMDISK_NAME_LEN - 1) p, skip_token p).

(** * Node tables *)

Definition fs_alloc_node (st : fs) : nat :=
  match List.find (fun i => is_free (nth i (fs_node_type st) FS_TYPE_FREE))
          (seq 1 (RAMDISK_MAX_NODES - 1)) with
  | Some i => i
  | None => 0%nat
  end.

Definition find_child_body (st : fs) (token : list Z) (n : nat) : outcome (nat + nat) :=
  if (n =? 0)%nat then Ok (inr 0%nat)
  else
    t ← get (fs_node_type st) n;
    nm ← get (fs_node_name st) n;
    if negb (is_free t) && (strncmp nm token RAMDISK_NAME_LEN =? 0) then Ok (inr n)
    else nx ← get (fs_node_next_sibling st) n; Ok (inl nx).

Definition fs_find_child_fuel (fuel : nat) (st : fs) (parent : nat) (token : list Z) : outcome nat :=
  n ← get (fs_node_first_child st) parent;
  cloop fuel (find_child_body st token) n.

Definition fs_find_child : fs -> nat -> list Z -> outcome nat :=
  fs_find_child_fuel RAMDISK_MAX_NODES.

Definition fs_is_dir (st : fs) (node : nat) : bool :=
  match fs_node_type st !! node with Some FS_TYPE_DIR => true | _ => false end.
Definition fs_is_file (st : fs) (node : nat) : bool :=
  match fs_node_type st !! node with Some FS_TYPE_FILE => true | _ => false end.

Definition fs_cwd_get (st : fs) : nat := fs_cwd st.

Definition fs_cwd_set (st : fs) (node : nat) : fs :=
  if (node <? RAMDISK_MAX_NODES)%nat && fs_is_dir st node then
    Fs node (fs_data_free st) (fs_node_type st) (fs_node_parent st) (fs_node_first_child st)
       (fs_node_next_sibling st) (fs_node_size st) (fs_node_data_off st) (fs_node_name st)
       (fs_data_pool st)
  else st.

(** The common part of [fs_mkdir_child] and [fs_create_file]. *)
Definition add_node (st : fs) (type : fs_node_type_t) (parent : nat) (name : option (list Z))
    : outcome (fs * bool) :=
  match name with
  | None => Ok (st, false)
  | Some name =>
    if negb (parent <? RAMDISK_MAX_NODES)%nat || negb (fs_is_dir st parent) then Ok (st, false)
    else
      token ← fill_array RAMDISK_NAME_LEN (fs_copy_name12_lower name);
      if hd0 token =? 0 then Ok (st, false)
      else
        c ← fs_find_child st parent token;
        if negb (c =? 0)%nat then Ok (st, false)
        else
          let n := fs_alloc_node st in
          if (n =? 0)%nat then Ok (st, false)
          else
            types ← put (fs_node_type st) n type;
            parents ← put (fs_node_parent st) n parent;
            firsts ← put (fs_node_first_child st) n 0%nat;
            f ← get firsts parent;
            nexts ← put (fs_node_next_sibling st) n f;
            firsts ← put firsts parent n;
            sizes ← put (fs_node_size st) n 0;
            offs ← put (fs_node_data_off st) n 0;
            entry ← fill_array RAMDISK_NAME_LEN (fs_copy_name12_lower token);
            names ← put (fs_node_name st) n entry;
            Ok (Fs (fs_cwd st) (fs_data_free st) types parents firsts nexts sizes offs names
                   (fs_data_pool st), true)
  end.

Definition fs_mkdir_child (st : fs) (parent : nat) (name : option (list Z)) : outcome (fs * bool) :=
  add_node st FS_TYPE_DIR parent name.
Definition fs_create_file (st : fs) (parent : nat) (name : option (list Z)) : outcome (fs * bool) :=
  add_node st FS_TYPE_FILE parent name.

(** * Paths *)

Definition resolve_body (st : fs) (s : nat * list Z) : outcome ((nat * list Z) + option nat) :=
  let '(cur, p) := s in
  let '(more, token, p) := fs_next_token p in
  token ← end_text RAMDISK_NAME_LEN token;
  if negb more then Ok (inr (Some cur))
  else if hd0 token =? 0 then Ok (inr (Some cur))
  else
    next ← (if strcmp token (bs ".") =? 0 then Ok (Some cur)
            else if strcmp token (bs "..") =? 0 then
              (if negb (cur =? 0)%nat then Some <$> get (fs_node_parent st) cur else Ok (Some cur))
            else
              child ← fs_find_child st cur token;
              Ok (if (child =? 0)%nat then None else Some child));
    match next with
    | None => Ok (inr None)
    | Some cur =>
      let p := (fix slashes p := match p with
                                 | c :: p' => if c =? ch "/" then slashes p' else p
                                 | [] => []
                                 end) p in
      Ok (if hd0 p =? 0 then inr (Some cur) else inl (cur, p))
    end.

(** [None]: the function returned false and left [*out_node] alone. *)
Definition fs_resolve_checked (st : fs) (path : option (list Z)) : outcome (option nat) :=
  match path with
  | None => Ok (Some (fs_cwd st))
  | Some path =>
    if hd0 path =? 0 then Ok (Some (fs_cwd st))
    else
      let '(cur, p) := if hd0 path =? ch "/" then (0%nat, tl0 path) else (fs_cwd st, path) in
      cloop (S (length path)) (resolve_body st) (cur, p)
  end.

Definition fs_resolve (st : fs) (path : option (list Z)) : outcome nat :=
  r ← fs_resolve_checked st path; Ok (default 0%nat r).

(** [*iter_out] and the return value; [None] when [*iter_out] is not written. *)
Definition fs_list_begin (st : fs) (dir : nat) : outcome (option nat * bool) :=
  if negb (fs_is_dir st dir) then Ok (None, false)
  else it ← get (fs_node_first_child st) dir; Ok (Some it, negb (it =? 0)%nat).

(** The new [*iter], and the child when there is one. *)
Definition fs_list_next (st : fs) (iter : nat) : outcome (nat * option nat) :=
  if (iter =? 0)%nat then Ok (iter, None)
  else nx ← get (fs_node_next_sibling st) iter; Ok (nx, Some iter).

Definition fs_get_name (st : fs) (node : nat) : list Z :=
  match fs_node_name st !! node with Some nm => buf_text nm | None => [] end.

(** The stack of [fs_build_path]: the node, its parent, and so on to the root. *)
Fixpoint ancestors (st : fs) (room : nat) (cur : nat) : outcome (list nat) :=
  match room with
  | O => Ok []
  | S k =>
    if (cur =? 0)%nat then Ok [0%nat]
    else p ← get (fs_node_parent st) cur; rest ← ancestors st k p; Ok (cur :: rest)
  end.

(** Appends characters while [pos + 1 < buf_size]; [inr] is the early return. *)
Fixpoint push_chars (buf_size : nat) (buf : list Z) (s : list Z) : outcome (list Z + list Z) :=
  match s with
  | [] => Ok (inl buf)
  | c :: s' =>
    if (buf_size <=? length buf + 1)%nat then Ok (inr (take (buf_size - 1) buf))
    else buf ← put_char buf_size buf c; push_chars buf_size buf s'
  end.

(** The loop over the stack from the root down; [l] lists the nodes left. *)
Fixpoint push_nodes (st : fs) (buf_size : nat) (buf : list Z) (l : list nat) : outcome (list Z) :=
  match l with
  | [] => Ok (take (buf_size - 1) buf)
  | n :: l' =>
    if (n =? 0)%nat then push_nodes st buf_size buf l'
    else
      nm ← get (fs_node_name st) n;
      r ← push_chars buf_size buf (take RAMDISK_NAME_LEN (buf_text nm));
      match r with
      | inr s => Ok s
      | inl buf =>
        match l' with
        | [] => push_nodes st buf_size buf l'
        | _ =>
          r ← push_chars buf_size buf [ch "/"];
          match r with
          | inr s => Ok s
          | inl buf => push_nodes st buf_size buf l'
          end
        end
      end
  end.

(** The string left in the buffer; [None] when nothing is written. *)
Definition fs_build_path (st : fs) (node : nat) (buf_size : nat) : outcome (option (list Z)) :=
  if (buf_size =? 0)%nat then Ok None
  else if (RAMDISK_MAX_NODES <=? node)%nat then Ok (Some [])
  else
    stack ← ancestors st RAMDISK_MAX_NODES node;
    stack ← fill_array RAMDISK_MAX_NODES stack;
    s ← push_nodes st buf_size [ch "/"] (rev stack);
    Ok (Some s).

(** * Deleting, reading and writing *)

(** The sibling before [node] in the chain from [cur], 0 when there is none. *)
Definition prev_sibling (fuel : nat) (st : fs) (node cur : nat) : outcome nat :=
  cloop fuel (fun cur =>
    if (cur =? 0)%nat then Ok (inr 0%nat)
    else nx ← get (fs_node_next_sibling st) cur;
         Ok (if (nx =? node)%nat then inr cur else inl nx)) cur.

Definition fs_delete_fuel (fuel : nat) (st : fs) (node : nat) : outcome (fs * bool) :=
  if (node =? 0)%nat || (RAMDISK_MAX_NODES <=? node)%nat then Ok (st, false)
  else
    t ← get (fs_node_type st) node;
    if is_free t then Ok (st, false)
    else
      first ← get (fs_node_first_child st) node;
      if bool_decide (t = FS_TYPE_DIR) && negb (first =? 0)%nat then Ok (st, false)
      else
        parent ← get (fs_node_parent st) node;
        '(firsts, nexts) ←
          (if negb (parent =? 0)%nat then
             cur ← get (fs_node_first_child st) parent;
             nx ← get (fs_node_next_sibling st) node;
             if (cur =? node)%nat then
               firsts ← put (fs_node_first_child st) parent nx;
               Ok (firsts, fs_node_next_sibling st)
             else
               prev ← prev_sibling fuel st node cur;
               if negb (prev =? 0)%nat then
                 nexts ← put (fs_node_next_sibling st) prev nx;
                 Ok (fs_node_first_child st, nexts)
               else Ok (fs_node_first_child st, fs_node_next_sibling st)
           else Ok (fs_node_first_child st, fs_node_next_sibling st));
        types ← put (fs_node_type st) node FS_TYPE_FREE;
        Ok (Fs (fs_cwd st) (fs_data_free st) types (fs_node_parent st) firsts nexts
               (fs_node_size st) (fs_node_data_off st) (fs_node_name st) (fs_data_pool st), true).

Definition fs_delete : fs -> nat -> outcome (fs * bool) := fs_delete_fuel RAMDISK_MAX_NODES.

(** [fs_read(node, buf, size)]: the bytes copied to [buf] and the return value. *)
Definition fs_read (st : fs) (node : nat) (size : Z) : outcome (list Z * Z) :=
  if (RAMDISK_MAX_NODES <=? node)%nat || negb (fs_is_file st node) then Ok ([], -1)
  else
    sz ← get (fs_node_size st) node;
    off ← get (fs_node_data_off st) node;
    let actual := if size <? sz then size else sz in
    if 0 <? actual then
      if off + actual <=? Z.of_nat (length (fs_data_pool st))
      then Ok (take (Z.to_nat actual) (drop (Z.to_nat off) (fs_data_pool st)), actual)
      else Stuck OutOfBounds
    else Ok ([], actual).

(** [memcpy(&fs_data_pool[off], buf, size)], the [size] bytes being [data]. *)
Definition pool_write (pool : list Z) (off : Z) (data : list Z) : outcome (list Z) :=
  if off + Z.of_nat (length data) <=? Z.of_nat (length pool)
  then Ok (take (Z.to_nat off) pool ++ data ++ drop (Z.to_nat off + length data) pool)
  else Stuck OutOfBounds.

(** [buf] is the caller's buffer ([None] for NULL); reading more than it holds
    is an error. *)
Definition fs_write (st : fs) (node : nat) (buf : option (list Z)) (size : Z) : outcome (fs * bool) :=
  if (RAMDISK_MAX_NODES <=? node)%nat || negb (fs_is_file st node) || (size <? 0) then Ok (st, false)
  else if (0 <? size) && bool_decide (buf = None) then Ok (st, false)
  else if RAMDISK_DATA_CAP <? i32 (fs_data_free st + size) then Ok (st, false)
  else
    offs ← put (fs_node_data_off st) node (fs_data_free st);
    sizes ← put (fs_node_size st) node (u16 size);
    '(pool, free) ←
      (if 0 <? size then
         let data := default [] buf in
         if size <=? Z.of_nat (length data) then
           pool ← pool_write (fs_data_pool st) (fs_data_free st) (take (Z.to_nat size) data);
           Ok (pool, u16 (fs_data_free st + u16 size))
         else Stuck OutOfBounds
       else Ok (fs_data_pool st, fs_data_free st));
    Ok (Fs (fs_cwd st) free (fs_node_type st) (fs_node_parent st) (fs_node_first_child st)
           (fs_node_next_sibling st) sizes offs (fs_node_name st) pool, true).
