(* ===== verification/RamdiskInv.v ===== *)
(** The RAM disk's invariant and what each operation does to it.

    [wf st kids rank] says that the node tables encode a tree: [kids d] are the
    entries of directory [d] in chain order and [rank] grows from parent to
    child, so that walks to the root end. *)
From Stdlib Require Import ZArith Lia Ascii String.
From stdpp Require Import base tactics option numbers list.
From S2P Require Import Prelude Buffer CString Ramdisk.
#[local] Open Scope Z_scope.

(** * Table accesses *)

Lemma get_ok {A} (l : list A) i v : l !! i = Some v -> get l i = Ok v.
Proof. intros H. unfold get. by rewrite H. Qed.

Lemma put_ok {A} (l : list A) i v : (i < length l)%nat -> put l i v = Ok (<[i := v]> l).
Proof. intros H. unfold put. by rewrite (proj2 (Nat.ltb_lt _ _)). Qed.

Lemma lookup_Some_lt {A} (l : list A) i : (i < length l)%nat -> exists v, l !! i = Some v.
Proof. apply lookup_lt_is_Some_2. Qed.

(** * Names *)

(** [s] is the text of a node name: the code stores it NUL-padded to 12 bytes. *)
Record name_text (s : list Z) : Prop := {
  name_len : (0 < length s <= 11)%nat;
  name_nul : nul_free s;
  name_lower : map to_lower_c s = s;
}.

Definition pad_name (s : list Z) : list Z := s ++ replicate (RAMDISK_NAME_LEN - length s) 0.

Lemma to_lower_idem c : to_lower_c (to_lower_c c) = to_lower_c c.
Proof.
  unfold to_lower_c. chars. destruct ((65 <=? c) && (c <=? 90)) eqn:E; [|by rewrite E].
  rewrite u8_small by words. by replace ((65 <=? _) && _) with false by lia.
Qed.

Lemma to_lower_nonzero c : c <> 0 -> to_lower_c c <> 0.
Proof.
  unfold to_lower_c. chars. destruct ((65 <=? c) && (c <=? 90)) eqn:E; [|done].
  rewrite u8_small by words. lia.
Qed.

(** The text a name argument is stored as: cut to 11 characters, lower case. *)
Definition stored_text (name : list Z) : list Z := copy_lower (RAMDISK_NAME_LEN - 1) name.

Lemma copy_lower_spec room src :
  nul_free (copy_lower room src) /\ (length (copy_lower room src) <= room)%nat /\
  map to_lower_c (copy_lower room src) = copy_lower room src.
Proof.
  revert src. induction room as [|room IH]; intros src; simpl; [repeat split; lia || constructor|].
  destruct (Z.eqb_spec (hd0 src) 0); [repeat split; simpl; lia || constructor|].
  destruct (IH (tl0 src)) as (H1 & H2 & H3). simpl. rewrite to_lower_idem, H3.
  repeat split; [|lia]. constructor; [by apply to_lower_nonzero|done].
Qed.

Lemma copy_lower_id room s : nul_free s -> map to_lower_c s = s -> (length s <= room)%nat ->
  copy_lower room s = s.
Proof.
  intros Hs. revert room. induction Hs as [|c s Hc _ IH]; intros room Hl Hlen.
  - by destruct room.
  - destruct room as [|room]; simpl in *; [lia|]. unfold hd0, byte_at; simpl.
    destruct (Z.eqb_spec c 0); [done|]. injection Hl as Hc' Hl. unfold tl0; simpl.
    by rewrite Hc', IH by (done || lia).
Qed.

Lemma copy_lower_padded room s k : nul_free s -> map to_lower_c s = s -> (length s <= room)%nat ->
  copy_lower room (s ++ replicate k 0) = s.
Proof.
  intros Hs. revert room. induction Hs as [|c s Hc _ IH]; intros room Hl Hlen; simpl in *.
  - destruct room; [done|]. by destruct k.
  - destruct room as [|room]; simpl in *; [lia|]. unfold hd0, byte_at; simpl.
    destruct (Z.eqb_spec c 0); [done|]. injection Hl as Hc' Hl. unfold tl0; simpl.
    by rewrite Hc', IH by (done || lia).
Qed.

Lemma copy_name_fits name : fill_array RAMDISK_NAME_LEN (fs_copy_name12_lower name) = Ok (fs_copy_name12_lower name).
Proof.
  apply fill_array_ok. unfold fs_copy_name12_lower. destruct (copy_lower_spec (RAMDISK_NAME_LEN - 1) name) as (_ & H & _).
  rewrite length_app, length_replicate. unfold RAMDISK_NAME_LEN in *. lia.
Qed.

Lemma fs_copy_name_pad name : fs_copy_name12_lower name = pad_name (stored_text name).
Proof. done. Qed.

Lemma stored_text_ok name : stored_text name <> [] -> name_text (stored_text name).
Proof.
  intros Hne. destruct (copy_lower_spec (RAMDISK_NAME_LEN - 1) name) as (H1 & H2 & H3).
  split; [|done|done]. split; [|done]. unfold stored_text in *.
  destruct (copy_lower _ _); [done|simpl; lia].
Qed.

Lemma hd0_pad s : hd0 (pad_name s) = 0 -> nul_free s -> s = [].
Proof. intros H Hs. destruct Hs; [done|]. unfold hd0, byte_at in H. by simpl in H. Qed.

Lemma pad_name_text s : nul_free s -> (length s <= 11)%nat -> buf_text (pad_name s) = s.
Proof.
  intros Hs Hl. unfold pad_name. replace (RAMDISK_NAME_LEN - length s)%nat
    with (S (11 - length s)) by (unfold RAMDISK_NAME_LEN; lia).
  simpl. by apply buf_text_app.
Qed.

Lemma pad_name_inj s t : nul_free s -> nul_free t -> (length s <= 11)%nat -> (length t <= 11)%nat ->
  pad_name s = pad_name t -> s = t.
Proof. intros. rewrite <- (pad_name_text s), <- (pad_name_text t) by done. congruence. Qed.

(** [strncmp] of two NUL-padded texts that fit is comparison of the texts. *)
Lemma strncmp_padded s t a b n :
  nul_free s -> nul_free t -> (length s < n)%nat -> (length t < n)%nat ->
  strncmp (s ++ replicate a 0) (t ++ replicate b 0) n = 0 <-> s = t.
Proof.
  assert (Hz : forall (k : nat), hd0 (replicate k 0) = 0) by by intros [].
  intros Hs. revert t n. induction Hs as [|c s Hc _ IH]; intros t n Ht Hn1 Hn2;
    (destruct n as [|n]; simpl in *; [lia|]).
  - rewrite Hz. simpl. destruct Ht as [|d t Hd _]; simpl; [by rewrite Hz|].
    unfold hd0, byte_at; simpl. split; [lia|done].
  - rewrite !hd0_cons. destruct (Z.eqb_spec c 0); [done|]. simpl.
    destruct Ht as [|d t Hd Ht]; simpl.
    + rewrite Hz. destruct (Z.eqb_spec c 0); [done|]. split; [lia|done].
    + rewrite !hd0_cons. simpl in Hn2. destruct (Z.eqb_spec c d) as [->|Hne].
      * unfold tl0; simpl. rewrite IH by (done || lia). split; [by intros ->|by intros [=]].
      * split; [lia|]. intros [=]. lia.
Qed.

(** * The invariant *)

(** Following [next] from [n] lists [l] and stops at 0. *)
Fixpoint sibling_chain (nexts : list nat) (n : nat) (l : list nat) : Prop :=
  match l with
  | [] => n = 0%nat
  | m :: l' => n = m /\ m <> 0%nat /\ exists k, nexts !! m = Some k /\ sibling_chain nexts k l'
  end.

Definition in_use (st : fs) (n : nat) : Prop :=
  exists t, fs_node_type st !! n = Some t /\ t <> FS_TYPE_FREE.
Definition dir (st : fs) (n : nat) : Prop := fs_node_type st !! n = Some FS_TYPE_DIR.
Definition file (st : fs) (n : nat) : Prop := fs_node_type st !! n = Some FS_TYPE_FILE.

Record table_lengths (st : fs) : Prop := {
  len_type : length (fs_node_type st) = RAMDISK_MAX_NODES;
  len_parent : length (fs_node_parent st) = RAMDISK_MAX_NODES;
  len_first : length (fs_node_first_child st) = RAMDISK_MAX_NODES;
  len_next : length (fs_node_next_sibling st) = RAMDISK_MAX_NODES;
  len_size : length (fs_node_size st) = RAMDISK_MAX_NODES;
  len_off : length (fs_node_data_off st) = RAMDISK_MAX_NODES;
  len_name : length (fs_node_name st) = RAMDISK_MAX_NODES;
  len_pool : Z.of_nat (length (fs_data_pool st)) = RAMDISK_DATA_CAP;
}.

(** A file's bytes lie in the part of the pool handed out so far. *)
Definition extent_ok (st : fs) (n : nat) : Prop :=
  exists sz off, fs_node_size st !! n = Some sz /\ fs_node_data_off st !! n = Some off /\
    0 <= off /\ 0 <= sz /\ off + sz <= fs_data_free st.

Record wf (st : fs) (kids : nat -> list nat) (rank : nat -> nat) : Prop := {
  wf_lengths : table_lengths st;
  wf_root : dir st 0;
  wf_cwd : (fs_cwd st < RAMDISK_MAX_NODES)%nat;
  wf_chain : forall d, dir st d -> exists f,
    fs_node_first_child st !! d = Some f /\ sibling_chain (fs_node_next_sibling st) f (kids d);
  wf_kids : forall d k, dir st d ->
    k ∈ kids d <-> k <> 0%nat /\ in_use st k /\ fs_node_parent st !! k = Some d;
  wf_nodup : forall d, dir st d -> NoDup (kids d);
  wf_parent : forall k, k <> 0%nat -> in_use st k -> exists d,
    fs_node_parent st !! k = Some d /\ dir st d /\ (rank d < rank k)%nat;
  wf_name : forall k, k <> 0%nat -> in_use st k -> exists s,
    fs_node_name st !! k = Some (pad_name s) /\ name_text s;
  wf_unique : forall d k k', dir st d -> k ∈ kids d -> k' ∈ kids d ->
    fs_get_name st k = fs_get_name st k' -> k = k';
  wf_leaf : forall k, (k < RAMDISK_MAX_NODES)%nat -> ~ dir st k ->
    fs_node_first_child st !! k = Some 0%nat;
  wf_parent_lt : forall k p, fs_node_parent st !! k = Some p -> (p < RAMDISK_MAX_NODES)%nat;
  wf_free : 0 <= fs_data_free st <= RAMDISK_DATA_CAP;
  wf_extent : forall k, file st k -> extent_ok st k;
}.

Definition well_formed (st : fs) : Prop := exists kids rank, wf st kids rank.

Lemma dir_in_use st d : dir st d -> in_use st d.
Proof. intros H. by exists FS_TYPE_DIR. Qed.
Lemma file_in_use st d : file st d -> in_use st d.
Proof. intros H. by exists FS_TYPE_FILE. Qed.

Lemma fs_is_dir_spec st d : fs_is_dir st d = true <-> dir st d.
Proof.
  unfold fs_is_dir, dir. destruct (fs_node_type st !! d) as [[]|]; split; congruence.
Qed.
Lemma fs_is_file_spec st d : fs_is_file st d = true <-> file st d.
Proof.
  unfold fs_is_file, file. destruct (fs_node_type st !! d) as [[]|]; split; congruence.
Qed.

Section wf.
Context (st : fs) (kids : nat -> list nat) (rank : nat -> nat) (Hwf : wf st kids rank).

Lemma in_use_lt n : in_use st n -> (n < RAMDISK_MAX_NODES)%nat.
Proof using Hwf.
  intros (t & H & _). apply lookup_lt_Some in H.
  by rewrite (len_type _ (wf_lengths _ _ _ Hwf)) in H.
Qed.

Lemma name_of k s : fs_node_name st !! k = Some (pad_name s) -> name_text s -> fs_get_name st k = s.
Proof. intros H [Hl Hn _]. unfold fs_get_name. rewrite H. apply pad_name_text; [done|lia]. Qed.

(** The sibling chain of a directory fits in the table. *)
Lemma kids_short d : dir st d -> (length (kids d) <= 63)%nat.
Proof using Hwf.
  intros Hd. pose proof (wf_nodup _ _ _ Hwf d Hd) as Hn.
  assert (Hsub : kids d ⊆ seq 1 63).
  { intros k Hk. apply (wf_kids _ _ _ Hwf d k Hd) in Hk as (H0 & Hu & _).
    apply in_use_lt in Hu. apply elem_of_seq. unfold RAMDISK_MAX_NODES in Hu. lia. }
  pose proof (submseteq_length _ _ (NoDup_submseteq _ _ Hn Hsub)) as H.
  by rewrite length_seq in H.
Qed.

(** Lookup of a name in a directory. *)
Lemma fs_find_child_spec d t b : dir st d -> nul_free t -> (length t <= 11)%nat -> exists k,
  fs_find_child st d (t ++ replicate b 0) = Ok k /\
  ((k = 0%nat /\ forall j, j ∈ kids d -> fs_get_name st j <> t) \/
   (k ∈ kids d /\ fs_get_name st k = t)).
Proof using Hwf.
  intros Hd Hn Hlen. unfold fs_find_child, fs_find_child_fuel.
  destruct (wf_chain _ _ _ Hwf d Hd) as (f & Hf & Hch). rewrite (get_ok _ _ _ Hf).
  cbn [mbind outcome_bind].
  apply (cloop_ranked (find_child_body st (t ++ replicate b 0))
    (fun k n => exists l1 l2, kids d = l1 ++ l2 /\ sibling_chain (fs_node_next_sibling st) n l2 /\
       (forall j, j ∈ l1 -> fs_get_name st j <> t) /\ k = length l2)) with (k := length (kids d)).
  - intros k n (l1 & l2 & Hl & Hc & Hno & ->). unfold find_child_body.
    destruct l2 as [|m l2]; simpl in Hc.
    + subst n. apply succeeds_ret. left. split; [done|]. rewrite Hl, app_nil_r. done.
    + destruct Hc as (-> & Hm & nx & Hnx & Hc).
      rewrite (proj2 (Nat.eqb_neq m 0)) by done.
      assert (Hin : m ∈ kids d) by (rewrite Hl; apply elem_of_app; right; left).
      pose proof Hin as Hin'. apply (wf_kids _ _ _ Hwf d m Hd) in Hin' as (_ & (ty & Hty & Hnf) & _).
      destruct (wf_name _ _ _ Hwf m Hm) as (s & Hs & Hst); [by exists ty|].
      rewrite (get_ok _ _ _ Hty), (get_ok _ _ _ Hs). cbn [mbind outcome_bind].
      unfold is_free. rewrite bool_decide_eq_false_2 by done. cbn [negb andb].
      pose proof (name_of m s Hs Hst) as Hname. destruct Hst as [Hsl Hsn _].
      pose proof (strncmp_padded s t (RAMDISK_NAME_LEN - length s) b RAMDISK_NAME_LEN Hsn Hn) as Hcmp.
      unfold pad_name. unfold RAMDISK_NAME_LEN in *.
      destruct (Z.eqb_spec (strncmp (s ++ replicate (12 - length s) 0) (t ++ replicate b 0) 12) 0) as [E|E].
      * apply succeeds_ret. right. split; [done|]. rewrite Hname. apply Hcmp; lia || done.
      * rewrite (get_ok _ _ _ Hnx). cbn [mbind outcome_bind]. apply succeeds_ret.
        exists (length l2). split; [simpl; lia|]. exists (l1 ++ [m]), l2. rewrite <- app_assoc.
        split; [done|]. split; [done|]. split; [|done]. intros j Hj.
        apply elem_of_app in Hj as [Hj|Hj]; [by apply Hno|].
        apply list_elem_of_singleton in Hj as ->. rewrite Hname. intros ->. apply E.
        apply Hcmp; lia || done.
  - exists [], (kids d). split; [done|]. split; [done|]. split; [|done].
    intros j Hj. by apply elem_of_nil in Hj.
  - pose proof (kids_short d Hd). unfold RAMDISK_MAX_NODES. lia.
Qed.
End wf.

(** * Creating a node *)

Lemma alloc_node_spec st : table_lengths st ->
  (fs_alloc_node st = 0%nat /\ forall k, (0 < k < RAMDISK_MAX_NODES)%nat -> in_use st k) \/
  ((0 < fs_alloc_node st < RAMDISK_MAX_NODES)%nat /\
   fs_node_type st !! fs_alloc_node st = Some FS_TYPE_FREE).
Proof.
  intros Hl. unfold fs_alloc_node. destruct (List.find _ _) as [i|] eqn:E.
  - right. apply List.find_some in E as [Hi Hf]. apply in_seq in Hi.
    change (1 <= i < 64)%nat in Hi. split; [unfold RAMDISK_MAX_NODES; lia|].
    destruct (lookup_Some_lt (fs_node_type st) i) as [t Ht];
      [rewrite (len_type _ Hl); unfold RAMDISK_MAX_NODES; lia|].
    rewrite (nth_lookup_Some _ _ _ _ Ht) in Hf. apply bool_decide_eq_true in Hf. congruence.
  - left. split; [done|]. intros k Hk.
    pose proof (List.find_none _ _ E k) as Hf. unfold RAMDISK_MAX_NODES in *.
    rewrite in_seq in Hf. specialize (Hf ltac:(lia)).
    destruct (lookup_Some_lt (fs_node_type st) k) as [t Ht]; [rewrite (len_type _ Hl); unfold RAMDISK_MAX_NODES; lia|].
    rewrite (nth_lookup_Some _ _ _ _ Ht) in Hf. apply bool_decide_eq_false in Hf. by exists t.
Qed.

(** The state after adding node [n] with text [s] under [parent]. *)
Definition grown (st : fs) (n : nat) (ty : fs_node_type_t) (parent f : nat) (s : list Z) : fs :=
  Fs (fs_cwd st) (fs_data_free st) (<[n := ty]> (fs_node_type st))
     (<[n := parent]> (fs_node_parent st))
     (<[parent := n]> (<[n := 0%nat]> (fs_node_first_child st)))
     (<[n := f]> (fs_node_next_sibling st)) (<[n := 0]> (fs_node_size st))
     (<[n := 0]> (fs_node_data_off st)) (<[n := pad_name s]> (fs_node_name st))
     (fs_data_pool st).

Lemma sibling_chain_insert nexts i v l : forall f,
  i ∉ l -> sibling_chain nexts f l -> sibling_chain (<[i := v]> nexts) f l.
Proof.
  induction l as [|m l IH]; intros f Hi Hc; [done|]. simpl in *.
  destruct Hc as (-> & Hm & k & Hk & Hc). apply not_elem_of_cons in Hi as [Hne Hi].
  split; [done|]. split; [done|]. exists k. rewrite list_lookup_insert_ne by done.
  split; [done|]. by apply IH.
Qed.

Lemma lengths_grown st n ty parent f s : table_lengths st -> table_lengths (grown st n ty parent f s).
Proof. intros []. split; simpl; rewrite ?length_insert; done. Qed.

(** Table reads of [grown]. *)
Lemma grown_old st n ty parent f s k : k <> n ->
  fs_node_type (grown st n ty parent f s) !! k = fs_node_type st !! k /\
  fs_node_parent (grown st n ty parent f s) !! k = fs_node_parent st !! k /\
  fs_node_size (grown st n ty parent f s) !! k = fs_node_size st !! k /\
  fs_node_data_off (grown st n ty parent f s) !! k = fs_node_data_off st !! k /\
  fs_node_name (grown st n ty parent f s) !! k = fs_node_name st !! k.
Proof. intros H. simpl. by rewrite !list_lookup_insert_ne. Qed.

Definition grown_kids (kids : nat -> list nat) (n parent : nat) (d : nat) : list nat :=
  if decide (d = parent) then n :: kids d else if decide (d = n) then [] else kids d.
Definition grown_rank (rank : nat -> nat) (n parent k : nat) : nat :=
  if decide (k = n) then S (rank parent) else rank k.

Section grow.
Context (st : fs) (kids : nat -> list nat) (rank : nat -> nat) (Hwf : wf st kids rank).
Context (n : nat) (ty : fs_node_type_t) (parent f : nat) (s : list Z).
Context (Hn : n <> 0%nat) (Hfree : fs_node_type st !! n = Some FS_TYPE_FREE) (Hty : ty <> FS_TYPE_FREE)
  (Hp : dir st parent) (Hf : fs_node_first_child st !! parent = Some f) (Hs : name_text s)
  (Hnew : forall k, k ∈ kids parent -> fs_get_name st k <> s).
Notation st' := (grown st n ty parent f s).

Lemma grow_lt : (n < RAMDISK_MAX_NODES)%nat.
Proof using All.
  apply lookup_lt_Some in Hfree. by rewrite (len_type _ (wf_lengths _ _ _ Hwf)) in Hfree.
Qed.

Lemma grow_ne k : in_use st k -> k <> n.
Proof using All. intros (t & Ht & Hnf) ->. congruence. Qed.

Lemma grow_in_use k : in_use st' k <-> k = n \/ in_use st k.
Proof using All.
  pose proof grow_lt. unfold in_use. simpl. destruct (decide (k = n)) as [->|Hne].
  - rewrite list_lookup_insert_eq by (rewrite (len_type _ (wf_lengths _ _ _ Hwf)); lia).
    split; [by left|]. intros _. by exists ty.
  - rewrite list_lookup_insert_ne by done. split; [by right|]. by intros [|].
Qed.

Lemma grow_dir d : dir st' d <-> (d = n /\ ty = FS_TYPE_DIR) \/ dir st d.
Proof using All.
  pose proof grow_lt. unfold dir. simpl. destruct (decide (d = n)) as [->|Hne].
  - rewrite list_lookup_insert_eq by (rewrite (len_type _ (wf_lengths _ _ _ Hwf)); lia).
    rewrite Hfree. split; [intros [= ->]; by left|]. by intros [[_ ->]|].
  - rewrite list_lookup_insert_ne by done. split; [by right|]. by intros [[? _]|].
Qed.

Lemma grow_not_kid d : dir st d -> n ∉ kids d.
Proof using All. intros Hd Hk. apply (wf_kids _ _ _ Hwf d n Hd) in Hk as (_ & (t & Ht & Hu) & _). congruence. Qed.

Lemma grow_name_new : fs_node_name st' !! n = Some (pad_name s).
Proof using All.
  simpl. apply list_lookup_insert_eq. rewrite (len_name _ (wf_lengths _ _ _ Hwf)). apply grow_lt.
Qed.

Lemma grow_get_name k : fs_get_name st' k = if decide (k = n) then s else fs_get_name st k.
Proof using All.
  unfold fs_get_name. case_decide as E.
  - subst k. rewrite grow_name_new. destruct Hs as [H1 H2 _]. apply pad_name_text; [done|lia].
  - simpl. by rewrite list_lookup_insert_ne.
Qed.

Lemma grow_parent k : fs_node_parent st' !! k = if decide (k = n) then Some parent else fs_node_parent st !! k.
Proof using All.
  simpl. case_decide as E.
  - subst k. apply list_lookup_insert_eq. rewrite (len_parent _ (wf_lengths _ _ _ Hwf)). apply grow_lt.
  - by rewrite list_lookup_insert_ne.
Qed.

Lemma grow_chain d : dir st' d -> exists g,
  fs_node_first_child st' !! d = Some g /\
  sibling_chain (fs_node_next_sibling st') g (grown_kids kids n parent d).
Proof using All.
  intros Hd. apply grow_dir in Hd. unfold grown_kids.
  pose proof (grow_ne parent (dir_in_use _ _ Hp)) as Hpn. pose proof grow_lt as Hlt.
  assert (Hlp : (parent < RAMDISK_MAX_NODES)%nat) by (eapply in_use_lt; [done|by apply dir_in_use]).
  pose proof (wf_lengths _ _ _ Hwf) as Hlen. case_decide as Ep; [subst d|case_decide as En].
  - exists n. simpl. rewrite list_lookup_insert_eq by (rewrite length_insert, (len_first _ Hlen); done).
    split; [done|]. split; [done|]. split; [done|]. exists f.
    rewrite list_lookup_insert_eq by (rewrite (len_next _ Hlen); done). split; [done|].
    apply sibling_chain_insert; [by apply grow_not_kid|].
    destruct (wf_chain _ _ _ Hwf parent Hp) as (f' & Hf' & Hc). congruence.
  - subst d. exists 0%nat. simpl. rewrite list_lookup_insert_ne by done.
    rewrite list_lookup_insert_eq by (rewrite (len_first _ Hlen); done). done.
  - destruct Hd as [[? _]|Hd]; [done|]. destruct (wf_chain _ _ _ Hwf d Hd) as (g & Hg & Hc).
    exists g. simpl. rewrite !list_lookup_insert_ne by done. split; [done|].
    apply sibling_chain_insert; [by apply grow_not_kid|done].
Qed.

Lemma grow_kids d k : dir st' d ->
  k ∈ grown_kids kids n parent d <->
  k <> 0%nat /\ in_use st' k /\ fs_node_parent st' !! k = Some d.
Proof using All.
  intros Hd. rewrite grow_in_use, grow_parent. apply grow_dir in Hd. unfold grown_kids.
  case_decide as Ep; [subst d; rewrite elem_of_cons, (wf_kids _ _ _ Hwf) by done|case_decide as En].
  - case_decide as E; [subst k|tauto]. split; [intros _; by split; [|split; [left|]]|by left].
  - subst d. rewrite elem_of_nil. split; [done|]. intros (H0 & Hu & Hpar).
    case_decide as E; [by injection Hpar as ->|]. destruct Hu as [|Hu]; [done|].
    destruct (wf_parent _ _ _ Hwf k H0 Hu) as (d & Hd1 & Hd2 & _).
    assert (d = n) as -> by congruence. unfold dir in Hd2. congruence.
  - destruct Hd as [[? _]|Hd]; [done|]. rewrite (wf_kids _ _ _ Hwf) by done.
    case_decide as E; [subst k; split|tauto].
    + intros (_ & Hu & _). by apply grow_ne in Hu.
    + intros (_ & _ & [= ->]). done.
Qed.

Lemma grow_unique d k k' : dir st' d -> k ∈ grown_kids kids n parent d ->
  k' ∈ grown_kids kids n parent d -> fs_get_name st' k = fs_get_name st' k' -> k = k'.
Proof using All.
  intros Hd. rewrite !grow_get_name. apply grow_dir in Hd. unfold grown_kids.
  case_decide as Ep; [subst d; rewrite !elem_of_cons|case_decide as En; [intros H; by apply elem_of_nil in H|]].
  - pose proof (grow_not_kid parent Hp) as Hnk. intros [->|Hk] [->|Hk'] E; [done|..].
    + rewrite decide_True, decide_False in E by congruence. by destruct (Hnew k' Hk').
    + rewrite decide_False, decide_True in E by congruence. by destruct (Hnew k Hk).
    + rewrite !decide_False in E by congruence. by apply (wf_unique _ _ _ Hwf parent).
  - destruct Hd as [[? _]|Hd]; [done|]. intros Hk Hk'.
    pose proof (grow_not_kid d Hd). repeat case_decide; try congruence.
    by apply (wf_unique _ _ _ Hwf d).
Qed.

Lemma grown_wf : wf st' (grown_kids kids n parent) (grown_rank rank n parent).
Proof using All.
  pose proof grow_lt as Hlt. pose proof (grow_ne parent (dir_in_use _ _ Hp)) as Hpn.
  split.
  - apply lengths_grown, Hwf.
  - apply grow_dir. right. apply Hwf.
  - apply Hwf.
  - apply grow_chain.
  - intros. by apply grow_kids.
  - intros d Hd. apply grow_dir in Hd. unfold grown_kids.
    case_decide as Ep; [subst d|case_decide; [constructor|]].
    + constructor; [by apply grow_not_kid|by apply Hwf].
    + destruct Hd as [[? _]|Hd]; [done|]. by apply Hwf.
  - intros k H0 Hu. rewrite grow_parent. unfold grown_rank. apply grow_in_use in Hu.
    case_decide as E; [exists parent|].
    + split; [done|]. split; [apply grow_dir; by right|]. rewrite decide_False by done. lia.
    + destruct Hu as [|Hu]; [done|]. destruct (wf_parent _ _ _ Hwf k H0 Hu) as (d & H1 & H2 & H3).
      exists d. split; [done|]. split; [apply grow_dir; by right|].
      rewrite decide_False; [done|]. apply grow_ne. by apply dir_in_use.
  - intros k H0 Hu. apply grow_in_use in Hu. destruct (decide (k = n)) as [->|E].
    + exists s. split; [apply grow_name_new|done].
    + destruct Hu as [|Hu]; [done|]. destruct (grown_old st n ty parent f s k E) as (_ & _ & _ & _ & ->).
      by apply (wf_name _ _ _ Hwf).
  - intros d k k'. apply grow_unique.
  - intros k Hk Hd. rewrite grow_dir in Hd. pose proof (wf_lengths _ _ _ Hwf) as Hlen. simpl.
    rewrite (list_lookup_insert_ne _ parent) by (intros ->; tauto).
    destruct (decide (k = n)) as [->|E].
    + apply list_lookup_insert_eq. by rewrite (len_first _ Hlen).
    + rewrite list_lookup_insert_ne by done. apply (wf_leaf _ _ _ Hwf); tauto.
  - intros k p. rewrite grow_parent. case_decide; [|apply (wf_parent_lt _ _ _ Hwf)].
    intros [= <-]. eapply in_use_lt; [done|by apply dir_in_use].
  - apply Hwf.
  - intros k Hk. pose proof (wf_lengths _ _ _ Hwf) as Hlen. unfold extent_ok, file in *.
    destruct (decide (k = n)) as [->|E].
    + exists 0, 0. simpl. rewrite !list_lookup_insert_eq by (rewrite ?(len_size _ Hlen), ?(len_off _ Hlen); done).
      pose proof (wf_free _ _ _ Hwf). split_and!; done || lia.
    + destruct (grown_old st n ty parent f s k E) as (Et & _ & -> & -> & _). rewrite Et in Hk.
      by apply (wf_extent _ _ _ Hwf).
Qed.
End grow.

(** [fs_mkdir_child] and [fs_create_file] on every branch. *)
Lemma add_node_spec st kids rank ty parent name :
  wf st kids rank -> ty <> FS_TYPE_FREE ->
  succeeds (add_node st ty parent (Some name)) (fun '(st', r) =>
    (r = false /\ st' = st /\
      (~ dir st parent \/ stored_text name = [] \/
       (exists k, k ∈ kids parent /\ fs_get_name st k = stored_text name) \/
       (forall k, (0 < k < RAMDISK_MAX_NODES)%nat -> in_use st k))) \/
    (r = true /\ dir st parent /\ name_text (stored_text name) /\ exists n f,
       n <> 0%nat /\ fs_node_type st !! n = Some FS_TYPE_FREE /\
       (forall k, k ∈ kids parent -> fs_get_name st k <> stored_text name) /\
       fs_node_first_child st !! parent = Some f /\
       st' = grown st n ty parent f (stored_text name) /\
       wf st' (grown_kids kids n parent) (grown_rank rank n parent))).
Proof.
  intros Hwf Hty. unfold add_node.
  destruct (fs_is_dir st parent) eqn:Hd.
  2: { rewrite orb_true_r. apply succeeds_ret. left. split; [done|]. split; [done|]. left.
       intros H. apply fs_is_dir_spec in H. congruence. }
  apply fs_is_dir_spec in Hd. pose proof (in_use_lt _ _ _ Hwf _ (dir_in_use _ _ Hd)) as Hpl.
  rewrite (proj2 (Nat.ltb_lt _ _) Hpl). cbn [negb orb]. rewrite copy_name_fits, fs_copy_name_pad. cbn [mbind outcome_bind].
  destruct (copy_lower_spec (RAMDISK_NAME_LEN - 1) name) as (Hnul & Hlen & Hlow).
  change (copy_lower _ name) with (stored_text name) in *. change (RAMDISK_NAME_LEN - 1)%nat with 11%nat in Hlen.
  destruct (Z.eqb_spec (hd0 (pad_name (stored_text name))) 0) as [E|E].
  { apply succeeds_ret. left. split; [done|]. split; [done|]. right. left. by apply hd0_pad. }
  destruct (fs_find_child_spec st kids rank Hwf parent (stored_text name)
    (RAMDISK_NAME_LEN - length (stored_text name)) Hd Hnul Hlen) as (c & Hc & Hcase).
  change (stored_text name ++ _) with (pad_name (stored_text name)) in Hc.
  rewrite Hc. cbn [mbind outcome_bind].
  destruct (Nat.eqb_spec c 0) as [->|Hc0]; cbn [negb].
  2: { destruct Hcase as [[? _]|[H1 H2]]; [done|]. apply succeeds_ret. left. split; [done|].
       split; [done|]. right. right. left. by exists c. }
  destruct Hcase as [[_ Hno]|[Hk _]]; [|by apply (wf_kids _ _ _ Hwf parent 0%nat Hd) in Hk as [? _]].
  destruct (alloc_node_spec st (wf_lengths _ _ _ Hwf)) as [[-> Hfull]|[Hn Hfree]].
  { apply succeeds_ret. left. split; [done|]. split; [done|]. by right; right; right. }
  set (n := fs_alloc_node st) in *. rewrite (proj2 (Nat.eqb_neq n 0)) by lia.
  destruct (wf_chain _ _ _ Hwf parent Hd) as (f & Hf & _).
  assert (Hpn : parent <> n) by (intros ->; unfold dir in Hd; congruence).
  pose proof (wf_lengths _ _ _ Hwf) as [].
  repeat (rewrite put_ok by (rewrite ?length_insert; lia); cbn [mbind outcome_bind]).
  rewrite (get_ok _ parent f) by (rewrite list_lookup_insert_ne; done). cbn [mbind outcome_bind].
  repeat (rewrite put_ok by (rewrite ?length_insert; lia); cbn [mbind outcome_bind]).
  rewrite copy_name_fits. cbn [mbind outcome_bind]. rewrite put_ok by lia. cbn [mbind outcome_bind].
  assert (Hst : name_text (stored_text name)).
  { apply stored_text_ok. intros E0. apply E. by rewrite E0. }
  assert (Ename : fs_copy_name12_lower (pad_name (stored_text name)) = pad_name (stored_text name)).
  { rewrite fs_copy_name_pad. f_equal. by apply copy_lower_padded. }
  rewrite Ename. apply succeeds_ret. right. split; [done|]. split; [done|]. split; [done|].
  exists n, f. split; [lia|]. split; [done|]. split; [done|]. split; [done|]. split; [done|].
  apply grown_wf; done || lia.
Qed.

(** * Deleting a node *)

Definition others (n : nat) (l : list nat) : list nat := List.filter (fun k => negb (k =? n)%nat) l.

Lemma elem_of_others n l k : k ∈ others n l <-> k ∈ l /\ k <> n.
Proof.
  unfold others. rewrite !list_elem_of_In, List.filter_In, negb_true_iff, Nat.eqb_neq. done.
Qed.

Lemma others_notin n l : n ∉ l -> others n l = l.
Proof.
  induction l as [|k l IH]; intros H; [done|]. apply not_elem_of_cons in H as [H1 H2].
  unfold others in *. simpl. rewrite (proj2 (Nat.eqb_neq k n)) by congruence. simpl. by rewrite IH.
Qed.

Lemma others_middle n l1 l2 : NoDup (l1 ++ n :: l2) -> others n (l1 ++ n :: l2) = l1 ++ l2.
Proof.
  intros Hn. apply NoDup_app in Hn as (_ & H1 & H2). apply NoDup_cons in H2 as [H2 _].
  unfold others. rewrite List.filter_app. simpl. rewrite Nat.eqb_refl. simpl.
  f_equal; apply others_notin; [|done]. intros Hx. apply (H1 n Hx). left.
Qed.

Lemma sibling_chain_lookup nexts l1 n l2 : forall f, sibling_chain nexts f (l1 ++ n :: l2) ->
  exists nx, nexts !! n = Some nx /\ sibling_chain nexts nx l2.
Proof.
  induction l1 as [|m l1 IH]; intros f H; simpl in H; destruct H as (-> & _ & nx & Hnx & H).
  - by exists nx.
  - by apply IH in H.
Qed.

(** Bypassing [n] in a chain. *)
Lemma sibling_chain_unlink nexts l1 p n l2 nx : forall f, NoDup (l1 ++ p :: n :: l2) ->
  sibling_chain nexts f (l1 ++ p :: n :: l2) -> nexts !! n = Some nx ->
  sibling_chain (<[p := nx]> nexts) f (l1 ++ p :: l2).
Proof.
  induction l1 as [|m l1 IH]; intros f Hnd H Hnx; simpl in *; apply NoDup_cons in Hnd as [Hm Hnd];
    destruct H as (-> & H0 & k & Hk & H); (split; [done|]); (split; [done|]).
  - exists nx. rewrite list_lookup_insert_eq by by eapply lookup_lt_Some. split; [done|].
    destruct H as (-> & _ & k' & Hk' & H). apply sibling_chain_insert; [|congruence].
    intros Hx. apply Hm. by right.
  - exists k. rewrite list_lookup_insert_ne; [split; [done|]; by apply IH|].
    intros ->. apply Hm. apply elem_of_app. right. left.
Qed.

Lemma prev_sibling_spec st l1 p n l2 fuel f :
  NoDup (l1 ++ p :: n :: l2) -> sibling_chain (fs_node_next_sibling st) f (l1 ++ p :: n :: l2) ->
  (length l1 < fuel)%nat -> prev_sibling fuel st n f = Ok p.
Proof.
  revert f fuel. induction l1 as [|m l1 IH]; intros f fuel Hnd H Hf;
    (destruct fuel as [|fuel]; [simpl in Hf; lia|]); unfold prev_sibling; rewrite cloop_unfold;
    simpl in H; destruct H as (-> & H0 & k & Hk & H);
    rewrite (proj2 (Nat.eqb_neq _ 0)), (get_ok _ _ _ Hk) by done; cbn [mbind outcome_bind].
  - destruct H as (-> & _). by rewrite Nat.eqb_refl.
  - assert (k <> n) as Hkn.
    { intros ->. simpl in Hnd. apply NoDup_cons in Hnd as [_ Hnd].
      destruct l1 as [|m' l1]; simpl in H; destruct H as (<- & _); simpl in Hnd;
        apply NoDup_cons in Hnd as [Hnd _]; apply Hnd; [left|].
      apply elem_of_app. right. right. left. }
    rewrite (proj2 (Nat.eqb_neq k n)) by done. simpl in Hnd. apply NoDup_cons in Hnd as [_ Hnd].
    apply (IH k fuel); [done|done|simpl in Hf; lia].
Qed.

(** The state after freeing [n], with updated link tables. *)
Definition shrunk (st : fs) (n : nat) (firsts nexts : list nat) : fs :=
  Fs (fs_cwd st) (fs_data_free st) (<[n := FS_TYPE_FREE]> (fs_node_type st)) (fs_node_parent st)
     firsts nexts (fs_node_size st) (fs_node_data_off st) (fs_node_name st) (fs_data_pool st).

Definition shrunk_kids (kids : nat -> list nat) (n d : nat) : list nat := others n (kids d).

Section shrink.
Context (st : fs) (kids : nat -> list nat) (rank : nat -> nat) (Hwf : wf st kids rank).
Context (n : nat) (firsts nexts : list nat).
Context (Hn : n <> 0%nat) (Hu : in_use st n) (Hempty : dir st n -> kids n = []).
Context (Hlf : length firsts = RAMDISK_MAX_NODES) (Hln : length nexts = RAMDISK_MAX_NODES).
Context (Hleaf : firsts !! n = Some 0%nat).
Context (Hother : forall k, ~ dir st k -> firsts !! k = fs_node_first_child st !! k).
Context (Hlinks : forall d, dir st d -> d <> n -> exists f,
  firsts !! d = Some f /\ sibling_chain nexts f (others n (kids d))).
Notation st' := (shrunk st n firsts nexts).

Lemma shrink_type k : fs_node_type st' !! k = if decide (k = n) then Some FS_TYPE_FREE else fs_node_type st !! k.
Proof using All.
  simpl. case_decide as E; [subst k|by rewrite list_lookup_insert_ne].
  apply list_lookup_insert_eq. pose proof (in_use_lt _ _ _ Hwf _ Hu).
  by rewrite (len_type _ (wf_lengths _ _ _ Hwf)).
Qed.

Lemma shrink_in_use k : in_use st' k <-> in_use st k /\ k <> n.
Proof using All.
  unfold in_use. rewrite shrink_type. case_decide as E; [subst k|].
  - split; [intros (t & [= <-] & ?); done|tauto].
  - tauto.
Qed.

Lemma shrink_dir d : dir st' d <-> dir st d /\ d <> n.
Proof using All.
  unfold dir. rewrite shrink_type. case_decide as E; [subst d; split; [done|tauto]|tauto].
Qed.

Lemma shrunk_wf : wf st' (shrunk_kids kids n) rank.
Proof using All.
  pose proof (wf_lengths _ _ _ Hwf) as Hlen. unfold shrunk_kids. split.
  - destruct Hlen. split; simpl; rewrite ?length_insert; done.
  - apply shrink_dir. split; [apply Hwf|done].
  - apply Hwf.
  - intros d Hd. apply shrink_dir in Hd as [Hd Hne]. by apply Hlinks.
  - intros d k Hd. apply shrink_dir in Hd as [Hd Hne].
    rewrite elem_of_others, shrink_in_use, (wf_kids _ _ _ Hwf) by done. simpl. tauto.
  - intros d Hd. apply shrink_dir in Hd as [Hd Hne]. apply NoDup_ListNoDup, List.NoDup_filter.
    apply NoDup_ListNoDup. by apply Hwf.
  - intros k H0 Hk. apply shrink_in_use in Hk as [Hk Hne].
    destruct (wf_parent _ _ _ Hwf k H0 Hk) as (d & H1 & H2 & H3). exists d. split; [done|].
    split; [|done]. apply shrink_dir. split; [done|]. intros ->.
    assert (Hin : k ∈ kids n) by by apply (wf_kids _ _ _ Hwf n k H2).
    rewrite (Hempty H2) in Hin. by apply elem_of_nil in Hin.
  - intros k H0 Hk. apply shrink_in_use in Hk as [Hk Hne]. by apply (wf_name _ _ _ Hwf).
  - intros d k k' Hd. apply shrink_dir in Hd as [Hd Hne]. rewrite !elem_of_others.
    intros [Hk _] [Hk' _]. by apply (wf_unique _ _ _ Hwf d).
  - intros k Hk Hd. rewrite shrink_dir in Hd. simpl. destruct (decide (k = n)) as [->|E]; [done|].
    rewrite Hother by tauto. apply (wf_leaf _ _ _ Hwf); tauto.
  - apply Hwf.
  - apply Hwf.
  - intros k Hk. unfold file in Hk. rewrite shrink_type in Hk. case_decide; [done|].
    by apply (wf_extent _ _ _ Hwf k).
Qed.
End shrink.

(** Deleting a node whose parent is not the root. *)
Lemma fs_delete_spec st kids rank n :
  wf st kids rank -> in_use st n -> fs_node_parent st !! n <> Some 0%nat ->
  succeeds (fs_delete st n) (fun '(st', r) =>
    (r = false /\ st' = st /\ (n = 0%nat \/ (dir st n /\ kids n <> []))) \/
    (r = true /\ n <> 0%nat /\ (dir st n -> kids n = []) /\
     (exists firsts nexts, st' = shrunk st n firsts nexts) /\
     wf st' (shrunk_kids kids n) rank)).
Proof.
  intros Hwf Hu Hroot. unfold fs_delete, fs_delete_fuel.
  pose proof (in_use_lt _ _ _ Hwf _ Hu) as Hlt.
  destruct (Nat.eqb_spec n 0) as [->|Hn]; cbn [orb].
  { apply succeeds_ret. left. by repeat (split; [done|]); left. }
  rewrite (proj2 (Nat.leb_gt RAMDISK_MAX_NODES n)) by done.
  pose proof Hu as (t & Ht & Hnf). rewrite (get_ok _ _ _ Ht). cbn [mbind outcome_bind].
  unfold is_free. rewrite bool_decide_eq_false_2 by done.
  pose proof (wf_lengths _ _ _ Hwf) as Hlen.
  assert (Hfirst : exists f, fs_node_first_child st !! n = Some f /\
    (f = 0%nat <-> (dir st n -> kids n = [])) /\ (~ dir st n -> f = 0%nat)).
  { destruct (decide (t = FS_TYPE_DIR)) as [->|Hnd].
    - destruct (wf_chain _ _ _ Hwf n Ht) as (f & Hf & Hc). exists f. split; [done|].
      split; [|by intros []]. destruct (kids n) as [|m l]; simpl in Hc; [done|].
      destruct Hc as (-> & Hm & _). split; [done|]. intros H. by specialize (H Ht).
    - assert (Hd : ~ dir st n) by (unfold dir; congruence).
      exists 0%nat. split; [by apply (wf_leaf _ _ _ Hwf)|]. split; [|done]. by split; [intros _ ?|]. }
  destruct Hfirst as (f & Hf & Hfk & Hfnd). rewrite (get_ok _ _ _ Hf). cbn [mbind outcome_bind].
  destruct (decide (f = 0%nat)) as [->|Hf0].
  2: { rewrite (proj2 (Nat.eqb_neq f 0)) by done. rewrite bool_decide_eq_true_2.
       - apply succeeds_ret. left. split; [done|]. split; [done|]. right.
         destruct (decide (t = FS_TYPE_DIR)) as [->|E]; [split; [done|]|].
         + intros E. apply Hf0. by apply Hfk.
         + exfalso. apply Hf0, Hfnd. unfold dir. congruence.
       - destruct (decide (t = FS_TYPE_DIR)); [done|]. exfalso. apply Hf0, Hfnd. unfold dir. congruence. }
  rewrite Nat.eqb_refl, andb_false_r. pose proof (proj1 Hfk eq_refl) as Hempty.
  destruct (wf_parent _ _ _ Hwf n Hn Hu) as (p & Hp & Hpd & Hrank).
  rewrite (get_ok _ _ _ Hp). cbn [mbind outcome_bind].
  rewrite (proj2 (Nat.eqb_neq p 0)) by (intros ->; by apply Hroot).
  destruct (wf_chain _ _ _ Hwf p Hpd) as (g & Hg & Hgc). rewrite (get_ok _ _ _ Hg).
  cbn [mbind outcome_bind negb].
  assert (Hin : n ∈ kids p) by by apply (wf_kids _ _ _ Hwf p n Hpd).
  pose proof (wf_nodup _ _ _ Hwf p Hpd) as Hnd.
  pose proof (kids_short _ _ _ Hwf p Hpd) as Hshort.
  assert (Hpn : p <> n) by (intros ->; lia).
  assert (Hdisj : forall d m, dir st d -> d <> p -> m ∈ kids p -> m ∉ kids d).
  { intros d m Hd Hdp Hm Hm'. apply (wf_kids _ _ _ Hwf p m Hpd) in Hm as (_ & _ & H1).
    apply (wf_kids _ _ _ Hwf d m Hd) in Hm' as (_ & _ & H2). congruence. }
  apply list_elem_of_split in Hin as (l1 & l2 & Hk). rewrite Hk in Hgc, Hnd, Hshort.
  destruct (sibling_chain_lookup _ _ _ _ _ Hgc) as (nx & Hnx & Hnxc).
  rewrite (get_ok _ _ _ Hnx). cbn [mbind outcome_bind].
  assert (Hsame : forall d, dir st d -> d <> p -> others n (kids d) = kids d).
  { intros d Hd Hdp. apply others_notin, Hdisj; [done|done|]. rewrite Hk. apply elem_of_app. right. left. }
  pose proof (in_use_lt _ _ _ Hwf _ (dir_in_use _ _ Hpd)) as Hplt.
  destruct (decide (l1 = [])) as [->|Hl1].
  - simpl in Hgc. destruct Hgc as (-> & _). rewrite Nat.eqb_refl.
    rewrite (put_ok (fs_node_first_child st)) by (rewrite (len_first _ Hlen); done).
    cbn [mbind outcome_bind].
    rewrite put_ok by (rewrite (len_type _ Hlen); done). cbn [mbind outcome_bind].
    apply succeeds_ret. right. split; [done|]. split; [done|]. split; [done|].
    split; [by eexists _, _|]. apply shrunk_wf; try done.
    + rewrite length_insert. apply Hlen.
    + apply Hlen.
    + by rewrite list_lookup_insert_ne.
    + intros k Hkd. apply list_lookup_insert_ne. congruence.
    + intros d Hd Hdn. destruct (decide (d = p)) as [->|Hdp].
      * exists nx. rewrite list_lookup_insert_eq by (rewrite (len_first _ Hlen); done).
        split; [done|]. rewrite Hk, (others_middle n [] l2) by done. done.
      * rewrite list_lookup_insert_ne, Hsame by congruence. by apply (wf_chain _ _ _ Hwf).
  - destruct (exists_last Hl1) as (k1 & q & ->). rewrite <- app_assoc in Hgc, Hnd, Hshort, Hk. simpl in *.
    assert (g <> n) as Hgn.
    { intros ->. destruct k1 as [|m k1]; simpl in Hgc; destruct Hgc as (<- & _); simpl in Hnd;
        apply NoDup_cons in Hnd as [Hnd _]; apply Hnd; [left|apply elem_of_app; right; right; left]. }
    rewrite (proj2 (Nat.eqb_neq g n)) by done. rewrite length_app in Hshort. simpl in Hshort.
    rewrite (prev_sibling_spec st k1 q n l2) by (done || unfold RAMDISK_MAX_NODES; lia).
    cbn [mbind outcome_bind].
    assert (Hq : q ∈ kids p) by (rewrite Hk; apply elem_of_app; right; left).
    pose proof Hq as Hq'. apply (wf_kids _ _ _ Hwf p q Hpd) in Hq' as (Hq0 & Hqu & _).
    rewrite (proj2 (Nat.eqb_neq q 0)) by done. cbn [negb].
    rewrite (put_ok (fs_node_next_sibling st)) by (rewrite (len_next _ Hlen); by eapply in_use_lt).
    cbn [mbind outcome_bind].
    rewrite put_ok by (rewrite (len_type _ Hlen); done). cbn [mbind outcome_bind].
    apply succeeds_ret. right. split; [done|]. split; [done|]. split; [done|].
    split; [by eexists _, _|]. apply shrunk_wf; try done.
    + apply Hlen.
    + rewrite length_insert. apply Hlen.
    + intros d Hd Hdn. destruct (decide (d = p)) as [->|Hdp].
      * exists g. split; [done|]. rewrite Hk.
        replace (k1 ++ q :: n :: l2) with ((k1 ++ [q]) ++ n :: l2) by by rewrite <- app_assoc.
        rewrite others_middle by (rewrite <- app_assoc; done). rewrite <- app_assoc. simpl.
        by apply (sibling_chain_unlink _ _ _ n).
      * rewrite Hsame by done. destruct (wf_chain _ _ _ Hwf d Hd) as (g' & Hg' & Hc').
        exists g'. split; [done|]. apply sibling_chain_insert; [by apply Hdisj|done].
Qed.

(** * Reading and writing *)

(** What a file holds. *)
Definition contents_of (st : fs) (n : nat) : list Z :=
  match fs_node_size st !! n, fs_node_data_off st !! n with
  | Some sz, Some off => take (Z.to_nat sz) (drop (Z.to_nat off) (fs_data_pool st))
  | _, _ => []
  end.

(** The state after writing [data] to [n] at the end of the used pool. *)
Definition written (st : fs) (n : nat) (data : list Z) : fs :=
  Fs (fs_cwd st) (fs_data_free st + Z.of_nat (length data)) (fs_node_type st) (fs_node_parent st)
     (fs_node_first_child st) (fs_node_next_sibling st)
     (<[n := Z.of_nat (length data)]> (fs_node_size st))
     (<[n := fs_data_free st]> (fs_node_data_off st)) (fs_node_name st)
     (take (Z.to_nat (fs_data_free st)) (fs_data_pool st) ++ data ++
      drop (Z.to_nat (fs_data_free st) + length data) (fs_data_pool st)).

Section write.
Context (st : fs) (kids : nat -> list nat) (rank : nat -> nat) (Hwf : wf st kids rank).
Context (n : nat) (data : list Z) (Hfile : file st n).
Context (Hfit : fs_data_free st + Z.of_nat (length data) <= RAMDISK_DATA_CAP).
Notation st' := (written st n data).

Lemma written_extent k : file st k -> extent_ok st' k.
Proof using Hwf Hfit.
  intros Hk. pose proof (wf_lengths _ _ _ Hwf) as Hlen. pose proof (wf_free _ _ _ Hwf).
  destruct (wf_extent _ _ _ Hwf k Hk) as (sz & off & H1 & H2 & H3 & H4 & H5). unfold extent_ok. simpl.
  destruct (decide (k = n)) as [->|E].
  - exists (Z.of_nat (length data)), (fs_data_free st).
    apply lookup_lt_Some in H1. apply lookup_lt_Some in H2.
    rewrite !list_lookup_insert_eq by done. split_and!; done || lia.
  - exists sz, off. rewrite !list_lookup_insert_ne by done. split_and!; done || lia.
Qed.

Lemma written_wf : wf st' kids rank.
Proof using All.
  pose proof (wf_lengths _ _ _ Hwf) as Hlen. pose proof (wf_free _ _ _ Hwf) as Hfr.
  destruct Hwf as [H1 H2 H3 H4 H5 H6 H7 H8 H9 H10 H11 H12 H13]. split; try done.
  - destruct Hlen. split; simpl; rewrite ?length_insert; try done.
    rewrite !length_app, length_take, length_drop. lia.
  - simpl. lia.
  - apply written_extent.
Qed.

Lemma written_contents_same : contents_of st' n = data.
Proof using All.
  pose proof (wf_lengths _ _ _ Hwf) as Hlen. pose proof (wf_free _ _ _ Hwf) as Hfr.
  pose proof (in_use_lt _ _ _ Hwf _ (file_in_use _ _ Hfile)) as Hlt.
  unfold contents_of. simpl.
  rewrite !list_lookup_insert_eq by (rewrite ?(len_size _ Hlen), ?(len_off _ Hlen); done).
  pose proof (len_pool _ Hlen). rewrite drop_app_length' by (rewrite length_take; lia).
  rewrite Nat2Z.id. apply take_app_length.
Qed.

Lemma written_contents_other k : file st k -> k <> n -> contents_of st' k = contents_of st k.
Proof using All.
  intros Hk Hne. pose proof (len_pool _ (wf_lengths _ _ _ Hwf)). pose proof (wf_free _ _ _ Hwf) as Hfr.
  destruct (wf_extent _ _ _ Hwf k Hk) as (sz & off & H1 & H2 & H3 & H4 & H5).
  unfold contents_of. simpl. rewrite !list_lookup_insert_ne by done. rewrite H1, H2.
  rewrite drop_app_le by (rewrite length_take; lia).
  rewrite take_app_le by (rewrite length_drop, length_take; lia).
  rewrite <- (take_drop (Z.to_nat (fs_data_free st)) (fs_data_pool st)) at 2.
  rewrite drop_app_le by (rewrite length_take; lia).
  by rewrite take_app_le by (rewrite length_drop, length_take; lia).
Qed.
End write.

Lemma fs_write_spec st kids rank n data size :
  wf st kids rank -> 0 <= size <= Z.of_nat (length data) -> size < 2147475456 ->
  fs_write st n (Some data) size =
    Ok (if fs_is_file st n && (fs_data_free st + size <=? RAMDISK_DATA_CAP)
        then (written st n (take (Z.to_nat size) data), true) else (st, false)).
Proof.
  intros Hwf Hsz Hmax. unfold fs_write. destruct (fs_is_file st n) eqn:Hf.
  2: { by rewrite orb_true_r. }
  apply fs_is_file_spec in Hf. pose proof (in_use_lt _ _ _ Hwf _ (file_in_use _ _ Hf)) as Hlt.
  rewrite (proj2 (Nat.leb_gt _ _)) by done. rewrite (proj2 (Z.ltb_ge size 0)) by lia.
  rewrite (bool_decide_eq_false_2 (Some data = None)) by done. rewrite andb_false_r. cbn [orb negb andb].
  pose proof (wf_free _ _ _ Hwf) as Hfr. unfold RAMDISK_DATA_CAP in *.
  rewrite i32_small by words.
  destruct (Z.ltb_spec 8192 (fs_data_free st + size)) as [H|H];
    [by rewrite (proj2 (Z.leb_gt (fs_data_free st + size) 8192))|].
  rewrite (proj2 (Z.leb_le (fs_data_free st + size) 8192)) by done.
  pose proof (wf_lengths _ _ _ Hwf) as Hlen.
  rewrite (put_ok (fs_node_data_off st)) by (rewrite (len_off _ Hlen); done). cbn [mbind outcome_bind].
  rewrite (put_ok (fs_node_size st)) by (rewrite (len_size _ Hlen); done). cbn [mbind outcome_bind].
  assert (Htl : length (take (Z.to_nat size) data) = Z.to_nat size) by (rewrite length_take; lia).
  unfold written. rewrite Htl, Z2Nat.id by lia.
  rewrite (u16_small size) by words.
  destruct (Z.ltb_spec 0 size).
  - cbn [default from_option id]. rewrite (proj2 (Z.leb_le size (Z.of_nat (length data)))) by lia.
    unfold pool_write. rewrite Htl, Z2Nat.id by lia. pose proof (len_pool _ Hlen) as Hp.
    unfold RAMDISK_DATA_CAP in Hp.
    rewrite (proj2 (Z.leb_le _ (Z.of_nat (length (fs_data_pool st))))) by lia.
    cbn [mbind outcome_bind]. by rewrite u16_small by words.
  - assert (size = 0) as -> by lia. cbn [mbind outcome_bind].
    change (Z.to_nat 0) with 0%nat. rewrite Z.add_0_r, Nat.add_0_r, take_0.
    cbn [app]. by rewrite take_drop.
Qed.

Lemma fs_read_spec st kids rank n size : wf st kids rank -> 0 <= size ->
  fs_read st n size =
    Ok (if fs_is_file st n then
          let out := take (Z.to_nat size) (contents_of st n) in (out, Z.of_nat (length out))
        else ([], -1)).
Proof.
  intros Hwf Hs. unfold fs_read. destruct (fs_is_file st n) eqn:Hf; [|by rewrite orb_true_r].
  apply fs_is_file_spec in Hf. pose proof (in_use_lt _ _ _ Hwf _ (file_in_use _ _ Hf)) as Hlt.
  rewrite (proj2 (Nat.leb_gt _ _)) by done. cbn [orb negb].
  destruct (wf_extent _ _ _ Hwf n Hf) as (sz & off & H1 & H2 & H3 & H4 & H5).
  unfold contents_of. rewrite (get_ok _ _ _ H1), (get_ok _ _ _ H2), H1, H2. cbn [mbind outcome_bind].
  pose proof (len_pool _ (wf_lengths _ _ _ Hwf)) as Hp. pose proof (wf_free _ _ _ Hwf) as Hfr.
  set (a := if size <? sz then size else sz).
  assert (Ha : a = Z.min size sz) by (subst a; destruct (Z.ltb_spec size sz); lia).
  rewrite take_take.
  replace (Z.to_nat size `min` Z.to_nat sz)%nat with (Z.to_nat a) by lia.
  rewrite length_take, length_drop. destruct (Z.ltb_spec 0 a).
  - rewrite (proj2 (Z.leb_le _ _)) by lia. do 2 f_equal. lia.
  - replace (Z.to_nat a) with 0%nat by lia. do 2 f_equal. simpl. lia.
Qed.

(** * The empty file system *)

Lemma clear_in_use k : in_use ramdisk_clear k <-> k = 0%nat.
Proof.
  unfold in_use, ramdisk_clear; cbn [fs_node_type]. destruct (decide (k = 0%nat)) as [->|E].
  - split; [done|]. intros _. by exists FS_TYPE_DIR.
  - rewrite list_lookup_insert_ne by done. split; [|done]. intros (t & Ht & Hne).
    apply lookup_replicate in Ht as [-> _]. done.
Qed.

Lemma clear_dir d : dir ramdisk_clear d <-> d = 0%nat.
Proof.
  split; [|by intros ->]. intros H. by apply clear_in_use, dir_in_use.
Qed.

Lemma clear_wf : wf ramdisk_clear (fun _ => []) (fun _ => 0%nat).
Proof.
  split.
  - split; vm_compute; done.
  - done.
  - cbn. unfold RAMDISK_MAX_NODES. lia.
  - intros d ->%clear_dir. by exists 0%nat.
  - intros d k ->%clear_dir. rewrite elem_of_nil, clear_in_use. tauto.
  - intros d _. constructor.
  - intros k H0 Hk%clear_in_use. done.
  - intros k H0 Hk%clear_in_use. done.
  - intros d k k' _ Hk. by apply elem_of_nil in Hk.
  - intros k Hk _. by apply lookup_replicate.
  - intros k p Hp. apply lookup_replicate in Hp as [-> _]. unfold RAMDISK_MAX_NODES. lia.
  - cbn. unfold RAMDISK_DATA_CAP. lia.
  - intros k Hk. pose proof (proj1 (clear_in_use k) (file_in_use _ _ Hk)) as ->. discriminate Hk.
Qed.
