(* ===== verification/RamdiskPath.v ===== *)
(** Paths of the RAM disk: [fs_resolve] as a walk along path components,
    [fs_build_path] as the rendering of a node's ancestors, and the two as
    inverses of each other. *)
From Stdlib Require Import ZArith Lia Ascii String.
From stdpp Require Import base tactics option numbers list.
From S2P Require Import Prelude Buffer CString Ramdisk RamdiskInv.
#[local] Open Scope Z_scope.

(** * Components *)

(** The tokens [fs_next_token] finds in a path, in order. *)
Fixpoint components (fuel : nat) (p : list Z) : list (list Z) :=
  match fuel with
  | O => []
  | S k =>
    let '(more, token, p') := fs_next_token p in
    if more then token :: components k p' else []
  end.

Definition path_components (p : list Z) : list (list Z) := components (S (length p)) p.

(** One step of a walk: a component seen from [cur]. *)
Definition walk_step_to (st : fs) (cur : nat) (s : list Z) : option nat :=
  if decide (s = bs ".") then Some cur
  else if decide (s = bs "..") then
    (if decide (cur = 0%nat) then Some cur else fs_node_parent st !! cur)
  else match fs_find_child st cur s with
       | Ok (S k) => Some (S k)
       | _ => None
       end.

Fixpoint walk (st : fs) (cur : nat) (l : list (list Z)) : option nat :=
  match l with
  | [] => Some cur
  | s :: l' => match walk_step_to st cur s with Some c => walk st c l' | None => None end
  end.

Lemma skip_sep_length p : (length (skip_sep p) <= length p)%nat.
Proof. induction p as [|c p IH]; simpl; [done|]. destruct (is_sep c); simpl; lia. Qed.
Lemma skip_token_length p : (length (skip_token p) <= length p)%nat.
Proof. induction p as [|c p IH]; simpl; [done|]. case_match; simpl; lia. Qed.

Lemma skip_sep_head p c p' : skip_sep p = c :: p' -> is_sep c = false.
Proof.
  induction p as [|d p IH]; simpl; [done|]. destruct (is_sep d) eqn:E; [done|]. by intros [= <- _].
Qed.

Lemma is_sep_0 : is_sep 0 = false.
Proof. done. Qed.

Lemma copy_token_spec room p :
  nul_free (copy_token room p) /\ (length (copy_token room p) <= room)%nat.
Proof.
  revert p. induction room as [|room IH]; intros p; simpl; [split; [constructor|lia]|].
  destruct (Z.eqb_spec (hd0 p) 0); simpl; [split; [constructor|lia]|].
  destruct (is_sep (hd0 p)); simpl; [split; [constructor|lia]|].
  destruct (IH (tl0 p)). split; [|lia]. constructor; [by apply to_lower_nonzero|done].
Qed.

(** A token is found exactly when a non-separator is left; the pointer moves. *)
Lemma next_token_spec p more token p' : fs_next_token p = (more, token, p') ->
  (length p' <= length p)%nat /\ nul_free token /\ (length token <= 11)%nat /\
  (more = true -> token <> [] /\ (length p' < length p)%nat) /\
  (more = false -> token = [] /\ hd0 (skip_sep p) = 0).
Proof.
  unfold fs_next_token. pose proof (skip_sep_length p) as Hl.
  destruct (Z.eqb_spec (hd0 (skip_sep p)) 0) as [E|E]; intros [= <- <- <-].
  - split; [done|]. split; [constructor|]. split; [simpl; lia|]. split; [done|]. done.
  - destruct (copy_token_spec (RAMDISK_NAME_LEN - 1) (skip_sep p)) as [H1 H2].
    destruct (skip_sep p) as [|c q] eqn:Eq; [done|]. pose proof (skip_sep_head _ _ _ Eq) as Hc.
    unfold hd0, byte_at in E. simpl in E. pose proof (skip_token_length q).
    assert (Es : skip_token (c :: q) = skip_token q).
    { simpl. rewrite Hc, (proj2 (Z.eqb_neq c 0)) by done. done. }
    rewrite Es. simpl in Hl. split; [lia|]. split; [done|]. split; [done|]. split; [|done].
    intros _. split; [|simpl; lia]. simpl. rewrite hd0_cons, Hc, (proj2 (Z.eqb_neq c 0)) by done. done.
Qed.

Lemma components_fuel k k' p : (length p < k)%nat -> (length p < k')%nat ->
  components k p = components k' p.
Proof.
  revert k' p. induction k as [|k IH]; intros [|k'] p H H'; try lia. simpl.
  destruct (fs_next_token p) as [[[] token] p'] eqn:E; [|done].
  destruct (next_token_spec _ _ _ _ E) as (_ & _ & _ & Hm & _). destruct Hm as [_ Hm]; [done|].
  f_equal. apply IH; lia.
Qed.

(** What the resolve loop skips after a token does not matter to the tokens. *)
Definition skip_slashes := fix slashes (p : list Z) : list Z :=
  match p with
  | c :: p' => if c =? ch "/" then slashes p' else p
  | [] => []
  end.

Lemma skip_slashes_length p : (length (skip_slashes p) <= length p)%nat.
Proof. induction p as [|c p IH]; simpl; [done|]. case_match; simpl; lia. Qed.

Lemma skip_sep_slashes p : skip_sep (skip_slashes p) = skip_sep p.
Proof.
  induction p as [|c p IH]; simpl; [done|]. destruct (c =? ch "/") eqn:E.
  - rewrite IH. unfold is_sep. by rewrite E, orb_true_r.
  - done.
Qed.

Lemma path_components_slashes p : path_components (skip_slashes p) = path_components p.
Proof.
  unfold path_components. pose proof (skip_slashes_length p).
  rewrite (components_fuel _ (S (length p))) by lia. simpl.
  unfold fs_next_token. by rewrite skip_sep_slashes.
Qed.

Lemma path_components_end p : hd0 p = 0 -> path_components p = [].
Proof.
  intros H. unfold path_components. simpl. unfold fs_next_token. destruct p as [|c p]; [done|].
  unfold hd0, byte_at in H. simpl in H. subst c. done.
Qed.

(** * Resolving is walking *)

Section resolve.
Context (st : fs) (kids : nat -> list nat) (rank : nat -> nat) (Hwf : wf st kids rank).

Lemma dir_decision d : dir st d \/ ~ dir st d.
Proof. unfold dir. destruct (decide (fs_node_type st !! d = Some FS_TYPE_DIR)); [by left|by right]. Qed.

(** Looking a token up never faults, and finds an entry of the table. *)
Lemma find_child_total d t : (d < RAMDISK_MAX_NODES)%nat -> nul_free t -> (length t <= 11)%nat ->
  exists k, fs_find_child st d t = Ok k /\ (k < RAMDISK_MAX_NODES)%nat.
Proof using Hwf.
  intros Hd Hn Hl. destruct (dir_decision d) as [Hdir|Hnd].
  - destruct (fs_find_child_spec st kids rank Hwf d t 0 Hdir Hn Hl) as (k & Hk & Hc).
    rewrite app_nil_r in Hk. exists k. split; [done|]. destruct Hc as [[-> _]|[Hc _]].
    + unfold RAMDISK_MAX_NODES. lia.
    + apply (wf_kids _ _ _ Hwf d k Hdir) in Hc as (_ & Hu & _). by eapply in_use_lt.
  - exists 0%nat. unfold fs_find_child, fs_find_child_fuel.
    rewrite (get_ok _ _ _ (wf_leaf _ _ _ Hwf d Hd Hnd)). split; [done|unfold RAMDISK_MAX_NODES; lia].
Qed.

Lemma walk_step_lt cur s c : (cur < RAMDISK_MAX_NODES)%nat -> nul_free s -> (length s <= 11)%nat ->
  walk_step_to st cur s = Some c -> (c < RAMDISK_MAX_NODES)%nat.
Proof using Hwf.
  intros Hc Hn Hl. unfold walk_step_to. repeat case_decide; intros Hx; simplify_eq; try done.
  - by apply (wf_parent_lt _ _ _ Hwf) in Hx.
  - destruct (find_child_total cur s Hc Hn Hl) as (k & Hk & Hlt). rewrite Hk in Hx.
    destruct k; [done|]. by injection Hx as <-.
Qed.

(** One turn of the loop of [fs_resolve_checked]. *)
Lemma resolve_body_spec cur p : (cur < RAMDISK_MAX_NODES)%nat ->
  succeeds (resolve_body st (cur, p)) (fun x =>
    match x with
    | inr r => r = walk st cur (path_components p)
    | inl (cur', p') => (cur' < RAMDISK_MAX_NODES)%nat /\ (length p' < length p)%nat /\
        walk st cur' (path_components p') = walk st cur (path_components p)
    end).
Proof using Hwf.
  intros Hcur. unfold resolve_body. destruct (fs_next_token p) as [[more token] p'] eqn:E.
  destruct (next_token_spec _ _ _ _ E) as (Hle & Hn & Hl & Ht & Hf).
  assert (Hpc : path_components p = if more then token :: path_components p' else []).
  { unfold path_components at 1. simpl. rewrite E. destruct more; [|done]. f_equal.
    destruct (Ht eq_refl). apply components_fuel; lia. }
  rewrite end_text_ok by (unfold RAMDISK_NAME_LEN; lia). cbn [mbind outcome_bind].
  destruct more; cbn [negb].
  2: { apply succeeds_ret. by rewrite Hpc. }
  destruct (Ht eq_refl) as [Hne Hlt].
  assert (Hh : hd0 token =? 0 = false).
  { destruct Hn as [|c t Hc _]; [done|]. rewrite hd0_cons. by apply Z.eqb_neq. }
  rewrite Hh, Hpc. cbn [walk].
  set (nx := if strcmp token (bs ".") =? 0 then _ else _).
  assert (Hnx : nx = Ok (walk_step_to st cur token)).
  { subst nx. unfold walk_step_to.
    assert (H1 : strcmp token (bs ".") =? 0 = bool_decide (token = bs ".")).
    { apply eq_true_iff_eq. rewrite Z.eqb_eq, bool_decide_eq_true.
      apply strcmp_eq; [done|]. repeat constructor; done. }
    assert (H2 : strcmp token (bs "..") =? 0 = bool_decide (token = bs "..")).
    { apply eq_true_iff_eq. rewrite Z.eqb_eq, bool_decide_eq_true.
      apply strcmp_eq; [done|]. repeat constructor; done. }
    rewrite H1, H2. clear H1 H2.
    destruct (decide (token = bs ".")) as [E1|E1]; [by rewrite bool_decide_eq_true_2|].
    rewrite (bool_decide_eq_false_2 _ E1).
    destruct (decide (token = bs "..")) as [E2|E2];
      [rewrite (bool_decide_eq_true_2 _ E2)|rewrite (bool_decide_eq_false_2 _ E2)].
    - case_decide as E0; [by subst|]. rewrite (proj2 (Nat.eqb_neq cur 0)) by done. cbn [negb].
      destruct (lookup_Some_lt (fs_node_parent st) cur) as [q Hq];
        [rewrite (len_parent _ (wf_lengths _ _ _ Hwf)); done|].
      rewrite (get_ok _ _ _ Hq), Hq. done.
    - destruct (find_child_total cur token Hcur Hn Hl) as (k & -> & _). cbn [mbind outcome_bind].
      by destruct k. }
  rewrite Hnx. cbn [mbind outcome_bind]. destruct (walk_step_to st cur token) as [c|] eqn:Ew.
  2: { by apply succeeds_ret. }
  change ((fix slashes (p : list Z) : list Z := match p with
      | [] => [] | c :: p' => if c =? ch "/" then slashes p' else p end) p') with (skip_slashes p').
  pose proof (path_components_slashes p') as Hps. apply succeeds_ret.
  destruct (Z.eqb_spec (hd0 (skip_slashes p')) 0) as [E0|E0].
  - rewrite <- Hps, path_components_end by done. done.
  - split; [by eapply walk_step_lt|]. rewrite Hps. split; [|done].
    pose proof (skip_slashes_length p'). lia.
Qed.

(** The starting node and the rest of a path. *)
Definition path_start (path : list Z) : nat * list Z :=
  if hd0 path =? ch "/" then (0%nat, tl0 path) else (fs_cwd st, path).

Lemma fs_resolve_checked_spec path :
  fs_resolve_checked st (Some path) =
    Ok (walk st (fst (path_start path)) (path_components (snd (path_start path)))).
Proof using Hwf.
  unfold fs_resolve_checked. destruct (Z.eqb_spec (hd0 path) 0) as [E|E].
  { unfold path_start. rewrite E. change (0 =? ch "/") with false. cbv iota. simpl.
    by rewrite path_components_end. }
  unfold path_start. set (s := if hd0 path =? ch "/" then _ else _).
  assert (Hs : (fst s < RAMDISK_MAX_NODES)%nat /\ (length (snd s) <= length path)%nat).
  { subst s. destruct (hd0 path =? ch "/"); simpl.
    - split; [unfold RAMDISK_MAX_NODES; lia|]. destruct path; simpl; lia.
    - split; [apply Hwf|done]. }
  destruct s as [cur p]. cbn [fst snd] in *. destruct Hs as [Hs Hl].
  enough (succeeds (cloop (S (length path)) (resolve_body st) (cur, p))
    (fun r => r = walk st cur (path_components p))) as (r & -> & ->) by done.
  apply (cloop_total _ (fun x => (fst x < RAMDISK_MAX_NODES)%nat /\
      walk st (fst x) (path_components (snd x)) = walk st cur (path_components p)) _
    (fun x => length (snd x))); [|by split|simpl; lia].
  intros [cur' p'] [Hc Hw]. simpl in *. eapply succeeds_mono; [by apply resolve_body_spec|].
  intros [[c2 p2]|r]; simpl; [|congruence]. intros (H1 & H2 & H3). split; [split; [done|congruence]|done].
Qed.
End resolve.

(** * Building a path *)

(** The names joined with slashes. *)
Fixpoint join (names : list (list Z)) : list Z :=
  match names with
  | [] => []
  | [s] => s
  | s :: l => s ++ ch "/" :: join l
  end.

(** The nodes from [n] up, the root left out. *)
Fixpoint up (st : fs) (n : nat) (l : list nat) : Prop :=
  match l with
  | [] => n = 0%nat
  | m :: l' => m = n /\ n <> 0%nat /\ exists p, fs_node_parent st !! n = Some p /\ up st p l'
  end.

Definition names_of (st : fs) (l : list nat) : list (list Z) := rev (map (fs_get_name st) l).

Lemma ancestors_spec st l : forall room n, up st n l -> (length l < room)%nat ->
  ancestors st room n = Ok (l ++ [0%nat]).
Proof.
  induction l as [|m l IH]; intros room n Hu Hl; (destruct room as [|room]; [simpl in Hl; lia|]);
    simpl in *.
  - subst n. done.
  - destruct Hu as (-> & Hn & p & Hp & Hu). rewrite (proj2 (Nat.eqb_neq n 0)) by done.
    rewrite (get_ok _ _ _ Hp). cbn [mbind outcome_bind]. rewrite (IH room p) by (done || lia). done.
Qed.

Lemma push_chars_spec bsz s : forall buf,
  push_chars bsz buf s = Ok (inl (buf ++ s)) \/
  ((bsz - 1 <= length (buf ++ s))%nat /\ push_chars bsz buf s = Ok (inr (take (bsz - 1) (buf ++ s)))).
Proof.
  induction s as [|c s IH]; intros buf; simpl; [left; by rewrite app_nil_r|].
  destruct (Nat.leb_spec bsz (length buf + 1)).
  - right. rewrite length_app. split; [simpl; lia|]. do 2 f_equal. by rewrite take_app_le by lia.
  - replace (buf ++ c :: s) with ((buf ++ [c]) ++ s) by by rewrite <- app_assoc.
    rewrite put_char_ok by lia. apply IH.
Qed.

Lemma take_app_long {A} k (a b : list A) : (k <= length a)%nat -> take k (a ++ b) = take k a.
Proof. apply take_app_le. Qed.

Lemma push_nodes_spec st bsz l : forall buf,
  (forall n, n ∈ l -> n <> 0%nat /\ exists s, fs_node_name st !! n = Some (pad_name s) /\ name_text s) ->
  push_nodes st bsz buf l = Ok (take (bsz - 1) (buf ++ join (map (fs_get_name st) l))).
Proof.
  induction l as [|n l IH]; intros buf Hl; simpl; [by rewrite app_nil_r|].
  destruct (Hl n) as (Hn & s & Hs & Hst); [left|]. rewrite (proj2 (Nat.eqb_neq n 0)) by done.
  rewrite (get_ok _ _ _ Hs). cbn [mbind outcome_bind].
  rewrite (name_of st n s Hs Hst). destruct Hst as [Hlen Hnul _].
  rewrite pad_name_text, (take_ge s) by (done || unfold RAMDISK_NAME_LEN; lia).
  assert (Hl' : forall m, m ∈ l -> m <> 0%nat /\ exists s, fs_node_name st !! m = Some (pad_name s) /\ name_text s)
    by (intros m Hm; apply Hl; by right).
  destruct (push_chars_spec bsz s buf) as [->|[Hle ->]].
  - destruct l as [|m l]; [simpl; done|]. rewrite map_cons. cbv iota.
    rewrite <- map_cons. cbn [mbind].
    assert (Ej : buf ++ s ++ ch "/" :: join (map (fs_get_name st) (m :: l)) =
      ((buf ++ s) ++ [ch "/"]) ++ join (map (fs_get_name st) (m :: l))).
    { by rewrite <- !app_assoc. }
    cbn [mbind outcome_bind push_chars]. rewrite Ej. destruct (Nat.leb_spec bsz (length (buf ++ s) + 1));
      [|rewrite put_char_ok by lia; cbn [mbind outcome_bind]; by rewrite IH].
    cbn [mbind outcome_bind].
    by rewrite <- app_assoc, (take_app_long _ (buf ++ s)) by lia.
  - f_equal. destruct (map (fs_get_name st) l) eqn:E; [done|].
    by rewrite app_assoc, (take_app_long _ (buf ++ s)).
Qed.

Section tree.
Context (st : fs) (kids : nat -> list nat) (rank : nat -> nat) (Hwf : wf st kids rank).

(** Every node has a way up to the root, along distinct nodes. *)
Lemma up_exists n : n = 0%nat \/ in_use st n -> exists l, up st n l /\ NoDup l /\
  Forall (fun m => m <> 0%nat /\ in_use st m /\ (rank m <= rank n)%nat) l.
Proof using Hwf.
  remember (rank n) as r eqn:Hr. revert n Hr. induction r as [r IH] using lt_wf_ind.
  intros n -> Hn. destruct (decide (n = 0%nat)) as [->|H0].
  { exists []. split; [done|]. split; constructor. }
  destruct Hn as [|Hu]; [done|]. destruct (wf_parent _ _ _ Hwf n H0 Hu) as (p & Hp & Hd & Hlt).
  destruct (IH (rank p) Hlt p eq_refl) as (l & H1 & H2 & H3).
  { right. by apply dir_in_use. }
  exists (n :: l). split; [simpl; eauto|]. split.
  - constructor; [|done]. intros Hin. rewrite Forall_forall in H3. apply H3 in Hin. lia.
  - constructor; [done|]. eapply Forall_impl; [exact H3|]. simpl. intuition lia.
Qed.

Lemma up_in_use l : forall n, up st n l -> n = 0%nat \/ in_use st n -> Forall (fun m => m <> 0%nat /\ in_use st m) l.
Proof using Hwf.
  induction l as [|m l IH]; intros n Hu Hn; simpl in Hu; [constructor|].
  destruct Hu as (-> & H0 & p & Hp & Hu). destruct Hn as [|Hn]; [done|].
  destruct (wf_parent _ _ _ Hwf n H0 Hn) as (q & Hq & Hd & _). assert (q = p) as -> by congruence.
  constructor; [done|]. apply (IH p Hu). right. by apply dir_in_use.
Qed.

Lemma up_short n l : up st n l -> NoDup l -> Forall (fun m => m <> 0%nat /\ in_use st m /\ (rank m <= rank n)%nat) l ->
  (length l <= 63)%nat.
Proof using Hwf.
  intros _ Hn Hf. assert (Hsub : l ⊆ seq 1 63).
  { intros k Hk. rewrite Forall_forall in Hf. destruct (Hf k Hk) as (H0 & Hu & _).
    apply (in_use_lt _ _ _ Hwf) in Hu. apply elem_of_seq. unfold RAMDISK_MAX_NODES in Hu. lia. }
  pose proof (submseteq_length _ _ (NoDup_submseteq _ _ Hn Hsub)) as H. by rewrite length_seq in H.
Qed.

Lemma fs_build_path_spec n bsz : in_use st n -> (0 < bsz)%nat -> exists l,
  up st n l /\ Forall (fun m => m <> 0%nat /\ in_use st m) l /\
  fs_build_path st n bsz = Ok (Some (take (bsz - 1) (ch "/" :: join (names_of st l)))).
Proof using Hwf.
  intros Hu Hb. destruct (up_exists n) as (l & H1 & H2 & H3); [by right|].
  pose proof (up_short n l H1 H2 H3) as Hlen. exists l. split; [done|].
  split; [eapply Forall_impl; [exact H3|]; simpl; tauto|].
  unfold fs_build_path. rewrite (proj2 (Nat.eqb_neq bsz 0)) by lia.
  rewrite (proj2 (Nat.leb_gt _ _)) by by eapply in_use_lt.
  rewrite (ancestors_spec st l) by (done || unfold RAMDISK_MAX_NODES; lia). cbn [mbind outcome_bind].
  rewrite fill_array_ok by (rewrite length_app; unfold RAMDISK_MAX_NODES; simpl; lia). cbn [mbind outcome_bind].
  rewrite rev_app_distr. cbn [rev app push_nodes Nat.eqb].
  rewrite push_nodes_spec.
  - cbn [mbind outcome_bind]. unfold names_of. by rewrite map_rev.
  - intros m Hm. apply list_elem_of_In, in_rev, list_elem_of_In in Hm.
    rewrite Forall_forall in H3. destruct (H3 m Hm) as (H0 & Hmu & _). split; [done|].
    by apply (wf_name _ _ _ Hwf).
Qed.

(** A name that survives a round trip: no separator, and neither dot entry. *)
Definition clean (s : list Z) : Prop :=
  Forall (fun c => is_sep c = false) s /\ s <> bs "." /\ s <> bs "..".

Lemma walk_app l1 l2 : forall cur, walk st cur (l1 ++ l2) =
  match walk st cur l1 with Some c => walk st c l2 | None => None end.
Proof using Type.
  induction l1 as [|s l1 IH]; intros cur; simpl; [done|].
  by destruct (walk_step_to st cur s).
Qed.

Lemma walk_to_kid d k : dir st d -> k ∈ kids d -> clean (fs_get_name st k) ->
  walk_step_to st d (fs_get_name st k) = Some k.
Proof using Hwf.
  intros Hd Hk (_ & H1 & H2). unfold walk_step_to. rewrite !decide_False by done.
  pose proof Hk as Hk'. apply (wf_kids _ _ _ Hwf d k Hd) in Hk' as (H0 & Hu & _).
  destruct (wf_name _ _ _ Hwf k H0 Hu) as (s & Hs & Hst). pose proof (name_of st k s Hs Hst) as E.
  destruct Hst as [Hlen Hnul _].
  destruct (fs_find_child_spec st kids rank Hwf d s 0 Hd Hnul ltac:(lia)) as (j & Hj & Hc).
  rewrite app_nil_r in Hj. rewrite E, Hj. destruct Hc as [[_ Hno]|[Hjk Hjn]]; [by destruct (Hno k Hk)|].
  assert (j = k) as -> by (apply (wf_unique _ _ _ Hwf d); congruence).
  by destruct k.
Qed.

Lemma walk_up n l : up st n l -> (n = 0%nat \/ in_use st n) ->
  Forall (fun m => m <> 0%nat /\ in_use st m) l ->
  Forall (fun m => clean (fs_get_name st m)) l ->
  walk st 0 (names_of st l) = Some n.
Proof using Hwf.
  revert n. induction l as [|m l IH]; intros n Hu Hn Hf Hc; simpl in Hu; [by subst n|].
  destruct Hu as (-> & H0 & p & Hp & Hu). destruct Hn as [|Hn]; [done|].
  apply Forall_cons in Hf as [_ Hf]. apply Forall_cons in Hc as [Hcn Hc].
  destruct (wf_parent _ _ _ Hwf n H0 Hn) as (q & Hq & Hd & _). assert (q = p) as -> by congruence.
  unfold names_of in *. simpl. rewrite walk_app, (IH p) by (done || right; by apply dir_in_use).
  simpl. rewrite (walk_to_kid p n Hd); [done| |done]. by apply (wf_kids _ _ _ Hwf p n Hd).
Qed.
End tree.

(** ** Components of a built path *)

Lemma copy_token_name s rest room : nul_free s -> map to_lower_c s = s ->
  Forall (fun c => is_sep c = false) s -> (length s <= room)%nat ->
  (rest = [] \/ exists r, rest = ch "/" :: r) -> copy_token room (s ++ rest) = s.
Proof.
  intros Hs Hl Hsep. revert room Hl. induction Hs as [|c s Hc Hs IH]; intros room Hl Hlen Hrest.
  - simpl. destruct room; [done|]. simpl. destruct Hrest as [->|(r & ->)]; done.
  - destruct room as [|room]; simpl in Hlen; [lia|]. simpl. rewrite hd0_cons.
    apply Forall_cons in Hsep as [Hc' Hsep]. rewrite (proj2 (Z.eqb_neq c 0)), Hc' by done. simpl.
    simpl in Hl. injection Hl as Ec El. rewrite Ec. f_equal. by apply IH; try lia.
Qed.

Lemma skip_token_name s rest : nul_free s -> Forall (fun c => is_sep c = false) s ->
  (rest = [] \/ exists r, rest = ch "/" :: r) -> skip_token (s ++ rest) = rest.
Proof.
  intros Hs Hsep Hrest. induction Hs as [|c s Hc Hs IH]; simpl.
  - destruct Hrest as [->|(r & ->)]; done.
  - apply Forall_cons in Hsep as [Hc' Hsep]. rewrite (proj2 (Z.eqb_neq c 0)), Hc' by done. simpl.
    by apply IH.
Qed.

Lemma next_token_name s rest : name_text s -> Forall (fun c => is_sep c = false) s ->
  (rest = [] \/ exists r, rest = ch "/" :: r) -> fs_next_token (s ++ rest) = (true, s, rest).
Proof.
  intros [Hl Hn Hlow] Hsep Hrest. unfold fs_next_token.
  destruct s as [|c s]; [simpl in Hl; lia|]. pose proof Hsep as Hsep'. apply Forall_cons in Hsep' as [Hc _].
  pose proof Hn as Hn'. apply Forall_cons in Hn' as [Hc0 _].
  assert (E : skip_sep ((c :: s) ++ rest) = (c :: s) ++ rest) by (simpl; by rewrite Hc).
  rewrite E. change (hd0 ((c :: s) ++ rest)) with c. rewrite (proj2 (Z.eqb_neq c 0)) by done.
  rewrite copy_token_name, skip_token_name by (done || unfold RAMDISK_NAME_LEN; lia). done.
Qed.

Lemma components_join names : Forall (fun s => name_text s /\ clean s) names ->
  path_components (join names) = names.
Proof.
  induction 1 as [|s l [Hs Hc] Hl IH]; [done|]. unfold path_components in *.
  assert (Hlen : forall r, (length (s ++ r) >= S (length r))%nat).
  { intros r. rewrite length_app. destruct Hs. lia. }
  destruct l as [|t l].
  - cbn [join components]. pose proof (next_token_name s [] Hs (proj1 Hc) ltac:(by left)) as E.
    rewrite app_nil_r in E. rewrite E. by destruct (length s).
  - change (join (s :: t :: l)) with (s ++ ch "/" :: join (t :: l)).
    cbn [components]. rewrite next_token_name by (done || apply Hc || by right; eexists).
    f_equal. transitivity (components (S (length (join (t :: l)))) (join (t :: l))); [|exact IH].
    pose proof (Hlen (ch "/" :: join (t :: l))) as Hl1.
    rewrite (components_fuel _ (S (S (length (join (t :: l)))))) by (cbn [length] in *; lia).
    set (k := S (length (join (t :: l)))).
    rewrite (components_fuel k (S k) (join (t :: l))) by (subst k; lia). cbn [components].
    done.
Qed.

(** * Facts used by the properties *)

(** Looking up an entry by its own name finds it. *)
Lemma find_child_name st kids rank d k : wf st kids rank -> dir st d -> k ∈ kids d ->
  fs_find_child st d (fs_get_name st k) = Ok k.
Proof.
  intros Hwf Hd Hk. pose proof Hk as Hk'. apply (wf_kids _ _ _ Hwf d k Hd) in Hk' as (H0 & Hu & _).
  destruct (wf_name _ _ _ Hwf k H0 Hu) as (s & Hs & Hst). pose proof (name_of st k s Hs Hst) as E.
  destruct Hst as [Hlen Hnul _].
  destruct (fs_find_child_spec st kids rank Hwf d s 0 Hd Hnul ltac:(lia)) as (j & Hj & Hc).
  rewrite app_nil_r in Hj. rewrite E, Hj. f_equal.
  destruct Hc as [[_ Hno]|[Hjk Hjn]]; [by destruct (Hno k Hk)|].
  apply (wf_unique _ _ _ Hwf d); congruence.
Qed.

(** A name without entry is not found. *)
Lemma find_child_none st kids rank d t : wf st kids rank -> dir st d -> nul_free t ->
  (length t <= 11)%nat -> (forall k, k ∈ kids d -> fs_get_name st k <> t) ->
  fs_find_child st d t = Ok 0%nat.
Proof.
  intros Hwf Hd Hn Hl Hno.
  destruct (fs_find_child_spec st kids rank Hwf d t 0 Hd Hn Hl) as (j & Hj & Hc).
  rewrite app_nil_r in Hj. rewrite Hj. destruct Hc as [[-> _]|[Hk E]]; [done|by destruct (Hno j Hk)].
Qed.

(** What a call leaves alone: the node, its name, its parent and its bytes. *)
Definition untouched (st st' : fs) (k : nat) : Prop :=
  fs_node_type st' !! k = fs_node_type st !! k /\ fs_get_name st' k = fs_get_name st k /\
  fs_node_parent st' !! k = fs_node_parent st !! k /\ contents_of st' k = contents_of st k.

Lemma grown_untouched st n ty parent f s k : k <> n -> untouched st (grown st n ty parent f s) k.
Proof.
  intros H. unfold untouched, contents_of, fs_get_name.
  destruct (grown_old st n ty parent f s k H) as (-> & -> & -> & -> & ->). done.
Qed.

Lemma shrunk_untouched st n firsts nexts k : k <> n -> untouched st (shrunk st n firsts nexts) k.
Proof. intros H. unfold untouched. simpl. by rewrite list_lookup_insert_ne. Qed.

(** A small file system used as a concrete instance: /docs/a.txt. *)
Definition demo_fs : outcome fs :=
  '(st, _) ← fs_mkdir_child ramdisk_clear 0 (Some (bs "docs"));
  fst <$> fs_create_file st 1 (Some (bs "a.txt")).

Lemma demo_tables :
  (st ← demo_fs; Ok (fs_node_type st !! 1%nat, fs_node_type st !! 2%nat,
     fs_node_parent st !! 2%nat, fs_data_free st,
     drop 3 (fs_node_type st),
     fs_get_name st 1, fs_get_name st 2)) =
  Ok (Some FS_TYPE_DIR, Some FS_TYPE_FILE, Some 1%nat, 0, replicate 61 FS_TYPE_FREE, bs "docs", bs "a.txt").
Proof. vm_compute. reflexivity. Qed.

Lemma demo_wf : exists st kids rank, demo_fs = Ok st /\ wf st kids rank /\
  fs_node_parent st !! 2%nat = Some 1%nat /\ file st 2 /\
  (forall k, k <> 0%nat -> in_use st k -> clean (fs_get_name st k)) /\ fs_data_free st = 0.
Proof.
  pose proof demo_tables as Ht. unfold demo_fs in *.
  destruct (add_node_spec ramdisk_clear _ _ FS_TYPE_DIR 0 (bs "docs") clear_wf ltac:(done))
    as ([st1 r1] & E1 & H1).
  unfold fs_mkdir_child in *. rewrite E1 in *. cbn [mbind outcome_bind] in *.
  assert (Hw1 : exists kids rank, wf st1 kids rank).
  { destruct H1 as [(_ & -> & _)|(_ & _ & _ & n & f & _ & _ & _ & _ & _ & H)];
      [eexists _, _; apply clear_wf|by eexists _, _]. }
  destruct Hw1 as (kids1 & rank1 & Hw1). unfold fs_create_file in *.
  destruct (add_node_spec st1 kids1 rank1 FS_TYPE_FILE 1 (bs "a.txt") Hw1 ltac:(done))
    as ([st r] & E2 & H2).
  rewrite E2 in *. cbn [fmap outcome_fmap mbind outcome_bind fst] in *.
  assert (Hw : exists kids rank, wf st kids rank).
  { destruct H2 as [(_ & -> & _)|(_ & _ & _ & n & f & _ & _ & _ & _ & _ & H)]; by eexists _, _. }
  destruct Hw as (kids & rank & Hw). injection Ht as T1 T2 P2 F0 Fnd N1 N2.
  exists st, kids, rank. split; [done|]. split; [done|]. split; [done|]. split; [done|].
  split; [|done]. intros k H0 Hu. assert (Hk : k = 1%nat \/ k = 2%nat).
  { pose proof (in_use_lt _ _ _ Hw _ Hu) as Hlt. unfold RAMDISK_MAX_NODES in Hlt.
    destruct (decide (3 <= k)%nat); [|lia]. exfalso.
    destruct Hu as (t & Hty & Hnf). replace k with (3 + (k - 3))%nat in Hty by lia.
    rewrite <- lookup_drop, Fnd in Hty. apply Hnf.
    apply (lookup_replicate_1 61) in Hty. by destruct Hty. }
  destruct Hk as [-> | ->]; rewrite ?N1, ?N2; (split; [repeat constructor|done]).
Qed.

(** * Properties *)

(** C31: on a well-formed file system [fs_mkdir_child] and [fs_create_file]
    never fault and keep it well formed.  When they return true the new node
    is found under its parent by the name cut to 11 characters in lower case,
    is empty, and every other node is as before; when they return false
    nothing changes, and the parent is no directory, the name is empty, an
    entry has that name, or no node is free. *)
Theorem fs_create_correct st kids rank parent name (make_dir : bool) (Hwf : wf st kids rank) :
  exists st' r,
    (if make_dir then fs_mkdir_child else fs_create_file) st parent (Some name) = Ok (st', r) /\
    well_formed st' /\
    (r = true -> dir st parent /\ exists n, n <> 0%nat /\ ~ in_use st n /\
       fs_find_child st' parent (stored_text name) = Ok n /\
       (if make_dir then dir st' n else file st' n) /\ contents_of st' n = [] /\
       forall k, k <> n -> untouched st st' k) /\
    (r = false -> st' = st /\
       (~ dir st parent \/ stored_text name = [] \/
        fs_find_child st parent (stored_text name) <> Ok 0%nat \/
        (forall k, (0 < k < RAMDISK_MAX_NODES)%nat -> in_use st k))).
Proof.
  set (ty := if make_dir then FS_TYPE_DIR else FS_TYPE_FILE).
  assert (Hty : ty <> FS_TYPE_FREE) by (subst ty; by destruct make_dir).
  destruct (add_node_spec st kids rank ty parent name Hwf Hty) as ([st' r] & E & H).
  exists st', r. split; [subst ty; by destruct make_dir|].
  destruct H as [(-> & -> & Hwhy)|(-> & Hd & Hst & n & f & Hn & Hfree & Hno & Hf & -> & Hwf')].
  - split; [by exists kids, rank|]. split; [done|]. intros _. split; [done|].
    destruct Hwhy as [?|[?|[(k & Hk & <-)|?]]]; [by left|by right; left| |by right; right; right].
    destruct (fs_is_dir st parent) eqn:Hd.
    + apply fs_is_dir_spec in Hd. right; right; left. rewrite (find_child_name _ kids rank) by done.
      intros [= ->]. by apply (wf_kids _ _ _ Hwf parent 0%nat Hd) in Hk as [? _].
    + left. intros Hd'. apply fs_is_dir_spec in Hd'. congruence.
  - split; [by eexists _, _|]. split; [|done]. intros _. split; [done|]. exists n.
    assert (Hnu : ~ in_use st n) by (intros (t & Ht & Htf); congruence).
    pose proof (grow_get_name st kids rank Hwf n ty parent f (stored_text name) Hn Hfree Hty Hd Hf Hst Hno n) as Hname.
    rewrite decide_True in Hname by done.
    pose proof (wf_lengths _ _ _ Hwf) as Hlen. apply lookup_lt_Some in Hfree as Hlt.
    rewrite (len_type _ Hlen) in Hlt.
    split; [done|]. split; [done|]. split; [|split; [|split]].
    + rewrite <- Hname at 2. eapply find_child_name; [exact Hwf'| |].
      * eapply grow_dir; [exact Hwf|done..|by right].
      * unfold grown_kids. rewrite decide_True by done. left.
    + subst ty. unfold dir, file. simpl.
      destruct make_dir; rewrite list_lookup_insert_eq by (rewrite (len_type _ Hlen); lia); done.
    + unfold contents_of. simpl.
      rewrite !list_lookup_insert_eq by (rewrite ?(len_size _ Hlen), ?(len_off _ Hlen); lia). done.
    + intros k Hk. by apply grown_untouched.
Qed.

Lemma fs_create_correct_witness : exists st',
  fs_mkdir_child ramdisk_clear 0 (Some (bs "Documents-and-more")) = Ok (st', true) /\
  fs_find_child st' 0 (bs "documents-a") = Ok 1%nat.
Proof.
  destruct (fs_create_correct ramdisk_clear _ _ 0 (bs "Documents-and-more") true clear_wf)
    as (st' & r & E & _ & Ht & _).
  assert (Hr : (snd <$> fs_mkdir_child ramdisk_clear 0 (Some (bs "Documents-and-more"))) = Ok true)
    by (vm_compute; reflexivity).
  cbv iota in E. rewrite E in Hr. injection Hr as ->. exists st'. split; [exact E|].
  destruct (Ht eq_refl) as (_ & n & _ & _ & Hn & _). change (stored_text _) with (bs "documents-a") in Hn.
  assert (Hf : (p ← fs_mkdir_child ramdisk_clear 0 (Some (bs "Documents-and-more"));
                fs_find_child (fst p) 0 (bs "documents-a")) = Ok 1%nat) by (vm_compute; reflexivity).
  rewrite E in Hf. exact Hf.
Defined.

(** C9: a write of [size] bytes (fewer than 2147475456, beyond which a sum
    overflows) to a file of a well-formed file system succeeds exactly when the pool has room; then reading the file back gives
    the bytes written, cut to the reader's size, no other file's contents
    change, and the file system stays well formed. *)
Theorem fs_write_read_roundtrip st kids rank n data size m (Hwf : wf st kids rank)
    (Hfile : file st n) (Hsize : 0 <= size <= Z.of_nat (length data)) (Hmax : size < 2147475456)
    (Hm : 0 <= m) :
  (RAMDISK_DATA_CAP < fs_data_free st + size /\ fs_write st n (Some data) size = Ok (st, false)) \/
  (exists st', fs_write st n (Some data) size = Ok (st', true) /\ wf st' kids rank /\
     fs_read st' n m = Ok (take (Z.to_nat m) (take (Z.to_nat size) data), Z.min m size) /\
     forall k, k <> n -> file st k -> contents_of st' k = contents_of st k).
Proof.
  rewrite (fs_write_spec st kids rank) by done. rewrite (proj2 (fs_is_file_spec st n) Hfile).
  destruct (Z.leb_spec (fs_data_free st + size) RAMDISK_DATA_CAP) as [H|H]; [right|by left].
  assert (Hl : length (take (Z.to_nat size) data) = Z.to_nat size) by (rewrite length_take; lia).
  pose proof (written_wf st kids rank Hwf n (take (Z.to_nat size) data) Hfile ltac:(lia)) as Hwf'.
  eexists. split; [done|]. split; [done|]. split.
  - rewrite (fs_read_spec _ kids rank n m Hwf' Hm).
    assert (Hf' : fs_is_file (written st n (take (Z.to_nat size) data)) n = true)
      by by apply fs_is_file_spec.
    rewrite Hf'. rewrite (written_contents_same st kids rank Hwf n _ Hfile) by lia.
    do 2 f_equal. rewrite length_take, Hl. lia.
  - intros k Hk Hkf. apply (written_contents_other st kids rank Hwf n _ Hfile); done || lia.
Qed.

Lemma fs_write_read_roundtrip_witness : exists st st',
  demo_fs = Ok st /\ fs_write st 2 (Some (bs "hello")) 5 = Ok (st', true) /\
  fs_read st' 2 3 = Ok (bs "hel", 3).
Proof.
  destruct demo_wf as (st & kids & rank & E & Hwf & _ & Hf & _ & Hfree).
  destruct (fs_write_read_roundtrip st kids rank 2 (bs "hello") 5 3 Hwf Hf)
    as [[H _]|(st' & E' & _ & H & _)]; [simpl; lia|lia|lia| |].
  - rewrite Hfree in H. unfold RAMDISK_DATA_CAP in H. lia.
  - exists st, st'. split; [exact E|]. split; [exact E'|]. exact H.
Defined.

(** C32: on a well-formed file system [fs_resolve_checked] ends on every path
    without leaving the tables, and its result is the walk along the path's
    components from the root or the working directory: each component is an
    entry, [.] stays, [..] goes to the parent, and the root is its own
    parent; it returns false exactly when a component has no entry. *)
Theorem fs_resolve_total st kids rank path (Hwf : wf st kids rank) :
  fs_resolve_checked st (Some path) =
    Ok (walk st (fst (path_start st path)) (path_components (snd (path_start st path)))).
Proof. exact (fs_resolve_checked_spec st kids rank Hwf path). Qed.

Lemma fs_resolve_total_witness : exists st, demo_fs = Ok st /\
  fs_resolve_checked st (Some (bs "/docs/../docs//./a.txt")) = Ok (Some 2%nat).
Proof.
  destruct demo_wf as (st & kids & rank & E & Hwf & _). exists st. split; [exact E|].
  rewrite (fs_resolve_total st kids rank (bs "/docs/../docs//./a.txt") Hwf).
  change (Ok (walk st (fst (path_start st (bs "/docs/../docs//./a.txt")))
    (path_components (snd (path_start st (bs "/docs/../docs//./a.txt"))))))
    with ((fun s => Ok (walk s 0 (path_components (bs "docs/../docs//./a.txt")))) st).
  assert (H : (s ← demo_fs; Ok (walk s 0 (path_components (bs "docs/../docs//./a.txt")))) = Ok (Some 2%nat))
    by (vm_compute; reflexivity).
  rewrite E in H. exact H.
Defined.

(** C33: [fs_build_path] and [fs_resolve] are inverse: every node in use has
    its path, the nodes from itself up to the root without it, whose names,
    the root's entry first, [fs_build_path] writes behind a slash each; a
    buffer that is too small gets the beginning, NUL-terminated in bounds. If the
    names on that path contain no separator and are not dot entries, the path
    resolves back to the node, whatever the other nodes are called. *)
Theorem fs_path_roundtrip st kids rank n bsz (Hwf : wf st kids rank) (Hn : in_use st n)
    (Hb : (0 < bsz)%nat) : exists l, up st n l /\
  let path := ch "/" :: join (names_of st l) in
  fs_build_path st n bsz = Ok (Some (take (bsz - 1) path)) /\
  (Forall (fun k => clean (fs_get_name st k)) l -> fs_resolve st (Some path) = Ok n).
Proof.
  destruct (fs_build_path_spec st kids rank Hwf n bsz Hn Hb) as (l & Hu & Hf & E).
  exists l. split; [done|]. intros path. split; [done|]. intros Hcl. unfold fs_resolve.
  rewrite (fs_resolve_checked_spec st kids rank Hwf). unfold path_start.
  change (hd0 path =? ch "/") with true. cbn [fst snd]. change (tl0 path) with (join (names_of st l)).
  rewrite components_join; [by rewrite (walk_up st kids rank Hwf n l Hu (or_intror Hn) Hf Hcl)|].
  unfold names_of. apply Forall_rev, List.Forall_map. rewrite Forall_forall in Hcl, Hf |- *. intros m Hm.
  destruct (Hf m Hm) as [H0 Hmu]. split; [|by apply Hcl].
  destruct (wf_name _ _ _ Hwf m H0 Hmu) as (s & Hs & Hst). by rewrite (name_of st m s Hs Hst).
Qed.

Lemma fs_path_roundtrip_witness : exists st l, demo_fs = Ok st /\ up st 2 l /\
  fs_build_path st 2 128 = Ok (Some (take 127 (ch "/" :: join (names_of st l)))) /\
  fs_resolve st (Some (ch "/" :: join (names_of st l))) = Ok 2%nat.
Proof.
  destruct demo_wf as (st & kids & rank & E & Hwf & Hdir & Hf & Hcl & _).
  destruct (fs_path_roundtrip st kids rank 2 128 Hwf (file_in_use _ _ Hf) ltac:(lia)) as (l & H1 & H2 & H3).
  exists st, l. split; [exact E|]. split; [exact H1|]. split; [exact H2|]. apply H3.
  eapply Forall_impl; [exact (up_in_use st kids rank Hwf l 2 H1 (or_intror (file_in_use _ _ Hf)))|].
  intros k [H0 Hk]. by apply Hcl.
Defined.

(** C10: deleting a node below a directory other than the root succeeds unless
    the node is a directory with entries, keeps the file system well formed,
    makes the node's name unknown in its directory, and leaves every other
    node, and every other entry of the directory, as it was. *)
Theorem fs_delete_correct st kids rank n p (Hwf : wf st kids rank) (Hn : n <> 0%nat)
    (Hu : in_use st n) (Hp : fs_node_parent st !! n = Some p) (Hroot : p <> 0%nat) :
  (dir st n /\ kids n <> [] /\ fs_delete st n = Ok (st, false)) \/
  (exists st', fs_delete st n = Ok (st', true) /\ well_formed st' /\ ~ in_use st' n /\
     fs_find_child st' p (fs_get_name st n) = Ok 0%nat /\
     (forall k, k ∈ kids p -> k <> n -> fs_find_child st' p (fs_get_name st k) = Ok k) /\
     forall k, k <> n -> untouched st st' k).
Proof.
  destruct (fs_delete_spec st kids rank n Hwf Hu) as ([st' r] & E & H); [congruence|].
  destruct H as [(-> & -> & [->|[Hd Hk]])|(-> & _ & Hemp & (fi & nx & ->) & Hwf')];
    [done|by left|right].
  exists (shrunk st n fi nx). split; [done|]. split; [by eexists _, _|].
  assert (Hnu : ~ in_use (shrunk st n fi nx) n).
  { intros (t & Ht & Hf). simpl in Ht. rewrite list_lookup_insert_eq in Ht; [congruence|].
    rewrite (len_type _ (wf_lengths _ _ _ Hwf)). exact (in_use_lt _ _ _ Hwf _ Hu). }
  destruct (wf_parent _ _ _ Hwf n Hn Hu) as (q & Hq & Hd & Hr). assert (q = p) as -> by congruence.
  assert (Hpn : p <> n) by (intros ->; lia).
  assert (Hd' : dir (shrunk st n fi nx) p).
  { unfold dir. simpl. by rewrite list_lookup_insert_ne. }
  assert (Hname : forall k, fs_get_name (shrunk st n fi nx) k = fs_get_name st k) by done.
  assert (Hin : n ∈ kids p) by by apply (wf_kids _ _ _ Hwf p n Hd).
  split; [done|]. split; [|split].
  - destruct (wf_name _ _ _ Hwf n Hn Hu) as (s & Hs & Hst). rewrite (name_of st n s Hs Hst).
    pose proof Hst as [Hl Hnul _]. apply (find_child_none _ _ _ _ _ Hwf' Hd' Hnul); [lia|].
    intros k Hk. unfold shrunk_kids in Hk. apply elem_of_others in Hk as [Hk Hne].
    rewrite Hname. intros Ek. apply Hne. apply (wf_unique _ _ _ Hwf p); [done..|].
    rewrite Ek. symmetry. by apply name_of.
  - intros k Hk Hne. rewrite <- Hname. apply (find_child_name _ _ _ _ _ Hwf' Hd').
    unfold shrunk_kids. by apply elem_of_others.
  - intros k Hk. by apply shrunk_untouched.
Qed.

Lemma fs_delete_correct_witness : exists st st', demo_fs = Ok st /\
  fs_delete st 2 = Ok (st', true) /\ fs_find_child st' 1 (fs_get_name st 2) = Ok 0%nat.
Proof.
  destruct demo_wf as (st & kids & rank & E & Hwf & Hpar & Hf & _).
  destruct (fs_delete_correct st kids rank 2 1 Hwf ltac:(done) (file_in_use _ _ Hf) Hpar ltac:(done))
    as [(Hd & _)|(st' & E' & _ & _ & H & _)].
  - unfold dir, file in *. congruence.
  - by exists st, st'.
Defined.
