(* ===== verification/RamdiskInit.v ===== *)
(** The boot contents of the RAM disk, src/src/lib/ramdisk.c ([ramdisk_init]
    and the demo files it seeds). *)
From Stdlib Require Import ZArith Lia Ascii String.
From stdpp Require Import base tactics option numbers list list_numbers.
From S2P Require Import Prelude Buffer CString Ramdisk RamdiskInv RamdiskPath.
#[local] Open Scope Z_scope.

Definition ramdisk_write_demo_file (st : fs) (parent : nat) (name : list Z) (data : list Z)
    (size : Z) : outcome fs :=
  '(st, ok) ← fs_create_file st parent (Some name);
  if negb ok then Ok st
  else
    node ← fs_resolve st (Some name);
    node ← (if negb (parent =? 0)%nat then
              path ← fs_build_path st parent (RAMDISK_NAME_LEN * 2);
              let path := default (bs "/") path in
              if (strlen path + 1 + strlen name + 1 <? RAMDISK_NAME_LEN * 2)%nat then
                let path := if negb (strcmp path (bs "/") =? 0) then path ++ bs "/" else path in
                fs_resolve st (Some (path ++ name))
              else Ok node
            else Ok node);
    if negb (node =? 0)%nat then fst <$> fs_write st node (Some data) size else Ok st.

Definition ppm_header : list Z := bs "P6" ++ [10] ++ bs "32 24" ++ [10] ++ bs "255" ++ [10].

Definition ppm_pixel (x y : Z) : list Z :=
  if (9 <? x) && (x <? 22) && (7 <? y) && (y <? 18) then [245; 244; 232]
  else [u8 (40 + x * 5); u8 (110 + y * 4); u8 (160 + (x + y) * 2)].

Definition ppm_demo : list Z :=
  ppm_header ++
  concat (map (fun y => concat (map (fun x => ppm_pixel x y) (seqZ 0 32))) (seqZ 0 24)).

Definition ramdisk_seed_ppm_demo (st : fs) (parent : nat) (name : list Z) : outcome fs :=
  ramdisk_write_demo_file st parent name ppm_demo (Z.of_nat (length ppm_demo)).

Definition hjar : list Z :=
  [72; 74; 65; 82; 1; 252; 25; 72; 101; 97; 116; 79; 83; 32; 74; 65; 82; 32;
   100; 101; 109; 111; 32; 115; 116; 97; 114; 116; 101; 100; 10; 252; 18; 82; 117; 110;
   110; 105; 110; 103; 32; 102; 114; 111; 109; 32; 47; 106; 97; 118; 97; 252; 1; 10;
   16; 7; 16; 5; 96; 252; 8; 55; 32; 43; 32; 53; 32; 61; 32; 254; 177].

Definition ramdisk_seed_java_demo (st : fs) (parent : nat) (name : list Z) : outcome fs :=
  ramdisk_write_demo_file st parent name hjar (Z.of_nat (length hjar)).

Definition zipjar : list Z :=
  [80; 75; 3; 4; 20; 0; 0; 0; 0; 0; 0; 0; 0; 0; 0; 0; 0; 0;
   15; 0; 0; 0; 15; 0; 0; 0; 9; 0; 0; 0; 104; 101; 108; 108; 111; 46;
   116; 120; 116; 104; 101; 108; 108; 111; 32; 102; 114; 111; 109; 32; 106; 97; 114; 10;
   80; 75; 1; 2; 20; 0; 20; 0; 0; 0; 0; 0; 0; 0; 0; 0; 0; 0;
   0; 0; 15; 0; 0; 0; 15; 0; 0; 0; 9; 0; 0; 0; 0; 0; 0; 0;
   0; 0; 0; 0; 0; 0; 0; 0; 0; 0; 104; 101; 108; 108; 111; 46; 116; 120;
   116; 80; 75; 5; 6; 0; 0; 0; 0; 1; 0; 1; 0; 55; 0; 0; 0; 54;
   0; 0; 0; 0; 0].

Definition ramdisk_seed_zip_jar_demo (st : fs) (parent : nat) (name : list Z) : outcome fs :=
  ramdisk_write_demo_file st parent name zipjar (Z.of_nat (length zipjar)).

Definition tinyjvm_hello_class : list Z :=
  [202; 254; 186; 190; 0; 0; 0; 52; 0; 29; 1; 0; 5; 72; 101; 108; 108; 111;
   7; 0; 1; 1; 0; 16; 106; 97; 118; 97; 47; 108; 97; 110; 103; 47; 79; 98;
   106; 101; 99; 116; 7; 0; 3; 1; 0; 6; 60; 105; 110; 105; 116; 62; 1; 0;
   3; 40; 41; 86; 12; 0; 5; 0; 6; 10; 0; 4; 0; 7; 1; 0; 16; 106;
   97; 118; 97; 47; 108; 97; 110; 103; 47; 83; 121; 115; 116; 101; 109; 7; 0; 9;
   1; 0; 3; 111; 117; 116; 1; 0; 21; 76; 106; 97; 118; 97; 47; 105; 111; 47;
   80; 114; 105; 110; 116; 83; 116; 114; 101; 97; 109; 59; 12; 0; 11; 0; 12; 9;
   0; 10; 0; 13; 1; 0; 19; 106; 97; 118; 97; 47; 105; 111; 47; 80; 114; 105;
   110; 116; 83; 116; 114; 101; 97; 109; 7; 0; 15; 1; 0; 7; 112; 114; 105; 110;
   116; 108; 110; 1; 0; 21; 40; 76; 106; 97; 118; 97; 47; 108; 97; 110; 103; 47;
   83; 116; 114; 105; 110; 103; 59; 41; 86; 12; 0; 17; 0; 18; 10; 0; 16; 0;
   19; 1; 0; 18; 72; 101; 108; 108; 111; 32; 102; 114; 111; 109; 32; 84; 105; 110;
   121; 74; 86; 77; 8; 0; 21; 1; 0; 4; 40; 73; 41; 86; 12; 0; 17; 0;
   23; 10; 0; 16; 0; 24; 1; 0; 4; 67; 111; 100; 101; 1; 0; 4; 109; 97;
   105; 110; 1; 0; 22; 40; 91; 76; 106; 97; 118; 97; 47; 108; 97; 110; 103; 47;
   83; 116; 114; 105; 110; 103; 59; 41; 86; 0; 33; 0; 2; 0; 4; 0; 0; 0;
   0; 0; 1; 0; 9; 0; 27; 0; 28; 0; 1; 0; 26; 0; 0; 0; 29; 0;
   2; 0; 1; 0; 0; 0; 17; 178; 0; 14; 18; 22; 182; 0; 20; 178; 0; 14;
   16; 12; 182; 0; 25; 177; 0; 0; 0; 0; 0; 0].

Definition ramdisk_seed_class_demo (st : fs) (parent : nat) (name : list Z) : outcome fs :=
  ramdisk_write_demo_file st parent name tinyjvm_hello_class (Z.of_nat (length tinyjvm_hello_class)).

Definition tinyjvm_hello_jar : list Z :=
  [80; 75; 3; 4; 20; 0; 0; 0; 0; 0; 92; 156; 114; 92; 73; 89; 133; 142;
   44; 0; 0; 0; 44; 0; 0; 0; 20; 0; 0; 0; 77; 69; 84; 65; 45; 73;
   78; 70; 47; 77; 65; 78; 73; 70; 69; 83; 84; 46; 77; 70; 77; 97; 110; 105;
   102; 101; 115; 116; 45; 86; 101; 114; 115; 105; 111; 110; 58; 32; 49; 46; 48; 13;
   10; 77; 97; 105; 110; 45; 67; 108; 97; 115; 115; 58; 32; 72; 101; 108; 108; 111;
   13; 10; 13; 10; 80; 75; 3; 4; 20; 0; 0; 0; 0; 0; 92; 156; 114; 92;
   205; 6; 82; 122; 80; 1; 0; 0; 80; 1; 0; 0; 11; 0; 0; 0; 72; 101;
   108; 108; 111; 46; 99; 108; 97; 115; 115; 202; 254; 186; 190; 0; 0; 0; 52; 0;
   29; 1; 0; 5; 72; 101; 108; 108; 111; 7; 0; 1; 1; 0; 16; 106; 97; 118;
   97; 47; 108; 97; 110; 103; 47; 79; 98; 106; 101; 99; 116; 7; 0; 3; 1; 0;
   6; 60; 105; 110; 105; 116; 62; 1; 0; 3; 40; 41; 86; 12; 0; 5; 0; 6;
   10; 0; 4; 0; 7; 1; 0; 16; 106; 97; 118; 97; 47; 108; 97; 110; 103; 47;
   83; 121; 115; 116; 101; 109; 7; 0; 9; 1; 0; 3; 111; 117; 116; 1; 0; 21;
   76; 106; 97; 118; 97; 47; 105; 111; 47; 80; 114; 105; 110; 116; 83; 116; 114; 101;
   97; 109; 59; 12; 0; 11; 0; 12; 9; 0; 10; 0; 13; 1; 0; 19; 106; 97;
   118; 97; 47; 105; 111; 47; 80; 114; 105; 110; 116; 83; 116; 114; 101; 97; 109; 7;
   0; 15; 1; 0; 7; 112; 114; 105; 110; 116; 108; 110; 1; 0; 21; 40; 76; 106;
   97; 118; 97; 47; 108; 97; 110; 103; 47; 83; 116; 114; 105; 110; 103; 59; 41; 86;
   12; 0; 17; 0; 18; 10; 0; 16; 0; 19; 1; 0; 18; 72; 101; 108; 108; 111;
   32; 102; 114; 111; 109; 32; 84; 105; 110; 121; 74; 86; 77; 8; 0; 21; 1; 0;
   4; 40; 73; 41; 86; 12; 0; 17; 0; 23; 10; 0; 16; 0; 24; 1; 0; 4;
   67; 111; 100; 101; 1; 0; 4; 109; 97; 105; 110; 1; 0; 22; 40; 91; 76; 106;
   97; 118; 97; 47; 108; 97; 110; 103; 47; 83; 116; 114; 105; 110; 103; 59; 41; 86;
   0; 33; 0; 2; 0; 4; 0; 0; 0; 0; 0; 1; 0; 9; 0; 27; 0; 28;
   0; 1; 0; 26; 0; 0; 0; 29; 0; 2; 0; 1; 0; 0; 0; 17; 178; 0;
   14; 18; 22; 182; 0; 20; 178; 0; 14; 16; 12; 182; 0; 25; 177; 0; 0; 0;
   0; 0; 0; 80; 75; 1; 2; 20; 0; 20; 0; 0; 0; 0; 0; 92; 156; 114;
   92; 73; 89; 133; 142; 44; 0; 0; 0; 44; 0; 0; 0; 20; 0; 0; 0; 0;
   0; 0; 0; 0; 0; 0; 0; 128; 1; 0; 0; 0; 0; 77; 69; 84; 65; 45;
   73; 78; 70; 47; 77; 65; 78; 73; 70; 69; 83; 84; 46; 77; 70; 80; 75; 1;
   2; 20; 0; 20; 0; 0; 0; 0; 0; 92; 156; 114; 92; 205; 6; 82; 122; 80;
   1; 0; 0; 80; 1; 0; 0; 11; 0; 0; 0; 0; 0; 0; 0; 0; 0; 0;
   0; 128; 1; 94; 0; 0; 0; 72; 101; 108; 108; 111; 46; 99; 108; 97; 115; 115;
   80; 75; 5; 6; 0; 0; 0; 0; 2; 0; 2; 0; 123; 0; 0; 0; 215; 1;
   0; 0; 0; 0].

Definition ramdisk_seed_tinyjvm_jar_demo (st : fs) (parent : nat) (name : list Z) : outcome fs :=
  ramdisk_write_demo_file st parent name tinyjvm_hello_jar (Z.of_nat (length tinyjvm_hello_jar)).

Definition demo_text : list Z :=
  bs "HeatOS demo files" ++ [10] ++
  bs "- sample.ppm : image preview test" ++ [10] ++
  bs "- tinyjvm.jar: TinyJVM runnable jar demo" ++ [10] ++
  bs "- hello.class: TinyJVM direct class demo" ++ [10] ++
  bs "- hello.jar  : HeatOS mini-Java archive (HJAR)" ++ [10] ++
  bs "- sample.jar : ZIP/JAR parsing demo" ++ [10].

Definition ramdisk_seed_text_demo (st : fs) (parent : nat) (name : list Z) : outcome fs :=
  ramdisk_write_demo_file st parent name demo_text (Z.of_nat (length demo_text)).

Definition ramdisk_seed_demo_files (st : fs) : outcome fs :=
  home ← fs_resolve st (Some (bs "/home"));
  java ← fs_resolve st (Some (bs "/java"));
  st ← (if negb (home =? 0)%nat then
          st ← ramdisk_seed_ppm_demo st home (bs "sample.ppm");
          ramdisk_seed_text_demo st home (bs "readme.txt")
        else Ok st);
  if negb (java =? 0)%nat then
    st ← ramdisk_seed_tinyjvm_jar_demo st java (bs "tinyjvm.jar");
    st ← ramdisk_seed_class_demo st java (bs "hello.class");
    st ← ramdisk_seed_java_demo st java (bs "hello.jar");
    ramdisk_seed_zip_jar_demo st java (bs "sample.jar")
  else Ok st.

Definition mkdirs (st : fs) (parent : nat) (names : list (list Z)) : outcome fs :=
  foldl (fun o nm => st ← o; fst <$> fs_mkdir_child st parent (Some nm)) (Ok st) names.

Definition ramdisk_init : outcome fs :=
  st ← mkdirs ramdisk_clear 0 [bs "apps"; bs "docs"; bs "home"; bs "java"; bs "plasma"; bs "system"];
  plasma_root ← fs_resolve st (Some (bs "/plasma"));
  st ← (if negb (plasma_root =? 0)%nat
        then mkdirs st plasma_root [bs "apps"; bs "config"; bs "session"] else Ok st);
  ramdisk_seed_demo_files st.

(** * The boot sequence keeps the invariant *)

Lemma create_well_formed st ty parent name : well_formed st -> ty <> FS_TYPE_FREE ->
  succeeds (add_node st ty parent (Some name)) (fun '(st', r) =>
    well_formed st' /\ (r = true -> dir st' parent)).
Proof.
  intros (kids & rank & Hwf) Hty. eapply succeeds_mono; [by apply (add_node_spec st kids rank)|].
  intros [st' r] [(-> & -> & _)|(-> & Hd & Hst & n & f & Hn & Hfree & Hno & Hf & -> & Hwf')].
  - split; [by exists kids, rank|done].
  - split; [by eexists _, _|]. intros _.
    apply (grow_dir st kids rank Hwf n ty parent f (stored_text name)); try done. by right.
Qed.

Lemma mkdirs_ok names : forall st parent, well_formed st -> succeeds (mkdirs st parent names) well_formed.
Proof.
  unfold mkdirs. induction names as [|nm l IH]; intros st parent H; cbn [foldl]; [by apply succeeds_ret|].
  destruct (create_well_formed st FS_TYPE_DIR parent nm H) as ([st' r] & E & H' & _); [done|].
  assert (E' : fs_mkdir_child st parent (Some nm) = Ok (st', r)) by exact E.
  cbn [mbind outcome_bind]. rewrite E'. by apply IH.
Qed.

Lemma resolve_ok st path : well_formed st -> exists n, fs_resolve st (Some path) = Ok n.
Proof.
  intros (kids & rank & Hwf). unfold fs_resolve.
  rewrite (fs_resolve_checked_spec st kids rank Hwf). by eexists.
Qed.

Lemma write_demo_file_ok st parent name data : well_formed st -> Z.of_nat (length data) < 8192 ->
  succeeds (ramdisk_write_demo_file st parent name data (Z.of_nat (length data))) well_formed.
Proof.
  intros H Hd. unfold ramdisk_write_demo_file, fs_create_file.
  destruct (create_well_formed st FS_TYPE_FILE parent name H) as ([st' r] & -> & H' & Hpar); [done|].
  cbn [mbind outcome_bind]. destruct r; cbn [negb]; [|by apply succeeds_ret].
  destruct (resolve_ok st' name H') as (node & ->). cbn [mbind outcome_bind].
  eapply (succeeds_bind _ _ (fun _ => True)).
  { destruct (negb (parent =? 0)%nat); [|by apply succeeds_ret]. pose proof H' as (kids & rank & Hwf).
    destruct (fs_build_path_spec st' kids rank Hwf parent (RAMDISK_NAME_LEN * 2)) as (l & _ & _ & ->);
      [by apply dir_in_use, Hpar|unfold RAMDISK_NAME_LEN; lia|]. cbn [mbind outcome_bind].
    case_match; [|by apply succeeds_ret].
    match goal with |- succeeds (fs_resolve _ (Some ?p)) _ => destruct (resolve_ok st' p H') as (k & ->) end.
    by apply succeeds_ret. }
  intros node' _.
  destruct (negb (node' =? 0)%nat); [|by apply succeeds_ret].
  pose proof H' as (kids & rank & Hwf). rewrite (fs_write_spec st' kids rank) by (done || lia).
  cbn [fmap outcome_fmap]. apply succeeds_ret. rewrite Nat2Z.id, firstn_all.
  destruct (fs_is_file st' node' && _) eqn:E; [|done]. apply andb_true_iff in E as [E1 E2].
  exists kids, rank. apply written_wf; [done|by apply fs_is_file_spec|lia].
Qed.

Lemma ramdisk_init_wf : succeeds ramdisk_init well_formed.
Proof.
  unfold ramdisk_init. eapply succeeds_bind; [apply mkdirs_ok; eexists _, _; apply clear_wf|].
  intros st H. destruct (resolve_ok st (bs "/plasma") H) as (n & ->). cbn [mbind outcome_bind].
  eapply (succeeds_bind _ _ well_formed).
  { destruct (negb (n =? 0)%nat); [by apply mkdirs_ok|by apply succeeds_ret]. }
  clear st H n. intros st H. unfold ramdisk_seed_demo_files.
  destruct (resolve_ok st (bs "/home") H) as (home & ->).
  destruct (resolve_ok st (bs "/java") H) as (java & ->). cbn [mbind outcome_bind].
  eapply (succeeds_bind _ _ well_formed).
  { destruct (negb (home =? 0)%nat); [|by apply succeeds_ret].
    eapply succeeds_bind; [by apply write_demo_file_ok|]. intros. by apply write_demo_file_ok. }
  clear st H. intros st H. destruct (negb (java =? 0)%nat); [|by apply succeeds_ret].
  eapply succeeds_bind; [by apply write_demo_file_ok|]. clear st H. intros st H.
  eapply succeeds_bind; [by apply write_demo_file_ok|]. clear st H. intros st H.
  eapply succeeds_bind; [by apply write_demo_file_ok|]. clear st H. intros st H.
  by apply write_demo_file_ok.
Qed.

(** The files [ramdisk_init] seeds. *)
Definition seeded : list (list Z * list Z) :=
  [(bs "/home/sample.ppm", ppm_demo); (bs "/home/readme.txt", demo_text);
   (bs "/java/tinyjvm.jar", tinyjvm_hello_jar); (bs "/java/hello.class", tinyjvm_hello_class);
   (bs "/java/hello.jar", hjar); (bs "/java/sample.jar", zipjar)].

(** Reads a whole file by path. *)
Definition read_path (st : fs) (path : list Z) : outcome (list Z * Z) :=
  n ← fs_resolve st (Some path); fs_read st n RAMDISK_DATA_CAP.

Lemma seeded_contents :
  (st ← ramdisk_init; Ok (map (fun f => read_path st (fst f)) seeded)) =
  Ok (map (fun f => Ok (snd f, Z.of_nat (length (snd f)))) seeded).
Proof. vm_compute. reflexivity. Qed.

(** Deleting /system and creating /tmp, then one turn of the lookup loop. *)
Lemma root_delete_run :
  (st0 ← ramdisk_init;
   n ← fs_resolve st0 (Some (bs "/system"));
   '(st1, r1) ← fs_delete st0 n;
   '(st2, r2) ← fs_mkdir_child st1 0 (Some (bs "tmp"));
   Ok (n, r1, r2, fs_node_first_child st2 !! 0%nat, find_child_body st2 (bs "nosuch") 6)) =
  Ok (6%nat, true, true, Some 6%nat, Ok (inl 6%nat)).
Proof. vm_compute. reflexivity. Qed.

(** * Properties *)

(** C34: [ramdisk_init] succeeds and leaves a well-formed file system in which
    each of the six demo files, read by its path, has exactly its seeded
    bytes. *)
Theorem ramdisk_init_correct : exists st, ramdisk_init = Ok st /\ well_formed st /\
  Forall (fun f => read_path st (fst f) = Ok (snd f, Z.of_nat (length (snd f)))) seeded.
Proof.
  destruct ramdisk_init_wf as (st & E & Hwf). exists st. split; [done|]. split; [done|].
  pose proof seeded_contents as H. rewrite E in H. cbn [mbind outcome_bind] in H.
  apply (map_eq_Forall (fun f => read_path st (fst f))). exact (Ok_inj _ _ H).
Qed.

(** C35: [fs_delete] does not unlink children of the root directory: on the
    boot file system, deleting the empty directory /system and creating /tmp
    makes the new node its own sibling, and from then on looking up a name
    that is not there never ends, whatever the number of turns. *)
Theorem fs_delete_root_child_cycle : exists st0 n st1 st2,
  ramdisk_init = Ok st0 /\ fs_resolve st0 (Some (bs "/system")) = Ok n /\
  fs_delete st0 n = Ok (st1, true) /\ fs_mkdir_child st1 0 (Some (bs "tmp")) = Ok (st2, true) /\
  (forall fuel, fs_find_child_fuel fuel st2 0 (bs "nosuch") = Stuck NoFuel).
Proof.
  pose proof root_delete_run as H.
  destruct ramdisk_init as [st0|]; [|done]. cbn [mbind outcome_bind] in H.
  destruct (fs_resolve st0 _) as [n|] eqn:E1; [|done]. cbn [mbind outcome_bind] in H.
  destruct (fs_delete st0 n) as [[st1 r1]|] eqn:E2; [|done]. cbn [mbind outcome_bind] in H.
  destruct (fs_mkdir_child st1 0 _) as [[st2 r2]|] eqn:E3; [|done]. cbn [mbind outcome_bind] in H.
  injection H as -> -> -> Hf Hb. exists st0, 6%nat, st1, st2.
  split; [done|]. split; [done|]. split; [done|]. split; [done|]. intros fuel.
  unfold fs_find_child_fuel. rewrite (get_ok _ _ _ Hf). cbn [mbind outcome_bind].
  apply (cloop_diverges _ (fun k => k = 6%nat)); [|done]. intros k ->. by exists 6%nat.
Qed.
