(* ===== verification/Calc.v ===== *)
(** The calculator, src/src/commands/calc.c: a recursive-descent evaluator.

    The two globals [g_pos] (the input that is left) and [g_err] are the state.
    The parser's recursion takes fuel, one unit per call; [int32_t] overflow
    wraps, division by zero of the hardware instruction is a trap. *)
From Stdlib Require Import ZArith Lia Ascii String.
From stdpp Require Import base tactics option numbers list.
From S2P Require Import Prelude CString.
#[local] Open Scope Z_scope.

Record calc := Calc { g_pos : list Z; g_err : bool }.

Fixpoint skip_blank (p : list Z) : list Z :=
  match p with
  | [] => []
  | c :: p' => if (c =? ch " ") || (c =? 9) then skip_blank p' else p
  end.

Definition skip_ws (st : calc) : calc := Calc (skip_blank (g_pos st)) (g_err st).
Definition advance (st : calc) : calc := Calc (tl0 (g_pos st)) (g_err st).
Definition set_err (st : calc) : calc := Calc (g_pos st) true.
Definition peek (st : calc) : Z := hd0 (g_pos st).

Definition is_digit (c : Z) : bool := (ch "0" <=? c) && (c <=? ch "9").

(** The digit loop: the value, whether there was a digit, the input left. *)
Fixpoint digits (p : list Z) (v : Z) (had : bool) : Z * bool * list Z :=
  match p with
  | c :: p' => if is_digit c then digits p' (i32 (i32 (v * 10) + (c - ch "0"))) true else (v, had, p)
  | [] => (v, had, p)
  end.

(** [v / d] of two [int32_t], [d] not 0: the CPU traps on INT_MIN / -1. *)
Definition div32 (v d : Z) : outcome Z :=
  if (v =? -2147483648) && (d =? -1) then Stuck Trap else Ok (Z.quot v d).

Fixpoint parse_factor (fuel : nat) (st : calc) : outcome (Z * calc) :=
  match fuel with
  | O => Stuck NoFuel
  | S n =>
    let st := skip_ws st in
    if peek st =? ch "(" then
      '(v, st) ← parse_expr n (advance st);
      let st := skip_ws st in
      Ok (v, if peek st =? ch ")" then advance st else st)
    else if peek st =? ch "-" then
      '(v, st) ← parse_factor n (advance st); Ok (i32 (- v), st)
    else
      let '(v, had, p) := digits (g_pos st) 0 false in
      Ok (v, Calc p (if negb had then true else g_err st))
  end
with parse_term (fuel : nat) (st : calc) : outcome (Z * calc) :=
  match fuel with
  | O => Stuck NoFuel
  | S n => '(v, st) ← parse_factor n st; term_loop n v st
  end
with term_loop (fuel : nat) (v : Z) (st : calc) : outcome (Z * calc) :=
  match fuel with
  | O => Stuck NoFuel
  | S n =>
    let st := skip_ws st in
    if peek st =? ch "*" then
      '(d, st) ← parse_factor n (advance st); term_loop n (i32 (v * d)) st
    else if peek st =? ch "/" then
      '(d, st) ← parse_factor n (advance st);
      if d =? 0 then Ok (0, set_err st)
      else v ← div32 v d; term_loop n v st
    else Ok (v, st)
  end
with parse_expr (fuel : nat) (st : calc) : outcome (Z * calc) :=
  match fuel with
  | O => Stuck NoFuel
  | S n => '(v, st) ← parse_term n st; expr_loop n v st
  end
with expr_loop (fuel : nat) (v : Z) (st : calc) : outcome (Z * calc) :=
  match fuel with
  | O => Stuck NoFuel
  | S n =>
    let st := skip_ws st in
    if peek st =? ch "+" then
      '(d, st) ← parse_term n (advance st); expr_loop n (i32 (v + d)) st
    else if peek st =? ch "-" then
      '(d, st) ← parse_term n (advance st); expr_loop n (i32 (v - d)) st
    else Ok (v, st)
  end.

(** Enough fuel for an input of [len] characters. *)
Definition calc_fuel (len : nat) : nat := 4 * len + 3.

(** The text the command prints. *)
Definition cmd_calc (args : option (list Z)) : outcome (list Z) :=
  match args with
  | None => Ok (bs "Usage: calc <expression>" ++ [10] ++ bs "  e.g.  calc 2 + 3 * 4" ++ [10])
  | Some a =>
    if hd0 a =? 0 then
      Ok (bs "Usage: calc <expression>" ++ [10] ++ bs "  e.g.  calc 2 + 3 * 4" ++ [10])
    else
      '(result, st) ← parse_expr (calc_fuel (length a)) (Calc a false);
      if g_err st then Ok (bs "calc: parse error" ++ [10])
      else buf ← itoa_into 16 result; Ok (bs "= " ++ buf ++ [10])
  end.

(** * Termination: the fuel is enough *)

Definition left_of (st : calc) : nat := length (g_pos st).

Lemma skip_blank_length p : (length (skip_blank p) <= length p)%nat.
Proof. induction p as [|c p IH]; simpl; [done|]. case_match; simpl; lia. Qed.

Lemma skip_ws_left st : (left_of (skip_ws st) <= left_of st)%nat.
Proof. apply skip_blank_length. Qed.

Lemma digits_length p : forall v had, (length (digits p v had).2 <= length p)%nat.
Proof. induction p as [|c p IH]; intros v had; simpl; [done|]. destruct (is_digit c); simpl; [|done].
  specialize (IH (i32 (i32 (v * 10) + (c - ch "0"))) true). lia.
Qed.

Lemma peek_left st c : peek st =? c = true -> c <> 0 -> (left_of (advance st) < left_of st)%nat.
Proof.
  intros H%Z.eqb_eq ?. unfold peek, left_of, advance, hd0, byte_at in *.
  destruct (g_pos st) as [|x l]; simpl in *; [congruence|lia].
Qed.

(** The call ends, by an [int32_t] or a trap, with no more input than before. *)
Definition ends (m : outcome (Z * calc)) (len : nat) : Prop :=
  m = Stuck Trap \/ exists v st', m = Ok (v, st') /\ (left_of st' <= len)%nat /\ is_i32 v.

Lemma digits_i32 p : forall v had, is_i32 v -> is_i32 (digits p v had).1.1.
Proof.
  induction p as [|c p IH]; intros v had Hv; simpl; [done|]. destruct (is_digit c); [|done]. apply IH, i32_range.
Qed.

Lemma div32_i32 v d : is_i32 v -> d <> 0 -> div32 v d = Stuck Trap \/ exists q, div32 v d = Ok q /\ is_i32 q.
Proof.
  intros Hv Hd. unfold div32. destruct (_ && _) eqn:E; [by left|]. right. eexists. split; [done|].
  unfold is_i32 in *. rewrite andb_false_iff, !Z.eqb_neq in E. pose proof (Z.quot_rem v d Hd) as Hq.
  pose proof (Z.rem_bound_abs v d Hd). nia.
Qed.

Lemma ends_bind m len (f : Z * calc -> outcome (Z * calc)) len' :
  ends m len -> (forall v st', (left_of st' <= len)%nat -> is_i32 v -> ends (f (v, st')) len') ->
  ends (m ≫= f) len'.
Proof. intros [->|(v & st' & -> & H & Hv)] Hf; [by left|]. by apply Hf. Qed.

Lemma ends_mono m len len' : ends m len -> (len <= len')%nat -> ends m len'.
Proof. intros [->|(v & st' & -> & H & Hv)] Hle; [by left|]. right. eexists _, _. split; [done|]. split; [lia|done]. Qed.

Lemma parser_ends fuel :
  (forall st, (4 * left_of st + 1 <= fuel)%nat -> ends (parse_factor fuel st) (left_of st)) /\
  (forall st, (4 * left_of st + 2 <= fuel)%nat -> ends (parse_term fuel st) (left_of st)) /\
  (forall v st, is_i32 v -> (4 * left_of st + 1 <= fuel)%nat -> ends (term_loop fuel v st) (left_of st)) /\
  (forall st, (4 * left_of st + 3 <= fuel)%nat -> ends (parse_expr fuel st) (left_of st)) /\
  (forall v st, is_i32 v -> (4 * left_of st + 1 <= fuel)%nat -> ends (expr_loop fuel v st) (left_of st)).
Proof.
  assert (H0 : is_i32 0) by (unfold is_i32; lia).
  induction fuel as [|n (IHf & IHt & IHtl & IHe & IHel)]; [split_and!; intros; lia|].
  split_and!; intros; cbn [parse_factor parse_term term_loop parse_expr expr_loop];
    pose proof (skip_ws_left st) as Hws; set (st1 := skip_ws st) in *.
  - destruct (peek st1 =? ch "(") eqn:E1; [|destruct (peek st1 =? ch "-") eqn:E2].
    + pose proof (peek_left _ _ E1 ltac:(done)).
      apply (ends_bind _ (left_of (advance st1))); [apply IHe; lia|]. intros v st' Hl Hv.
      right. eexists _, _. split; [done|]. split; [|done]. pose proof (skip_ws_left st').
      destruct (peek (skip_ws st') =? ch ")") eqn:E; [|lia].
      pose proof (peek_left _ _ E ltac:(done)). lia.
    + pose proof (peek_left _ _ E2 ltac:(done)).
      apply (ends_bind _ (left_of (advance st1))); [apply IHf; lia|]. intros v st' Hl Hv.
      right. eexists _, _. split; [done|]. split; [lia|apply i32_range].
    + pose proof (digits_length (g_pos st1) 0 false) as Hd. pose proof (digits_i32 (g_pos st1) 0 false H0) as Hi.
      destruct (digits (g_pos st1) 0 false) as [[v had] p]. right. eexists _, _. split; [done|].
      unfold left_of in *. simpl in *. split; [lia|done].
  - apply (ends_bind _ (left_of st)); [apply IHf; lia|]. intros v st' Hl Hv.
    eapply ends_mono; [apply IHtl; [done|lia]|lia].
  - destruct (peek st1 =? ch "*") eqn:E1; [|destruct (peek st1 =? ch "/") eqn:E2].
    + pose proof (peek_left _ _ E1 ltac:(done)).
      apply (ends_bind _ (left_of (advance st1))); [apply IHf; lia|]. intros d st' Hl Hv.
      eapply ends_mono; [apply IHtl; [apply i32_range|lia]|lia].
    + pose proof (peek_left _ _ E2 ltac:(done)).
      apply (ends_bind _ (left_of (advance st1))); [apply IHf; lia|]. intros d st' Hl Hv.
      destruct (Z.eqb_spec d 0) as [|Hd]; [right; eexists _, _; split; [done|unfold left_of in *; simpl; split; [lia|done]]|].
      destruct (div32_i32 v d) as [->|(q & -> & Hq)]; [done..|by left|]. cbn [mbind outcome_bind].
      eapply ends_mono; [apply IHtl; [done|lia]|lia].
    + right. eexists _, _. split; [done|]. split; [lia|done].
  - apply (ends_bind _ (left_of st)); [apply IHt; lia|]. intros v st' Hl Hv.
    eapply ends_mono; [apply IHel; [done|lia]|lia].
  - destruct (peek st1 =? ch "+") eqn:E1; [|destruct (peek st1 =? ch "-") eqn:E2].
    + pose proof (peek_left _ _ E1 ltac:(done)).
      apply (ends_bind _ (left_of (advance st1))); [apply IHt; lia|]. intros d st' Hl Hv.
      eapply ends_mono; [apply IHel; [apply i32_range|lia]|lia].
    + pose proof (peek_left _ _ E2 ltac:(done)).
      apply (ends_bind _ (left_of (advance st1))); [apply IHt; lia|]. intros d st' Hl Hv.
      eapply ends_mono; [apply IHel; [apply i32_range|lia]|lia].
    + right. eexists _, _. split; [done|]. split; [lia|done].
Qed.

(** * More fuel does not change a result *)

(** [m'] is [m], unless [m] ran out of fuel. *)
Definition refines {A} (m m' : outcome A) : Prop := m = Stuck NoFuel \/ m = m'.

Lemma refines_refl {A} (m : outcome A) : refines m m.
Proof. by right. Qed.

Lemma refines_bind {A B} (m m' : outcome A) (f f' : A -> outcome B) :
  refines m m' -> (forall a, refines (f a) (f' a)) -> refines (m ≫= f) (m' ≫= f').
Proof. intros [->| ->] Hf; [by left|]. destruct m' as [a|e]; [apply Hf|by right]. Qed.

Lemma refines_trans {A} (m1 m2 m3 : outcome A) : refines m1 m2 -> refines m2 m3 -> refines m1 m3.
Proof. intros [->| ->]; [by left|done]. Qed.

#[local] Hint Resolve refines_refl : core.

(** One more unit of fuel, for the five functions at once. *)
Definition grows (n n' : nat) : Prop :=
  (forall st, refines (parse_factor n st) (parse_factor n' st)) /\
  (forall st, refines (parse_term n st) (parse_term n' st)) /\
  (forall v st, refines (term_loop n v st) (term_loop n' v st)) /\
  (forall st, refines (parse_expr n st) (parse_expr n' st)) /\
  (forall v st, refines (expr_loop n v st) (expr_loop n' v st)).

Lemma grows_S n n' : grows n n' -> grows (S n) (S n').
Proof.
  intros (IHf & IHt & IHtl & IHe & IHel).
  split_and!; intros; cbn [parse_factor parse_term term_loop parse_expr expr_loop];
    repeat case_match; auto; try (apply refines_bind; [done|]; intros [? ?]); auto.
  case_match; [done|]. apply refines_bind; [done|]. auto.
Qed.

Lemma grows_le n n' : (n <= n')%nat -> grows n n'.
Proof.
  revert n'. induction n as [|n IH]; intros n' H; [by split_and!; left|].
  destruct n' as [|n']; [lia|]. apply grows_S, IH. lia.
Qed.

(** * The grammar of the file's header comment

    [denotes lv s e]: the text [s], with blanks before every token, is an
    expression of level [lv] with the syntax tree [e]. *)

Inductive exp :=
| Num (ds : list Z)
| Neg (e : exp)
| Bin (op : ascii) (e1 e2 : exp).

Inductive level := Factor | Term | Expr.

Definition blanks (ws : list Z) : Prop := Forall (fun c => c = ch " " \/ c = 9) ws.

Inductive denotes : level -> list Z -> exp -> Prop :=
| D_num ws ds : blanks ws -> ds <> [] -> Forall (fun c => is_digit c = true) ds ->
    denotes Factor (ws ++ ds) (Num ds)
| D_paren ws s ws' e : blanks ws -> denotes Expr s e -> blanks ws' ->
    denotes Factor (ws ++ [ch "("] ++ s ++ ws' ++ [ch ")"]) e
| D_neg ws s e : blanks ws -> denotes Factor s e ->
    denotes Factor (ws ++ [ch "-"] ++ s) (Neg e)
| D_factor s e : denotes Factor s e -> denotes Term s e
| D_mul op s1 ws s2 e1 e2 : op = "*"%char \/ op = "/"%char ->
    denotes Term s1 e1 -> blanks ws -> denotes Factor s2 e2 ->
    denotes Term (s1 ++ ws ++ [ch op] ++ s2) (Bin op e1 e2)
| D_term s e : denotes Term s e -> denotes Expr s e
| D_add op s1 ws s2 e1 e2 : op = "+"%char \/ op = "-"%char ->
    denotes Expr s1 e1 -> blanks ws -> denotes Term s2 e2 ->
    denotes Expr (s1 ++ ws ++ [ch op] ++ s2) (Bin op e1 e2).

Definition number (ds : list Z) : Z := foldl (fun v c => v * 10 + (c - ch "0")) 0 ds.

Definition in_i32 (z : Z) : option Z :=
  if (-2147483648 <=? z) && (z <=? 2147483647) then Some z else None.

Definition eval_op (op : ascii) (v1 v2 : Z) : option Z :=
  if ch op =? ch "+" then in_i32 (v1 + v2)
  else if ch op =? ch "-" then in_i32 (v1 - v2)
  else if ch op =? ch "*" then in_i32 (v1 * v2)
  else if v2 =? 0 then None else in_i32 (Z.quot v1 v2).

(** The value over the integers; [None] when a step leaves [int32_t] or
    divides by zero. *)
Fixpoint eval (e : exp) : option Z :=
  match e with
  | Num ds => in_i32 (number ds)
  | Neg e => v ← eval e; in_i32 (- v)
  | Bin op e1 e2 => v1 ← eval e1; v2 ← eval e2; eval_op op v1 v2
  end.

Lemma in_i32_Some z v : in_i32 z = Some v -> v = z /\ is_i32 z.
Proof. unfold in_i32, is_i32. destruct (_ && _) eqn:E; [|done]. intros [= <-]. lia. Qed.

Lemma digits_number ds : forall v had rest,
  ds <> [] -> Forall (fun c => is_digit c = true) ds -> is_digit (hd0 rest) = false -> 0 <= v ->
  foldl (fun v c => v * 10 + (c - ch "0")) v ds <= 2147483647 ->
  digits (ds ++ rest) v had = (foldl (fun v c => v * 10 + (c - ch "0")) v ds, true, rest).
Proof.
  assert (Hstop : forall v rest, is_digit (hd0 rest) = false -> digits rest v true = (v, true, rest)).
  { intros v [|c l] H; [done|]. change (is_digit c = false) in H. simpl. by rewrite H. }
  assert (Hge : forall ds v, Forall (fun c => is_digit c = true) ds -> 0 <= v ->
    v <= foldl (fun v c => v * 10 + (c - ch "0")) v ds).
  { clear. induction ds as [|c ds IH]; intros v H Hv; [simpl; lia|]. inversion_clear H. simpl.
    unfold is_digit in *. chars. etrans; [|apply IH; [done|lia]]. lia. }
  induction ds as [|c ds IH]; intros v had rest Hne Hall Hr Hv Hle; [done|].
  inversion_clear Hall as [|? ? Hc Hds]. simpl in *. rewrite Hc.
  assert (0 <= c - ch "0" <= 9) as Hd by (unfold is_digit in Hc; chars; lia).
  pose proof (Hge ds (v * 10 + (c - ch "0")) Hds ltac:(lia)) as Hle'.
  rewrite (i32_small (v * 10)), i32_small by (unfold is_i32; lia).
  destruct ds as [|d ds]; [by rewrite Hstop|]. apply IH; [done..|lia|done].
Qed.

(** [f] gives [r] with all large enough fuel. *)
Definition eventually {A} (f : nat -> outcome A) (r : outcome A) : Prop :=
  exists N, forall n, (N <= n)%nat -> f n = r.

Lemma eventually_bind {A B} (m : nat -> outcome A) (f : nat -> A -> outcome B) a r :
  eventually m (Ok a) -> eventually (fun n => f n a) r -> eventually (fun n => m n ≫= f n) r.
Proof.
  intros (N & HN) (M & HM). exists (N `max` M)%nat. intros n Hn. rewrite HN by lia. apply HM. lia.
Qed.

Lemma eventually_ok {A} (r : outcome A) : eventually (fun _ => r) r.
Proof. by exists 0%nat. Qed.

Lemma skip_blanks ws l : blanks ws -> skip_blank (ws ++ l) = skip_blank l.
Proof. induction 1 as [|c ws [->| ->] H IH]; done. Qed.

Lemma skip_blank_idem l : skip_blank (skip_blank l) = skip_blank l.
Proof. induction l as [|c l IH]; [done|]. simpl. destruct (_ || _) eqn:E; [done|]. simpl. by rewrite E. Qed.

(** What the parser does on a text of each level, whatever follows it. *)
Definition parses (lv : level) (s : list Z) (v : Z) : Prop :=
  forall rest err, is_digit (hd0 rest) = false ->
  match lv with
  | Factor => eventually (fun n => parse_factor n (Calc (s ++ rest) err)) (Ok (v, Calc rest err))
  | Term => forall r, eventually (fun n => term_loop n v (Calc rest err)) r ->
      eventually (fun n => parse_term n (Calc (s ++ rest) err)) r
  | Expr => hd0 (skip_blank rest) <> ch "*" -> hd0 (skip_blank rest) <> ch "/" ->
      forall r, eventually (fun n => expr_loop n v (Calc (skip_blank rest) err)) r ->
      eventually (fun n => parse_expr n (Calc (s ++ rest) err)) r
  end.

Lemma blank_then_op ws op l : blanks ws -> is_digit (ch op) = false -> is_digit (hd0 (ws ++ [ch op] ++ l)) = false.
Proof. by intros [|c ws' [->| ->] H] Hop. Qed.

Lemma skip_then_op ws op l : blanks ws -> (ch op =? ch " ") || (ch op =? 9) = false ->
  skip_blank (ws ++ [ch op] ++ l) = ch op :: l.
Proof. intros H Hop. rewrite skip_blanks by done. simpl. by rewrite Hop. Qed.

Lemma term_loop_op n v op ws l err :
  blanks ws -> op = "*"%char \/ op = "/"%char ->
  term_loop (S n) v (Calc (ws ++ [ch op] ++ l) err) =
    ('(d, st) ← parse_factor n (Calc l err);
     if ch op =? ch "*" then term_loop n (i32 (v * d)) st
     else if d =? 0 then Ok (0, set_err st)
     else v ← div32 v d; term_loop n v st).
Proof.
  intros Hws Hop. cbn [term_loop]. unfold skip_ws, peek, advance. cbn [g_pos g_err].
  rewrite skip_then_op; [|done|by destruct Hop as [->| ->]].
  destruct Hop as [->| ->]; done.
Qed.

Lemma expr_loop_op n v op ws l err :
  blanks ws -> op = "+"%char \/ op = "-"%char ->
  expr_loop (S n) v (Calc (ws ++ [ch op] ++ l) err) =
    ('(d, st) ← parse_term n (Calc l err);
     expr_loop n (i32 (if ch op =? ch "+" then v + d else v - d)) st).
Proof.
  intros Hws Hop. cbn [expr_loop]. unfold skip_ws, peek, advance. cbn [g_pos g_err].
  rewrite skip_then_op; [|done|by destruct Hop as [->| ->]].
  destruct Hop as [->| ->]; done.
Qed.

Lemma expr_loop_skip n v l err :
  expr_loop (S n) v (Calc (skip_blank l) err) = expr_loop (S n) v (Calc l err).
Proof. cbn [expr_loop]. unfold skip_ws. cbn [g_pos g_err]. by rewrite skip_blank_idem. Qed.

Lemma eventually_shift {A} (f : nat -> outcome A) r : eventually f r <-> eventually (fun n => f (S n)) r.
Proof.
  split; intros (N & HN); [exists N; intros; apply HN; lia|].
  exists (S N). intros [|n] ?; [lia|]. apply HN. lia.
Qed.

Lemma eval_div_ok v1 v2 v : v2 <> 0 -> in_i32 (Z.quot v1 v2) = Some v -> div32 v1 v2 = Ok v.
Proof.
  intros H2 (-> & Hr)%in_i32_Some. unfold div32. destruct (_ && _) eqn:E; [|done].
  apply andb_true_iff in E as [->%Z.eqb_eq ->%Z.eqb_eq].
  change (Z.quot (-2147483648) (-1)) with 2147483648 in Hr. unfold is_i32 in Hr. lia.
Qed.

Lemma eventually_ext {A} (f g : nat -> outcome A) r :
  (forall n, f n = g n) -> eventually g r -> eventually f r.
Proof. intros Hfg (N & HN). exists N. intros. rewrite Hfg. auto. Qed.

Lemma term_loop_stops v l err : hd0 (skip_blank l) <> ch "*" -> hd0 (skip_blank l) <> ch "/" ->
  eventually (fun n => term_loop n v (Calc l err)) (Ok (v, Calc (skip_blank l) err)).
Proof.
  intros Hm%Z.eqb_neq Hd%Z.eqb_neq. apply eventually_shift. cbn [term_loop].
  unfold skip_ws, peek. cbn [g_pos g_err]. rewrite Hm, Hd. apply eventually_ok.
Qed.

Lemma parses_num ws ds : blanks ws -> ds <> [] -> Forall (fun c => is_digit c = true) ds ->
  number ds <= 2147483647 -> parses Factor (ws ++ ds) (number ds).
Proof.
  intros Hws Hne Hds Hb rest err Hr. exists 1%nat. intros [|n] ?; [lia|]. cbn [parse_factor].
  unfold skip_ws, peek. cbn [g_pos g_err]. rewrite <- app_assoc, skip_blanks by done.
  destruct ds as [|c ds]; [done|]. pose proof Hds as [Hc _]%Forall_cons.
  assert (skip_blank ((c :: ds) ++ rest) = (c :: ds) ++ rest) as ->.
  { simpl. unfold is_digit in Hc. chars. by rewrite (proj2 (orb_false_iff _ _)) by lia. }
  change (hd0 ((c :: ds) ++ rest)) with c.
  assert (c =? ch "(" = false) as -> by (unfold is_digit in Hc; chars; lia).
  assert (c =? ch "-" = false) as -> by (unfold is_digit in Hc; chars; lia).
  by rewrite (digits_number (c :: ds)).
Qed.

Lemma parses_paren ws s ws' v : blanks ws -> blanks ws' -> parses Expr s v ->
  parses Factor (ws ++ [ch "("] ++ s ++ ws' ++ [ch ")"]) v.
Proof.
  intros Hws Hws' IH rest err Hr. apply eventually_shift. cbn [parse_factor].
  unfold skip_ws, peek, advance. cbn [g_pos g_err]. rewrite <- !app_assoc, skip_then_op by done.
  change (hd0 (ch "(" :: ?l) =? ch "(") with true. cbn [tl0 tail].
  apply eventually_bind with (a := (v, Calc (ch ")" :: rest) err)); [|by apply eventually_ok].
  assert (skip_blank (ws' ++ [ch ")"] ++ rest) = ch ")" :: rest) as Hskip by by apply skip_then_op.
  apply IH; [by apply blank_then_op|by rewrite Hskip..|].
  rewrite Hskip. apply eventually_shift. exists 0%nat. done.
Qed.

Lemma parses_neg ws s v : blanks ws -> parses Factor s v -> is_i32 (- v) ->
  parses Factor (ws ++ [ch "-"] ++ s) (- v).
Proof.
  intros Hws IH Hv rest err Hr. apply eventually_shift. cbn [parse_factor].
  unfold skip_ws, peek, advance. cbn [g_pos g_err]. rewrite <- !app_assoc, skip_then_op by done.
  change (hd0 (ch "-" :: ?l) =? ch "(") with false.
  change (hd0 (ch "-" :: ?l) =? ch "-") with true. cbn [tl0 tail].
  eapply eventually_bind; [by apply IH|]. cbn beta iota. rewrite i32_small by done. apply eventually_ok.
Qed.

Lemma parses_term_op op s1 ws s2 v1 v2 v : op = "*"%char \/ op = "/"%char -> blanks ws ->
  parses Term s1 v1 -> parses Factor s2 v2 -> eval_op op v1 v2 = Some v ->
  parses Term (s1 ++ ws ++ [ch op] ++ s2) v.
Proof.
  intros Hop Hws IH1 IH2 Hv rest err Hr r Hloop. rewrite <- !app_assoc.
  apply IH1; [apply blank_then_op; [done|by destruct Hop as [->| ->]]|].
  apply eventually_shift. eapply eventually_ext; [intros n; apply (term_loop_op n v1 op ws); done|].
  eapply eventually_bind; [by apply IH2|]. cbn beta iota.
  destruct Hop as [->| ->].
  - change (in_i32 (v1 * v2) = Some v) in Hv. apply in_i32_Some in Hv as [-> Hv].
    change (ch "*" =? ch "*") with true. cbn iota. by rewrite i32_small.
  - change ((if v2 =? 0 then None else in_i32 (Z.quot v1 v2)) = Some v) in Hv.
    change (ch "/" =? ch "*") with false. cbn iota. destruct (Z.eqb_spec v2 0) as [|Hne]; [done|].
    by rewrite (eval_div_ok v1 v2 v).
Qed.

Lemma parses_expr_op op s1 ws s2 v1 v2 v : op = "+"%char \/ op = "-"%char -> blanks ws ->
  parses Expr s1 v1 -> parses Term s2 v2 -> eval_op op v1 v2 = Some v ->
  parses Expr (s1 ++ ws ++ [ch op] ++ s2) v.
Proof.
  intros Hop Hws IH1 IH2 Hv rest err Hr Hm Hd r Hloop. rewrite <- !app_assoc.
  assert (skip_blank (ws ++ [ch op] ++ s2 ++ rest) = ch op :: s2 ++ rest) as Hskip
    by (apply skip_then_op; [done|by destruct Hop as [->| ->]]).
  apply IH1; [apply blank_then_op; [done|by destruct Hop as [->| ->]]
    |rewrite Hskip; by destruct Hop as [->| ->]..|].
  apply eventually_shift. eapply eventually_ext; [intros n; apply expr_loop_skip|].
  eapply eventually_ext; [intros n; apply (expr_loop_op n v1 op ws); done|].
  assert (eventually (fun n => parse_term n (Calc (s2 ++ rest) err)) (Ok (v2, Calc (skip_blank rest) err))) as Ht.
  { apply IH2; [done|]. by apply term_loop_stops. }
  eapply eventually_bind; [exact Ht|]. cbn beta iota.
  assert (i32 (if ch op =? ch "+" then v1 + v2 else v1 - v2) = v) as ->; [|done].
  destruct Hop as [->| ->];
    [change (in_i32 (v1 + v2) = Some v) in Hv|change (in_i32 (v1 - v2) = Some v) in Hv];
    apply in_i32_Some in Hv as [-> Hv]; by apply i32_small.
Qed.

Lemma denotes_parses lv s e : denotes lv s e -> forall v, eval e = Some v -> parses lv s v.
Proof.
  induction 1 as [ws ds Hws Hne Hds|ws s ws' e Hws He IH Hws'|ws s e Hws He IH|s e He IH
    |op s1 ws s2 e1 e2 Hop H1 IH1 Hws H2 IH2|s e He IH|op s1 ws s2 e1 e2 Hop H1 IH1 Hws H2 IH2];
    intros v Hv; simpl in Hv.
  - apply in_i32_Some in Hv as [-> Hb]. apply parses_num; [done..|]. unfold is_i32 in Hb. lia.
  - apply parses_paren; auto.
  - apply bind_Some in Hv as (v0 & H0 & [-> Hb]%in_i32_Some). apply parses_neg; auto.
  - intros rest err Hr r Hloop. apply eventually_shift. cbn [parse_term].
    apply eventually_bind with (a := (v, Calc rest err)); [by apply IH|done].
  - apply bind_Some in Hv as (v1 & Hv1 & (v2 & Hv2 & Hv)%bind_Some). eapply parses_term_op; eauto.
  - intros rest err Hr Hm Hd r Hloop. apply eventually_shift. cbn [parse_expr].
    apply eventually_bind with (a := (v, Calc (skip_blank rest) err)); [|exact Hloop].
    apply (IH v Hv rest err Hr). by apply term_loop_stops.
  - apply bind_Some in Hv as (v1 & Hv1 & (v2 & Hv2 & Hv)%bind_Some). eapply parses_expr_op; eauto.
Qed.

(** A text that does not go on with an expression: no digit first, and no
    operator after blanks. *)
Definition ends_here (rest : list Z) : Prop :=
  is_digit (hd0 rest) = false /\ Forall (fun op => hd0 (skip_blank rest) <> op) [ch "*"; ch "/"; ch "+"; ch "-"].

Lemma ends_ops rest : ends_here rest -> let c := hd0 (skip_blank rest) in
  c <> ch "*" /\ c <> ch "/" /\ c <> ch "+" /\ c <> ch "-".
Proof. intros [_ H]. rewrite !Forall_cons in H. by destruct H as (? & ? & ? & ? & _). Qed.

Lemma blanks_end ws : blanks ws -> ends_here ws.
Proof.
  intros Hws. assert (skip_blank ws = []) as Hskip
    by (pose proof (skip_blanks ws [] Hws) as H; by rewrite app_nil_r in H).
  split; [by destruct Hws as [|? ? [->| ->] ?]|]. rewrite Hskip. by repeat constructor.
Qed.

Lemma expr_loop_stops v rest err : ends_here rest ->
  eventually (fun n => expr_loop n v (Calc (skip_blank rest) err)) (Ok (v, Calc (skip_blank rest) err)).
Proof.
  intros (_ & _ & Hp & Hm)%ends_ops. apply eventually_shift. cbn [expr_loop]. unfold skip_ws, peek. cbn [g_pos g_err].
  rewrite skip_blank_idem, (proj2 (Z.eqb_neq _ _) Hp), (proj2 (Z.eqb_neq _ _) Hm). apply eventually_ok.
Qed.

Lemma parses_here s v rest err : parses Expr s v -> ends_here rest ->
  eventually (fun n => parse_expr n (Calc (s ++ rest) err)) (Ok (v, Calc (skip_blank rest) err)).
Proof.
  intros Hs Hr. destruct (ends_ops _ Hr) as (Hm & Hd & _). apply Hs; [apply Hr|done..|by apply expr_loop_stops].
Qed.

(** An opening parenthesis that is never closed. *)
Lemma parses_open s v rest err : parses Expr s v -> ends_here rest -> hd0 (skip_blank rest) <> ch ")" ->
  eventually (fun n => parse_expr n (Calc (ch "(" :: s ++ rest) err)) (Ok (v, Calc (skip_blank rest) err)).
Proof.
  intros Hs Hr Hp. apply eventually_shift. cbn [parse_expr].
  apply eventually_bind with (a := (v, Calc (skip_blank rest) err)).
  - apply eventually_shift. cbn [parse_term].
    apply eventually_bind with (a := (v, Calc (skip_blank rest) err)).
    + apply eventually_shift. cbn [parse_factor]. unfold skip_ws, peek, advance. cbn [g_pos g_err].
      change (skip_blank (ch "(" :: s ++ rest)) with (ch "(" :: s ++ rest).
      change (hd0 (ch "(" :: ?l) =? ch "(") with true. cbn [tl0 tail].
      eapply eventually_bind; [by apply parses_here|]. cbn beta iota. cbn [g_pos g_err].
      rewrite skip_blank_idem, (proj2 (Z.eqb_neq _ _) Hp). apply eventually_ok.
    + destruct (ends_ops _ Hr) as (Hm & Hd & _). pose proof (term_loop_stops v (skip_blank rest) err) as Ht.
      rewrite skip_blank_idem in Ht. by apply Ht.
  - by apply expr_loop_stops.
Qed.

(** The fuel of [cmd_calc] is enough for what the parser does eventually. *)
Lemma calc_fuel_enough a r : eventually (fun n => parse_expr n (Calc a false)) r ->
  parse_expr (calc_fuel (length a)) (Calc a false) = r.
Proof.
  intros (N & HN). set (st := Calc a false) in *. set (k := calc_fuel (length a)) in *.
  destruct (grows_le k (k `max` N)%nat) as (_ & _ & _ & He & _); [lia|].
  destruct (He st) as [E|E]; [|rewrite E; apply HN; lia].
  destruct (parser_ends k) as (_ & _ & _ & Hends & _).
  destruct (Hends st) as [?|(? & ? & ? & _)]; [unfold k, calc_fuel, left_of; simpl; lia|congruence..].
Qed.

Lemma eval_i32 e v : eval e = Some v -> is_i32 v.
Proof.
  destruct e as [ds|e|op e1 e2]; simpl; intros Hv.
  - by apply in_i32_Some in Hv as [-> ?].
  - apply bind_Some in Hv as (v0 & _ & [-> ?]%in_i32_Some). done.
  - apply bind_Some in Hv as (v1 & _ & (v2 & _ & Hv)%bind_Some). unfold eval_op in Hv.
    repeat case_match; by try apply in_i32_Some in Hv as [-> ?].
Qed.

(** What the command prints for a value. *)
Definition answer (v : Z) : outcome (list Z) := Ok (bs "= " ++ itoa_text v 10 ++ [10]).

Lemma cmd_calc_prints a v rest : hd0 a <> 0 -> is_i32 v ->
  eventually (fun n => parse_expr n (Calc a false)) (Ok (v, Calc rest false)) -> cmd_calc (Some a) = answer v.
Proof.
  intros Ha Hv He. unfold cmd_calc. rewrite (proj2 (Z.eqb_neq _ _) Ha), (calc_fuel_enough _ _ He).
  cbn [mbind outcome_bind g_err]. by rewrite itoa_into_ok by (done || lia).
Qed.

Lemma denotes_hd lv s e : denotes lv s e -> hd0 s <> 0 /\ s <> [].
Proof.
  induction 1 as [ws ds Hws Hne Hds|ws s ws' e Hws|ws s e Hws|s e H IH|op s1 ws s2 e1 e2 ? ? IH
    |s e H IH|op s1 ws s2 e1 e2 ? ? IH]; try done.
  - destruct Hws as [|? ? [->| ->] ?]; [|done..]. destruct Hds as [|c ds Hc]; [done|].
    split; [|done]. unfold is_digit in Hc. simpl. intros Hx. change (c = 0) in Hx. chars. lia.
  - destruct Hws as [|? ? [->| ->] ?]; done.
  - destruct Hws as [|? ? [->| ->] ?]; done.
  - destruct IH as [IH ?], s1; done.
  - destruct IH as [IH ?], s1; done.
Qed.

(** * Properties *)

(** C11: [calc] computes what its grammar says: for every text of the grammar
    of the header comment (blanks allowed before every token and at the end)
    whose value can be computed in 32 bits without dividing by zero, the
    command prints ["= "], that value in decimal and a newline. *)
Theorem calc_evaluates s e v ws : denotes Expr s e -> eval e = Some v -> blanks ws ->
  cmd_calc (Some (s ++ ws)) = Ok (bs "= " ++ itoa_text v 10 ++ [10]).
Proof.
  intros Hs Hv Hws. destruct (denotes_hd _ _ _ Hs) as [Hhd Hne].
  eapply cmd_calc_prints; [by destruct s|by eapply eval_i32|].
  apply parses_here; [by eapply denotes_parses|by apply blanks_end].
Qed.

Lemma calc_evaluates_witness :
  cmd_calc (Some (bs "2 + 3 *4" ++ bs " ")) = Ok (bs "= " ++ itoa_text 14 10 ++ [10]).
Proof.
  apply (calc_evaluates (bs "2 + 3 *4") (Bin "+" (Num (bs "2")) (Bin "*" (Num (bs "3")) (Num (bs "4"))))).
  - apply (D_add "+" (bs "2") (bs " ") (bs " 3 *4")); [by left| |repeat constructor|].
    + apply D_term, D_factor, (D_num []); [constructor|done|repeat constructor].
    + apply (D_mul "*" (bs " 3") (bs " ") (bs "4")); [by left| |repeat constructor|].
      * apply D_factor, (D_num (bs " ")); [repeat constructor|done|repeat constructor].
      * apply (D_num []); [constructor|done|repeat constructor].
  - reflexivity.
  - repeat constructor.
Defined.

Lemma cmd_calc_ends args : cmd_calc args = Stuck Trap \/ exists out, cmd_calc args = Ok out.
Proof.
  destruct args as [a|]; [|right; by eexists]. unfold cmd_calc.
  destruct (hd0 a =? 0); [right; by eexists|].
  destruct (parser_ends (calc_fuel (length a))) as (_ & _ & _ & H & _).
  destruct (H (Calc a false)) as [->|(v & st & -> & _ & Hv)]; [unfold calc_fuel, left_of; simpl; lia|by left|].
  right. cbn [mbind outcome_bind]. destruct (g_err st); [by eexists|]. rewrite itoa_into_ok by (done || lia). by eexists.
Qed.


