(* ===== verification/NetBytes.v ===== *)
(** The byte-level half of src/src/drivers/network.c: big-endian fields, the
    Internet checksum, DNS names and queries, IPv4 addresses, ARP frames.

    A packet pointer is the list of bytes from the pointer to the end of its
    object; every read and write of it is checked.  [uint16_t] positions are
    [Z] with their wrap-around written out. *)
From Stdlib Require Import ZArith Lia Ascii String.
From stdpp Require Import base tactics option numbers list.
From S2P Require Import Prelude Buffer CString.
#[local] Open Scope Z_scope.

Definition bytes_equal (a b : list Z) (n : nat) : bool :=
  bool_decide (take n a = take n b).

Definition rd16be (p : list Z) (i : Z) : outcome Z :=
  a ← read p i; b ← read p (i + 1); Ok (Z.lor (Z.shiftl a 8) b).

Definition be16 (v : Z) : list Z := [u8 (Z.shiftr v 8); u8 (Z.land v 255)].

Definition wr16be (p : list Z) (i v : Z) : outcome (list Z) := blit p i (be16 v).

(** * The Internet checksum *)

Definition fold_body (sum : Z) : outcome (Z + Z) :=
  Ok (if Z.shiftr sum 16 =? 0 then inr sum
      else inl (u32 (Z.land sum 65535 + Z.shiftr sum 16))).

Definition sum_body (data : list Z) (len : Z) (s : Z * Z) : outcome (Z * Z + Z * Z) :=
  let '(i, sum) := s in
  if u16 (i + 1) <? len then
    w ← rd16be data i; Ok (inl (u16 (i + 2), u32 (sum + w)))
  else Ok (inr (i, sum)).

Definition checksum16 (data : list Z) (len : Z) : outcome Z :=
  '(i, sum) ← cloop (Z.to_nat len + 1) (sum_body data len) (0, 0);
  sum ← (if i <? len then b ← read data i; Ok (u32 (sum + u16 (Z.shiftl b 8))) else Ok sum);
  sum ← cloop 4 fold_body sum;
  Ok (u16 (Z.lnot sum)).

(** * DNS *)

Definition to_lower_ascii (c : Z) : Z :=
  if (ch "A" <=? c) && (c <=? ch "Z") then c - ch "A" + ch "a" else c.

Definition host_char_ok (c : Z) : bool :=
  ((ch "a" <=? c) && (c <=? ch "z")) || ((ch "A" <=? c) && (c <=? ch "Z")) ||
  ((ch "0" <=? c) && (c <=? ch "9")) || (c =? ch "-").

(** One turn of the name loop; [inr None] is [return false]. *)
Definition skip_name_body (msg : list Z) (msg_len : Z) (s : Z * Z) : outcome (Z * Z + option Z) :=
  let '(off, guard) := s in
  if off <? msg_len then
    len ← read msg off;
    if len =? 0 then Ok (inr (Some (u16 (off + 1))))
    else if Z.land len 192 =? 192 then
      Ok (inr (if u16 (off + 1) >=? msg_len then None else Some (u16 (off + 2))))
    else if negb (Z.land len 192 =? 0) then Ok (inr None)
    else
      let off := u16 (off + 1) in
      if u16 (off + len) >? msg_len then Ok (inr None)
      else
        let off := u16 (off + len) in
        let guard := u16 (guard + 1) in
        if guard >? msg_len then Ok (inr None) else Ok (inl (off, guard))
  else Ok (inr None).

(** [None] is [false], with [*off_io] unchanged. *)
Definition dns_skip_name (msg : list Z) (msg_len off : Z) : outcome (option Z) :=
  cloop (Z.to_nat msg_len + 2) (skip_name_body msg msg_len) (off, 0).

Record query_state := Query { q_p : list Z; q_pos : Z; q_llp : Z; q_ll : Z; q_out : list Z }.

(** One turn of [while ( *p )]: [inr (Some st)] leaves the loop, [inr None] is
    [return false]. *)
Definition query_body (out_max : Z) (s : query_state) : outcome (query_state + option query_state) :=
  let '(Query p pos llp ll out) := s in
  let c := hd0 p in
  if c =? 0 then Ok (inr (Some s))
  else if c =? ch "." then
    if ll =? 0 then Ok (inr None)
    else
      out ← blit out llp [u8 ll];
      if byte_at p 1 =? 0 then Ok (inr (Some (Query (tl0 p) pos llp 0 out)))
      else if pos >=? out_max then Ok (inr None)
      else
        out' ← blit out pos [0];
        Ok (inl (Query (tl0 p) (u16 (pos + 1)) pos 0 out'))
  else if negb (host_char_ok c) then Ok (inr None)
  else if ll >=? 63 then Ok (inr None)
  else if pos >=? out_max then Ok (inr None)
  else
    out ← blit out pos [u8 (to_lower_ascii c)];
    Ok (inl (Query (tl0 p) (u16 (pos + 1)) llp (u16 (ll + 1)) out)).

Fixpoint skip_spaces (p : list Z) : list Z :=
  match p with c :: p' => if c =? ch " " then skip_spaces p' else p | [] => [] end.

(** The cleared buffer with the header and room for the first length byte. *)
Definition query_header (out : list Z) (out_max id : Z) : outcome (list Z) :=
  out ← blit out 0 (replicate (Z.to_nat out_max) 0);
  out ← wr16be out 0 id;
  out ← wr16be out 2 256;
  out ← wr16be out 4 1;
  blit out 12 [0].

(** The query in the [out_max]-byte buffer [out] and its length. *)
Definition build_dns_query (host : list Z) (id : Z) (out : list Z) (out_max : Z)
    : outcome (option (list Z * Z)) :=
  if out_max <? 18 then Ok None
  else
    let p := skip_spaces host in
    if hd0 p =? 0 then Ok None
    else
      out ← query_header out out_max id;
      r ← cloop (length p + 1) (query_body out_max) (Query p 13 12 0 out);
      match r with
      | None => Ok None
      | Some (Query _ pos llp ll out) =>
        if ll =? 0 then Ok None
        else
          out ← blit out llp [u8 ll];
          if u16 (pos + 5) >? out_max then Ok None
          else
            out ← blit out pos [0];
            out ← wr16be out (u16 (pos + 1)) 1;
            out ← wr16be out (u16 (u16 (pos + 1) + 2)) 1;
            Ok (Some (out, u16 (u16 (u16 (pos + 1) + 2) + 2)))
      end.

(** * Addresses *)

(** The digits of one part: [None] as soon as the value passes 255. *)
Fixpoint part_digits (p : list Z) (value : Z) : option (Z * list Z) :=
  match p with
  | c :: p' =>
    if (ch "0" <=? c) && (c <=? ch "9") then
      let value := value * 10 + (c - ch "0") in
      if value >? 255 then None else part_digits p' value
    else Some (value, p)
  | [] => Some (value, [])
  end.

(** The part loop from [part] on, [n] parts to go: success, [out_ip], input. *)
Fixpoint parse_parts (n : nat) (part : nat) (p out : list Z) : bool * list Z * list Z :=
  match n with
  | O => (true, out, p)
  | S n =>
    if (hd0 p <? ch "0") || (hd0 p >? ch "9") then (false, out, p)
    else match part_digits p 0 with
    | None => (false, out, p)
    | Some (value, p) =>
      let out := <[part := u8 value]> out in
      if (part <? 3)%nat then
        if negb (hd0 p =? ch ".") then (false, out, p) else parse_parts n (S part) (tl0 p) out
      else parse_parts n (S part) p out
    end
  end.

(** [out_ip] has 4 bytes and is written part by part, also on failure. *)
Definition network_parse_ipv4 (text : list Z) (out_ip : list Z) : bool * list Z :=
  match parse_parts 4 0 (skip_spaces text) out_ip with
  | (true, out, p) => (hd0 (skip_spaces p) =? 0, out)
  | (false, out, _) => (false, out)
  end.

Definition g_ip : list Z := [10; 0; 2; 15].
Definition g_gateway : list Z := [10; 0; 2; 2].
Definition g_netmask : list Z := [255; 255; 255; 0].
Definition g_dns_server : list Z := [10; 0; 2; 3].

Definition is_broadcast_mac (mac : list Z) : bool := bytes_equal mac (replicate 6 255) 6.

Definition ip_same_subnet (a b : list Z) : bool :=
  forallb (fun i => Z.land (byte_at a i) (byte_at g_netmask i) =? Z.land (byte_at b i) (byte_at g_netmask i))
    (seq 0 4).

Definition route_next_hop (dst_ip : list Z) : list Z :=
  if ip_same_subnet dst_ip g_ip then take 4 dst_ip else g_gateway.

(** * Frames *)

Definition ETH_TYPE_IPV4 : Z := 2048.
Definition ETH_TYPE_ARP : Z := 2054.
Definition ARP_HTYPE_ETH : Z := 1.
Definition ARP_OP_REQ : Z := 1.
Definition ARP_OP_REPLY : Z := 2.
Definition IPV4_PROTO_ICMP : Z := 1.
Definition IPV4_PROTO_UDP : Z := 17.

Definition build_arp_frame (buf dst_mac : list Z) (op : Z)
    (sender_mac sender_ip target_mac target_ip : list Z) : outcome (list Z) :=
  buf ← blit buf 0 (take 6 dst_mac);
  buf ← blit buf 6 (take 6 sender_mac);
  buf ← wr16be buf 12 ETH_TYPE_ARP;
  buf ← wr16be buf 14 ARP_HTYPE_ETH;
  buf ← wr16be buf 16 ETH_TYPE_IPV4;
  buf ← blit buf 18 [6];
  buf ← blit buf 19 [4];
  buf ← wr16be buf 20 op;
  buf ← blit buf 22 (take 6 sender_mac);
  buf ← blit buf 28 (take 4 sender_ip);
  buf ← blit buf 32 (take 6 target_mac);
  blit buf 38 (take 4 target_ip).

(** The Ethernet and IPv4 headers both send functions write, the checksum
    included; [ip] is [&g_tx_buf[14]]. *)
Definition write_headers (tx mac dst_mac dst_ip : list Z) (ipv4_id ip_len proto : Z) : outcome (list Z) :=
  tx ← blit tx 0 (take 6 dst_mac);
  tx ← blit tx 6 (take 6 mac);
  tx ← wr16be tx 12 ETH_TYPE_IPV4;
  tx ← blit tx 14 [69];
  tx ← blit tx 15 [0];
  tx ← wr16be tx 16 ip_len;
  tx ← wr16be tx 18 ipv4_id;
  tx ← wr16be tx 20 0;
  tx ← blit tx 22 [64];
  tx ← blit tx 23 [proto];
  tx ← blit tx 24 [0];
  tx ← blit tx 25 [0];
  tx ← blit tx 26 (take 4 g_ip);
  tx ← blit tx 30 (take 4 dst_ip);
  sum ← checksum16 (from tx 14) 20;
  wr16be tx 24 sum.

(** The part of [send_icmp_packet] from the frame length on that fills
    [g_tx_buf]; [icmp] is [&g_tx_buf[34]]. *)
Definition write_icmp (tx mac dst_mac dst_ip : list Z) (ipv4_id icmp_type ident seq : Z)
    (payload : list Z) (payload_len : Z) : outcome (list Z) :=
  tx ← write_headers tx mac dst_mac dst_ip ipv4_id (u16 (28 + payload_len)) IPV4_PROTO_ICMP;
  tx ← blit tx 34 [icmp_type];
  tx ← blit tx 35 [0];
  tx ← blit tx 36 [0];
  tx ← blit tx 37 [0];
  tx ← wr16be tx 38 ident;
  tx ← wr16be tx 40 seq;
  tx ← (if payload_len =? 0 then Ok tx else data ← slice payload 0 payload_len; blit tx 42 data);
  sum ← checksum16 (from tx 34) (u16 (8 + payload_len));
  wr16be tx 36 sum.

(** The same for [send_udp_packet]; [udp] is [&g_tx_buf[34]]. *)
Definition write_udp (tx mac dst_mac dst_ip : list Z) (ipv4_id src_port dst_port : Z)
    (payload : list Z) (payload_len : Z) : outcome (list Z) :=
  let udp_len := u16 (8 + payload_len) in
  tx ← write_headers tx mac dst_mac dst_ip ipv4_id (u16 (20 + udp_len)) IPV4_PROTO_UDP;
  tx ← wr16be tx 34 src_port;
  tx ← wr16be tx 36 dst_port;
  tx ← wr16be tx 38 udp_len;
  tx ← wr16be tx 40 0;
  if payload_len =? 0 then Ok tx else data ← slice payload 0 payload_len; blit tx 42 data.

(** * The checksum *)

(** The sum of the 16-bit words, an odd last byte being a high byte. *)
Fixpoint word_sum (l : list Z) : Z :=
  match l with
  | a :: b :: l' => a * 256 + b + word_sum l'
  | [a] => a * 256
  | [] => 0
  end.

(** The ones'-complement sum: [n] reduced to [1..65535] modulo 65535. *)
Definition ones_sum (n : Z) : Z := if n =? 0 then 0 else (n - 1) mod 65535 + 1.

Lemma be16_value a b : is_u8 a -> is_u8 b -> Z.lor (Z.shiftl a 8) b = a * 256 + b.
Proof.
  intros Ha Hb. rewrite Z.shiftl_mul_pow2 by lia. change (2 ^ 8) with 256.
  assert (Z.land (a * 256) b = 0) as H.
  { apply Z.bits_inj'. intros n Hn. rewrite Z.land_spec, Z.bits_0.
    change 256 with (2 ^ 8). destruct (Z.ltb_spec n 8); [by rewrite Z.mul_pow2_bits_low|].
    rewrite <- (Z.mod_small b (2 ^ 8)) by (unfold is_u8 in Hb; lia).
    by rewrite (Z.mod_pow2_bits_high b), andb_false_r by lia. }
  by rewrite <- Z.lxor_lor, <- Z.add_nocarry_lxor.
Qed.

Lemma word_sum_ind (P : list Z -> Prop) :
  P [] -> (forall a, P [a]) -> (forall a b l, P l -> P (a :: b :: l)) -> forall l, P l.
Proof.
  intros H0 H1 H2 l. assert (P l /\ forall a, P (a :: l)) as [H _]; [|done].
  induction l as [|b l [IH1 IH2]]; split; auto.
Qed.

Lemma word_sum_bound l : bytes l -> 0 <= word_sum l <= 32768 * Z.of_nat (length l + 1) /\
  0 <= word_sum l <= 65535 * Z.of_nat (length l).
Proof.
  induction l as [|a|a b l IH] using word_sum_ind; intros H; simpl; [lia| |].
  - apply Forall_cons in H as [H _]. unfold is_u8 in H. lia.
  - apply Forall_cons in H as [Ha [Hb Hl]%Forall_cons]. specialize (IH Hl). unfold is_u8 in *. lia.
Qed.

Lemma fold_stop n x : 0 <= x < 65536 -> cloop (S n) fold_body x = Ok x.
Proof.
  intros Hx. rewrite cloop_unfold. unfold fold_body at 1. rewrite Z.shiftr_div_pow2 by lia.
  change (2 ^ 16) with 65536. by rewrite Z.div_small.
Qed.

Lemma fold_go n x : 65536 <= x < 4294967296 ->
  cloop (S n) fold_body x = cloop n fold_body (x mod 65536 + x / 65536).
Proof.
  intros Hx. rewrite cloop_unfold. unfold fold_body at 1.
  change 65535 with (Z.ones 16). rewrite Z.land_ones by lia. rewrite Z.shiftr_div_pow2 by lia. change (2 ^ 16) with 65536.
  rewrite (proj2 (Z.eqb_neq _ _)) by words. by rewrite u32_small by words.
Qed.

Lemma ones_sum_fold x : 65536 <= x -> ones_sum (x mod 65536 + x / 65536) = ones_sum x.
Proof.
  intros Hx. unfold ones_sum. rewrite !(proj2 (Z.eqb_neq _ _)) by words.
  f_equal. pose proof (Z.div_mod x 65536 ltac:(lia)).
  replace (x - 1) with (x mod 65536 + x / 65536 - 1 + (x / 65536) * 65535) by lia.
  by rewrite Z_mod_plus_full.
Qed.

Lemma ones_sum_small x : 0 <= x < 65536 -> ones_sum x = x.
Proof. intros Hx. unfold ones_sum. destruct (Z.eqb_spec x 0); [lia|]. rewrite Z.mod_small; lia. Qed.

Lemma fold_loop_spec s : 0 <= s < 4294967296 -> cloop 4 fold_body s = Ok (ones_sum s).
Proof.
  intros Hs. destruct (Z_lt_le_dec s 65536); [by rewrite fold_stop, ones_sum_small by lia|].
  rewrite fold_go, <- ones_sum_fold by lia. set (s1 := s mod 65536 + s / 65536).
  assert (0 <= s1 < 131071) by (unfold s1; words).
  destruct (Z_lt_le_dec s1 65536); [by rewrite fold_stop, ones_sum_small by lia|].
  rewrite fold_go, <- ones_sum_fold by lia. set (s2 := s1 mod 65536 + s1 / 65536).
  assert (0 <= s2 < 65536) by (unfold s2; words). by rewrite fold_stop, ones_sum_small by lia.
Qed.

(** The bytes of [p] from [i] to [len], as a split of [p]. *)
Lemma sum_loop_spec data len l : forall pre post acc fuel,
  data = pre ++ l ++ post -> bytes data -> len = Z.of_nat (length pre + length l) -> 0 <= len < 65535 ->
  0 <= acc -> acc + word_sum l < 4294967296 -> (length l < fuel)%nat ->
  succeeds (cloop fuel (sum_body data len) (Z.of_nat (length pre), acc)) (fun r =>
    (r = (len, acc + word_sum l)) \/
    exists b, r.1 + 1 = len /\ read data r.1 = Ok b /\ is_u8 b /\ 0 <= r.2 /\ r.2 + b * 256 = acc + word_sum l).
Proof.
  induction l as [|b|a b l IH] using word_sum_ind; intros pre post acc fuel -> Hd -> Hlen Hacc Hs Hf;
    (destruct fuel as [|fuel]; [simpl in Hf; lia|]); rewrite cloop_unfold; unfold sum_body at 1;
    simpl length in *.
  - rewrite (proj2 (Z.ltb_ge _ _)) by words. apply succeeds_ret. left. simpl. f_equal; lia.
  - rewrite (proj2 (Z.ltb_ge _ _)) by words. apply succeeds_ret. right. exists b.
    split_and!; cbn [fst snd]; [lia| | |lia|simpl; lia].
    + rewrite read_ok by (rewrite !length_app; simpl; lia).
      by rewrite Nat2Z.id, byte_at_app_r, Nat.sub_diag by lia.
    + apply Forall_app in Hd as [_ [Hb _]%Forall_app]. by apply Forall_cons in Hb as [Hb _].
  - rewrite (u16_small (_ + 1)) by (unfold is_u16; lia). rewrite (proj2 (Z.ltb_lt _ _)) by lia.
    pose proof Hd as [_ [Hab _]%Forall_app]%Forall_app.
    apply Forall_cons in Hab as [Ha [Hb Hl]%Forall_cons].
    assert (rd16be (pre ++ (a :: b :: l) ++ post) (Z.of_nat (length pre)) = Ok (a * 256 + b)) as ->.
    { unfold rd16be. rewrite !read_ok by (rewrite !length_app; simpl; lia). cbn [mbind outcome_bind].
      rewrite Nat2Z.id, byte_at_app_r, Nat.sub_diag by lia.
      rewrite (byte_at_app_r pre) by lia.
      replace (Z.to_nat (Z.of_nat (length pre) + 1) - length pre)%nat with 1%nat by lia.
      by rewrite be16_value. }
    cbn [mbind outcome_bind]. simpl word_sum in *.
    pose proof (word_sum_bound l Hl). unfold is_u8 in *.
    rewrite u32_small by (unfold is_u32; lia). rewrite u16_small by (unfold is_u16; lia).
    specialize (IH (pre ++ [a; b]) post (acc + (a * 256 + b)) fuel).
    rewrite length_app in IH. simpl length in IH.
    rewrite <- app_assoc in IH. cbn [app] in IH.
    replace (Z.of_nat (length pre + 2)) with (Z.of_nat (length pre) + 2) in IH by lia.
    replace (length pre + 2 + length l)%nat with (length pre + S (S (length l)))%nat in IH by lia.
    eapply succeeds_mono; [apply IH; try done; simpl; lia|]. cbn beta.
    intros r [->|(c & ? & ? & ? & ? & ?)]; [left; f_equal; lia|right; exists c; split_and!; try done; lia].
Qed.

(** The checksum of a packet is the complement of the ones'-complement sum of
    its words. *)
Lemma checksum16_spec data len : bytes data -> 0 <= len < 65535 -> len <= Z.of_nat (length data) ->
  checksum16 data len = Ok (65535 - ones_sum (word_sum (take (Z.to_nat len) data))).
Proof.
  intros Hd Hlen Hle. set (l := take (Z.to_nat len) data).
  assert (length l = Z.to_nat len) as Hl by (unfold l; rewrite length_take; lia).
  assert (bytes l) as Hbl by by apply Forall_take.
  destruct (word_sum_bound l Hbl) as [Hb1 Hb2].
  assert (word_sum l < 4294967296) as Hlt by lia.
  destruct (sum_loop_spec data len l [] (drop (Z.to_nat len) data) 0 (Z.to_nat len + 1)) as ([i s] & E & HQ);
    [symmetry; apply take_drop|done|simpl; lia|done|lia|lia|lia|].
  unfold checksum16. change (Z.of_nat (length [])) with 0 in E. rewrite E. cbn [mbind outcome_bind].
  assert (forall x, 0 <= x < 4294967296 ->
    (sum ← cloop 4 fold_body x; Ok (u16 (Z.lnot sum))) = Ok (65535 - ones_sum x)) as Hfin.
  { intros x Hx. rewrite fold_loop_spec by done. cbn [mbind outcome_bind]. f_equal.
    assert (0 <= ones_sum x <= 65535) by (unfold ones_sum; destruct (x =? 0); words).
    unfold Z.lnot. words. }
  destruct HQ as [[= -> ->]|(b & Hi & Hr & Hb & Hs0 & Hs)]; cbn [fst snd] in *.
  - rewrite Z.ltb_irrefl. cbn [mbind outcome_bind]. apply Hfin. lia.
  - rewrite (proj2 (Z.ltb_lt _ _)) by lia. rewrite Hr. cbn [mbind outcome_bind].
    unfold is_u8 in Hb. rewrite Z.shiftl_mul_pow2 by lia. change (2 ^ 8) with 256.
    rewrite (u16_small (b * 256)) by (unfold is_u16; lia). rewrite u32_small by (unfold is_u32; lia).
    rewrite <- (Z.add_0_l (word_sum l)), <- Hs. apply Hfin. lia.
Qed.

Lemma word_sum_app l k : Nat.even (length l) = true -> word_sum (l ++ k) = word_sum l + word_sum k.
Proof.
  induction l as [|a|a b l IH] using word_sum_ind; intros H; [done|done|].
  simpl. rewrite IH by done. lia.
Qed.

Lemma be16_bytes v : bytes (be16 v).
Proof. repeat constructor; apply u8_range. Qed.

(** Reads and writes inside a buffer of bytes. *)
Lemma rd16be_safe p i : bytes p -> 0 <= i -> i + 2 <= Z.of_nat (length p) -> succeeds (rd16be p i) is_u16.
Proof.
  intros Hp Hi Hlen. unfold rd16be. rewrite !read_ok by lia. cbn [mbind outcome_bind]. apply succeeds_ret.
  pose proof (bytes_at p (Z.to_nat i) Hp). pose proof (bytes_at p (Z.to_nat (i + 1)) Hp).
  rewrite be16_value by done. words.
Qed.

Lemma be16_sum v l : is_u16 v -> word_sum (be16 v ++ l) = v + word_sum l.
Proof.
  intros Hv. unfold be16. simpl. change 255 with (Z.ones 8). rewrite Z.land_ones by lia.
  rewrite Z.shiftr_div_pow2 by lia. change (2 ^ 8) with 256. words.
Qed.

Lemma ones_sum_u16 s : is_u16 (65535 - ones_sum s).
Proof. unfold ones_sum. destruct (s =? 0); words. Qed.

Lemma ones_sum_complement s : 0 <= s -> ones_sum (s + (65535 - ones_sum s)) = 65535.
Proof.
  intros Hs. unfold ones_sum. destruct (Z.eqb_spec s 0) as [->|]; [done|].
  pose proof (Z.div_mod (s - 1) 65535 ltac:(lia)). pose proof (Z.mod_pos_bound (s - 1) 65535 ltac:(lia)).
  rewrite (proj2 (Z.eqb_neq _ _)) by lia.
  replace (s + (65535 - ((s - 1) mod 65535 + 1)) - 1) with (65534 + ((s - 1) / 65535) * 65535) by lia.
  by rewrite Z_mod_plus_full.
Qed.

(** The checksum stored over zero bytes at an even offset verifies. *)
Lemma checksum_fixes pre post c : bytes (pre ++ post) -> Nat.even (length pre) = true ->
  Z.of_nat (length (pre ++ post)) < 65533 ->
  c = 65535 - ones_sum (word_sum (pre ++ [0; 0] ++ post)) ->
  checksum16 (pre ++ be16 c ++ post) (Z.of_nat (length (pre ++ be16 c ++ post))) = Ok 0.
Proof.
  intros [Hpre Hpost]%Forall_app Hev Hlen Hc. rewrite !length_app in *.
  assert (bytes (pre ++ be16 c ++ post)) as Hb
    by (apply Forall_app; split; [done|]; apply Forall_app; split; [apply be16_bytes|done]).
  rewrite checksum16_spec; [|done|simpl; lia|rewrite !length_app; simpl; lia].
  rewrite take_ge by (rewrite !length_app; lia).
  assert (0 <= word_sum pre /\ 0 <= word_sum post) as [? ?]
    by (split; [apply (word_sum_bound pre)|apply (word_sum_bound post)]; done).
  rewrite word_sum_app in Hc by done. change (word_sum ([0; 0] ++ post)) with (word_sum post) in Hc.
  rewrite word_sum_app, be16_sum by (done || (rewrite Hc; apply ones_sum_u16)).
  rewrite (Z.add_comm c), Z.add_assoc, Hc, ones_sum_complement by lia. done.
Qed.

(** * Names on the wire *)

(** Labels as length-prefixed strings, ended by the root label. *)
Definition wire (labels : list (list Z)) : list Z :=
  concat (map (fun l => Z.of_nat (length l) :: l) labels) ++ [0].

Definition label_ok (l : list Z) : Prop := (1 <= length l <= 63)%nat /\ Forall (fun c => host_char_ok c = true) l.

(** Masking with [k] ones above [j] zeros. *)
Lemma land_high j k x : 0 <= j -> 0 <= k -> 0 <= x < 2 ^ (j + k) ->
  Z.land x (Z.shiftl (Z.ones k) j) = (x / 2 ^ j) * 2 ^ j.
Proof.
  intros Hj Hk Hx. rewrite <- Z.shiftr_div_pow2, <- Z.shiftl_mul_pow2 by lia.
  apply Z.bits_inj'. intros n Hn. rewrite Z.land_spec. destruct (Z.ltb_spec n j).
  - rewrite !Z.shiftl_spec_low by lia. by rewrite andb_false_r.
  - rewrite !Z.shiftl_spec, Z.shiftr_spec by lia. replace (n - j + j) with n by lia.
    destruct (Z.ltb_spec n (j + k)); [by rewrite Z.ones_spec_low, andb_true_r by lia|].
    rewrite <- (Z.mod_small x (2 ^ (j + k))) by lia. by rewrite Z.mod_pow2_bits_high by lia.
Qed.

Lemma land_192 x : 0 <= x < 256 -> Z.land x 192 = (x / 64) * 64.
Proof. intros Hx. apply (land_high 6 2); [lia|lia|exact Hx]. Qed.

(** On every message the name loop ends, reads inside [msg_len] only, and
    leaves the cursor past its start and inside the message. *)
Lemma dns_skip_name_safe msg msg_len off :
  bytes msg -> msg_len <= Z.of_nat (length msg) -> 0 <= msg_len <= 65000 -> is_u16 off ->
  succeeds (dns_skip_name msg msg_len off) (fun r =>
    match r with Some off' => off < off' <= msg_len | None => True end).
Proof.
  intros Hb Hlen Hle Hoff. unfold dns_skip_name.
  apply (cloop_ranked _ (fun k '(o, g) => off <= o <= Z.max off msg_len /\ Z.of_nat k + g = msg_len /\ 0 <= g))
    with (k := Z.to_nat msg_len); [|split_and!; lia|lia].
  intros k [o g] (Ho & Hk & Hg). unfold skip_name_body. destruct (Z.ltb_spec o msg_len); [|by apply succeeds_ret].
  unfold is_u16 in Hoff. rewrite read_ok by lia. cbn [mbind outcome_bind].
  pose proof (bytes_at msg (Z.to_nat o) Hb) as Hx. set (x := byte_at msg (Z.to_nat o)) in *.
  unfold is_u8 in Hx. rewrite land_192 by done. rewrite (u16_small (o + 1)) by words.
  destruct (Z.eqb_spec x 0); [apply succeeds_ret; lia|].
  destruct (Z.eqb_spec (x / 64 * 64) 192).
  { apply succeeds_ret. rewrite u16_small by words. destruct (Z.geb_spec (o + 1) msg_len); lia. }
  destruct (Z.eqb_spec (x / 64 * 64) 0); simpl; [|by apply succeeds_ret].
  rewrite u16_small by words. destruct (Z.gtb_spec (o + 1 + x) msg_len); [by apply succeeds_ret|].
  rewrite (u16_small (g + 1)) by words. destruct (Z.gtb_spec (g + 1) msg_len); [by apply succeeds_ret|].
  apply succeeds_ret. exists (pred k). split_and!; lia.
Qed.

(** A name as it may be sent: its labels, then the root label or a pointer to
    the rest of the name. *)
Inductive dname :=
| Full (labels : list (list Z))
| Compressed (labels : list (list Z)) (hi lo : Z).

Definition label_bytes (labels : list (list Z)) : list Z :=
  concat (map (fun l => Z.of_nat (length l) :: l) labels).

Definition dname_bytes (d : dname) : list Z :=
  match d with
  | Full labels => label_bytes labels ++ [0]
  | Compressed labels hi lo => label_bytes labels ++ [192 + hi; lo]
  end.

Definition short (l : list Z) : Prop := (1 <= length l <= 63)%nat.

Definition dname_ok (d : dname) : Prop :=
  match d with
  | Full labels => Forall short labels
  | Compressed labels hi lo => Forall short labels /\ 0 <= hi < 64 /\ is_u8 lo
  end.

(** The loop passes the labels one by one. *)
Lemma skip_labels msg_len labels : forall pre post g fuel,
  Z.of_nat (length pre + length (label_bytes labels)) <= msg_len -> msg_len <= 65000 ->
  0 <= g -> g + Z.of_nat (length labels) <= msg_len -> Forall short labels ->
  cloop (length labels + fuel) (skip_name_body (pre ++ label_bytes labels ++ post) msg_len) (Z.of_nat (length pre), g)
  = cloop fuel (skip_name_body (pre ++ label_bytes labels ++ post) msg_len)
      (Z.of_nat (length pre + length (label_bytes labels)), g + Z.of_nat (length labels)).
Proof.
  induction labels as [|l labels IH]; intros pre post g fuel Hlen Hle Hg Hgl Hl.
  { simpl. do 2 f_equal; lia. }
  apply Forall_cons in Hl as [Hl1 Hl]. unfold short in Hl1.
  change (label_bytes (l :: labels)) with ((Z.of_nat (length l) :: l) ++ label_bytes labels) in *.
  rewrite <- app_assoc in *. cbn [app] in *. simpl length in *. rewrite length_app in *.
  rewrite Nat.add_succ_l, cloop_unfold. unfold skip_name_body at 1.
  rewrite (proj2 (Z.ltb_lt _ _)) by lia. rewrite read_ok by (rewrite length_app; simpl; lia).
  rewrite Nat2Z.id, byte_at_app_r, Nat.sub_diag by lia. cbn [mbind outcome_bind].
  change (byte_at (?x :: _) 0) with x.
  rewrite land_192 by lia. rewrite (Z.div_small _ 64) by lia. change (0 * 64) with 0.
  rewrite (proj2 (Z.eqb_neq (Z.of_nat (length l)) 0)) by lia.
  change (0 =? 192) with false. change (negb (0 =? 0)) with false. cbn iota.
  rewrite !(u16_small (Z.of_nat (length pre) + 1)) by words.
  rewrite u16_small by words. rewrite Z.gtb_ltb, (proj2 (Z.ltb_ge _ _)) by lia.
  rewrite (u16_small (g + 1)) by words. rewrite Z.gtb_ltb, (proj2 (Z.ltb_ge _ _)) by lia.
  specialize (IH (pre ++ Z.of_nat (length l) :: l) post (g + 1) fuel).
  rewrite length_app in IH. simpl length in IH. rewrite <- app_assoc in IH. cbn [app] in IH.
  replace (Z.of_nat (length pre) + 1 + Z.of_nat (length l)) with (Z.of_nat (length pre + S (length l))) by lia.
  rewrite IH by (done || lia). do 2 f_equal; lia.
Qed.

Lemma label_bytes_length labels : (length labels <= length (label_bytes labels))%nat.
Proof. unfold label_bytes. induction labels as [|l labels IH]; simpl; [done|]. rewrite length_app. lia. Qed.

(** [dns_skip_name] passes a whole name, compressed or not. *)
Lemma dns_skip_name_spec pre d post msg_len :
  dname_ok d -> Z.of_nat (length pre + length (dname_bytes d)) <= msg_len -> msg_len <= 65000 ->
  dns_skip_name (pre ++ dname_bytes d ++ post) msg_len (Z.of_nat (length pre))
  = Ok (Some (Z.of_nat (length pre + length (dname_bytes d)))).
Proof.
  intros Hd Hlen Hle. unfold dns_skip_name.
  assert (exists labels e, dname_bytes d = label_bytes labels ++ e /\ Forall short labels /\
    (e = [0] \/ exists hi lo, e = [192 + hi; lo] /\ 0 <= hi < 64 /\ is_u8 lo)) as (labels & e & E & Hl & He).
  { destruct d as [labels|labels hi lo]; [exists labels, [0]; by split_and!; [| |left]|].
    destruct Hd as (? & ? & ?). exists labels, [192 + hi; lo]. split_and!; [done|done|]. right. by exists hi, lo. }
  rewrite E in *. rewrite length_app in *. rewrite <- app_assoc.
  pose proof (label_bytes_length labels).
  assert (1 <= length e)%nat by (destruct He as [->|(? & ? & -> & _)]; simpl; lia).
  replace (Z.to_nat msg_len + 2)%nat with (length labels + S (Z.to_nat msg_len + 1 - length labels))%nat by lia.
  rewrite skip_labels by (done || lia). rewrite cloop_unfold. unfold skip_name_body at 1.
  rewrite (proj2 (Z.ltb_lt _ _)) by lia. rewrite read_ok by (rewrite !length_app; lia).
  rewrite Nat2Z.id, (app_assoc pre), byte_at_app_r by (rewrite length_app; lia).
  rewrite length_app, Nat.sub_diag. cbn [mbind outcome_bind].
  destruct He as [->|(hi & lo & -> & Hhi & Hlo)].
  - change (byte_at ([0] ++ post) 0) with 0. simpl. rewrite u16_small by (simpl in Hlen; words).
    do 2 f_equal. lia.
  - change (byte_at ([192 + hi; lo] ++ post) 0) with (192 + hi). rewrite land_192 by lia.
    assert ((192 + hi) / 64 = 3) as -> by (symmetry; apply (Z.div_unique _ _ _ hi); lia).
    rewrite (proj2 (Z.eqb_neq _ 0)) by lia. change (3 * 64 =? 192) with true. cbn iota. simpl in Hlen.
    rewrite u16_small by words. rewrite Z.geb_leb, (proj2 (Z.leb_gt _ _)) by lia.
    rewrite u16_small by words. do 3 f_equal. simpl. lia.
Qed.

(** * Building a query *)

(** The buffer when [pre] has been written: zeros follow. *)
Definition filled (pre : list Z) (n : nat) : list Z := pre ++ replicate (n - length pre) 0.

Lemma filled_blit pre n i d : i = Z.of_nat (length pre) -> (length (pre ++ d) <= n)%nat ->
  blit (filled pre n) i d = Ok (filled (pre ++ d) n).
Proof.
  intros Hi Hn. rewrite length_app in Hn. unfold filled.
  replace (n - length pre)%nat with (length d + (n - length (pre ++ d)))%nat by (rewrite length_app; lia).
  rewrite replicate_add, blit_app by (done || by rewrite length_replicate). by rewrite <- app_assoc.
Qed.

Lemma lower_ok c : host_char_ok c = true -> u8 (to_lower_ascii c) = to_lower_ascii c /\ c <> 0 /\ c <> ch ".".
Proof.
  unfold host_char_ok, to_lower_ascii. chars. intros H.
  split; [|lia]. apply u8_small. unfold is_u8. case_match; lia.
Qed.

(** The characters of one label. *)
Lemma query_label n l : forall pre rest fuel ll llp,
  Forall (fun c => host_char_ok c = true) l -> (ll + length l <= 63)%nat ->
  (length pre + length l <= n)%nat -> Z.of_nat n <= 65000 ->
  cloop (length l + fuel) (query_body (Z.of_nat n))
    (Query (l ++ rest) (Z.of_nat (length pre)) llp (Z.of_nat ll) (filled pre n))
  = cloop fuel (query_body (Z.of_nat n))
    (Query rest (Z.of_nat (length pre + length l)) llp (Z.of_nat (ll + length l))
      (filled (pre ++ map to_lower_ascii l) n)).
Proof.
  induction l as [|c l IH]; intros pre rest fuel ll llp Hl Hll Hpre Hn.
  { simpl. by rewrite !Nat.add_0_r, app_nil_r. }
  apply Forall_cons in Hl as [Hc Hl]. destruct (lower_ok c Hc) as (Hlow & Hc0 & Hdot).
  simpl length in *. rewrite Nat.add_succ_l, cloop_unfold. unfold query_body at 1.
  change (hd0 ((c :: l) ++ rest)) with c. rewrite (proj2 (Z.eqb_neq c 0)), (proj2 (Z.eqb_neq c (ch "."))) by done.
  rewrite Hc. cbn [negb]. rewrite Z.geb_leb, (proj2 (Z.leb_gt _ _)) by lia.
  rewrite Z.geb_leb, (proj2 (Z.leb_gt _ _)) by lia. rewrite filled_blit by (done || (rewrite length_app; simpl; lia)).
  cbn [mbind outcome_bind tl0 tail app]. rewrite !u16_small by words. rewrite Hlow.
  specialize (IH (pre ++ [to_lower_ascii c]) rest fuel (S ll) llp Hl). rewrite length_app in IH. simpl length in IH.
  replace (Z.of_nat (length pre) + 1) with (Z.of_nat (length pre + 1)) by lia.
  replace (Z.of_nat ll + 1) with (Z.of_nat (S ll)) by lia.
  rewrite IH by lia. simpl map. rewrite <- app_assoc. cbn [app]. do 3 f_equal; lia.
Qed.

(** A host name as typed, and its labels as sent, without the root label. *)
Definition dotted (labels : list (list Z)) : list Z :=
  match labels with
  | [] => []
  | l :: ls => l ++ concat (map (fun l => ch "." :: l) ls)
  end.

Definition encoded (labels : list (list Z)) : list Z :=
  concat (map (fun l => Z.of_nat (length l) :: map to_lower_ascii l) labels).

Lemma filled_patch pre x y l n : (length pre + 1 + length l <= n)%nat ->
  blit (filled (pre ++ x :: l) n) (Z.of_nat (length pre)) [y] = Ok (filled (pre ++ y :: l) n).
Proof.
  intros Hn. unfold filled. rewrite <- !app_assoc. cbn [app]. rewrite !length_app. simpl length.
  by apply (blit_app pre [x]).
Qed.

(** Leaves the loop after the last label, its length byte still to be patched. *)
Lemma query_labels n ls : forall l pre fuel,
  Forall label_ok (l :: ls) -> (length pre + length (encoded (l :: ls)) <= n)%nat -> Z.of_nat n <= 65000 ->
  exists llp ll out,
    cloop (length (dotted (l :: ls)) + S fuel) (query_body (Z.of_nat n))
      (Query (dotted (l :: ls)) (Z.of_nat (length pre + 1)) (Z.of_nat (length pre)) 0 (filled (pre ++ [0]) n))
    = Ok (Some (Query [] (Z.of_nat (length pre + length (encoded (l :: ls)))) llp ll out)) /\
    ll <> 0 /\ blit out llp [u8 ll] = Ok (filled (pre ++ encoded (l :: ls)) n).
Proof.
  induction ls as [|l' ls IH]; intros l pre fuel [[Hl Hc] Hls]%Forall_cons Hn Hmax.
  - unfold encoded, dotted in *. simpl in *. rewrite !app_nil_r in *. rewrite length_map in Hn.
    pose proof (query_label n l (pre ++ [0]) [] (S fuel) 0 (Z.of_nat (length pre)) Hc) as H.
    rewrite length_app in H. simpl length in H. change (Z.of_nat 0) with 0 in H.
    rewrite app_nil_r in H. rewrite H by lia. clear H.
    rewrite cloop_unfold. simpl. rewrite length_map, <- app_assoc. eexists _, _, _.
    split; [do 3 f_equal; lia|]. split; [lia|]. cbn [app]. rewrite u8_small by (unfold is_u8; lia).
    apply filled_patch. rewrite length_map. lia.
  - change (encoded (l :: l' :: ls)) with ((Z.of_nat (length l) :: map to_lower_ascii l) ++ encoded (l' :: ls)) in *.
    change (dotted (l :: l' :: ls)) with (l ++ ch "." :: dotted (l' :: ls)) in *.
    rewrite !length_app in *. cbn [length] in *. rewrite length_map in *.
    assert (1 <= length (encoded (l' :: ls)))%nat by (unfold encoded; simpl; lia).
    replace (length l + S (length (dotted (l' :: ls))) + S fuel)%nat
      with (length l + S (length (dotted (l' :: ls)) + S fuel))%nat by lia.
    pose proof (query_label n l (pre ++ [0]) (ch "." :: dotted (l' :: ls))
      (S (length (dotted (l' :: ls)) + S fuel)) 0 (Z.of_nat (length pre)) Hc) as H'.
    rewrite length_app in H'. cbn [length] in H'. change (Z.of_nat 0) with 0 in H'. rewrite H' by lia. clear H'.
    rewrite cloop_unfold. unfold query_body at 1.
    change (hd0 (ch "." :: ?r)) with (ch "."). change (ch "." =? 0) with false. change (ch "." =? ch ".") with true.
    cbn iota. zdec. rewrite u8_small by (unfold is_u8; lia). rewrite <- !app_assoc. cbn [app].
    rewrite filled_patch by (rewrite length_map; lia). cbn [mbind outcome_bind].
    assert (byte_at (ch "." :: dotted (l' :: ls)) 1 <> 0) as Hne.
    { apply Forall_cons in Hls as [[Hl' Hc'] _]. destruct l' as [|c l']; [simpl in Hl'; lia|].
      apply Forall_cons in Hc' as [Hc' _]. by apply lower_ok in Hc' as (_ & ? & _). }
    rewrite (proj2 (Z.eqb_neq _ _) Hne). zdec.
    rewrite filled_blit by (rewrite ?length_app; simpl; rewrite length_map; lia). cbn [mbind outcome_bind tl0 tail].
    specialize (IH l' (pre ++ Z.of_nat (length l) :: map to_lower_ascii l) fuel Hls).
    rewrite !length_app in IH. cbn [length] in IH. rewrite !length_map in IH.
    destruct IH as (llp & ll & out & IH & Hll & Hout); [lia|done|].
    exists llp, ll, out. rewrite u16_small by words.
    replace (Z.of_nat (length pre + 1 + length l) + 1) with (Z.of_nat (length pre + S (length l) + 1)) by lia.
    replace (Z.of_nat (length pre + 1 + length l)) with (Z.of_nat (length pre + S (length l))) by lia.
    rewrite Nat.add_0_l, IH. split_and!; [do 4 f_equal; lia|done|]. by rewrite Hout, <- app_assoc.
Qed.

(** The query for [labels]: a header with the id, recursion desired and one
    question, then the question. *)
Definition query_bytes (id : Z) (labels : list (list Z)) : list Z :=
  (be16 id ++ [1; 0; 0; 1; 0; 0; 0; 0; 0; 0]) ++ encoded labels ++ [0; 0; 1; 0; 1].

Lemma dotted_hd labels : labels <> [] -> Forall label_ok labels ->
  hd0 (dotted labels) <> 0 /\ hd0 (dotted labels) <> ch " ".
Proof.
  destruct labels as [|l ls]; [done|]. intros _ [[Hl Hc] _]%Forall_cons. destruct l as [|c l]; [simpl in Hl; lia|].
  apply Forall_cons in Hc as [Hc _]. cbn. change (c <> 0 /\ c <> ch " ").
  split; [by apply lower_ok in Hc as (_ & ? & _)|]. unfold host_char_ok in Hc. chars. lia.
Qed.

Lemma skip_spaces_app m l : hd0 l <> ch " " -> skip_spaces (replicate m (ch " ") ++ l) = l.
Proof.
  intros Hl. induction m as [|m IH]; [|done]. destruct l as [|c l]; [done|]. cbn [app replicate skip_spaces].
  by rewrite (proj2 (Z.eqb_neq c (ch " "))).
Qed.

Lemma query_tail n q : (length q + 5 <= n)%nat -> Z.of_nat n <= 65000 ->
  let pos := Z.of_nat (length q) in
  (out ← blit (filled q n) pos [0]; out ← wr16be out (u16 (pos + 1)) 1;
   out ← wr16be out (u16 (u16 (pos + 1) + 2)) 1; Ok (Some (out, u16 (u16 (u16 (pos + 1) + 2) + 2))))
  = Ok (Some (filled (q ++ [0; 0; 1; 0; 1]) n, pos + 5)).
Proof.
  intros Hq Hn pos. unfold pos. rewrite !u16_small by words.
  rewrite filled_blit by (done || (rewrite !length_app; cbn [length]; lia)). cbn [mbind outcome_bind].
  unfold wr16be. change (be16 1) with [0; 1].
  rewrite filled_blit by (rewrite !length_app; cbn [length]; lia). cbn [mbind outcome_bind].
  rewrite filled_blit by (rewrite !length_app; cbn [length]; lia). cbn [mbind outcome_bind].
  rewrite <- !app_assoc. cbn [app]. do 3 f_equal. lia.
Qed.

Lemma filled_zeros pre k n : (length pre + k <= n)%nat -> filled (pre ++ replicate k 0) n = filled pre n.
Proof.
  intros H. unfold filled. rewrite <- app_assoc, <- replicate_add. f_equal. f_equal.
  rewrite length_app, length_replicate. lia.
Qed.

Lemma query_header_spec n id out : length out = n -> (13 <= n)%nat ->
  query_header out (Z.of_nat n) id
  = Ok (filled ((be16 id ++ [1; 0; 0; 1; 0; 0; 0; 0; 0; 0]) ++ [0]) n).
Proof.
  intros Hout Hn. unfold query_header, wr16be. rewrite Nat2Z.id, (blit_ok out) by (rewrite ?length_replicate; lia).
  assert (take (Z.to_nat 0) out ++ replicate n 0 ++ drop (Z.to_nat 0 + length (replicate n 0)) out = filled [] n) as ->.
  { rewrite length_replicate, drop_ge, app_nil_r by lia. unfold filled. cbn. by rewrite Nat.sub_0_r. }
  cbn [mbind outcome_bind].
  rewrite (filled_blit [] n 0 (be16 id)) by (done || (cbn; lia)). cbn [mbind outcome_bind app].
  rewrite (filled_blit (be16 id) n 2) by (done || (cbn; lia)). cbn [mbind outcome_bind].
  rewrite filled_blit by (done || (cbn; lia)). cbn [mbind outcome_bind].
  rewrite <- (filled_zeros _ 6) by (cbn; lia). by rewrite filled_blit by (done || (cbn; lia)).
Qed.

Lemma build_dns_query_spec n m id out labels :
  labels <> [] -> Forall label_ok labels -> length out = n -> Z.of_nat n <= 65000 ->
  (length (query_bytes id labels) <= n)%nat ->
  build_dns_query (replicate m (ch " ") ++ dotted labels) id out (Z.of_nat n)
  = Ok (Some (filled (query_bytes id labels) n, Z.of_nat (length (query_bytes id labels)))).
Proof.
  intros Hne Hl Hout Hn Hlen. destruct (dotted_hd labels Hne Hl) as [Hhd Hsp].
  destruct labels as [|l ls]; [done|].
  assert (17 + length (encoded (l :: ls)) <= n)%nat as Hlen'
    by (unfold query_bytes, be16 in Hlen; rewrite !length_app in Hlen; cbn [length] in Hlen; lia).
  assert (length (encoded (l :: ls)) >= 2)%nat as Henc.
  { pose proof Hl as [[Hl1 _] _]%Forall_cons. unfold encoded. simpl. rewrite length_app, length_map. lia. }
  unfold build_dns_query. zdec. rewrite skip_spaces_app by done.
  rewrite (proj2 (Z.eqb_neq _ _)) by done.
  rewrite query_header_spec by (done || lia).
  set (hdr := be16 id ++ _). assert (length hdr = 12%nat) as Hhdr by done.
  destruct (query_labels n ls l hdr 0 Hl ltac:(lia) Hn) as (llp & ll & out' & Hq & Hll & Hb).
  cbn [mbind outcome_bind]. rewrite Hhdr in Hq.
  change (Z.of_nat (12 + 1)) with 13 in Hq. change (Z.of_nat 12) with 12 in Hq. rewrite Hq.
  cbn [mbind outcome_bind]. rewrite (proj2 (Z.eqb_neq _ _)) by done. rewrite Hb. cbn [mbind outcome_bind].
  rewrite Z.gtb_ltb, u16_small by words. zdec.
  pose proof (query_tail n (hdr ++ encoded (l :: ls))) as Ht. rewrite length_app, Hhdr in Ht.
  cbn zeta in Ht. rewrite Ht by lia. unfold query_bytes. fold hdr.
  rewrite <- app_assoc, !length_app, Hhdr. cbn [length]. do 3 f_equal. lia.
Qed.

(** ** A trailing dot

    The loop leaves such a name, if at all, behind its last dot. *)

Lemma put_length p i d : 0 <= i -> i + Z.of_nat (length d) <= Z.of_nat (length p) ->
  succeeds (blit p i d) (fun p' => length p' = length p).
Proof.
  intros Hi Hd. rewrite blit_ok by done. apply succeeds_ret. rewrite !length_app, length_take, length_drop. lia.
Qed.

Definition dotted_state (n : nat) (s : query_state) : Prop :=
  length (q_out s) = n /\ 12 <= q_llp s < Z.of_nat n /\ 13 <= q_pos s <= Z.of_nat n /\ 0 <= q_ll s <= 63 /\
  exists p, nul_free p /\ q_p s = p ++ bs ".".

Lemma dotted_turn n k s : Z.of_nat n <= 65535 -> dotted_state n s /\ length (q_p s) = k ->
  succeeds (query_body (Z.of_nat n) s) (fun r => match r with
    | inl s' => exists k', (k' < k)%nat /\ dotted_state n s' /\ length (q_p s') = k'
    | inr (Some s') => q_ll s' = 0
    | inr None => True end).
Proof.
  destruct s as [p0 pos llp ll out]. intros Hn [(Hl & Hllp & Hpos & Hll & p & Hp & E) <-]. simpl in *. subst p0.
  unfold query_body. cbv zeta. destruct p as [|c p].
  - change (bs ".") with [ch "."]. cbn [app hd0]. change (ch "." =? 0) with false. change (ch "." =? ch ".") with true. cbn iota.
    destruct (ll =? 0); [by apply succeeds_ret|].
    eapply succeeds_bind; [apply put_length; simpl; lia|]. intros o1 _. by apply succeeds_ret.
  - apply Forall_cons in Hp as [Hc Hp]. change (hd0 ((c :: p) ++ _)) with c. rewrite (proj2 (Z.eqb_neq c 0)) by done.
    cbn [tl0 tail app]. destruct (c =? ch ".").
    + destruct (ll =? 0); [by apply succeeds_ret|].
      eapply succeeds_bind; [apply put_length; simpl; lia|]. intros o1 Hl1. cbn beta in Hl1.
      destruct (_ =? 0); [by apply succeeds_ret|].
      rewrite Z.geb_leb. destruct (Z.leb_spec (Z.of_nat n) pos); [by apply succeeds_ret|].
      eapply succeeds_bind; [apply put_length; simpl; lia|]. intros o2 Hl2. cbn beta in Hl2.
      apply succeeds_ret. exists (length (p ++ [ch "."])). rewrite u16_small by words.
      unfold dotted_state. split; [simpl; lia|]. split_and!; simpl; try lia. by exists p.
    + case_match; [by apply succeeds_ret|]. rewrite !Z.geb_leb. destruct (Z.leb_spec 63 ll); [by apply succeeds_ret|].
      destruct (Z.leb_spec (Z.of_nat n) pos); [by apply succeeds_ret|].
      eapply succeeds_bind; [apply put_length; simpl; lia|]. intros o1 Hl1. cbn beta in Hl1.
      apply succeeds_ret. exists (length (p ++ [ch "."])). rewrite !u16_small by words.
      unfold dotted_state. split; [simpl; lia|]. split_and!; simpl; try lia. by exists p.
Qed.

Lemma skip_spaces_dot name : nul_free name -> exists p, nul_free p /\ skip_spaces (name ++ bs ".") = p ++ bs ".".
Proof.
  induction 1 as [|c name Hc Hname IH]; [exists []; by split; [apply Forall_nil|]|].
  cbn [app skip_spaces]. destruct (c =? ch " "); [done|].
  exists (c :: name). split; [apply Forall_cons; split; [exact Hc|exact Hname]|done].
Qed.

Lemma trailing_dot_rejected name id out : nul_free name -> Z.of_nat (length out) <= 65535 ->
  build_dns_query (name ++ bs ".") id out (Z.of_nat (length out)) = Ok None.
Proof.
  intros Hname Hn. unfold build_dns_query. destruct (Z.ltb_spec (Z.of_nat (length out)) 18); [done|].
  destruct (skip_spaces_dot name Hname) as (p & Hp & ->).
  rewrite (proj2 (Z.eqb_neq _ _)) by (destruct Hp; done).
  rewrite query_header_spec by (done || lia). cbn [mbind outcome_bind].
  set (out1 := filled _ _). assert (Hl1 : length out1 = length out).
  { unfold out1, filled. rewrite length_app, length_replicate. cbn [length app]. simpl. lia. }
  clearbody out1. destruct (cloop_ranked (query_body (Z.of_nat (length out)))
    (fun k s => dotted_state (length out) s /\ length (q_p s) = k)
    (fun r => match r with Some s' => q_ll s' = 0 | None => True end)) with
    (fuel := (length (p ++ bs ".") + 1)%nat) (k := length (p ++ bs ".")) (s := Query (p ++ bs ".") 13 12 0 out1)
    as (r & -> & Hr).
  - intros k s Hs. eapply succeeds_mono; [by apply dotted_turn|]. by intros [s'|[s'|]].
  - split; [|done]. unfold dotted_state. split_and!; simpl; try lia. by exists p.
  - lia.
  - cbn [mbind outcome_bind]. destruct r as [[p' pos llp ll o]|]; [|done]. cbn in Hr. by subst ll.
Qed.

(** * Dotted-decimal addresses *)

Definition dec_digit (c : Z) : bool := (ch "0" <=? c) && (c <=? ch "9").
Definition dec_from (v : Z) (ds : list Z) : Z := foldl (fun v c => v * 10 + (c - ch "0")) v ds.
Definition decimal (ds : list Z) : Z := dec_from 0 ds.

(** The text of a part: digits of a number up to 255. *)
Definition part_ok (ds : list Z) : Prop :=
  ds <> [] /\ Forall (fun c => dec_digit c = true) ds /\ decimal ds <= 255.

Lemma dec_from_ge ds : forall v, Forall (fun c => dec_digit c = true) ds -> 0 <= v -> v <= dec_from v ds.
Proof.
  induction ds as [|c ds IH]; intros v H Hv; [done|]. apply Forall_cons in H as [Hc H].
  simpl. unfold dec_digit in Hc. chars. etrans; [|apply IH; [done|]]; lia.
Qed.

Lemma part_digits_spec p : forall v v' rest, 0 <= v <= 255 ->
  part_digits p v = Some (v', rest) <->
  exists ds, p = ds ++ rest /\ Forall (fun c => dec_digit c = true) ds /\ dec_digit (hd0 rest) = false /\
    v' = dec_from v ds /\ v' <= 255.
Proof.
  induction p as [|c p IH]; intros v v' rest Hv.
  - simpl. split.
    + intros [= <- <-]. exists []. split_and!; try done. lia.
    + intros ([|? ds] & Hp & _ & _ & -> & _); [|done]. by simpl in Hp; subst.
  - simpl. destruct (_ && _) eqn:Hc.
    + assert (0 <= v * 10 + (c - ch "0")) by (chars; lia).
      assert (dec_digit c = true) as Hd by done. rewrite Z.gtb_ltb. destruct (Z.ltb_spec 255 (v * 10 + (c - ch "0"))).
      * split; [done|]. intros ([|c' ds] & Hp & Hds & Hr & -> & Hle).
        { simpl in Hp. subst rest. change (dec_digit c = false) in Hr. congruence. }
        injection Hp as <- ->. apply Forall_cons in Hds as [_ Hds].
        pose proof (dec_from_ge ds (v * 10 + (c - ch "0")) Hds ltac:(lia)). simpl in Hle. unfold dec_from in *. lia.
      * rewrite IH by lia. split.
        { intros (ds & -> & Hds & Hr & -> & Hle). exists (c :: ds). split_and!; try done. by constructor. }
        intros ([|c' ds] & Hp & Hds & Hr & -> & Hle).
        { simpl in Hp. subst rest. change (dec_digit c = false) in Hr. congruence. }
        injection Hp as <- ->. apply Forall_cons in Hds as [_ Hds]. by exists ds.
    + split.
      * intros [= <- <-]. exists []. split_and!; try done. lia.
      * intros ([|c' ds] & Hp & Hds & Hr & -> & Hle); [by simpl in Hp; subst|].
        injection Hp as <- ->. apply Forall_cons in Hds as [Hd _]. unfold dec_digit in Hd. congruence.
Qed.

Lemma dotted_cons l l' ls : dotted (l :: l' :: ls) = l ++ ch "." :: dotted (l' :: ls).
Proof. done. Qed.

Lemma dotted_one l : dotted [l] = l.
Proof. unfold dotted. simpl. by rewrite app_nil_r. Qed.

Lemma part_ok_hd ds r : part_ok ds -> (hd0 (ds ++ r) <? ch "0") || (hd0 (ds ++ r) >? ch "9") = false.
Proof.
  intros (Hne & Hds & _). destruct ds as [|c ds]; [done|]. apply Forall_cons in Hds as [Hc _].
  change (hd0 ((c :: ds) ++ r)) with c. unfold dec_digit in Hc. chars. lia.
Qed.

Lemma part_ok_digits ds rest v p : dec_digit (hd0 rest) = false -> part_ok ds ->
  part_digits (ds ++ rest) 0 = Some (v, p) <-> v = decimal ds /\ p = rest.
Proof.
  intros Hr (Hne & Hds & Hle).
  assert (part_digits (ds ++ rest) 0 = Some (decimal ds, rest)) as ->
    by (apply part_digits_spec; [lia|]; exists ds; by split_and!).
  split; [by intros [= -> ->]|by intros [-> ->]].
Qed.

Lemma decimal_nonneg ds : part_ok ds -> 0 <= decimal ds <= 255.
Proof. intros (_ & H & ?). split; [|done]. by apply dec_from_ge. Qed.

#[local] Arguments dotted : simpl never.
#[local] Arguments decimal : simpl never.

(** The loop over the parts succeeds exactly on dotted texts of parts. *)
Lemma parse_parts_complete dss : forall part out rest, Forall part_ok dss ->
  (part + length dss = 4)%nat -> length out = 4%nat -> dec_digit (hd0 rest) = false -> dss <> [] ->
  parse_parts (length dss) part (dotted dss ++ rest) out
  = (true, take part out ++ map decimal dss, rest).
Proof.
  induction dss as [|ds dss IH]; intros part out rest Hall Hn Hout Hr Hne; [done|].
  apply Forall_cons in Hall as [Hds Hall]. pose proof (decimal_nonneg ds Hds) as Hb.
  assert (u8 (decimal ds) = decimal ds) as Hu8 by (apply u8_small; unfold is_u8; lia).
  simpl length in *. simpl parse_parts.
  destruct dss as [|ds' dss].
  - rewrite dotted_one, part_ok_hd by done. rewrite (proj2 (part_ok_digits ds rest _ _ Hr Hds)) by done.
    rewrite (proj2 (Nat.ltb_ge _ _)) by (simpl in *; lia). simpl. rewrite Hu8.
    assert (part = 3%nat) as -> by (simpl in *; lia). destruct out as [|? [|? [|? [|? [|? ?]]]]]; try done. cbn. by rewrite ?Hu8.
  - rewrite dotted_cons, <- app_assoc. cbn [app]. rewrite part_ok_hd by done.
    rewrite (proj2 (part_ok_digits ds (ch "." :: dotted (ds' :: dss) ++ rest) _ _ eq_refl Hds)) by done.
    rewrite (proj2 (Nat.ltb_lt _ _)) by (simpl in *; lia).
    change (hd0 (ch "." :: ?l) =? ch ".") with true. cbn [negb tl0 tail].
    rewrite IH by (done || (rewrite ?length_insert; simpl in *; lia)).
    f_equal. f_equal. rewrite Hu8. simpl in Hn.
    assert (part = 0 \/ part = 1 \/ part = 2)%nat as [->|[->| ->]] by lia;
      destruct out as [|? [|? [|? [|? [|? ?]]]]]; try done; cbn; by rewrite ?Hu8.
Qed.

Lemma parse_parts_sound n : forall part p out out' rest,
  parse_parts n part p out = (true, out', rest) -> (part + n = 4)%nat -> n <> 0%nat ->
  exists dss, length dss = n /\ Forall part_ok dss /\ p = dotted dss ++ rest /\ dec_digit (hd0 rest) = false.
Proof.
  induction n as [|n IH]; intros part p out out' rest H Hn Hne; [done|]. simpl in H.
  destruct (_ || _) eqn:Hhd; [done|].
  destruct (part_digits p 0) as [[v p1]|] eqn:Hd; [|done].
  apply part_digits_spec in Hd as (ds & -> & Hds & Hr & -> & Hle); [|lia].
  assert (part_ok ds) as Hok.
  { split_and!; try done. intros ->. simpl in Hhd. unfold dec_digit in Hr. chars. lia. }
  destruct (Nat.ltb_spec part 3).
  - destruct (Z.eqb_spec (hd0 p1) (ch ".")) as [Hdot|]; [|done]. simpl in H.
    apply IH in H as (dss & Hl & Hall & Hp & Hrest); [|lia..].
    destruct p1 as [|c p1]; [done|]. change (c = ch ".") in Hdot. simpl in Hp. subst c p1.
    exists (ds :: dss). split_and!; [simpl; lia|by constructor| |done].
    destruct dss; [simpl in *; lia|]. by rewrite dotted_cons, <- app_assoc.
  - assert (n = 0%nat) as -> by lia. injection H as <- <-. exists [ds]. rewrite dotted_one.
    split_and!; try done. by constructor.
Qed.

Lemma skip_spaces_split p : exists m, p = replicate m (ch " ") ++ skip_spaces p /\ hd0 (skip_spaces p) <> ch " ".
Proof.
  induction p as [|c p (m & Hp & Hhd)]; [by exists 0%nat|]. simpl. destruct (Z.eqb_spec c (ch " ")) as [->|].
  - exists (S m). simpl. by rewrite <- Hp.
  - by exists 0%nat.
Qed.

Lemma encoded_wire labels : Forall label_ok labels ->
  encoded labels ++ [0] = wire (map (map to_lower_ascii) labels).
Proof.
  intros _. unfold encoded, wire. f_equal. f_equal. rewrite map_map.
  apply map_ext. intros l. by rewrite length_map.
Qed.

(** * Properties *)

(** The Internet checksum verifies at the receiver: for every packet of
    fewer than 65533 other bytes with a checksum field at an even offset,
    [checksum16] of the packet with a zero field gives a value, a 16-bit one,
    and the packet with that value stored big-endian in the field has checksum
    0 (the sum of 16-bit ones'-complement words, an odd last byte padded). *)
Theorem checksum16_verifies pre post :
  bytes (pre ++ post) -> Nat.even (length pre) = true -> Z.of_nat (length (pre ++ post)) < 65533 ->
  exists c, is_u16 c /\
    checksum16 (pre ++ [0; 0] ++ post) (Z.of_nat (length (pre ++ [0; 0] ++ post))) = Ok c /\
    checksum16 (pre ++ be16 c ++ post) (Z.of_nat (length (pre ++ be16 c ++ post))) = Ok 0.
Proof.
  intros Hb Hev Hlen. exists (65535 - ones_sum (word_sum (pre ++ [0; 0] ++ post))).
  split; [apply ones_sum_u16|]. split; [|by apply checksum_fixes].
  apply Forall_app in Hb as [Hpre Hpost]. rewrite !length_app in *. cbn [length] in *.
  rewrite checksum16_spec.
  - rewrite take_ge; [done|]. rewrite !length_app. cbn [length]. lia.
  - apply Forall_app; split; [done|]. by repeat constructor.
  - lia.
  - rewrite !length_app. cbn [length]. lia.
Qed.

Lemma checksum16_verifies_witness :
  exists c, is_u16 c /\
    checksum16 (bs "E123" ++ [0; 0] ++ bs "odd") 9 = Ok c /\
    checksum16 (bs "E123" ++ be16 c ++ bs "odd") 9 = Ok 0.
Proof.
  apply (checksum16_verifies (bs "E123") (bs "odd")).
  - by repeat constructor.
  - reflexivity.
  - reflexivity.
Defined.

(** C37: [build_dns_query] encodes a host name and [dns_skip_name] decodes its
    length: for every non-empty list of labels (1 to 63 letters, digits and
    dashes) typed with dots between them and spaces before, if the query fits
    the buffer it is the header (id, recursion desired, one question), each
    label lower-cased behind its length, the root label, type A, class IN,
    then zeros; the name loop run on it at offset 12 stops 4 bytes before its
    end.  Every text that ends in a dot is rejected, whatever the buffer. *)
Theorem build_dns_query_correct n m id out labels :
  labels <> [] -> Forall label_ok labels -> length out = n -> Z.of_nat n <= 65000 ->
  (length (query_bytes id labels) <= n)%nat ->
  let q := query_bytes id labels in
  build_dns_query (replicate m (ch " ") ++ dotted labels) id out (Z.of_nat n)
    = Ok (Some (filled q n, Z.of_nat (length q))) /\
  dns_skip_name (filled q n) (Z.of_nat (length q)) 12 = Ok (Some (Z.of_nat (length q) - 4)) /\
  (forall name out', nul_free name -> Z.of_nat (length out') <= 65535 ->
     build_dns_query (name ++ bs ".") id out' (Z.of_nat (length out')) = Ok None).
Proof.
  intros Hne Hl Hout Hn Hq q. split; [by apply build_dns_query_spec|].
  split; [|intros; by apply trailing_dot_rejected].
  assert (q = (be16 id ++ [1; 0; 0; 1; 0; 0; 0; 0; 0; 0]) ++ wire (map (map to_lower_ascii) labels) ++ [0; 1; 0; 1]) as Eq.
  { unfold q, query_bytes. rewrite <- encoded_wire by done.
    by rewrite <- (app_assoc (encoded labels)). }
  unfold filled. rewrite Eq at 1. rewrite <- !app_assoc. change 12 with (Z.of_nat (length (be16 id ++ [1; 0; 0; 1; 0; 0; 0; 0; 0; 0]))).
  change (wire ?l) with (dname_bytes (Full l)) in *.
  rewrite (app_assoc (be16 id)), dns_skip_name_spec.
  - rewrite Eq, !length_app. cbn [length]. do 2 f_equal. lia.
  - apply List.Forall_map. eapply Forall_impl; [done|]. intros l [? _]. unfold short. by rewrite length_map.
  - rewrite Eq, !length_app. cbn [length]. lia.
  - fold q in Hq. lia.
Qed.

Lemma build_dns_query_correct_witness :
  let q := query_bytes 7 [bs "Heat"; bs "os"] in
  build_dns_query (replicate 1 (ch " ") ++ dotted [bs "Heat"; bs "os"]) 7 (replicate 64 1) (Z.of_nat 64)
    = Ok (Some (filled q 64, Z.of_nat (length q))) /\
  dns_skip_name (filled q 64) (Z.of_nat (length q)) 12 = Ok (Some (Z.of_nat (length q) - 4)) /\
  build_dns_query (bs "example.com.") 7 (replicate 512 0) 512 = Ok None.
Proof.
  destruct (build_dns_query_correct 64 1 7 (replicate 64 1) [bs "Heat"; bs "os"]) as (Hq & Hskip & Hdot).
  - discriminate.
  - repeat constructor; simpl; lia.
  - reflexivity.
  - discriminate.
  - vm_compute. lia.
  - split; [exact Hq|]. split; [exact Hskip|].
    apply (Hdot (bs "example.com") (replicate 512 0)); [repeat constructor; discriminate|discriminate].
Defined.

(** C38: [network_parse_ipv4] accepts exactly the dotted-decimal texts: it
    returns true with address [ip] if and only if the text is four parts of
    decimal digits with value at most 255, joined by dots, with spaces before
    and after only, and [ip] is the four values. *)
Theorem network_parse_ipv4_correct text out ip :
  nul_free text -> length out = 4%nat ->
  network_parse_ipv4 text out = (true, ip) <->
  exists m k dss, text = replicate m (ch " ") ++ dotted dss ++ replicate k (ch " ") /\
    length dss = 4%nat /\ Forall part_ok dss /\ ip = map decimal dss.
Proof.
  intros Hnf Hout. unfold network_parse_ipv4. split.
  - destruct (parse_parts 4 0 (skip_spaces text) out) as [[[|] out'] rest] eqn:E; [|done].
    intros [= Hz <-]. apply Z.eqb_eq in Hz.
    pose proof (parse_parts_sound 4 0 _ _ _ _ E ltac:(done) ltac:(done)) as (dss & Hlen & Hall & Hp & Hr).
    destruct (skip_spaces_split text) as (m & Ht & _), (skip_spaces_split rest) as (k & Hrest & _).
    exists m, k, dss.
    assert (skip_spaces rest = []) as Hnil.
    { rewrite Ht, Hp, Hrest in Hnf. apply Forall_app in Hnf as [_ [_ [_ Hnf]%Forall_app]%Forall_app].
      destruct (skip_spaces rest) as [|c r]; [done|]. apply Forall_cons in Hnf as [Hc _]. by destruct Hc. }
    split_and!; [|done..|].
    + rewrite Ht, Hp, Hrest at 1. by rewrite Hnil, app_nil_r.
    + rewrite Hp, <- Hlen, parse_parts_complete in E; [by injection E as <-|done|lia|done|done|by destruct dss].
  - intros (m & k & dss & -> & Hlen & Hall & ->).
    rewrite skip_spaces_app.
    + rewrite <- Hlen, parse_parts_complete; [|done|lia|done|by destruct k|by destruct dss].
      rewrite <- (app_nil_r (replicate k _)), skip_spaces_app by done. done.
    + destruct dss as [|ds dss]; [done|]. apply Forall_cons in Hall as [(Hne & Hds & _) _].
      destruct ds as [|c ds]; [done|]. apply Forall_cons in Hds as [Hc _].
      change (c <> ch " "). unfold dec_digit in Hc. chars. lia.
Qed.

Lemma network_parse_ipv4_correct_witness :
  network_parse_ipv4 (bs " 10.0.02.255 ") (replicate 4 9) = (true, [10; 0; 2; 255]).
Proof.
  apply (network_parse_ipv4_correct (bs " 10.0.02.255 ") (replicate 4 9) [10; 0; 2; 255]).
  - repeat constructor; discriminate.
  - reflexivity.
  - exists 1%nat, 1%nat, [bs "10"; bs "0"; bs "02"; bs "255"].
    split; [reflexivity|]. split; [reflexivity|]. split; [|reflexivity].
    repeat constructor; discriminate.
Defined.
