(* ===== verification/Ports.v ===== *)
(** Port I/O, src/src/include/io.h, and the monad of the drivers.

    The hardware is arbitrary: the value of a read is any function of the
    whole history of port accesses.  A driver is a computation over its own
    globals [G] and that history. *)
From Stdlib Require Import ZArith Lia Ascii String.
From stdpp Require Import base tactics option numbers list.
From S2P Require Import Prelude.
#[local] Open Scope Z_scope.

Inductive width := W8 | W16 | W32.

(** One port access: its width, the port and the value. *)
Inductive io_event :=
| In (w : width) (port value : Z)
| Out (w : width) (port value : Z).

Definition trunc (w : width) (v : Z) : Z :=
  match w with W8 => u8 v | W16 => u16 v | W32 => u32 v end.

(** What the machine answers to a read, given the accesses so far (the newest
    first). *)
Class Hardware := answer : list io_event -> width -> Z -> Z.

(** A computation over the globals [G] and the I/O history. *)
Definition M (G A : Type) : Type := G * list io_event -> outcome (A * (G * list io_event)).

#[export] Instance M_ret G : MRet (M G) := fun A a st => Ok (a, st).
#[export] Instance M_bind G : MBind (M G) := fun A B f m st =>
  match m st with Ok (a, st') => f a st' | Stuck e => Stuck e end.

Section ops.
Context `{Hardware} {G : Type}.

Definition get : M G G := fun st => Ok (fst st, st).
Definition modify (f : G -> G) : M G unit := fun st => Ok (tt, (f (fst st), snd st)).
Definition lift {A} (o : outcome A) : M G A := fun st =>
  match o with Ok a => Ok (a, st) | Stuck e => Stuck e end.
Definition gets {A} (f : G -> A) : M G A := fun st => Ok (f (fst st), st).
Definition skip : M G unit := fun st => Ok (tt, st).

Definition port_in (w : width) (port : Z) : M G Z := fun st =>
  let v := trunc w (answer (snd st) w port) in Ok (v, (fst st, In w port v :: snd st)).
Definition port_out (w : width) (port value : Z) : M G unit := fun st =>
  Ok (tt, (fst st, Out w port (trunc w value) :: snd st)).

Definition inb : Z -> M G Z := port_in W8.
Definition inw : Z -> M G Z := port_in W16.
Definition inl32 : Z -> M G Z := port_in W32.
Definition outb : Z -> Z -> M G unit := port_out W8.
Definition outw : Z -> Z -> M G unit := port_out W16.
Definition outl : Z -> Z -> M G unit := port_out W32.
Definition io_wait : M G unit := outb 128 0.
End ops.

(** [for (;;)] and [while] loops of a driver: a turn goes on ([None]) or
    leaves with a result. *)
Fixpoint mloop {G R} (fuel : nat) (body : M G (option R)) : M G R :=
  match fuel with
  | O => fun _ => Stuck NoFuel
  | S n => r ← body; match r with Some x => mret x | None => mloop n body end
  end.

(** The same with a bound: [None] when it is reached. *)
Fixpoint mrepeat {G R} (n : nat) (body : M G (option R)) : M G (option R) :=
  match n with
  | O => mret None
  | S n => r ← body; match r with Some x => mret (Some x) | None => mrepeat n body end
  end.

(** The same with local variables: a turn goes on with new values ([inl]) or
    leaves with a result ([inr]). *)
Fixpoint sloop {G L R} (fuel : nat) (body : L -> M G (L + R)) (s : L) : M G R :=
  match fuel with
  | O => fun _ => Stuck NoFuel
  | S n => x ← body s; match x with inl s' => sloop n body s' | inr r => mret r end
  end.

(** * Safety triples

    [wp m Q st]: run from [st], [m] does not trap or leave its objects, and
    ends (if the fuel suffices) in [Q]. *)

Definition wp {G A} (m : M G A) (Q : A -> G * list io_event -> Prop) (st : G * list io_event) : Prop :=
  match m st with
  | Ok (a, st') => Q a st'
  | Stuck NoFuel => True
  | Stuck _ => False
  end.

Section wp.
Context {G : Type}.
Implicit Types (st : G * list io_event).

Lemma wp_ret {A} (a : A) Q st : Q a st -> wp (mret a) Q st.
Proof. done. Qed.

Lemma wp_bind {A B} (m : M G A) (f : A -> M G B) Q st :
  wp m (fun a st' => wp (f a) Q st') st -> wp (m ≫= f) Q st.
Proof. unfold wp, mbind, M_bind. by destruct (m st) as [[a st']|[]]. Qed.

Lemma wp_mono {A} (m : M G A) (P Q : A -> G * list io_event -> Prop) st :
  wp m P st -> (forall a st', P a st' -> Q a st') -> wp m Q st.
Proof. unfold wp. destruct (m st) as [[a st']|[]]; auto. Qed.

Lemma wp_lift {A} (o : outcome A) (P : A -> Prop) Q st :
  succeeds o P -> (forall a, P a -> Q a st) -> wp (lift o) Q st.
Proof. intros (a & -> & Ha) HQ. by apply HQ. Qed.

Lemma wp_in `{Hardware} w p Q st :
  (forall v tr, 0 <= v < match w with W8 => 256 | W16 => 65536 | W32 => 4294967296 end ->
    Q v (fst st, tr)) -> wp (port_in w p) Q st.
Proof. intros HQ. apply HQ. destruct w; [apply u8_range|apply u16_range|apply u32_range]. Qed.

Lemma wp_out w p v Q st : (forall tr, Q tt (fst st, tr)) -> wp (port_out w p v) Q st.
Proof. intros HQ. apply HQ. Qed.

Lemma wp_mloop {R} (I : G * list io_event -> Prop) (Q : R -> G * list io_event -> Prop) body fuel st :
  (forall st, I st -> wp body (fun r st' => match r with Some x => Q x st' | None => I st' end) st) ->
  I st -> wp (mloop fuel body) Q st.
Proof.
  intros Hb. revert st. induction fuel as [|n IH]; intros st Hst; [done|].
  apply wp_bind. eapply wp_mono; [by apply Hb|]. intros [x|] st' H; [done|by apply IH].
Qed.

Lemma wp_mrepeat {R} (I : G * list io_event -> Prop) (Q : option R -> G * list io_event -> Prop) body n st :
  (forall st, I st -> wp body (fun r st' => match r with Some x => Q (Some x) st' | None => I st' end) st) ->
  (forall st, I st -> Q None st) -> I st -> wp (mrepeat n body) Q st.
Proof.
  intros Hb HN. revert st. induction n as [|n IH]; intros st Hst; [by apply HN|].
  apply wp_bind. eapply wp_mono; [by apply Hb|]. intros [x|] st' H; [done|by apply IH].
Qed.

Lemma wp_safe {A} (m : M G A) Q st : wp m Q st -> m st <> Stuck OutOfBounds /\ m st <> Stuck Trap.
Proof. unfold wp. by destruct (m st) as [[a st']|[]]. Qed.
End wp.

(** * Invariants

    [mkeeps I m P]: from every state satisfying [I], [m] stays inside its
    objects and, when it ends, gives such a state and a value satisfying [P]. *)

Definition mkeeps {G A} (I : G -> Prop) (m : M G A) (P : A -> Prop) : Prop :=
  forall st, I (fst st) -> wp m (fun a st' => I (fst st') /\ P a) st.

Definition any {A} (_ : A) : Prop := True.

Section mkeeps.
Context `{Hardware} {G : Type} (I : G -> Prop).

Lemma mkeeps_ret {A} (a : A) (P : A -> Prop) : P a -> mkeeps I (mret a) P.
Proof. intros Ha st Hst. by apply wp_ret. Qed.

Lemma mkeeps_bind {A B} (m : M G A) (f : A -> M G B) P Q :
  mkeeps I m P -> (forall a, P a -> mkeeps I (f a) Q) -> mkeeps I (m ≫= f) Q.
Proof.
  intros Hm Hf st Hst. apply wp_bind. eapply wp_mono; [by apply Hm|].
  intros a st' [H1 H2]. by apply Hf.
Qed.

(** As a step of a longer run. *)
Lemma mkeeps_then {A B} (m : M G A) (f : A -> M G B) P Q st :
  mkeeps I m P -> I (fst st) -> (forall a st', I (fst st') -> P a -> wp (f a) Q st') -> wp (m ≫= f) Q st.
Proof. intros Hm Hst Hf. apply wp_bind. eapply wp_mono; [by apply Hm|]. intros a st' []. by apply Hf. Qed.

Lemma mkeeps_mono {A} (m : M G A) (P Q : A -> Prop) :
  mkeeps I m P -> (forall a, P a -> Q a) -> mkeeps I m Q.
Proof. intros Hm HPQ st Hst. eapply wp_mono; [by apply Hm|]. intros a st' [? ?]. auto. Qed.

Lemma mkeeps_lift {A} (o : outcome A) (P : A -> Prop) : succeeds o P -> mkeeps I (lift o) P.
Proof. intros Ho st Hst. eapply wp_lift; [done|]. auto. Qed.

(** The same for a step that may run out of fuel. *)
Lemma mkeeps_goes {A} (o : outcome A) (P : A -> Prop) : goes (eq NoFuel) o P -> mkeeps I (lift o) P.
Proof. intros Ho st Hst. unfold wp, lift. destruct o as [a|e]; [done|]. cbn in Ho. by subst e. Qed.

Lemma mkeeps_skip : mkeeps I skip any.
Proof. by intros st Hst. Qed.

Lemma mkeeps_get : mkeeps I get I.
Proof. by intros st Hst. Qed.

Lemma mkeeps_gets {A} (f : G -> A) (P : A -> Prop) : (forall s, I s -> P (f s)) -> mkeeps I (gets f) P.
Proof. intros HP st Hst. split; [done|]. by apply HP. Qed.

Lemma mkeeps_modify f : (forall s, I s -> I (f s)) -> mkeeps I (modify f) any.
Proof. intros Hf st Hst. split; [by apply Hf|done]. Qed.

Lemma mkeeps_in w p : mkeeps I (port_in w p)
  (fun v => 0 <= v < match w with W8 => 256 | W16 => 65536 | W32 => 4294967296 end).
Proof. intros st Hst. by apply wp_in. Qed.

Lemma mkeeps_out w p v : mkeeps I (port_out w p v) any.
Proof. intros st Hst. by apply wp_out. Qed.

Lemma mkeeps_mrepeat {R} n (body : M G (option R)) (P : R -> Prop) :
  mkeeps I body (fun r => match r with Some x => P x | None => True end) ->
  mkeeps I (mrepeat n body) (fun r => match r with Some x => P x | None => True end).
Proof.
  intros Hb st Hst. apply (wp_mrepeat (fun st => I (fst st))); [|done|done].
  intros st' Hst'. eapply wp_mono; [by apply Hb|]. by intros [x|] st'' [? ?].
Qed.

Lemma mkeeps_mloop {R} n (body : M G (option R)) (P : R -> Prop) :
  mkeeps I body (fun r => match r with Some x => P x | None => True end) -> mkeeps I (mloop n body) P.
Proof.
  intros Hb st Hst. apply (wp_mloop (fun st => I (fst st))); [|done].
  intros st' Hst'. eapply wp_mono; [by apply Hb|]. by intros [x|] st'' [? ?].
Qed.

Lemma mkeeps_sloop {L R} (J : L -> Prop) n (body : L -> M G (L + R)) (P : R -> Prop) :
  (forall s, J s -> mkeeps I (body s) (fun x => match x with inl s' => J s' | inr r => P r end)) ->
  forall s, J s -> mkeeps I (sloop n body s) P.
Proof.
  intros Hb. induction n as [|n IH]; intros s Hs; [by intros st Hst|].
  eapply mkeeps_bind; [by apply Hb|]. intros [s'|r] Hx; [by apply IH|by apply mkeeps_ret].
Qed.
End mkeeps.
