(* ===== verification/Network.v ===== *)
(** The NE2000 driver and the protocol handlers of src/src/drivers/network.c.

    The globals of the file are the record [net], the network card is the
    hardware of Ports.v.  Constant globals ([g_ip], [g_gateway], [g_netmask],
    [g_dns_server]) and the byte-level code are in NetBytes.v. *)
From Stdlib Require Import ZArith Lia Ascii String.
From stdpp Require Import base tactics option numbers list.
From S2P Require Import Prelude Buffer CString NetBytes Ports.
#[local] Open Scope Z_scope.

Definition NE_CR : Z := 0.
Definition NE_PSTART : Z := 1.
Definition NE_PSTOP : Z := 2.
Definition NE_BNRY : Z := 3.
Definition NE_TPSR : Z := 4.
Definition NE_TBCR0 : Z := 5.
Definition NE_TBCR1 : Z := 6.
Definition NE_ISR : Z := 7.
Definition NE_RSAR0 : Z := 8.
Definition NE_RSAR1 : Z := 9.
Definition NE_RBCR0 : Z := 10.
Definition NE_RBCR1 : Z := 11.
Definition NE_RCR : Z := 12.
Definition NE_TCR : Z := 13.
Definition NE_DCR : Z := 14.
Definition NE_IMR : Z := 15.
Definition NE_DATA : Z := 16.
Definition NE_RESET : Z := 31.
Definition NE_P1_PAR0 : Z := 1.
Definition NE_P1_CURR : Z := 7.
Definition NE_P1_MAR0 : Z := 8.
Definition NE_CR_STP : Z := 1.
Definition NE_CR_STA : Z := 2.
Definition NE_CR_TXP : Z := 4.
Definition NE_CR_RD0 : Z := 8.
Definition NE_CR_RD1 : Z := 16.
Definition NE_CR_RD2 : Z := 32.
Definition NE_CR_PS0 : Z := 0.
Definition NE_CR_PS1 : Z := 64.
Definition NE_ISR_PTX : Z := 2.
Definition NE_ISR_TXE : Z := 8.
Definition NE_ISR_OVW : Z := 16.
Definition NE_ISR_RDC : Z := 64.
Definition NE_ISR_RST : Z := 128.
Definition NE_TX_START_PAGE : Z := 64.
Definition NE_RX_START_PAGE : Z := 70.
Definition NE_RX_STOP_PAGE : Z := 128.
Definition DNS_PORT : Z := 53.
Definition DNS_SRC_PORT_MIN : Z := 53000.
Definition DNS_SRC_PORT_MAX : Z := 53999.
Definition DNS_MAX_PACKET : Z := 512.
Definition PING_LOOPS_PER_MS : Z := 6000.
Definition BUF_SIZE : Z := 1600.

(** * State *)

(** The adapter: [g_probe_done] to [g_mac]. *)
Record adapter := Adapter {
  g_probe_done : bool; g_present : bool; g_ready : bool; g_pci_slot : Z;
  g_vendor_id : Z; g_device_id : Z; g_io_base : Z; g_mac : list Z }.

(** The one-entry ARP cache. *)
Record arp_cache := ArpCache { g_arp_valid : bool; g_arp_ip : list Z; g_arp_mac : list Z }.

Record ping_state := PingState {
  g_ping_waiting : bool; g_ping_reply : bool; g_ping_reply_ttl : Z; g_ping_reply_bytes : Z;
  g_ping_expected_seq : Z; g_ping_seq : Z; g_ping_target : list Z }.

Record dns_state := DnsState {
  g_dns_waiting : bool; g_dns_reply : bool; g_dns_reply_has_a : bool; g_dns_reply_ip : list Z;
  g_dns_expected_id : Z; g_dns_expected_src_port : Z; g_dns_src_port : Z; g_dns_next_id : Z }.

Record net := Net {
  nic : adapter; arp : arp_cache; ping : ping_state; dns : dns_state;
  g_ipv4_id : Z; g_rx_buf : list Z; g_tx_buf : list Z }.

Definition g_ping_id : Z := 18511.

(** The globals at boot. *)
Definition net_boot : net :=
  Net (Adapter false false false 0 0 0 0 (replicate 6 0))
    (ArpCache false (replicate 4 0) (replicate 6 0))
    (PingState false false 0 0 0 1 (replicate 4 0))
    (DnsState false false false (replicate 4 0) 0 0 DNS_SRC_PORT_MIN 1)
    1 (replicate 1600 0) (replicate 1600 0).

Definition set_nic (f : adapter -> adapter) (s : net) : net :=
  Net (f (nic s)) (arp s) (ping s) (dns s) (g_ipv4_id s) (g_rx_buf s) (g_tx_buf s).
Definition set_arp (a : arp_cache) (s : net) : net :=
  Net (nic s) a (ping s) (dns s) (g_ipv4_id s) (g_rx_buf s) (g_tx_buf s).
Definition set_ping (f : ping_state -> ping_state) (s : net) : net :=
  Net (nic s) (arp s) (f (ping s)) (dns s) (g_ipv4_id s) (g_rx_buf s) (g_tx_buf s).
Definition set_dns (f : dns_state -> dns_state) (s : net) : net :=
  Net (nic s) (arp s) (ping s) (f (dns s)) (g_ipv4_id s) (g_rx_buf s) (g_tx_buf s).
Definition set_ipv4_id (v : Z) (s : net) : net :=
  Net (nic s) (arp s) (ping s) (dns s) v (g_rx_buf s) (g_tx_buf s).
Definition set_rx (b : list Z) (s : net) : net :=
  Net (nic s) (arp s) (ping s) (dns s) (g_ipv4_id s) b (g_tx_buf s).
Definition set_tx (b : list Z) (s : net) : net :=
  Net (nic s) (arp s) (ping s) (dns s) (g_ipv4_id s) (g_rx_buf s) b.

Definition set_ready (a : adapter) : adapter :=
  Adapter (g_probe_done a) (g_present a) true (g_pci_slot a) (g_vendor_id a) (g_device_id a) (g_io_base a) (g_mac a).
Definition set_present (p : bool) (a : adapter) : adapter :=
  Adapter (g_probe_done a) p (g_ready a) (g_pci_slot a) (g_vendor_id a) (g_device_id a) (g_io_base a) (g_mac a).
Definition set_probe_done (a : adapter) : adapter :=
  Adapter true (g_present a) (g_ready a) (g_pci_slot a) (g_vendor_id a) (g_device_id a) (g_io_base a) (g_mac a).
Definition set_found (slot vendor device base : Z) (a : adapter) : adapter :=
  Adapter (g_probe_done a) (g_present a) (g_ready a) slot vendor device base (g_mac a).
Definition set_mac (m : list Z) (a : adapter) : adapter :=
  Adapter (g_probe_done a) (g_present a) (g_ready a) (g_pci_slot a) (g_vendor_id a) (g_device_id a) (g_io_base a) m.

Definition set_ping_waiting (b : bool) (p : ping_state) : ping_state :=
  PingState b (g_ping_reply p) (g_ping_reply_ttl p) (g_ping_reply_bytes p) (g_ping_expected_seq p) (g_ping_seq p) (g_ping_target p).

Definition set_dns_waiting (b : bool) (d : dns_state) : dns_state :=
  DnsState b (g_dns_reply d) (g_dns_reply_has_a d) (g_dns_reply_ip d) (g_dns_expected_id d)
    (g_dns_expected_src_port d) (g_dns_src_port d) (g_dns_next_id d).
(** [g_dns_reply = true; g_dns_waiting = false;] *)
Definition set_dns_replied (d : dns_state) : dns_state :=
  DnsState false true (g_dns_reply_has_a d) (g_dns_reply_ip d) (g_dns_expected_id d)
    (g_dns_expected_src_port d) (g_dns_src_port d) (g_dns_next_id d).
Definition set_dns_a (has_a : bool) (ip : list Z) (d : dns_state) : dns_state :=
  DnsState (g_dns_waiting d) (g_dns_reply d) has_a ip (g_dns_expected_id d)
    (g_dns_expected_src_port d) (g_dns_src_port d) (g_dns_next_id d).
Definition set_dns_ports (id src : Z) (d : dns_state) : dns_state :=
  DnsState (g_dns_waiting d) (g_dns_reply d) (g_dns_reply_has_a d) (g_dns_reply_ip d) (g_dns_expected_id d)
    (g_dns_expected_src_port d) src id.
Definition set_dns_expect (id src : Z) (d : dns_state) : dns_state :=
  DnsState true false false (replicate 4 0) id src (g_dns_src_port d) (g_dns_next_id d).

Notation netM := (M net).

Section driver.
Context `{Hardware}.

(** * The adapter *)

Definition pci_addr (slot reg : Z) : Z :=
  Z.lor (Z.lor 2147483648 (u32 (Z.shiftl slot 11))) (Z.land reg 252).

Definition pci_read32_bus0 (slot reg : Z) : netM Z :=
  outl 3320 (pci_addr slot reg);; inl32 3324.

Definition pci_write32_bus0 (slot reg value : Z) : netM unit :=
  outl 3320 (pci_addr slot reg);; outl 3324 value.

(** The slots from [slot] on, [n] of them. *)
Fixpoint probe_slots (n : nat) (slot : Z) : netM bool :=
  match n with
  | O => modify (set_nic (set_present false));; mret false
  | S n =>
    id ← pci_read32_bus0 slot 0;
    let vendor := u16 (Z.land id 65535) in
    let device := u16 (Z.shiftr id 16) in
    if vendor =? 65535 then probe_slots n (u8 (slot + 1))
    else
      class_reg ← pci_read32_bus0 slot 8;
      if negb (u8 (Z.shiftr class_reg 24) =? 2) then probe_slots n (u8 (slot + 1))
      else
        bar0 ← pci_read32_bus0 slot 16;
        if Z.land bar0 1 =? 0 then probe_slots n (u8 (slot + 1))
        else
          modify (set_nic (set_found slot vendor device (u16 (Z.land bar0 65532))));;
          cmd ← pci_read32_bus0 slot 4;
          pci_write32_bus0 slot 4 (Z.lor cmd 5);;
          modify (set_nic (set_present true));;
          mret true
  end.

Definition probe_ne2000_pci : netM bool := probe_slots 32 0.

Definition ne_port (reg : Z) : netM Z := gets (fun s => u16 (g_io_base (nic s) + reg)).
Definition ne_write (reg val : Z) : netM unit := p ← ne_port reg; outb p (u8 val).
Definition ne_read (reg : Z) : netM Z := p ← ne_port reg; inb p.

(** [while (guard--)]: polls the interrupt status at most [guard] times. *)
Definition ne_wait_isr (mask guard : Z) : netM bool :=
  r ← mrepeat (Z.to_nat guard)
    (isr ← ne_read NE_ISR; mret (if Z.land isr mask =? 0 then None else Some true));
  mret (default false r).

(** The register set-up the two DMA directions share, up to the data phase. *)
Definition dma_setup (addr xfer_len cmd : Z) : netM unit :=
  ne_write NE_CR (Z.lor (Z.lor NE_CR_STA NE_CR_RD2) NE_CR_PS0);;
  ne_write NE_RBCR0 (Z.land xfer_len 255);;
  ne_write NE_RBCR1 (Z.shiftr xfer_len 8);;
  ne_write NE_RSAR0 (Z.land addr 255);;
  ne_write NE_RSAR1 (Z.shiftr addr 8);;
  ne_write NE_ISR NE_ISR_RDC;;
  ne_write NE_CR (Z.lor (Z.lor NE_CR_STA cmd) NE_CR_PS0).

Definition dma_end : netM bool :=
  done ← ne_wait_isr NE_ISR_RDC 200000;
  if negb done then mret false else ne_write NE_ISR NE_ISR_RDC;; mret true.

(** [(len + 1u) & ~1u], cut to 16 bits. *)
Definition even_up (len : Z) : Z := u16 (Z.land (len + 1) 4294967294).

(** The words of the read transfer: [n] more, at [i]. *)
Fixpoint dma_in (n : nat) (i : Z) (dst : list Z) (len : Z) : netM (list Z) :=
  match n with
  | O => mret dst
  | S n =>
    p ← ne_port NE_DATA;
    w ← inw p;
    dst ← (if i <? len then lift (blit dst i [u8 (Z.land w 255)]) else mret dst);
    dst ← (if u16 (i + 1) <? len then lift (blit dst (i + 1) [u8 (Z.shiftr w 8)]) else mret dst);
    dma_in n (u16 (i + 2)) dst len
  end.

(** The turns of [for (i = 0; i < xfer_len; i += 2)], [xfer_len] even. *)
Definition turns (xfer_len : Z) : nat := Z.to_nat (xfer_len / 2).

(** The buffer [dst] after the call, and the result. *)
Definition ne_dma_read (addr : Z) (dst : list Z) (len : Z) : netM (list Z * bool) :=
  if len =? 0 then mret (dst, true)
  else
    let xfer_len := even_up len in
    dma_setup addr xfer_len NE_CR_RD0;;
    dst ← dma_in (turns xfer_len) 0 dst len;
    ok ← dma_end;
    mret (dst, ok).

Fixpoint dma_out (n : nat) (i : Z) (src : list Z) (len : Z) : netM unit :=
  match n with
  | O => mret tt
  | S n =>
    w ← (if i <? len then lift (read src i) else mret 0);
    w ← (if u16 (i + 1) <? len then b ← lift (read src (i + 1)); mret (Z.lor w (u16 (Z.shiftl b 8))) else mret w);
    p ← ne_port NE_DATA;
    outw p w;;
    dma_out n (u16 (i + 2)) src len
  end.

Definition ne_dma_write (addr : Z) (src : list Z) (len : Z) : netM bool :=
  if len =? 0 then mret true
  else
    let xfer_len := even_up len in
    dma_setup addr xfer_len NE_CR_RD1;;
    dma_out (turns xfer_len) 0 src len;;
    dma_end.

(** [frame] is an object of its own, or [g_tx_buf] itself. *)
Definition ne_send_frame (frame : list Z) (len : Z) : netM bool :=
  s ← get;
  if negb (g_ready (nic s)) || (len <? 14) then mret false
  else
    let tx_len := if len <? 60 then 60 else len in
    if tx_len >? BUF_SIZE then mret false
    else
      data ← lift (slice frame 0 len);
      tx ← lift (blit (g_tx_buf s) 0 data);
      tx ← lift (if tx_len >? len then blit tx len (replicate (Z.to_nat (tx_len - len)) 0) else Ok tx);
      modify (set_tx tx);;
      ok ← ne_dma_write (u16 (Z.shiftl NE_TX_START_PAGE 8)) tx tx_len;
      if negb ok then mret false
      else
        ne_write NE_TPSR NE_TX_START_PAGE;;
        ne_write NE_TBCR0 (Z.land tx_len 255);;
        ne_write NE_TBCR1 (Z.shiftr tx_len 8);;
        ne_write NE_ISR (Z.lor NE_ISR_PTX NE_ISR_TXE);;
        ne_write NE_CR (Z.lor (Z.lor (Z.lor NE_CR_STA NE_CR_RD2) NE_CR_TXP) NE_CR_PS0);;
        r ← mrepeat (Z.to_nat 300000)
          (isr ← ne_read NE_ISR;
           if Z.land isr (Z.lor NE_ISR_PTX NE_ISR_TXE) =? 0 then mret None
           else
             ne_write NE_ISR (Z.lor NE_ISR_PTX NE_ISR_TXE);;
             mret (Some (negb (Z.land isr NE_ISR_PTX =? 0))));
        mret (default false r).

Definition ne_curr_page : netM Z :=
  ne_write NE_CR (Z.lor (Z.lor NE_CR_STA NE_CR_RD2) NE_CR_PS1);;
  curr ← ne_read NE_P1_CURR;
  ne_write NE_CR (Z.lor (Z.lor NE_CR_STA NE_CR_RD2) NE_CR_PS0);;
  mret curr.

(** * Sending *)

(** [uint8_t frame[42]], filled completely by [build_arp_frame]. *)
Definition send_arp (dst_mac : list Z) (op : Z) (target_mac target_ip : list Z) : netM unit :=
  s ← get;
  frame ← lift (build_arp_frame (replicate 42 0) dst_mac op (g_mac (nic s)) g_ip target_mac target_ip);
  ne_send_frame frame 42;;
  mret tt.

Definition send_arp_reply (dst_mac dst_ip : list Z) : netM unit :=
  send_arp dst_mac ARP_OP_REPLY dst_mac dst_ip.

Definition send_arp_request (target_ip : list Z) : netM unit :=
  send_arp (replicate 6 255) ARP_OP_REQ (replicate 6 0) target_ip.

Definition send_icmp_packet (dst_mac dst_ip : list Z) (icmp_type ident seq : Z)
    (payload : list Z) (payload_len : Z) : netM bool :=
  let ip_len := u16 (28 + payload_len) in
  let frame_len := u16 (14 + ip_len) in
  if frame_len >? BUF_SIZE then mret false
  else
    s ← get;
    let id := g_ipv4_id s in
    modify (set_ipv4_id (u16 (id + 1)));;
    tx ← lift (write_icmp (g_tx_buf s) (g_mac (nic s)) dst_mac dst_ip id icmp_type ident seq payload payload_len);
    modify (set_tx tx);;
    ne_send_frame tx frame_len.

Definition send_udp_packet (dst_mac dst_ip : list Z) (src_port dst_port : Z)
    (payload : list Z) (payload_len : Z) : netM bool :=
  let udp_len := u16 (8 + payload_len) in
  let ip_len := u16 (20 + udp_len) in
  let frame_len := u16 (14 + ip_len) in
  if frame_len >? BUF_SIZE then mret false
  else
    s ← get;
    let id := g_ipv4_id s in
    modify (set_ipv4_id (u16 (id + 1)));;
    tx ← lift (write_udp (g_tx_buf s) (g_mac (nic s)) dst_mac dst_ip id src_port dst_port payload payload_len);
    modify (set_tx tx);;
    ne_send_frame tx frame_len.

(** * Receiving

    A handler gets the [len] bytes that its caller passes it as a pointer and a
    length, no others: a read past the packet is out of bounds even where
    the receive buffer goes on. *)

Definition handle_arp_packet (frame : list Z) (len : Z) : netM unit :=
  if len <? 28 then skip
  else
    htype ← lift (rd16be frame 0);
    if negb (htype =? ARP_HTYPE_ETH) then skip
    else
      ptype ← lift (rd16be frame 2);
      if negb (ptype =? ETH_TYPE_IPV4) then skip
      else
        hlen ← lift (read frame 4); plen ← lift (read frame 5);
        if negb (hlen =? 6) || negb (plen =? 4) then skip
        else
          op ← lift (rd16be frame 6);
          sender_mac ← lift (slice frame 8 6);
          sender_ip ← lift (slice frame 14 4);
          target_ip ← lift (slice frame 24 4);
          if op =? ARP_OP_REPLY then
            if bytes_equal target_ip g_ip 4 then modify (set_arp (ArpCache true sender_ip sender_mac)) else skip
          else if (op =? ARP_OP_REQ) && bytes_equal target_ip g_ip 4 then send_arp_reply sender_mac sender_ip
          else skip.

(** The question loop: [None] when a question is cut short. *)
Fixpoint skip_questions (n : nat) (payload : list Z) (len off : Z) : outcome (option Z) :=
  match n with
  | O => Ok (Some off)
  | S n =>
    r ← dns_skip_name payload len off;
    match r with
    | None => Ok None
    | Some off => if u16 (off + 4) >? len then Ok None else skip_questions n payload len (u16 (off + 4))
    end
  end.

(** The answer loop: the address of the first A record, if the loop gets to it. *)
Fixpoint find_answer (n : nat) (payload : list Z) (len off : Z) : outcome (option (list Z)) :=
  match n with
  | O => Ok None
  | S n =>
    r ← dns_skip_name payload len off;
    match r with
    | None => Ok None
    | Some off =>
      if u16 (off + 10) >? len then Ok None
      else
        type ← rd16be payload off;
        class_code ← rd16be payload (off + 2);
        rdlen ← rd16be payload (off + 8);
        let off := u16 (off + 10) in
        if u16 (off + rdlen) >? len then Ok None
        else if (type =? 1) && (class_code =? 1) && (rdlen =? 4) then
          ip ← slice payload off 4; Ok (Some ip)
        else find_answer n payload len (u16 (off + rdlen))
    end
  end.

Definition handle_dns_payload (payload : list Z) (len src_port dst_port : Z) : netM unit :=
  d ← gets dns;
  if negb (g_dns_waiting d) then skip
  else if negb (src_port =? DNS_PORT) then skip
  else if negb (dst_port =? g_dns_expected_src_port d) then skip
  else if len <? 12 then modify (set_dns (set_dns_waiting false))
  else
    id ← lift (rd16be payload 0);
    if negb (id =? g_dns_expected_id d) then skip
    else
      flags ← lift (rd16be payload 2);
      if Z.land flags 32768 =? 0 then skip
      else
        qdcount ← lift (rd16be payload 4);
        ancount ← lift (rd16be payload 6);
        modify (set_dns (set_dns_a false (replicate 4 0)));;
        q ← lift (skip_questions (Z.to_nat qdcount) payload len 12);
        match q with
        | None => modify (set_dns set_dns_replied)
        | Some off =>
          a ← lift (if Z.land flags 15 =? 0 then find_answer (Z.to_nat ancount) payload len off else Ok None);
          match a with
          | Some ip => modify (set_dns (set_dns_a true ip))
          | None => skip
          end;;
          modify (set_dns set_dns_replied)
        end.

Definition handle_udp_packet (packet : list Z) (len : Z) : netM unit :=
  if len <? 8 then skip
  else
    src_port ← lift (rd16be packet 0);
    dst_port ← lift (rd16be packet 2);
    udp_len ← lift (rd16be packet 4);
    if (udp_len <? 8) || (udp_len >? len) then skip
    else
      let data_len := u16 (udp_len - 8) in
      data ← lift (slice packet 8 data_len);
      handle_dns_payload data data_len src_port dst_port.

(** An echo request is answered, an expected echo reply recorded. *)
Definition handle_icmp (eth_src packet : list Z) (ihl total_len : Z) : netM unit :=
  let icmp_len := u16 (total_len - ihl) in
  icmp ← lift (slice packet ihl icmp_len);
  if icmp_len <? 8 then skip
  else
    icmp_type ← lift (read icmp 0);
    ident ← lift (rd16be icmp 4);
    seq ← lift (rd16be icmp 6);
    src_ip ← lift (slice packet 12 4);
    if icmp_type =? 8 then
      let payload_len := u16 (icmp_len - 8) in
      payload ← lift (slice icmp 8 payload_len);
      send_icmp_packet eth_src src_ip 0 ident seq payload payload_len;; skip
    else
      p ← gets ping;
      if (icmp_type =? 0) && g_ping_waiting p then
        if (ident =? g_ping_id) && (seq =? g_ping_expected_seq p) && bytes_equal src_ip (g_ping_target p) 4 then
          ttl ← lift (read packet 8);
          modify (set_ping (fun p =>
            PingState false true ttl (u16 (icmp_len - 8)) (g_ping_expected_seq p) (g_ping_seq p) (g_ping_target p)))
        else skip
      else skip.

Definition handle_ipv4_packet (eth_src packet : list Z) (len : Z) : netM unit :=
  if len <? 20 then skip
  else
    b0 ← lift (read packet 0);
    let version := u8 (Z.shiftr b0 4) in
    let ihl := u8 (Z.land b0 15 * 4) in
    if negb (version =? 4) || (ihl <? 20) || (len <? ihl) then skip
    else
      total_len ← lift (rd16be packet 2);
      if total_len <? ihl then skip
      else
        let total_len := if total_len >? len then len else total_len in
        frag ← lift (rd16be packet 6);
        if negb (Z.land frag 8191 =? 0) then skip
        else
          dst_ip ← lift (slice packet 16 4);
          if negb (bytes_equal dst_ip g_ip 4) then skip
          else
            proto ← lift (read packet 9);
            if proto =? IPV4_PROTO_UDP then
              let data_len := u16 (total_len - ihl) in
              data ← lift (slice packet ihl data_len);
              handle_udp_packet data data_len
            else if negb (proto =? IPV4_PROTO_ICMP) then skip
            else handle_icmp eth_src packet ihl total_len.

Definition handle_ethernet_frame (frame : list Z) (len : Z) : netM unit :=
  if len <? 14 then skip
  else
    dst_mac ← lift (slice frame 0 6);
    src_mac ← lift (slice frame 6 6);
    eth_type ← lift (rd16be frame 12);
    s ← get;
    if negb (bytes_equal dst_mac (g_mac (nic s)) 6) && negb (is_broadcast_mac dst_mac) then skip
    else
      let payload_len := u16 (len - 14) in
      payload ← lift (slice frame 14 payload_len);
      if eth_type =? ETH_TYPE_ARP then handle_arp_packet payload payload_len
      else if eth_type =? ETH_TYPE_IPV4 then handle_ipv4_packet src_mac payload payload_len
      else skip.

(** Copies a frame out of the ring, which wraps at the stop page. *)
Definition read_ring (page frame_len : Z) : netM unit :=
  s ← get;
  let start_addr := u16 (u16 (Z.shiftl page 8) + 4) in
  let ring_end := u16 (Z.shiftl NE_RX_STOP_PAGE 8) in
  if start_addr + frame_len <=? ring_end then
    '(rx, _) ← ne_dma_read start_addr (g_rx_buf s) frame_len;
    modify (set_rx rx)
  else
    let first := u16 (ring_end - start_addr) in
    let second := u16 (frame_len - first) in
    '(rx, _) ← ne_dma_read start_addr (g_rx_buf s) first;
    '(tail, _) ← ne_dma_read (u16 (Z.shiftl NE_RX_START_PAGE 8)) (from rx first) second;
    modify (set_rx (take (Z.to_nat first) rx ++ tail)).

(** One turn of [ne_receive_packets]; [Some tt] is [break]. *)
Definition receive_body : netM (option unit) :=
  curr ← ne_curr_page;
  bnry ← ne_read NE_BNRY;
  let page := u8 (bnry + 1) in
  let page := if page >=? NE_RX_STOP_PAGE then NE_RX_START_PAGE else page in
  if page =? curr then mret (Some tt)
  else
    '(hdr, ok) ← ne_dma_read (u16 (Z.shiftl page 8)) (replicate 4 0) 4;
    if negb ok then mret (Some tt)
    else
      status ← lift (read hdr 0);
      next_page ← lift (read hdr 1);
      lo ← lift (read hdr 2);
      hi ← lift (read hdr 3);
      let count := Z.lor lo (u16 (Z.shiftl hi 8)) in
      let next_page := if (next_page <? NE_RX_START_PAGE) || (next_page >=? NE_RX_STOP_PAGE) then curr else next_page in
      let next_page :=
        if next_page =? page then
          let n := u8 (page + 1) in if n >=? NE_RX_STOP_PAGE then NE_RX_START_PAGE else n
        else next_page in
      (if negb (Z.land status 1 =? 0) && (count >=? 4) then
        let frame_len := u16 (count - 4) in
        let frame_len := if frame_len >? BUF_SIZE then BUF_SIZE else frame_len in
        read_ring page frame_len;;
        s ← get;
        frame ← lift (slice (g_rx_buf s) 0 frame_len);
        handle_ethernet_frame frame frame_len
      else skip);;
      let new_bnry := u8 (next_page - 1) in
      let new_bnry := if new_bnry <? NE_RX_START_PAGE then u8 (NE_RX_STOP_PAGE - 1) else new_bnry in
      ne_write NE_BNRY new_bnry;;
      mret None.

Definition ne_receive_packets (fuel : nat) : netM unit := mloop fuel receive_body.

(** * Initialisation *)

Definition ne_reset : netM bool :=
  p ← ne_port NE_RESET;
  reset_val ← inb p;
  outb p reset_val;;
  ne_wait_isr NE_ISR_RST 200000.

Definition ne_configure : netM unit :=
  ne_write NE_ISR 255;;
  ne_write NE_CR (Z.lor (Z.lor NE_CR_STP NE_CR_RD2) NE_CR_PS0);;
  ne_write NE_DCR 73;;
  ne_write NE_RBCR0 0;;
  ne_write NE_RBCR1 0;;
  ne_write NE_RCR 32;;
  ne_write NE_TCR 2;;
  ne_write NE_TPSR NE_TX_START_PAGE;;
  ne_write NE_PSTART NE_RX_START_PAGE;;
  ne_write NE_BNRY NE_RX_START_PAGE;;
  ne_write NE_PSTOP NE_RX_STOP_PAGE;;
  ne_write NE_ISR 255;;
  ne_write NE_IMR 0.

(** The address from the station PROM: the low bytes of its words or, when
    they are all zero, its first six bytes. *)
Fixpoint read_each (p : list Z) (l : list Z) : outcome (list Z) :=
  match l with [] => Ok [] | i :: l => c ← read p i; r ← read_each p l; Ok (c :: r) end.

Definition prom_mac (prom : list Z) : outcome (list Z) :=
  mac ← read_each prom [0; 2; 4; 6; 8; 10];
  if forallb (fun b => b =? 0) mac then read_each prom [0; 1; 2; 3; 4; 5] else Ok mac.

(** [ne_write(base + i, v)] for the bytes of a list. *)
Fixpoint ne_write_all (base : Z) (l : list Z) : netM unit :=
  match l with
  | [] => skip
  | v :: l => ne_write (u8 base) v;; ne_write_all (base + 1) l
  end.

Definition ne_start (mac : list Z) : netM unit :=
  ne_write NE_CR (Z.lor (Z.lor NE_CR_STP NE_CR_RD2) NE_CR_PS1);;
  ne_write_all NE_P1_PAR0 mac;;
  ne_write_all NE_P1_MAR0 (replicate 8 255);;
  ne_write NE_P1_CURR (u8 (NE_RX_START_PAGE + 1));;
  ne_write NE_CR (Z.lor (Z.lor NE_CR_STA NE_CR_RD2) NE_CR_PS0);;
  ne_write NE_BNRY NE_RX_START_PAGE;;
  ne_write NE_TCR 0;;
  ne_write NE_RCR 4;;
  ne_write NE_ISR 255.

(** [g_ready = true] and the resets that follow it. *)
Definition reset_protocols (s : net) : net :=
  Net (set_ready (nic s)) (ArpCache false (g_arp_ip (arp s)) (g_arp_mac (arp s)))
    (PingState false false 0 0 (g_ping_expected_seq (ping s)) (g_ping_seq (ping s)) (g_ping_target (ping s)))
    (DnsState false false false (replicate 4 0) 0 0 (g_dns_src_port (dns s)) (g_dns_next_id (dns s)))
    (g_ipv4_id s) (g_rx_buf s) (g_tx_buf s).

Definition ne_hw_init : netM bool :=
  s ← get;
  if negb (g_present (nic s)) || (g_io_base (nic s) =? 0) then mret false
  else
    up ← ne_reset;
    if negb up then mret false
    else
      ne_configure;;
      '(prom, ok) ← ne_dma_read 0 (replicate 32 0) 32;
      if negb ok then mret false
      else
        mac ← lift (prom_mac prom);
        modify (set_nic (set_mac mac));;
        ne_start mac;;
        modify reset_protocols;;
        mret true.

Definition probe_once : netM unit :=
  s ← get;
  if g_probe_done (nic s) then skip else modify (set_nic set_probe_done);; probe_ne2000_pci;; skip.

Definition network_init : netM bool :=
  s ← get;
  if g_ready (nic s) then mret true
  else
    probe_once;;
    s ← get;
    if negb (g_present (nic s)) then mret false else ne_hw_init.

(** [net_info_t]. *)
Record net_info := NetInfo {
  ni_present : bool; ni_ready : bool; ni_pci_slot : Z; ni_vendor_id : Z; ni_device_id : Z;
  ni_io_base : Z; ni_mac : list Z; ni_ip : list Z; ni_gateway : list Z; ni_netmask : list Z }.

Definition network_get_info : netM net_info :=
  probe_once;;
  s ← get;
  let a := nic s in
  mret (NetInfo (g_present a) (g_ready a) (g_pci_slot a) (g_vendor_id a) (g_device_id a)
    (g_io_base a) (g_mac a) g_ip g_gateway g_netmask).

(** * Polling, resolution and ping

    [fuel] bounds the turns of one drain of the receive ring. *)

Definition network_poll (fuel : nat) : netM unit :=
  s ← get;
  if negb (g_ready (nic s)) then skip
  else
    isr ← ne_read NE_ISR;
    (if negb (Z.land isr NE_ISR_OVW =? 0) then
      ne_write NE_CR (Z.lor (Z.lor NE_CR_STP NE_CR_RD2) NE_CR_PS0);;
      ne_write NE_BNRY NE_RX_START_PAGE;;
      ne_write NE_CR (Z.lor (Z.lor NE_CR_STA NE_CR_RD2) NE_CR_PS0)
    else skip);;
    ne_receive_packets fuel;;
    ne_write NE_ISR 255.

(** The cache entry for [ip], if there is one. *)
Definition arp_lookup (ip : list Z) (s : net) : option (list Z) :=
  if g_arp_valid (arp s) && bytes_equal (g_arp_ip (arp s)) ip 4 then Some (take 6 (g_arp_mac (arp s))) else None.

Definition arp_attempt (fuel : nat) (ip : list Z) (wait_loops : Z) : netM (option (list Z)) :=
  send_arp_request ip;;
  mrepeat (Z.to_nat wait_loops) (network_poll fuel;; gets (arp_lookup ip)).

Definition arp_resolve (fuel : nat) (ip : list Z) (wait_loops : Z) : netM (option (list Z)) :=
  cached ← gets (arp_lookup ip);
  match cached with
  | Some mac => mret (Some mac)
  | None => mrepeat 3 (arp_attempt fuel ip wait_loops)
  end.

(** [char host_buf[128]]: the characters to the first space. *)
Definition copy_host (host : list Z) : outcome (list Z) :=
  '(host_buf, _) ← copy_text (fun c => c =? ch " ") 128 (skip_spaces host); Ok host_buf.

(** A result: the address and the time; [None] is [false]. *)
Definition dns_wait (fuel : nat) (timeout_loops : Z) : netM (option (list Z * Z)) :=
  r ← (fix turns (n : nat) (i : Z) : netM (option (option (list Z * Z))) :=
    match n with
    | O => mret None
    | S n =>
      network_poll fuel;;
      d ← gets dns;
      if negb (g_dns_waiting d) then
        mret (Some (if g_dns_reply d && g_dns_reply_has_a d
                    then Some (g_dns_reply_ip d, u32 (i / PING_LOOPS_PER_MS + 1)) else None))
      else turns n (i + 1)
    end) (Z.to_nat timeout_loops) 0;
  match r with
  | Some a => mret a
  | None => modify (set_dns (set_dns_waiting false));; mret None
  end.

(** The next query id, never 0, and the source port, cycling in its range. *)
Definition next_dns_id (d : dns_state) : Z * Z :=
  let id := g_dns_next_id d in
  let next := u16 (id + 1) in
  if id =? 0 then (next, u16 (next + 1)) else (id, next).

Definition next_src_port (d : dns_state) : Z * Z :=
  let p := g_dns_src_port d in
  let p := if (p <? DNS_SRC_PORT_MIN) || (p >? DNS_SRC_PORT_MAX) then DNS_SRC_PORT_MIN else p in
  let next := u16 (p + 1) in
  (p, if next >? DNS_SRC_PORT_MAX then DNS_SRC_PORT_MIN else next).

(** The query proper, once the name is no literal address. *)
Definition dns_query (fuel : nat) (host_buf : list Z) (timeout_loops : Z) : netM (option (list Z * Z)) :=
  mac ← arp_resolve fuel (route_next_hop g_dns_server) 120000;
  match mac with
  | None => mret None
  | Some dst_mac =>
    d ← gets dns;
    let '(dns_id, next_id) := next_dns_id d in
    let '(src_port, next_port) := next_src_port d in
    modify (set_dns (set_dns_ports next_id next_port));;
    q ← lift (build_dns_query host_buf dns_id (replicate 512 0) DNS_MAX_PACKET);
    match q with
    | None => mret None
    | Some (query, query_len) =>
      modify (set_dns (set_dns_expect dns_id src_port));;
      sent ← send_udp_packet dst_mac g_dns_server src_port DNS_PORT query query_len;
      if negb sent then modify (set_dns (set_dns_waiting false));; mret None
      else dns_wait fuel timeout_loops
    end
  end.

Definition network_dns_resolve_a (fuel : nat) (host : option (list Z)) (timeout_loops : Z)
    : netM (option (list Z * Z)) :=
  match host with
  | None => mret None
  | Some host =>
    host_buf ← lift (copy_host host);
    if (length host_buf =? 0)%nat then mret None
    else
      up ← network_init;
      if negb up then mret None
      else if strcmp host_buf (bs "localhost") =? 0 then mret (Some (g_ip, 0))
      else
        let '(ok, ip) := network_parse_ipv4 host_buf (replicate 4 0) in
        if ok then mret (Some (ip, 0)) else dns_query fuel host_buf timeout_loops
  end.

(** [net_ping_result_t] of a successful ping: bytes, time to live, time. *)
Definition ping_wait (fuel : nat) (timeout_loops : Z) : netM (option (Z * Z * Z)) :=
  r ← (fix turns (n : nat) (i : Z) : netM (option (Z * Z * Z)) :=
    match n with
    | O => mret None
    | S n =>
      network_poll fuel;;
      p ← gets ping;
      if g_ping_reply p then
        mret (Some (g_ping_reply_bytes p, g_ping_reply_ttl p, u32 (i / PING_LOOPS_PER_MS + 1)))
      else turns n (i + 1)
    end) (Z.to_nat timeout_loops) 0;
  match r with
  | Some a => mret (Some a)
  | None => modify (set_ping (set_ping_waiting false));; mret None
  end.

Definition ping_payload : list Z := map (fun i => ch "A" + Z.of_nat (i mod 26)) (seq 0 32).

Definition network_ping_ipv4 (fuel : nat) (dst_ip : option (list Z)) (timeout_loops : Z)
    : netM (option (Z * Z * Z)) :=
  match dst_ip with
  | None => mret None
  | Some dst_ip =>
    up ← network_init;
    if negb up then mret None
    else if bytes_equal dst_ip g_ip 4 then mret (Some (32, 64, 0))
    else
      mac ← arp_resolve fuel (route_next_hop dst_ip) 120000;
      match mac with
      | None => mret None
      | Some dst_mac =>
        p ← gets ping;
        let seq := g_ping_seq p in
        modify (set_ping (fun _ => PingState true false 0 0 seq (u16 (seq + 1)) (take 4 dst_ip)));;
        sent ← send_icmp_packet dst_mac dst_ip 8 g_ping_id seq ping_payload 32;
        if negb sent then modify (set_ping (set_ping_waiting false));; mret None
        else ping_wait fuel timeout_loops
      end
  end.

End driver.
