(* ===== verification/NetworkSafe.v ===== *)
(** Memory safety of the network driver: whatever the card answers and
    whatever the packets hold, no access leaves its buffer. *)
From Stdlib Require Import ZArith Lia Ascii String.
From stdpp Require Import base tactics option numbers list.
From S2P Require Import Prelude Buffer CString NetBytes Ports Network.
#[local] Open Scope Z_scope.

(** * The invariant of the globals *)

Record net_ok (s : net) : Prop := {
  ok_mac : length (g_mac (nic s)) = 6%nat /\ bytes (g_mac (nic s));
  ok_arp_ip : length (g_arp_ip (arp s)) = 4%nat /\ bytes (g_arp_ip (arp s));
  ok_arp_mac : length (g_arp_mac (arp s)) = 6%nat /\ bytes (g_arp_mac (arp s));
  ok_target : length (g_ping_target (ping s)) = 4%nat /\ bytes (g_ping_target (ping s));
  ok_reply_ip : length (g_dns_reply_ip (dns s)) = 4%nat /\ bytes (g_dns_reply_ip (dns s));
  ok_rx : length (g_rx_buf s) = 1600%nat /\ bytes (g_rx_buf s);
  ok_tx : length (g_tx_buf s) = 1600%nat /\ bytes (g_tx_buf s) }.

(** The rules of [mkeeps] for this invariant. *)
Abbreviation keeps := (mkeeps net_ok).
Abbreviation keeps_ret := (mkeeps_ret net_ok).
Abbreviation keeps_bind := (mkeeps_bind net_ok).
Abbreviation keeps_mono := (mkeeps_mono net_ok).
Abbreviation keeps_lift := (mkeeps_lift net_ok).
Abbreviation keeps_skip := (mkeeps_skip net_ok).
Abbreviation keeps_get := (mkeeps_get net_ok).
Abbreviation keeps_gets := (mkeeps_gets net_ok).
Abbreviation keeps_modify := (mkeeps_modify net_ok).
Abbreviation keeps_out := (mkeeps_out net_ok).
Abbreviation keeps_mrepeat := (mkeeps_mrepeat net_ok).
Abbreviation keeps_mloop := (mkeeps_mloop net_ok).

Section keeps.
Context `{Hardware}.

Lemma keeps_inb p : keeps (inb p) is_u8.
Proof. intros st Hst. by apply wp_in. Qed.
Lemma keeps_inw p : keeps (inw p) is_u16.
Proof. intros st Hst. by apply wp_in. Qed.
Lemma keeps_inl32 p : keeps (inl32 p) is_u32.
Proof. intros st Hst. by apply wp_in. Qed.

Lemma keeps_ne_write r v : keeps (ne_write r v) any.
Proof. apply (keeps_bind _ _ any); [by apply keeps_gets|]. intros p _. apply keeps_out. Qed.
Lemma keeps_ne_read r : keeps (ne_read r) is_u8.
Proof. apply (keeps_bind _ _ any); [by apply keeps_gets|]. intros p _. apply keeps_inb. Qed.
End keeps.

(** Steps through register writes, reads and returns. *)
Ltac keeps_step :=
  match goal with
  | |- keeps (ne_write _ _) _ => apply keeps_ne_write
  | |- keeps (outb _ _) _ => apply keeps_out
  | |- keeps (outw _ _) _ => apply keeps_out
  | |- keeps (outl _ _) _ => apply keeps_out
  | |- keeps skip _ => apply keeps_skip
  | |- keeps (ne_write _ _ ≫= _) _ => apply (keeps_bind _ _ any); [apply keeps_ne_write|intros _ _]
  | |- keeps (outl _ _ ≫= _) _ => apply (keeps_bind _ _ any); [apply keeps_out|intros _ _]
  | |- keeps (outw _ _ ≫= _) _ => apply (keeps_bind _ _ any); [apply keeps_out|intros _ _]
  | |- keeps (outb _ _ ≫= _) _ => apply (keeps_bind _ _ any); [apply keeps_out|intros _ _]
  | |- keeps (ne_read _ ≫= _) _ => apply (keeps_bind _ _ is_u8); [apply keeps_ne_read|intros ? ?]
  | |- keeps (ne_port _ ≫= _) _ => apply (keeps_bind _ _ any); [by apply keeps_gets|intros ? _]
  | |- keeps (inb _ ≫= _) _ => apply (keeps_bind _ _ is_u8); [apply keeps_inb|intros ? ?]
  | |- keeps (inw _ ≫= _) _ => apply (keeps_bind _ _ is_u16); [apply keeps_inw|intros ? ?]
  | |- keeps (inl32 _ ≫= _) _ => apply (keeps_bind _ _ is_u32); [apply keeps_inl32|intros ? ?]
  | |- keeps (get ≫= _) _ => apply (keeps_bind _ _ net_ok); [apply keeps_get|intros ? ?]
  | |- keeps (mret _) _ => apply keeps_ret
  | |- keeps (if ?b then _ else _) _ => destruct b eqn:?
  end.

Section adapter.
Context `{Hardware}.

Lemma keeps_wait mask guard : keeps (ne_wait_isr mask guard) any.
Proof.
  unfold ne_wait_isr. apply (keeps_bind _ _ any); [|intros ? _; by apply keeps_ret].
  eapply keeps_mono; [apply (keeps_mrepeat _ _ any)|done].
  keeps_step. apply keeps_ret. by case_match.
Qed.

Lemma keeps_setup addr n cmd : keeps (dma_setup addr n cmd) any.
Proof. unfold dma_setup. by repeat keeps_step. Qed.

Lemma keeps_end : keeps dma_end any.
Proof.
  unfold dma_end. apply (keeps_bind _ _ any); [apply keeps_wait|]. intros ok _. by repeat keeps_step.
Qed.

Lemma even_up_turns len : 0 <= len < 65535 -> turns (even_up len) = Z.to_nat ((len + 1) / 2).
Proof.
  intros Hlen. unfold turns, even_up. change 4294967294 with (Z.shiftl (Z.ones 31) 1).
  rewrite land_high by (simpl; lia). change (2 ^ 1) with 2.
  rewrite u16_small by words. f_equal. words.
Qed.

Lemma keeps_dma_in n : forall i dst len, bytes dst -> 0 <= i -> i + 2 * Z.of_nat n <= len + 1 ->
  len <= Z.of_nat (length dst) -> len < 65535 ->
  keeps (dma_in n i dst len) (fun d => length d = length dst /\ bytes d).
Proof.
  induction n as [|n IH]; intros i dst len Hd Hi Hn Hlen Hmax; [by apply keeps_ret|].
  cbn [dma_in]. keeps_step. keeps_step. unfold is_u16 in *.
  apply (keeps_bind _ _ (fun d => length d = length dst /\ bytes d)).
  { keeps_step; [|by apply keeps_ret]. apply keeps_lift, blit_safe; try done; [|simpl; lia].
    repeat constructor; apply u8_range. }
  intros d1 [Hl1 Hb1]. apply (keeps_bind _ _ (fun d => length d = length dst /\ bytes d)).
  { rewrite u16_small by (unfold is_u16; lia). keeps_step; [|by apply keeps_ret].
    apply keeps_lift, blit_safe; try done; [|lia|simpl; lia]. repeat constructor; apply u8_range. }
  intros d2 [Hl2 Hb2]. rewrite <- Hl2. destruct n as [|n]; [by apply keeps_ret|].
  apply IH; [done| |rewrite u16_small by words; lia|lia|done]. words.
Qed.

Lemma keeps_dma_read addr dst len : bytes dst -> 0 <= len < 65535 -> len <= Z.of_nat (length dst) ->
  keeps (ne_dma_read addr dst len) (fun r => length r.1 = length dst /\ bytes r.1).
Proof.
  intros Hd Hlen Hle. unfold ne_dma_read. keeps_step; [by apply keeps_ret|].
  apply (keeps_bind _ _ any); [apply keeps_setup|intros _ _].
  apply (keeps_bind _ _ (fun d => length d = length dst /\ bytes d)).
  { apply keeps_dma_in; try done; rewrite ?even_up_turns by done; words. }
  intros d Hd'. apply (keeps_bind _ _ any); [apply keeps_end|]. intros ok _. by apply keeps_ret.
Qed.

Lemma keeps_dma_out n : forall i src len, bytes src -> 0 <= i -> i + 2 * Z.of_nat n <= len + 1 ->
  len <= Z.of_nat (length src) -> len < 65535 -> keeps (dma_out n i src len) any.
Proof.
  induction n as [|n IH]; intros i src len Hd Hi Hn Hlen Hmax; [by apply keeps_ret|].
  cbn [dma_out]. apply (keeps_bind _ _ any).
  { keeps_step; [|by apply keeps_ret]. eapply keeps_mono; [apply keeps_lift, read_safe; [done|lia]|done]. }
  intros w _. apply (keeps_bind _ _ any).
  { rewrite u16_small by (unfold is_u16; lia). keeps_step; [|by apply keeps_ret].
    apply (keeps_bind _ _ is_u8); [apply keeps_lift, read_safe; [done|lia]|]. intros b _. by apply keeps_ret. }
  intros w' _. repeat keeps_step. destruct n as [|n]; [by apply keeps_ret|].
  apply IH; [done| |rewrite u16_small by words; lia|lia|done]. words.
Qed.

Lemma keeps_dma_write addr src len : bytes src -> 0 <= len < 65535 -> len <= Z.of_nat (length src) ->
  keeps (ne_dma_write addr src len) any.
Proof.
  intros Hd Hlen Hle. unfold ne_dma_write. keeps_step; [by apply keeps_ret|].
  apply (keeps_bind _ _ any); [apply keeps_setup|intros _ _].
  apply (keeps_bind _ _ any); [|intros _ _; apply keeps_end].
  apply keeps_dma_out; try done; rewrite ?even_up_turns by done; words.
Qed.

Lemma set_tx_ok tx s : net_ok s -> length tx = 1600%nat -> bytes tx -> net_ok (set_tx tx s).
Proof. intros [] ? ?. by split. Qed.

Lemma set_rx_ok rx s : net_ok s -> length rx = 1600%nat -> bytes rx -> net_ok (set_rx rx s).
Proof. intros [] ? ?. by split. Qed.

Lemma keeps_send_frame frame len : bytes frame -> 0 <= len <= Z.of_nat (length frame) -> len < 65536 ->
  keeps (ne_send_frame frame len) any.
Proof.
  intros Hf Hlen Hmax. unfold ne_send_frame. keeps_step. destruct (ok_tx a) as [Htx Hbtx]; [done|].
  keeps_step; [by apply keeps_ret|].
  set (tx_len := if len <? 60 then 60 else len). assert (len <= tx_len /\ (tx_len = 60 \/ tx_len = len)) as [? ?]
    by (unfold tx_len; case_match; lia).
  rewrite Z.gtb_ltb. destruct (Z.ltb_spec BUF_SIZE tx_len) as [|Hb]; [by apply keeps_ret|]. unfold BUF_SIZE in Hb.
  apply (keeps_bind _ _ (fun d => length d = Z.to_nat len /\ bytes d)); [apply keeps_lift, slice_safe; done || lia|].
  intros d [Hd1 Hd2]. apply (keeps_bind _ _ (fun d => length d = 1600%nat /\ bytes d));
    [apply keeps_lift, blit_safe; done || lia|].
  intros t1 [Ht1 Hbt1]. apply (keeps_bind _ _ (fun d => length d = 1600%nat /\ bytes d)).
  { apply keeps_lift. case_match; [|by apply succeeds_ret].
    apply blit_safe; [done..|apply Forall_replicate; unfold is_u8; lia|lia|rewrite length_replicate; lia]. }
  intros t2 [Ht2 Hbt2]. apply (keeps_bind _ _ any); [apply keeps_modify; intros; by apply set_tx_ok|intros _ _].
  apply (keeps_bind _ _ any); [apply keeps_dma_write; done || lia|]. intros ok _.
  destruct (negb ok); [by apply keeps_ret|]. repeat (keeps_step; []).
  apply (keeps_bind _ _ any); [|intros; by apply keeps_ret].
  eapply keeps_mono; [apply (keeps_mrepeat _ _ any)|done]. keeps_step. keeps_step; [by apply keeps_ret|].
  keeps_step. by apply keeps_ret.
Qed.
End adapter.

(** * Building frames *)

Definition tx_ok (tx : list Z) : Prop := length tx = 1600%nat /\ bytes tx.

Lemma blit_tx tx i d : tx_ok tx -> bytes d -> 0 <= i -> i + Z.of_nat (length d) <= 1600 ->
  succeeds (blit tx i d) tx_ok.
Proof. intros [? ?] ? ? ?. by apply blit_safe. Qed.

Lemma wr16be_tx tx i v : tx_ok tx -> 0 <= i -> i + 2 <= 1600 -> succeeds (wr16be tx i v) tx_ok.
Proof. intros. apply blit_tx; [done|apply be16_bytes|done|simpl; lia]. Qed.

Lemma checksum16_safe p len : bytes p -> 0 <= len < 65535 -> len <= Z.of_nat (length p) ->
  succeeds (checksum16 p len) is_u16.
Proof. intros. rewrite checksum16_spec by done. apply succeeds_ret, ones_sum_u16. Qed.

Lemma checksum16_tx tx i len : tx_ok tx -> 0 <= i -> 0 <= len <= 1600 - i ->
  succeeds (checksum16 (from tx i) len) is_u16.
Proof.
  intros [Hl Hb] Hi Hlen. apply checksum16_safe; [by apply from_bytes|lia|]. rewrite from_length by done. lia.
Qed.

Lemma take_bytes n l : bytes l -> bytes (take n l).
Proof. apply Forall_take. Qed.

Ltac bytes_tac :=
  repeat first [assumption | apply be16_bytes | apply take_bytes | by (unfold is_u8; lia)
    | apply Forall_cons; split | apply Forall_nil].

(** A chain of stores into a frame. *)
Ltac stores :=
  repeat (eapply succeeds_bind;
    [first [apply wr16be_tx; [done|lia|lia]
           |apply blit_tx; [done|by bytes_tac|lia|rewrite ?length_take; simpl length; lia]]
    |intros ? ?]).

Lemma write_headers_safe tx mac dst_mac dst_ip id ip_len proto :
  tx_ok tx -> bytes mac -> bytes dst_mac -> bytes dst_ip -> is_u8 proto ->
  succeeds (write_headers tx mac dst_mac dst_ip id ip_len proto) tx_ok.
Proof.
  intros Htx Hm Hdm Hdi Hp. assert (bytes g_ip) by (by repeat constructor). unfold write_headers. stores.
  eapply succeeds_bind; [apply checksum16_tx; [done|lia|lia]|intros c Hc].
  apply wr16be_tx; [done|lia|lia].
Qed.

Lemma payload_safe tx payload payload_len : tx_ok tx -> bytes payload ->
  0 <= payload_len <= 1558 -> payload_len <= Z.of_nat (length payload) ->
  succeeds (if payload_len =? 0 then Ok tx else data ← slice payload 0 payload_len; blit tx 42 data) tx_ok.
Proof.
  intros Htx Hp Hl Hle. case_match; [by apply succeeds_ret|].
  eapply succeeds_bind; [apply slice_safe; done || lia|]. intros d [? ?].
  apply blit_tx; [done|done|lia|lia].
Qed.

Lemma write_icmp_safe tx mac dst_mac dst_ip id ty ident seq payload payload_len :
  tx_ok tx -> bytes mac -> bytes dst_mac -> bytes dst_ip -> is_u8 ty -> bytes payload ->
  0 <= payload_len <= 1558 -> payload_len <= Z.of_nat (length payload) ->
  succeeds (write_icmp tx mac dst_mac dst_ip id ty ident seq payload payload_len) tx_ok.
Proof.
  intros Htx Hm Hdm Hdi Hty Hp Hl Hle. unfold write_icmp.
  eapply succeeds_bind; [apply write_headers_safe; try done; words|]. intros t Ht. stores.
  eapply succeeds_bind; [by apply payload_safe|]. intros t' Ht'.
  rewrite (u16_small (8 + _)) by words.
  eapply succeeds_bind; [apply checksum16_tx; [done|lia|lia]|intros c Hc].
  apply wr16be_tx; [done|lia|lia].
Qed.

Lemma write_udp_safe tx mac dst_mac dst_ip id sp dp payload payload_len :
  tx_ok tx -> bytes mac -> bytes dst_mac -> bytes dst_ip -> bytes payload ->
  0 <= payload_len <= 1558 -> payload_len <= Z.of_nat (length payload) ->
  succeeds (write_udp tx mac dst_mac dst_ip id sp dp payload payload_len) tx_ok.
Proof.
  intros Htx Hm Hdm Hdi Hp Hl Hle. unfold write_udp.
  eapply succeeds_bind; [apply write_headers_safe; try done; words|]. intros t Ht. stores.
  by apply payload_safe.
Qed.

Lemma blit_arp buf i d : length buf = 42%nat /\ bytes buf -> bytes d -> 0 <= i ->
  i + Z.of_nat (length d) <= 42 -> succeeds (blit buf i d) (fun b => length b = 42%nat /\ bytes b).
Proof. intros [? ?] ? ? ?. by apply blit_safe. Qed.

Lemma build_arp_safe buf dst_mac op smac sip tmac tip :
  length buf = 42%nat /\ bytes buf -> bytes dst_mac -> bytes smac -> bytes sip -> bytes tmac -> bytes tip ->
  succeeds (build_arp_frame buf dst_mac op smac sip tmac tip) (fun b => length b = 42%nat /\ bytes b).
Proof.
  intros Hb Hdm Hsm Hsi Htm Hti. unfold build_arp_frame, wr16be.
  repeat (eapply succeeds_bind; [apply blit_arp; [done
    |by bytes_tac|lia
    |rewrite ?length_take; simpl length; lia]|intros ? ?]).
  apply blit_arp; [done|by apply take_bytes|lia|rewrite length_take; lia].
Qed.

Section sending.
Context `{Hardware}.

Lemma keeps_send_arp dst_mac op tmac tip : bytes dst_mac -> bytes tmac -> bytes tip ->
  keeps (send_arp dst_mac op tmac tip) any.
Proof.
  intros Hdm Htm Hti. unfold send_arp. keeps_step. destruct (ok_mac a) as [_ Hmac]; [done|].
  apply (keeps_bind _ _ (fun b => length b = 42%nat /\ bytes b)).
  { apply keeps_lift, build_arp_safe; try done; [|by repeat constructor].
    split; [done|]. apply Forall_replicate. unfold is_u8. lia. }
  intros f [Hf Hbf]. apply (keeps_bind _ _ any); [apply keeps_send_frame; done || lia|].
  intros _ _. by apply keeps_ret.
Qed.

Lemma set_ipv4_id_ok v s : net_ok s -> net_ok (set_ipv4_id v s).
Proof. intros []. by split. Qed.

Lemma keeps_send_icmp dst_mac dst_ip ty ident seq payload payload_len :
  bytes dst_mac -> bytes dst_ip -> is_u8 ty -> bytes payload ->
  0 <= payload_len <= 1600 -> payload_len <= Z.of_nat (length payload) ->
  keeps (send_icmp_packet dst_mac dst_ip ty ident seq payload payload_len) any.
Proof.
  intros Hdm Hdi Hty Hp Hl Hle. unfold send_icmp_packet. rewrite !u16_small by words.
  rewrite Z.gtb_ltb. unfold BUF_SIZE. destruct (Z.ltb_spec 1600 (14 + (28 + payload_len))); [by apply keeps_ret|].
  keeps_step. apply (keeps_bind _ _ any); [apply keeps_modify, set_ipv4_id_ok|intros _ _].
  destruct (ok_mac a) as [_ Hmac]; [done|]. pose proof (ok_tx a ltac:(done)) as Htx.
  apply (keeps_bind _ _ tx_ok); [apply keeps_lift, write_icmp_safe; done || lia|]. intros tx [? ?].
  apply (keeps_bind _ _ any); [apply keeps_modify; intros; by apply set_tx_ok|intros _ _].
  apply keeps_send_frame; done || lia.
Qed.

Lemma keeps_send_udp dst_mac dst_ip sp dp payload payload_len :
  bytes dst_mac -> bytes dst_ip -> bytes payload ->
  0 <= payload_len <= 1600 -> payload_len <= Z.of_nat (length payload) ->
  keeps (send_udp_packet dst_mac dst_ip sp dp payload payload_len) any.
Proof.
  intros Hdm Hdi Hp Hl Hle. unfold send_udp_packet. rewrite !u16_small by words.
  rewrite Z.gtb_ltb. unfold BUF_SIZE. destruct (Z.ltb_spec 1600 (14 + (20 + (8 + payload_len)))); [by apply keeps_ret|].
  keeps_step. apply (keeps_bind _ _ any); [apply keeps_modify, set_ipv4_id_ok|intros _ _].
  destruct (ok_mac a) as [_ Hmac]; [done|]. pose proof (ok_tx a ltac:(done)) as Htx.
  apply (keeps_bind _ _ tx_ok); [apply keeps_lift, write_udp_safe; done || lia|]. intros tx [? ?].
  apply (keeps_bind _ _ any); [apply keeps_modify; intros; by apply set_tx_ok|intros _ _].
  apply keeps_send_frame; done || lia.
Qed.
End sending.

(** * Handling packets *)

(** Reads of a packet of [len] bytes. *)
Ltac packet_step :=
  match goal with
  | |- keeps (lift (rd16be _ _) ≫= _) _ =>
    apply (keeps_bind _ _ is_u16); [apply keeps_lift, rd16be_safe; [by repeat apply from_bytes|lia|rewrite ?from_length by lia; lia]|intros ? ?]
  | |- keeps (lift (read _ _) ≫= _) _ =>
    apply (keeps_bind _ _ is_u8); [apply keeps_lift, read_safe; [by repeat apply from_bytes|rewrite ?from_length by lia; lia]|intros ? ?]
  | |- keeps (lift (slice _ _ ?n) ≫= _) _ =>
    apply (keeps_bind _ _ (fun l => length l = Z.to_nat n /\ bytes l));
      [apply keeps_lift, slice_safe; [by repeat apply from_bytes|lia|lia|rewrite ?from_length by lia; lia]|intros ? [? ?]]
  | |- _ => keeps_step
  end.

Section handlers.
Context `{Hardware}.

(** A packet: [len] bytes. *)
Definition packet_ok (p : list Z) (len : Z) : Prop := bytes p /\ 0 <= len <= 1600 /\ Z.of_nat (length p) = len.

Lemma keeps_arp frame len : packet_ok frame len -> keeps (handle_arp_packet frame len) any.
Proof.
  intros (Hb & Hl & Hle). unfold handle_arp_packet. destruct (Z.ltb_spec len 28); [apply keeps_skip|].
  repeat packet_step.
  - apply keeps_modify. intros s Hs. destruct Hs. by split.
  - unfold send_arp_reply. by apply keeps_send_arp.
Qed.

Lemma skip_questions_safe n payload len : forall off, packet_ok payload len -> is_u16 off ->
  succeeds (skip_questions n payload len off) (fun r => match r with Some o => is_u16 o | None => True end).
Proof.
  induction n as [|n IH]; intros off Hp Ho; [by apply succeeds_ret|]. pose proof Hp as (Hb & Hl & Hle).
  cbn [skip_questions]. eapply succeeds_bind; [apply dns_skip_name_safe; done || lia|].
  intros [o|] Hr; [|by apply succeeds_ret]. case_match; [by apply succeeds_ret|]. apply IH; [done|apply u16_range].
Qed.

Lemma find_answer_safe n payload len : forall off, packet_ok payload len -> is_u16 off ->
  succeeds (find_answer n payload len off)
    (fun r => match r with Some ip => length ip = 4%nat /\ bytes ip | None => True end).
Proof.
  induction n as [|n IH]; intros off Hp Ho; [by apply succeeds_ret|]. pose proof Hp as (Hb & Hl & Hle).
  cbn [find_answer]. eapply succeeds_bind; [apply dns_skip_name_safe; done || lia|].
  intros [o|] Hr; [|by apply succeeds_ret]. unfold is_u16 in Ho. rewrite u16_small by words.
  rewrite Z.gtb_ltb. destruct (Z.ltb_spec len (o + 10)); [by apply succeeds_ret|].
  eapply succeeds_bind; [apply rd16be_safe; [done|lia|lia]|]. intros ty Hty.
  eapply succeeds_bind; [apply rd16be_safe; [done|lia|lia]|]. intros cl Hcl.
  eapply succeeds_bind; [apply rd16be_safe; [done|lia|lia]|]. intros rdlen Hrd.
  rewrite Z.gtb_ltb. destruct (Z.ltb_spec len (u16 (o + 10 + rdlen))) as [|Hfit]; [by apply succeeds_ret|].
  destruct ((ty =? 1) && (cl =? 1) && (rdlen =? 4)) eqn:E; [|apply IH; [done|apply u16_range]].
  assert (rdlen = 4) as -> by lia. rewrite u16_small in Hfit by words.
  eapply succeeds_bind; [apply slice_safe; [done|lia|lia|lia]|]. intros ip [? ?]. by apply succeeds_ret.
Qed.

Lemma set_dns_ok f s : net_ok s ->
  (length (g_dns_reply_ip (f (dns s))) = 4%nat /\ bytes (g_dns_reply_ip (f (dns s)))) -> net_ok (set_dns f s).
Proof. intros [] ?. by split. Qed.

Lemma set_ping_ok f s : net_ok s ->
  (length (g_ping_target (f (ping s))) = 4%nat /\ bytes (g_ping_target (f (ping s)))) -> net_ok (set_ping f s).
Proof. intros [] ?. by split. Qed.

Lemma keeps_set_dns f : (forall d, length (g_dns_reply_ip d) = 4%nat /\ bytes (g_dns_reply_ip d) ->
    length (g_dns_reply_ip (f d)) = 4%nat /\ bytes (g_dns_reply_ip (f d))) ->
  keeps (modify (set_dns f)) any.
Proof. intros Hf. apply keeps_modify. intros s Hs. apply set_dns_ok; [done|]. by apply Hf, ok_reply_ip. Qed.

Lemma keeps_dns payload len sp dp : packet_ok payload len -> keeps (handle_dns_payload payload len sp dp) any.
Proof.
  intros Hp. pose proof Hp as (Hb & Hl & Hle). unfold handle_dns_payload.
  apply (keeps_bind _ _ any); [by apply keeps_gets|]. intros d _.
  do 3 (case_match; [apply keeps_skip|]).
  destruct (Z.ltb_spec len 12); [by apply keeps_set_dns|].
  repeat packet_step. apply (keeps_bind _ _ any);
    [apply keeps_set_dns; intros; split; [done|by repeat constructor]|intros _ _].
  apply (keeps_bind _ _ (fun r => match r with Some o => is_u16 o | None => True end)).
  { by apply keeps_lift, skip_questions_safe. }
  intros [off|] Hoff; [|by apply keeps_set_dns].
  apply (keeps_bind _ _ (fun r => match r with Some ip => length ip = 4%nat /\ bytes ip | None => True end)).
  { apply keeps_lift. case_match; [by apply find_answer_safe|by apply succeeds_ret]. }
  intros [ip|] Hip; (apply (keeps_bind _ _ any); [|intros _ _; by apply keeps_set_dns]);
    [apply keeps_set_dns; intros d' _; exact Hip|apply keeps_skip].
Qed.

Lemma packet_part p len i k : packet_ok p len -> 0 <= i -> 0 <= k -> i + k <= len ->
  keeps (lift (slice p i k)) (fun q => packet_ok q k).
Proof.
  intros (Hb & Hl & Hle) Hi Hk Hik. apply keeps_lift. eapply succeeds_mono; [apply slice_safe; done || lia|].
  intros q [Hq Hqb]. split; [done|lia].
Qed.

Lemma keeps_udp packet len : packet_ok packet len -> keeps (handle_udp_packet packet len) any.
Proof.
  intros Hp. pose proof Hp as (Hb & Hl & Hle). unfold handle_udp_packet.
  destruct (Z.ltb_spec len 8); [apply keeps_skip|]. do 3 packet_step.
  rewrite Z.gtb_ltb. destruct (_ || _) eqn:E; [apply keeps_skip|].
  cbv zeta. rewrite u16_small by words.
  eapply keeps_bind; [eapply packet_part; [done|lia..]|]. intros d Hd. by apply keeps_dns.
Qed.

Lemma keeps_icmp eth_src packet ihl total_len len : bytes eth_src -> packet_ok packet len ->
  20 <= ihl <= total_len /\ total_len <= len -> keeps (handle_icmp eth_src packet ihl total_len) any.
Proof.
  intros Hs Hp Hi. pose proof Hp as (Hb & Hl & Hle). unfold handle_icmp.
  cbv zeta. rewrite (u16_small (total_len - ihl)) by words.
  eapply keeps_bind; [eapply packet_part; [done|lia..]|]. intros icmp Hp'.
  destruct (Z.ltb_spec (total_len - ihl) 8); [apply keeps_skip|].
  pose proof Hp' as (Hb' & Hl' & Hle'). do 4 packet_step. destruct (a =? 8).
  - rewrite u16_small by words. eapply keeps_bind; [eapply packet_part; [done|lia..]|]. intros d (? & ? & ?).
    apply (keeps_bind _ _ any); [|intros _ _; apply keeps_skip]. apply keeps_send_icmp; done || lia.
  - apply (keeps_bind _ _ any); [by apply keeps_gets|]. intros p _.
    case_match; [|apply keeps_skip]. case_match; [|apply keeps_skip].
    packet_step. apply keeps_modify. intros s Hs'. apply set_ping_ok; [done|]. by apply ok_target.
Qed.

Lemma keeps_ipv4 eth_src packet len : bytes eth_src -> packet_ok packet len ->
  keeps (handle_ipv4_packet eth_src packet len) any.
Proof.
  intros Hs Hp. pose proof Hp as (Hb & Hl & Hle). unfold handle_ipv4_packet.
  destruct (Z.ltb_spec len 20); [apply keeps_skip|]. packet_step.
  pose proof (u8_range (Z.land a 15 * 4)) as Hihl. set (ihl := u8 (Z.land a 15 * 4)) in *. unfold is_u8 in Hihl.
  destruct (negb _ || _ || _) eqn:E; [apply keeps_skip|]. packet_step.
  destruct (Z.ltb_spec a0 ihl); [apply keeps_skip|].
  set (tl := if a0 >? len then len else a0).
  assert (ihl <= tl <= len) as Htl by (unfold tl; rewrite Z.gtb_ltb; destruct (Z.ltb_spec len a0); lia).
  clearbody tl. do 2 packet_step; [apply keeps_skip|]. packet_step.
  packet_step; [apply keeps_skip|]. packet_step. destruct (_ =? IPV4_PROTO_UDP).
  - cbv zeta. rewrite u16_small by words. eapply keeps_bind; [eapply packet_part; [done|lia..]|]. intros d Hd. by apply keeps_udp.
  - packet_step; [apply keeps_skip|]. apply (keeps_icmp _ _ _ _ len); [done|done|lia].
Qed.

Lemma keeps_ethernet frame len : packet_ok frame len -> keeps (handle_ethernet_frame frame len) any.
Proof.
  intros Hp. pose proof Hp as (Hb & Hl & Hle). unfold handle_ethernet_frame.
  destruct (Z.ltb_spec len 14); [apply keeps_skip|]. do 4 packet_step. packet_step; [apply keeps_skip|].
  cbv zeta. rewrite u16_small by words. eapply keeps_bind; [eapply packet_part; [done|lia..]|]. intros d Hd.
  destruct (_ =? ETH_TYPE_ARP); [by apply keeps_arp|].
  destruct (_ =? ETH_TYPE_IPV4); [by apply keeps_ipv4|apply keeps_skip].
Qed.
End handlers.

(** * The receive ring and the entry points *)

Section entry.
Context `{Hardware}.

Lemma keeps_set_rx rx : length rx = 1600%nat -> bytes rx -> keeps (modify (set_rx rx)) any.
Proof. intros. apply keeps_modify. intros. by apply set_rx_ok. Qed.

Lemma keeps_read_ring page frame_len : 0 <= page < 128 -> 0 <= frame_len <= 1600 ->
  keeps (read_ring page frame_len) any.
Proof.
  intros Hp Hl. unfold read_ring. keeps_step. pose proof (ok_rx a ltac:(done)) as [Hr Hb].
  rewrite Z.shiftl_mul_pow2 by lia. rewrite (u16_small (page * 2 ^ 8)) by words.
  rewrite u16_small by words. change (u16 (Z.shiftl NE_RX_STOP_PAGE 8)) with 32768.
  destruct (Z.leb_spec (page * 2 ^ 8 + 4 + frame_len) 32768).
  - apply (keeps_bind _ _ (fun r => length r.1 = length (g_rx_buf a) /\ bytes r.1));
      [apply keeps_dma_read; done || lia|].
    intros [rx ok] [Hlen Hbr]. simpl in *. apply keeps_set_rx; [congruence|done].
  - rewrite !u16_small by words. set (first := 32768 - (page * 2 ^ 8 + 4)) in *.
    assert (0 <= first < frame_len) as Hf by (unfold first; lia).
    apply (keeps_bind _ _ (fun r => length r.1 = length (g_rx_buf a) /\ bytes r.1));
      [apply keeps_dma_read; done || lia|].
    intros [rx ok] [Hlen Hbr]. simpl in Hlen, Hbr.
    apply (keeps_bind _ _ (fun r => length r.1 = length (from rx first) /\ bytes r.1)).
    { rewrite (u16_small (frame_len - first)) by (unfold is_u16; lia).
      apply keeps_dma_read; [by apply from_bytes|lia|]. rewrite from_length by lia. lia. }
    intros [tl ok'] [Hlen' Hbt]. simpl in Hlen', Hbt. apply keeps_set_rx.
    + pose proof (from_length rx first ltac:(lia)). rewrite length_app, length_take. lia.
    + apply Forall_app; split; [by apply Forall_take|done].
Qed.

Lemma keeps_curr_page : keeps ne_curr_page is_u8.
Proof. unfold ne_curr_page. by repeat keeps_step. Qed.

Lemma keeps_receive fuel : keeps (ne_receive_packets fuel) any.
Proof.
  apply keeps_mloop. unfold receive_body.
  apply (keeps_bind _ _ is_u8); [apply keeps_curr_page|]. intros curr Hcurr. keeps_step.
  set (page := if u8 (a + 1) >=? NE_RX_STOP_PAGE then NE_RX_START_PAGE else u8 (a + 1)).
  assert (0 <= page < 128) as Hpage.
  { unfold page. rewrite Z.geb_leb. pose proof (u8_range (a + 1)) as Hu. unfold is_u8 in Hu.
    unfold NE_RX_STOP_PAGE, NE_RX_START_PAGE. case_match; lia. }
  clearbody page. keeps_step; [by apply keeps_ret|].
  apply (keeps_bind _ _ (fun r => length r.1 = length (replicate 4 0) /\ bytes r.1)).
  { apply keeps_dma_read; [by repeat constructor|lia|simpl; lia]. }
  intros [hdr ok] [Hh Hbh]. simpl in Hh, Hbh. keeps_step; [by apply keeps_ret|].
  do 4 packet_step. apply (keeps_bind _ _ any); [|intros _ _; keeps_step; by apply keeps_ret].
  set (count := Z.lor a2 (u16 (Z.shiftl a3 8))).
  keeps_step; [|apply keeps_skip].
  set (fl := if u16 (count - 4) >? BUF_SIZE then BUF_SIZE else u16 (count - 4)).
  assert (0 <= fl <= 1600) as Hfl.
  { unfold fl, BUF_SIZE. rewrite Z.gtb_ltb. pose proof (u16_range (count - 4)) as Hu. unfold is_u16 in Hu.
    destruct (Z.ltb_spec 1600 (u16 (count - 4))); lia. }
  clearbody fl. apply (keeps_bind _ _ any); [by apply keeps_read_ring|intros _ _]. keeps_step.
  pose proof (ok_rx a4 ltac:(done)) as [Hr Hb]. 
  apply (keeps_bind _ _ (fun l => length l = Z.to_nat fl /\ bytes l)); [apply keeps_lift, slice_safe; done || lia|].
  intros frame [Hf Hbf]. apply keeps_ethernet. split; [done|lia].
Qed.

Lemma keeps_poll fuel : keeps (network_poll fuel) any.
Proof.
  unfold network_poll. keeps_step. keeps_step; [apply keeps_skip|]. keeps_step.
  apply (keeps_bind _ _ any); [by repeat keeps_step|intros _ _].
  apply (keeps_bind _ _ any); [apply keeps_receive|intros _ _]. keeps_step.
Qed.

Lemma keeps_nic f : (forall a, length (g_mac a) = 6%nat /\ bytes (g_mac a) ->
    length (g_mac (f a)) = 6%nat /\ bytes (g_mac (f a))) -> keeps (modify (set_nic f)) any.
Proof. intros Hf. apply keeps_modify. intros s Hs. pose proof (Hf _ (ok_mac s Hs)). destruct Hs. by split. Qed.

Lemma keeps_probe_slots n : forall slot, keeps (probe_slots n slot) any.
Proof.
  induction n as [|n IH]; intros slot; cbn [probe_slots].
  { apply (keeps_bind _ _ any); [by apply keeps_nic|intros _ _]. by apply keeps_ret. }
  assert (forall r, keeps (pci_read32_bus0 slot r) is_u32) as Hr
    by (intros r; unfold pci_read32_bus0; keeps_step; apply keeps_inl32).
  apply (keeps_bind _ _ is_u32); [apply Hr|]. intros id _. keeps_step; [apply IH|].
  apply (keeps_bind _ _ is_u32); [apply Hr|]. intros cl _. keeps_step; [apply IH|].
  apply (keeps_bind _ _ is_u32); [apply Hr|]. intros bar _. keeps_step; [apply IH|].
  apply (keeps_bind _ _ any); [by apply keeps_nic|intros _ _].
  apply (keeps_bind _ _ is_u32); [apply Hr|]. intros cmd _.
  apply (keeps_bind _ _ any); [unfold pci_write32_bus0; by repeat keeps_step|intros _ _].
  apply (keeps_bind _ _ any); [by apply keeps_nic|intros _ _]. by apply keeps_ret.
Qed.

Lemma keeps_probe_once : keeps probe_once any.
Proof.
  unfold probe_once. keeps_step. keeps_step; [apply keeps_skip|].
  apply (keeps_bind _ _ any); [by apply keeps_nic|intros _ _].
  apply (keeps_bind _ _ any); [apply keeps_probe_slots|intros _ _]. apply keeps_skip.
Qed.

Lemma keeps_write_all l : forall base, keeps (ne_write_all base l) any.
Proof. induction l as [|v l IH]; intros base; cbn [ne_write_all]; [apply keeps_skip|]. keeps_step. apply IH. Qed.

Lemma read_each_ok p l : bytes p -> Forall (fun i => 0 <= i < Z.of_nat (length p)) l ->
  succeeds (read_each p l) (fun r => length r = length l /\ bytes r).
Proof.
  intros Hp. induction 1 as [|i l Hi _ IH]; cbn [read_each]; [apply succeeds_ret; split; [done|constructor]|].
  eapply succeeds_bind; [by apply read_safe|]. intros c Hc. eapply succeeds_bind; [apply IH|].
  intros r [Hr Hrb]. apply succeeds_ret. split; [cbn; by rewrite Hr|by constructor].
Qed.

Lemma prom_mac_ok prom : length prom = 32%nat -> bytes prom ->
  succeeds (prom_mac prom) (fun mac => length mac = 6%nat /\ bytes mac).
Proof.
  intros Hl Hb. unfold prom_mac.
  eapply succeeds_bind; [apply read_each_ok; [done|rewrite Hl; repeat (constructor; [lia|]); constructor]|]. intros mac Hmac.
  destruct (forallb _ mac); [|by apply succeeds_ret].
  apply read_each_ok; [done|rewrite Hl; repeat (constructor; [lia|]); constructor].
Qed.

Lemma keeps_hw_init : keeps ne_hw_init any.
Proof.
  unfold ne_hw_init. keeps_step. keeps_step; [by apply keeps_ret|].
  apply (keeps_bind _ _ any).
  { unfold ne_reset. repeat (keeps_step; []). apply keeps_wait. }
  intros up _. keeps_step; [by apply keeps_ret|].
  apply (keeps_bind _ _ any); [unfold ne_configure; by repeat keeps_step|intros _ _].
  apply (keeps_bind _ _ (fun r => length r.1 = length (replicate 32 0) /\ bytes r.1)).
  { apply keeps_dma_read; [apply Forall_replicate; unfold is_u8; lia|lia|rewrite length_replicate; lia]. }
  intros [prom ok] [Hl Hb]. rewrite length_replicate in Hl. simpl in Hl, Hb. keeps_step; [by apply keeps_ret|].
  apply (keeps_bind _ _ _ _ (keeps_lift _ _ (prom_mac_ok prom Hl Hb))). intros mac [Hm Hmb].
  apply (keeps_bind _ _ any); [by apply keeps_nic|intros _ _].
  apply (keeps_bind _ _ any).
  { unfold ne_start. keeps_step. apply (keeps_bind _ _ any); [apply keeps_write_all|intros _ _].
    apply (keeps_bind _ _ any); [apply keeps_write_all|intros _ _]. by repeat keeps_step. }
  intros _ _. apply (keeps_bind _ _ any); [|intros _ _; by apply keeps_ret].
  apply keeps_modify. intros s []. split; try done. simpl. split; [done|by repeat constructor].
Qed.

Lemma keeps_init : keeps network_init any.
Proof.
  unfold network_init. keeps_step. keeps_step; [by apply keeps_ret|].
  apply (keeps_bind _ _ any); [apply keeps_probe_once|intros _ _]. keeps_step.
  keeps_step; [by apply keeps_ret|apply keeps_hw_init].
Qed.

Lemma keeps_arp_resolve fuel ip n : bytes ip ->
  keeps (arp_resolve fuel ip n) (fun r => match r with Some mac => bytes mac | None => True end).
Proof.
  intros Hip. unfold arp_resolve.
  assert (keeps (gets (arp_lookup ip)) (fun r => match r with Some mac => bytes mac | None => True end)) as Hl.
  { apply keeps_gets. intros s Hs. unfold arp_lookup. destruct (_ && _); [|done].
    apply Forall_take. by apply ok_arp_mac. }
  apply (keeps_bind _ _ _ _ Hl). intros [mac|] Hmac; [by apply keeps_ret|].
  apply keeps_mrepeat. unfold arp_attempt. apply (keeps_bind _ _ any).
  { unfold send_arp_request. apply keeps_send_arp; [..|done]; apply Forall_replicate; unfold is_u8; lia. }
  intros _ _. apply keeps_mrepeat. apply (keeps_bind _ _ any); [apply keeps_poll|]. by intros _ _.
Qed.

Lemma route_bytes ip : bytes ip -> bytes (route_next_hop ip).
Proof. intros Hip. unfold route_next_hop. case_match; [by apply Forall_take|by repeat constructor]. Qed.

Lemma keeps_ping fuel dst n : (match dst with Some ip => length ip = 4%nat /\ bytes ip | None => True end) ->
  keeps (network_ping_ipv4 fuel dst n) any.
Proof.
  intros Hd. unfold network_ping_ipv4. destruct dst as [ip|]; [|by apply keeps_ret]. destruct Hd as [Hl Hb].
  apply (keeps_bind _ _ any); [apply keeps_init|]. intros up _. do 2 (keeps_step; [by apply keeps_ret|]).
  apply (keeps_bind _ _ _ _ (keeps_arp_resolve _ _ _ (route_bytes ip Hb))).
  intros [mac|] Hmac; [|by apply keeps_ret].
  apply (keeps_bind _ _ any); [by apply keeps_gets|]. intros p _.
  apply (keeps_bind _ _ any).
  { apply keeps_modify. intros s Hs. apply set_ping_ok; [done|]. simpl.
    split; [rewrite length_take; lia|by apply Forall_take]. }
  intros _ _.
  assert (bytes ping_payload) by (vm_compute; repeat constructor; discriminate).
  apply (keeps_bind _ _ any); [apply keeps_send_icmp; done || words|]. intros sent _. keeps_step.
  { apply (keeps_bind _ _ any); [|intros _ _; by apply keeps_ret].
    apply keeps_modify. intros s Hs. apply set_ping_ok; [done|]. by apply ok_target. }
  unfold ping_wait. apply (keeps_bind _ _ any).
  - generalize 0. induction (Z.to_nat n) as [|k IH]; intros i; [by apply keeps_ret|].
    apply (keeps_bind _ _ any); [apply keeps_poll|intros _ _].
    apply (keeps_bind _ _ any); [by apply keeps_gets|]. intros q _. keeps_step; [by apply keeps_ret|apply IH].
  - intros [x|] _; [by apply keeps_ret|].
    apply (keeps_bind _ _ any); [|intros _ _; by apply keeps_ret].
    apply keeps_modify. intros s Hs. apply set_ping_ok; [done|]. by apply ok_target.
Qed.
End entry.

(** * Name resolution *)

Definition query_ok (n : nat) (s : query_state) : Prop :=
  length (q_out s) = n /\ bytes (q_out s) /\ 12 <= q_llp s < Z.of_nat n /\ 13 <= q_pos s <= Z.of_nat n /\ 0 <= q_ll s <= 63.

Lemma query_body_safe n k s : Z.of_nat n <= 65000 -> query_ok n s /\ length (q_p s) = k ->
  succeeds (query_body (Z.of_nat n) s) (fun r => match r with
    | inl s' => exists k', (k' < k)%nat /\ query_ok n s' /\ length (q_p s') = k'
    | inr (Some s') => query_ok n s'
    | inr None => True end).
Proof.
  destruct s as [p pos llp ll out]. intros Hn ((Hl & Hb & Hllp & Hpos & Hll) & <-). simpl in *. unfold query_body.
  destruct (Z.eqb_spec (hd0 p) 0) as [|Hne]; [by apply succeeds_ret|].
  destruct p as [|c p]; [done|]. clear Hne.
  assert (forall v, bytes [u8 v]) as Hu by (intros v; repeat constructor; apply u8_range).
  destruct (_ =? ch ".").
  - destruct (ll =? 0); [by apply succeeds_ret|].
    eapply succeeds_bind; [apply blit_safe; done || simpl; lia|]. intros o1 [Hl1 Hb1].
    destruct (_ =? 0); [apply succeeds_ret; by split_and!; simpl; try lia|].
    rewrite Z.geb_leb. destruct (Z.leb_spec (Z.of_nat n) pos); [by apply succeeds_ret|].
    eapply succeeds_bind; [apply blit_safe; [done|done|apply (Hu 0)|lia|simpl; lia]|]. intros o2 [Hl2 Hb2].
    apply succeeds_ret. exists (length p). rewrite u16_small by words.
    unfold query_ok. by split_and!; simpl; try lia.
  - case_match; [by apply succeeds_ret|].
    rewrite !Z.geb_leb. destruct (Z.leb_spec 63 ll); [by apply succeeds_ret|].
    destruct (Z.leb_spec (Z.of_nat n) pos); [by apply succeeds_ret|].
    eapply succeeds_bind; [apply blit_safe; done || simpl; lia|]. intros o1 [Hl1 Hb1].
    apply succeeds_ret. exists (length p). rewrite !u16_small by words.
    unfold query_ok. by split_and!; simpl; try lia.
Qed.

Lemma build_dns_query_safe n host id out : length out = n -> (18 <= n)%nat -> Z.of_nat n <= 65000 ->
  succeeds (build_dns_query host id out (Z.of_nat n)) (fun r => match r with
    | Some (q, len) => length q = n /\ bytes q /\ 0 <= len <= Z.of_nat n
    | None => True end).
Proof.
  intros Hout Hn Hmax. unfold build_dns_query. rewrite (proj2 (Z.ltb_ge _ _)) by lia.
  case_match; [by apply succeeds_ret|]. rewrite query_header_spec by (done || lia). cbn [mbind outcome_bind].
  set (out1 := filled _ n).
  assert (length out1 = n /\ bytes out1) as [Hl1 Hb1].
  { unfold out1, filled. split; [rewrite length_app, length_replicate; cbn [length app]; simpl; lia|].
    apply Forall_app; split; [|apply Forall_replicate; unfold is_u8; lia].
    apply Forall_app; split; [apply Forall_app; split; [apply be16_bytes|]|];
      by repeat constructor. }
  clearbody out1. eapply succeeds_bind.
  { apply (cloop_ranked _ (fun k s => query_ok n s /\ length (q_p s) = k)
      (fun r => match r with Some s' => query_ok n s' | None => True end)) with (k := length (skip_spaces host)).
    - intros k s Hs. eapply succeeds_mono; [by apply query_body_safe|]. by intros [s'|[s'|]].
    - split; [|done]. split_and!; simpl; try done; lia.
    - lia. }
  intros [[p pos llp ll o]|] Hq; [|by apply succeeds_ret]. destruct Hq as (Hl & Hb & Hllp & Hpos & Hll). simpl in *.
  case_match; [by apply succeeds_ret|].
  assert (forall v, bytes [u8 v]) as Hu by (intros v; repeat constructor; apply u8_range).
  eapply succeeds_bind; [apply blit_safe; done || simpl; lia|]. intros o1 [Ho1 Hbo1].
  rewrite Z.gtb_ltb, !u16_small by words. destruct (Z.ltb_spec (Z.of_nat n) (pos + 5)); [by apply succeeds_ret|].
  eapply succeeds_bind; [apply blit_safe; [done|done|apply (Hu 0)|lia|simpl; lia]|]. intros o2 [Ho2 Hbo2].
  eapply succeeds_bind; [apply blit_safe; [done|done|apply be16_bytes|lia|simpl; lia]|]. intros o3 [Ho3 Hbo3].
  eapply succeeds_bind; [apply blit_safe; [done|done|apply be16_bytes|lia|simpl; lia]|]. intros o4 [Ho4 Hbo4].
  apply succeeds_ret. split_and!; done || lia.
Qed.

Section resolution.
Context `{Hardware}.

Definition addr_ok (ip : list Z) : Prop := length ip = 4%nat /\ bytes ip.
Definition answer_ok (r : option (list Z * Z)) : Prop := match r with Some (ip, _) => addr_ok ip | None => True end.

Lemma keeps_dns_wait fuel n : keeps (dns_wait fuel n) answer_ok.
Proof.
  unfold dns_wait.
  apply (keeps_bind _ _ (fun r : option (option (list Z * Z)) => match r with Some a => answer_ok a | None => True end)).
  - generalize 0. induction (Z.to_nat n) as [|k IH]; intros i; [by apply keeps_ret|].
    apply (keeps_bind _ _ any); [apply keeps_poll|intros _ _].
    apply (keeps_bind _ _ (fun d => addr_ok (g_dns_reply_ip d))); [by apply keeps_gets; intros s []|].
    intros q Hq. keeps_step; [apply keeps_ret; cbn; by destruct (_ && _)|apply IH].
  - intros [x|] Hx; [by apply keeps_ret|].
    apply (keeps_bind _ _ any); [by apply keeps_set_dns|intros _ _; by apply keeps_ret].
Qed.

Lemma u8_zero : is_u8 0.
Proof. unfold is_u8. lia. Qed.

Lemma parse_parts_addr n : forall part p out, addr_ok out -> addr_ok (parse_parts n part p out).1.2.
Proof.
  induction n as [|n IH]; intros part p out Hout; [done|]. cbn [parse_parts].
  destruct (_ || _); [done|]. destruct (part_digits p 0) as [[v p']|]; [|done].
  assert (Hout' : addr_ok (<[part := u8 v]> out)).
  { destruct Hout. split; [by rewrite length_insert|]. apply Forall_insert; [done|apply u8_range]. }
  destruct (_ <? _)%nat; [|by apply IH]. destruct (negb _); [done|by apply IH].
Qed.

Lemma parse_ipv4_addr text out : addr_ok out -> addr_ok (network_parse_ipv4 text out).2.
Proof.
  intros Hout. unfold network_parse_ipv4. pose proof (parse_parts_addr 4 0 (skip_spaces text) out Hout) as Hp.
  by destruct (parse_parts _ _ _ _) as [[[] o] p].
Qed.

Lemma keeps_dns_query fuel host n : keeps (dns_query fuel host n) answer_ok.
Proof.
  unfold dns_query. assert (bytes g_dns_server) as Hs by (by repeat constructor).
  apply (keeps_bind _ _ _ _ (keeps_arp_resolve _ _ _ (route_bytes _ Hs))).
  intros [mac|] Hmac; [|by apply keeps_ret].
  apply (keeps_bind _ _ any); [by apply keeps_gets|]. intros d _.
  destruct (next_dns_id d) as [dns_id next_id], (next_src_port d) as [src_port next_port].
  apply (keeps_bind _ _ any); [by apply keeps_set_dns|intros _ _].
  apply (keeps_bind _ _ _ _ (keeps_lift _ _ (build_dns_query_safe 512 host dns_id (replicate 512 0) eq_refl
    ltac:(lia) ltac:(lia)))).
  intros [[q len]|] Hq; [|by apply keeps_ret]. destruct Hq as (Hl & Hb & Hlen).
  apply (keeps_bind _ _ any); [apply keeps_set_dns; intros; split; [done|by repeat constructor]|intros _ _].
  apply (keeps_bind _ _ any); [apply keeps_send_udp; done || lia|]. intros sent _. keeps_step.
  - apply (keeps_bind _ _ any); [by apply keeps_set_dns|intros _ _]. by apply keeps_ret.
  - apply keeps_dns_wait.
Qed.

Lemma keeps_resolve fuel host n : keeps (network_dns_resolve_a fuel host n) answer_ok.
Proof.
  unfold network_dns_resolve_a. destruct host as [host|]; [|by apply keeps_ret].
  apply (keeps_bind _ _ any).
  { apply keeps_lift. unfold copy_host. eapply succeeds_bind; [apply copy_text_ok; lia|]. intros [h r] _. by apply succeeds_ret. }
  intros host_buf _.
  keeps_step; [by apply keeps_ret|]. apply (keeps_bind _ _ any); [apply keeps_init|]. intros up _.
  keeps_step; [by apply keeps_ret|]. keeps_step; [apply keeps_ret; split; [done|by repeat constructor]|].
  assert (H0 : addr_ok (replicate 4 0)) by (split; [done|apply Forall_replicate, u8_zero]).
  pose proof (parse_ipv4_addr host_buf _ H0) as Hip.
  destruct (network_parse_ipv4 _ _) as [ok ip].
  keeps_step; [by apply keeps_ret|apply keeps_dns_query].
Qed.

Definition info_ok (i : net_info) : Prop :=
  length (ni_mac i) = 6%nat /\ addr_ok (ni_ip i) /\ addr_ok (ni_netmask i) /\ addr_ok (ni_gateway i).

Lemma keeps_info : keeps network_get_info info_ok.
Proof.
  unfold network_get_info. apply (keeps_bind _ _ any); [apply keeps_probe_once|intros _ _].
  keeps_step. apply keeps_ret. destruct (ok_mac a ltac:(done)) as [Hm _].
  split; [done|]. split_and!; (split; [done|by repeat constructor]).
Qed.

(** * Reachable states *)

(** What the kernel and the commands call, with address arguments of 4 bytes. *)
Inductive net_call := Init | Poll | GetInfo | Resolve (host : option (list Z)) (timeout : Z)
  | Ping (dst : option (list Z)) (timeout : Z).

Definition call_ok (c : net_call) : Prop :=
  match c with Ping (Some ip) _ => length ip = 4%nat /\ bytes ip | _ => True end.

Definition run_call (fuel : nat) (c : net_call) : M net unit :=
  match c with
  | Init => network_init;; skip
  | Poll => network_poll fuel
  | GetInfo => network_get_info;; skip
  | Resolve host t => network_dns_resolve_a fuel host t;; skip
  | Ping dst t => network_ping_ipv4 fuel dst t;; skip
  end.

Inductive net_reachable : net * list io_event -> Prop :=
| NR_boot tr : net_reachable (net_boot, tr)
| NR_call fuel c st st' : net_reachable st -> call_ok c -> run_call fuel c st = Ok (tt, st') -> net_reachable st'.

Lemma keeps_call fuel c : call_ok c -> keeps (run_call fuel c) any.
Proof.
  intros Hc. destruct c as [| | |host t|dst t]; cbn [run_call].
  - apply (keeps_bind _ _ any); [apply keeps_init|intros _ _; apply keeps_skip].
  - apply keeps_poll.
  - apply (keeps_bind _ _ _ _ keeps_info). intros _ _. apply keeps_skip.
  - apply (keeps_bind _ _ _ _ (keeps_resolve _ _ _)). intros _ _. apply keeps_skip.
  - apply (keeps_bind _ _ any); [by apply keeps_ping|intros _ _; apply keeps_skip].
Qed.

Lemma net_boot_ok : net_ok net_boot.
Proof.
  split; (split; [reflexivity|]); apply Forall_replicate; unfold is_u8; lia.
Qed.

Lemma net_reachable_ok st : net_reachable st -> net_ok (fst st).
Proof.
  induction 1 as [tr|fuel c st st' Hr IH Hc Hrun]; [apply net_boot_ok|].
  pose proof (keeps_call fuel c Hc st IH) as Hwp. unfold wp in Hwp. rewrite Hrun in Hwp. apply Hwp.
Qed.

(** * Properties *)

(** C12: The network driver is memory-safe against arbitrary hardware and
    arbitrary packets: from every state reachable from boot by calls of the
    public functions (init, poll, get_info, DNS resolution, ping), with any
    answers of the card and any bytes in its ring, no further call reads or
    writes outside a buffer ([g_rx_buf], [g_tx_buf], a received packet, a query,
    a header) or traps, where the handler of each layer has exactly the bytes
    that were received for it, the frame, the IPv4 packet, the UDP datagram or the
    ICMP message, and a read behind its end is a fault, and the invariant of the globals
    (buffer and address sizes, all entries bytes) is kept. *)
Theorem network_safe fuel c st : net_reachable st -> call_ok c ->
  run_call fuel c st <> Stuck OutOfBounds /\ run_call fuel c st <> Stuck Trap /\
  forall st', run_call fuel c st = Ok (tt, st') -> net_ok (fst st').
Proof.
  intros Hr Hc. pose proof (keeps_call fuel c Hc st (net_reachable_ok st Hr)) as Hwp.
  destruct (wp_safe _ _ _ Hwp) as [H1 H2]. split_and!; [done|done|].
  intros st' E. unfold wp in Hwp. rewrite E in Hwp. apply Hwp.
Qed.
End resolution.

Lemma network_safe_witness :
  let hw : Hardware := fun tr w p => Z.of_nat (length tr) in
  @run_call hw 5 Poll (net_boot, []) <> Stuck OutOfBounds /\ @run_call hw 5 Poll (net_boot, []) <> Stuck Trap /\
  forall st', @run_call hw 5 Poll (net_boot, []) = Ok (tt, st') -> net_ok (fst st').
Proof. intros hw. exact (network_safe 5 Poll (net_boot, []) (NR_boot []) I). Defined.
