(* ===== verification/NetworkProto.v ===== *)
(** What the protocol handlers of network.c do with well-formed packets: the
    frames they send and the answers they accept. *)
From Stdlib Require Import ZArith Lia Ascii String.
From stdpp Require Import base tactics option numbers list.
From S2P Require Import Prelude Buffer CString NetBytes Ports Network NetworkSafe.
#[local] Open Scope Z_scope.

(** * Frames as lists *)

Definition eth_header (dst src : list Z) (ty : Z) : list Z := dst ++ src ++ be16 ty.

(** An IPv4 header without options, with checksum field [c]. *)
Definition ip_header (ip_len id proto : Z) (src dst : list Z) (c : Z) : list Z :=
  [69; 0] ++ be16 ip_len ++ be16 id ++ [0; 0; 64; proto] ++ be16 c ++ src ++ dst.

Definition icmp_message (ty ident seq : Z) (payload : list Z) (c : Z) : list Z :=
  [ty; 0] ++ be16 c ++ be16 ident ++ be16 seq ++ payload.

(** The checksum of a message whose checksum field is zero. *)
Definition checksum_of (l : list Z) : Z := 65535 - ones_sum (word_sum l).

Definition icmp_frame (mac dst_mac dst_ip : list Z) (id ty ident seq : Z) (payload : list Z) : list Z :=
  let ip_len := 28 + Z.of_nat (length payload) in
  eth_header dst_mac mac ETH_TYPE_IPV4 ++
  ip_header ip_len id IPV4_PROTO_ICMP g_ip dst_ip (checksum_of (ip_header ip_len id IPV4_PROTO_ICMP g_ip dst_ip 0)) ++
  icmp_message ty ident seq payload (checksum_of (icmp_message ty ident seq payload 0)).

Lemma rd16be_be16 pre v post i : is_u16 v -> Z.of_nat (length pre) = i ->
  rd16be (pre ++ be16 v ++ post) i = Ok v.
Proof.
  intros Hv <-. unfold rd16be. rewrite !read_ok by (rewrite !length_app; simpl; lia).
  cbn [mbind outcome_bind]. rewrite Nat2Z.id. replace (Z.to_nat (Z.of_nat (length pre) + 1)) with (S (length pre)) by lia.
  rewrite !(byte_at_app_r pre) by lia. rewrite Nat.sub_diag. replace (S (length pre) - length pre)%nat with 1%nat by lia.
  change (byte_at (be16 v ++ post) 0) with (u8 (Z.shiftr v 8)).
  change (byte_at (be16 v ++ post) 1) with (u8 (Z.land v 255)).
  rewrite be16_value by apply u8_range. change 255 with (Z.ones 8). rewrite Z.land_ones, Z.shiftr_div_pow2 by lia.
  change (2 ^ 8) with 256. f_equal. words.
Qed.

(** The transmit buffer once [pre] has been written from its start. *)
Definition built (tx pre : list Z) : Prop := tx_ok tx /\ exists rest, tx = pre ++ rest.

Lemma built_nil tx : tx_ok tx -> built tx [].
Proof. intros. split; [done|by exists tx]. Qed.

Lemma built_next tx pre i d : built tx pre -> Z.of_nat (length pre) = i -> bytes d ->
  i + Z.of_nat (length d) <= 1600 -> succeeds (blit tx i d) (fun t => built t (pre ++ d)).
Proof.
  intros [Htx (rest & ->)] <- Hd Hfit. pose proof (blit_tx _ _ d Htx Hd (Zle_0_nat (length pre)) Hfit) as (t & Ht & Hok).
  exists t. split; [done|]. split; [done|]. destruct Htx as [Hlen _]. rewrite length_app in Hlen.
  rewrite blit_ok in Ht by (rewrite ?length_app; lia). injection Ht as <-.
  rewrite Nat2Z.id, take_app_length. eexists. by rewrite <- app_assoc.
Qed.

Lemma built_patch tx a old b i d : built tx (a ++ old ++ b) -> Z.of_nat (length a) = i -> bytes d ->
  length old = length d -> succeeds (blit tx i d) (fun t => built t (a ++ d ++ b)).
Proof.
  intros [Htx (rest & ->)] <- Hd Hl. pose proof Htx as [Hlen Hb]. rewrite !length_app in Hlen.
  destruct (blit_tx ((a ++ old ++ b) ++ rest) (Z.of_nat (length a)) d Htx Hd) as (t & Ht & Hok); [lia|lia|].
  exists t. split; [done|]. split; [done|]. rewrite <- !app_assoc, blit_app in Ht by (done || lia).
  injection Ht as <-. exists rest. by rewrite <- !app_assoc.
Qed.

Lemma built_sum tx a m i len : built tx (a ++ m) -> Z.of_nat (length a) = i -> Z.of_nat (length m) = len ->
  checksum16 (from tx i) len = Ok (checksum_of m).
Proof.
  intros [[Hlen Hb] (rest & ->)] <- <-. unfold from. rewrite !length_app in Hlen.
  rewrite Nat2Z.id, <- app_assoc, drop_app_length.
  rewrite checksum16_spec; [|by apply Forall_app in Hb as [[_ ?]%Forall_app ?]; apply Forall_app|lia|rewrite length_app; lia].
  by rewrite Nat2Z.id, take_app_length.
Qed.

(** Sequential stores: each appends to what has been written. *)
Ltac build :=
  repeat (eapply succeeds_bind;
    [eapply built_next; [eassumption|rewrite ?length_app; simpl length; lia|by bytes_tac
      |rewrite ?length_app; simpl length; lia]|intros ? ?; cbn beta in *]).

Section frames.
Variables (tx mac dst_mac dst_ip : list Z) (id : Z).
Hypotheses (Htx : tx_ok tx) (Hmac : length mac = 6%nat /\ bytes mac)
  (Hdm : length dst_mac = 6%nat /\ bytes dst_mac) (Hdi : length dst_ip = 4%nat /\ bytes dst_ip).

Lemma write_headers_spec ip_len proto : is_u8 proto ->
  succeeds (write_headers tx mac dst_mac dst_ip id ip_len proto) (fun t =>
    built t (eth_header dst_mac mac ETH_TYPE_IPV4 ++
      ip_header ip_len id proto g_ip dst_ip (checksum_of (ip_header ip_len id proto g_ip dst_ip 0)))).
Proof.
  intros Hp. destruct Hmac as [Hm1 Hm2], Hdm as [Hd1 Hd2], Hdi as [Hi1 Hi2].
  assert (bytes g_ip) by (by repeat constructor).
  unfold write_headers, wr16be. rewrite !take_ge by (simpl; lia).
  pose proof (built_nil tx Htx). build.
  match goal with Hb : built ?t ?pre |- succeeds (checksum16 (from ?t _) _ ≫= _) _ =>
    assert (built t (eth_header dst_mac mac ETH_TYPE_IPV4 ++ ip_header ip_len id proto g_ip dst_ip 0)) as Hbt
      by (unfold eth_header, ip_header; repeat rewrite <- app_assoc in Hb; repeat rewrite <- app_assoc; exact Hb) end.
  rewrite (built_sum _ _ _ _ _ Hbt);
    [|unfold eth_header; rewrite !length_app; simpl; lia|unfold ip_header; rewrite !length_app; simpl; lia].
  cbn [mbind outcome_bind]. set (c := checksum_of _).
  replace (eth_header dst_mac mac ETH_TYPE_IPV4 ++ ip_header ip_len id proto g_ip dst_ip 0) with
    ((eth_header dst_mac mac ETH_TYPE_IPV4 ++ [69; 0] ++ be16 ip_len ++ be16 id ++ [0; 0; 64; proto]) ++ be16 0 ++ g_ip ++ dst_ip)
    in Hbt by (unfold ip_header; by rewrite <- !app_assoc).
  eapply succeeds_mono; [eapply (built_patch _ _ _ _ 24 (be16 c) Hbt)|].
  - unfold eth_header. rewrite !length_app. simpl. lia.
  - apply be16_bytes.
  - done.
  - intros t Ht. unfold ip_header. by rewrite <- !app_assoc in Ht.
Qed.

Lemma write_icmp_spec ty ident seq payload extra : is_u8 ty -> bytes payload -> Z.of_nat (length payload) <= 1558 ->
  succeeds (write_icmp tx mac dst_mac dst_ip id ty ident seq (payload ++ extra) (Z.of_nat (length payload)))
    (fun t => built t (icmp_frame mac dst_mac dst_ip id ty ident seq payload)).
Proof.
  intros Hty Hp Hlen. pose proof Hmac as [Hm1 _]. pose proof Hdm as [Hd1 _]. pose proof Hdi as [Hi1 _].
  unfold write_icmp. rewrite (u16_small (28 + _)) by words.
  eapply succeeds_bind; [apply write_headers_spec; unfold is_u8, IPV4_PROTO_ICMP; lia|]. intros t Ht.
  set (hdr := eth_header _ _ _ ++ ip_header _ _ _ _ _ _) in Ht.
  assert (length hdr = 34%nat) as Hhdr by (unfold hdr, eth_header, ip_header; rewrite !length_app; simpl; lia).
  cbn beta in Ht. unfold wr16be. build.
  match goal with Hb : built ?u ?pre |- succeeds ((if _ then Ok ?u else _) ≫= _) _ =>
    eapply (succeeds_bind _ _ (fun u => built u (pre ++ payload))) end.
  { destruct (Z.eqb_spec (Z.of_nat (length payload)) 0).
    - destruct payload; [|done]. rewrite app_nil_r. by apply succeeds_ret.
    - rewrite (slice_at [] payload extra) by done.
      cbn [mbind outcome_bind]. eapply built_next; [eassumption|rewrite !length_app; simpl; lia|done|lia]. }
  intros u Hu. repeat rewrite <- app_assoc in Hu.
  change (hdr ++ [ty] ++ [0] ++ [0] ++ [0] ++ be16 ident ++ be16 seq ++ payload)
    with (hdr ++ icmp_message ty ident seq payload 0) in Hu.
  rewrite (built_sum _ _ _ _ _ Hu); [|lia|rewrite u16_small by words; unfold icmp_message; rewrite !length_app; simpl; lia].
  cbn [mbind outcome_bind]. set (c := checksum_of _).
  replace (hdr ++ icmp_message ty ident seq payload 0) with
    ((hdr ++ [ty; 0]) ++ be16 0 ++ be16 ident ++ be16 seq ++ payload) in Hu
    by (unfold icmp_message; by rewrite <- !app_assoc).
  eapply succeeds_mono; [eapply (built_patch _ _ _ _ 36 (be16 c) Hu)|].
  - rewrite length_app, Hhdr. done.
  - apply be16_bytes.
  - done.
  - intros w Hw. unfold icmp_frame. rewrite app_assoc. fold hdr.
    rewrite <- app_assoc in Hw. exact Hw.
Qed.
End frames.

(** * Echo requests *)

(** An IPv4 packet as it is received: any header fields, up to ten words of
    options, fragment offset 0. *)
Record ip_packet := IpPacket {
  p_tos : Z; p_id : Z; p_flags : Z; p_ttl : Z; p_csum : Z; p_src : list Z; p_options : list Z; p_data : list Z }.

Definition ip_packet_ok (p : ip_packet) : Prop :=
  is_u8 (p_tos p) /\ is_u16 (p_id p) /\ 0 <= p_flags p < 8 /\ is_u8 (p_ttl p) /\ is_u16 (p_csum p) /\
  (length (p_src p) = 4%nat /\ bytes (p_src p)) /\
  (bytes (p_options p) /\ exists words, (words <= 10)%nat /\ length (p_options p) = (4 * words)%nat) /\
  bytes (p_data p).

(** The length of the header, and of the packet. *)
Definition header_len (p : ip_packet) : Z := 20 + Z.of_nat (length (p_options p)).
Definition packet_len (p : ip_packet) : Z := header_len p + Z.of_nat (length (p_data p)).

Definition ip_bytes (proto : Z) (p : ip_packet) : list Z :=
  [64 + header_len p / 4; p_tos p] ++ be16 (packet_len p) ++ be16 (p_id p) ++ be16 (p_flags p * 8192) ++
  [p_ttl p; proto] ++ be16 (p_csum p) ++ p_src p ++ g_ip ++ p_options p ++ p_data p.

Section echo.
Context `{Hardware}.

(** Running a bind whose first computation is a successful pure one. *)
Lemma lift_ok {A B} (o : outcome A) (a : A) (f : A -> M net B) st :
  o = Ok a -> (lift o ≫= f) st = f a st.
Proof. by intros ->. Qed.

(** What version and header length the first byte holds. *)
Lemma first_byte words : (words <= 10)%nat ->
  let ihl := 20 + Z.of_nat (4 * words) in
  u8 (Z.shiftr (64 + ihl / 4) 4) = 4 /\ u8 (Z.land (64 + ihl / 4) 15 * 4) = ihl.
Proof. intros Hw. do 11 (destruct words as [|words]; [done|]). lia. Qed.

Lemma offset_zero flags : 0 <= flags < 8 -> Z.land (flags * 8192) 8191 =? 0 = true.
Proof. intros Hf. change 8191 with (Z.ones 13). rewrite Z.land_ones by lia. words. Qed.

(** The packet around its source address, and around its data. *)
Lemma ip_bytes_src proto p : exists pre,
  ip_bytes proto p = pre ++ p_src p ++ g_ip ++ p_options p ++ p_data p /\ length pre = 12%nat.
Proof.
  eexists ([64 + header_len p / 4; p_tos p] ++ be16 _ ++ be16 (p_id p) ++ be16 _ ++ [p_ttl p; proto] ++ be16 (p_csum p)).
  split; [unfold ip_bytes; by rewrite <- !app_assoc|done].
Qed.

Lemma ip_bytes_data proto p : ip_packet_ok p -> exists hdr,
  ip_bytes proto p = hdr ++ p_data p /\ Z.of_nat (length hdr) = header_len p.
Proof.
  intros (_ & _ & _ & _ & _ & [Hsl _] & _ & _). destruct (ip_bytes_src proto p) as (pre & Ep & Hpre).
  exists (pre ++ p_src p ++ g_ip ++ p_options p). split; [by rewrite Ep, <- !app_assoc|].
  unfold header_len. rewrite !length_app, Hpre, Hsl. change (length g_ip) with 4%nat. lia.
Qed.

(** Past the header, [handle_ipv4_packet] sees the protocol and the data. *)
Lemma handle_ipv4_spec eth_src proto p st extra len :
  ip_packet_ok p -> is_u8 proto -> packet_len p <= len <= 1600 ->
  let packet := ip_bytes proto p ++ extra in
  handle_ipv4_packet eth_src packet len st =
  (if proto =? IPV4_PROTO_UDP then handle_udp_packet (p_data p) (Z.of_nat (length (p_data p)))
   else if negb (proto =? IPV4_PROTO_ICMP) then skip
   else handle_icmp eth_src packet (header_len p) (packet_len p)) st.
Proof.
  intros Hp Hproto Hlen packet. destruct (ip_bytes_data proto p Hp) as (hdr & Ed & Hhdr).
  destruct (ip_bytes_src proto p) as (pre & Es & Hpre).
  destruct Hp as (Htos & Hid & Hfl & Httl & Hcs & [Hsl Hsb] & [Hob (words & Hw & How)] & Hdb).
  destruct (first_byte words Hw) as [Hv Hi]. rewrite <- How in Hv, Hi. fold (header_len p) in Hv, Hi.
  assert (20 <= header_len p <= packet_len p) as Hh by (unfold packet_len, header_len; lia).
  assert (is_u16 (packet_len p)) as Htl by (unfold is_u16; lia).
  unfold handle_ipv4_packet. rewrite (proj2 (Z.ltb_ge _ _)) by lia.
  rewrite (lift_ok _ (64 + header_len p / 4)) by reflexivity. cbv zeta. rewrite Hv, Hi.
  change (4 =? 4) with true. rewrite !(proj2 (Z.ltb_ge _ _)) by lia. cbn [negb orb].
  rewrite (lift_ok _ (packet_len p)) by (unfold packet, ip_bytes; apply (rd16be_be16 [64 + header_len p / 4; p_tos p]); done).
  rewrite (proj2 (Z.ltb_ge (packet_len p) _)) by lia. rewrite Z.gtb_ltb, (proj2 (Z.ltb_ge len _)) by lia.
  rewrite (lift_ok _ (p_flags p * 8192)).
  2:{ unfold packet, ip_bytes. apply (rd16be_be16 ([64 + header_len p / 4; p_tos p] ++ be16 (packet_len p) ++ be16 (p_id p)));
      [unfold is_u16; lia|done]. }
  rewrite offset_zero by done. cbn [negb].
  rewrite (lift_ok _ g_ip).
  2:{ unfold packet. rewrite Es, <- !app_assoc, (app_assoc pre). apply slice_at; [by rewrite length_app, Hpre, Hsl|done]. }
  assert (bytes_equal g_ip g_ip 4 = true) as -> by by vm_compute. cbn [negb].
  rewrite (lift_ok _ proto).
  2:{ unfold packet, ip_bytes. apply (read_at ([64 + header_len p / 4; p_tos p] ++ be16 (packet_len p) ++ be16 (p_id p) ++
      be16 (p_flags p * 8192) ++ [p_ttl p])). done. }
  rewrite u16_small by (unfold is_u16 in *; lia).
  replace (packet_len p - header_len p) with (Z.of_nat (length (p_data p))) by (unfold packet_len; lia).
  destruct (proto =? IPV4_PROTO_UDP); [|done].
  rewrite (lift_ok _ (p_data p)); [done|]. unfold packet. rewrite Ed, <- app_assoc. by apply slice_at.
Qed.

(** The data of an echo request and of the reply to it. *)
Definition echo_request (csum ident seq : Z) (payload : list Z) : list Z := icmp_message 8 ident seq payload csum.

Lemma handle_echo_spec eth_src p ident seq csum payload extra st :
  ip_packet_ok p -> is_u16 ident -> is_u16 seq -> p_data p = echo_request csum ident seq payload ->
  packet_len p <= 1600 ->
  let packet := ip_bytes IPV4_PROTO_ICMP p ++ extra in
  handle_icmp eth_src packet (header_len p) (packet_len p) st =
  (send_icmp_packet eth_src (p_src p) 0 ident seq payload (Z.of_nat (length payload));; skip) st.
Proof.
  intros Hp Hident Hseq Hdata Hlen packet.
  assert (length (p_data p) = 8 + length payload)%nat as Hl
    by (rewrite Hdata; unfold echo_request, icmp_message; rewrite !length_app; simpl; lia).
  destruct (ip_bytes_data IPV4_PROTO_ICMP p Hp) as (hdr & Ed & Hhdr).
  destruct (ip_bytes_src IPV4_PROTO_ICMP p) as (pre & Es & Hpre).
  destruct Hp as (_ & _ & _ & _ & _ & [Hsl Hsb] & _ & Hdb).
  unfold handle_icmp. cbv zeta. unfold packet_len in *. rewrite (u16_small (_ - header_len p)) by (unfold header_len in *; words).
  replace (header_len p + _ - header_len p) with (Z.of_nat (length (p_data p))) by lia.
  rewrite (lift_ok _ (p_data p)) by (unfold packet; rewrite Ed, <- app_assoc; by apply slice_at).
  rewrite (proj2 (Z.ltb_ge _ 8)) by lia.
  rewrite (lift_ok _ 8) by (rewrite Hdata; apply (read_at []); done).
  rewrite (lift_ok _ ident) by (rewrite Hdata; apply (rd16be_be16 ([8; 0] ++ be16 csum)); done).
  rewrite (lift_ok _ seq) by (rewrite Hdata; apply (rd16be_be16 ([8; 0] ++ be16 csum ++ be16 ident)); done).
  rewrite (lift_ok _ (p_src p)) by (unfold packet; rewrite Es, <- !app_assoc; apply slice_at; [by rewrite Hpre|by rewrite Hsl]).
  change (8 =? 8) with true. cbn iota. rewrite u16_small by words.
  replace (_ - 8) with (Z.of_nat (length payload)) by lia.
  rewrite (lift_ok _ payload); [done|]. rewrite Hdata.
  pose proof (slice_at ([8; 0] ++ be16 csum ++ be16 ident ++ be16 seq) payload [] 8 (Z.of_nat (length payload)) eq_refl eq_refl) as Hs.
  by rewrite app_nil_r in Hs.
Qed.

Lemma mac_accepted mac dst : length mac = 6%nat -> dst = mac \/ dst = replicate 6 255 ->
  negb (bytes_equal dst mac 6) && negb (is_broadcast_mac dst) = false.
Proof.
  intros Hm [->| ->]; [|by rewrite andb_false_r]. unfold bytes_equal at 1. by rewrite bool_decide_eq_true_2.
Qed.

(** An IPv4 frame for this machine reaches [handle_ipv4_packet]. *)
Lemma handle_ethernet_ipv4 s tr dst src packet len :
  length (g_mac (nic s)) = 6%nat -> dst = g_mac (nic s) \/ dst = replicate 6 255 ->
  length src = 6%nat -> len = 14 + Z.of_nat (length packet) -> len <= 1600 ->
  handle_ethernet_frame (eth_header dst src ETH_TYPE_IPV4 ++ packet) len (s, tr) =
  handle_ipv4_packet src packet (len - 14) (s, tr).
Proof.
  intros Hm Hdst Hsrc -> Hlen.
  assert (length dst = 6%nat) as Hd by (destruct Hdst as [->| ->]; [done|by rewrite length_replicate]).
  unfold handle_ethernet_frame, eth_header. rewrite (proj2 (Z.ltb_ge _ _)) by lia. rewrite <- !app_assoc.
  rewrite (lift_ok _ dst) by (apply (slice_at [] dst); [done|by rewrite Hd]).
  rewrite (lift_ok _ src) by (apply slice_at; [by rewrite Hd|by rewrite Hsrc]).
  rewrite (lift_ok _ ETH_TYPE_IPV4).
  2:{ rewrite app_assoc. apply rd16be_be16; [done|]. by rewrite length_app, Hd, Hsrc. }
  assert (forall B (f : net -> M net B), (get ≫= f) (s, tr) = f s (s, tr)) as Hget by done. rewrite Hget.
  rewrite mac_accepted by done. cbv zeta.
  change (ETH_TYPE_IPV4 =? ETH_TYPE_ARP) with false. change (ETH_TYPE_IPV4 =? ETH_TYPE_IPV4) with true. cbn iota.
  rewrite u16_small by words. replace (14 + Z.of_nat (length packet) - 14) with (Z.of_nat (length packet)) by lia.
  rewrite (lift_ok _ packet); [done|].
  rewrite (app_assoc src), (app_assoc dst). rewrite <- (app_nil_r packet) at 1. apply slice_at; [|done].
  by rewrite !length_app, Hd, Hsrc.
Qed.

Lemma checksum_field a b n : bytes a -> bytes b -> Nat.even (length a) = true ->
  n = Z.of_nat (length a + 2 + length b) -> n <= 1600 ->
  checksum16 (a ++ be16 (checksum_of (a ++ be16 0 ++ b)) ++ b) n = Ok 0.
Proof.
  intros Ha Hb Hev -> Hn. set (c := checksum_of _).
  replace (length a + 2 + length b)%nat with (length (a ++ be16 c ++ b)) by (rewrite !length_app; simpl; lia).
  apply checksum_fixes; [by apply Forall_app|done|rewrite length_app; lia|done].
Qed.

Lemma ip_header_verifies ip_len id proto src dst : is_u8 proto ->
  length src = 4%nat /\ bytes src -> length dst = 4%nat /\ bytes dst ->
  checksum16 (ip_header ip_len id proto src dst (checksum_of (ip_header ip_len id proto src dst 0))) 20 = Ok 0.
Proof.
  intros Hp [Hs Hsb] [Hd Hdb]. unfold ip_header.
  rewrite !(app_assoc [69; 0]), !(app_assoc ([69; 0] ++ _)), !(app_assoc (([69; 0] ++ _) ++ _)).
  apply checksum_field; [|by apply Forall_app|done|rewrite !length_app; simpl; lia|lia].
  repeat (apply Forall_app; split); try apply be16_bytes; bytes_tac.
Qed.

Lemma icmp_verifies ty ident seq payload : is_u8 ty -> bytes payload -> Z.of_nat (length payload) <= 1500 + 58 ->
  checksum16 (icmp_message ty ident seq payload (checksum_of (icmp_message ty ident seq payload 0)))
    (8 + Z.of_nat (length payload)) = Ok 0.
Proof.
  intros Ht Hp Hl. unfold icmp_message.
  apply checksum_field; [bytes_tac| |done|rewrite !length_app; simpl; lia|lia].
  apply Forall_app; split; [apply be16_bytes|]. apply Forall_app; split; [apply be16_bytes|done].
Qed.

End echo.

(** * DNS responses *)

(** A resource record: its name, type, class, time to live and data. *)
Record rr := Rr { rr_name : dname; rr_type : Z; rr_class : Z; rr_ttl : list Z; rr_data : list Z }.

Definition rr_ok (r : rr) : Prop :=
  dname_ok (rr_name r) /\ is_u16 (rr_type r) /\ is_u16 (rr_class r) /\ length (rr_ttl r) = 4%nat.

Definition rr_bytes (r : rr) : list Z :=
  dname_bytes (rr_name r) ++ be16 (rr_type r) ++ be16 (rr_class r) ++ rr_ttl r ++
  be16 (Z.of_nat (length (rr_data r))) ++ rr_data r.

(** A question: a name, a type and a class. *)
Definition question_bytes (q : dname * list Z) : list Z := dname_bytes (fst q) ++ snd q.
Definition question_ok (q : dname * list Z) : Prop := dname_ok (fst q) /\ length (snd q) = 4%nat.

Definition is_address (r : rr) : bool :=
  (rr_type r =? 1) && (rr_class r =? 1) && (Z.of_nat (length (rr_data r)) =? 4).

Definition first_address (rs : list rr) : option (list Z) :=
  match List.find is_address rs with Some r => Some (rr_data r) | None => None end.

(** A message: identifier, flags, questions, answers, the two counts the
    resolver ignores and whatever follows the answers. *)
Definition dns_message (id flags : Z) (qs : list (dname * list Z)) (rs : list rr) (counts rest : list Z) : list Z :=
  (be16 id ++ be16 flags ++ be16 (Z.of_nat (length qs)) ++ be16 (Z.of_nat (length rs)) ++ counts) ++
  concat (map question_bytes qs) ++ concat (map rr_bytes rs) ++ rest.

Lemma skip_questions_spec msg len qs : forall pre post,
  msg = pre ++ concat (map question_bytes qs) ++ post -> Forall question_ok qs ->
  Z.of_nat (length pre + length (concat (map question_bytes qs))) <= len -> len <= 65000 ->
  skip_questions (length qs) msg len (Z.of_nat (length pre))
  = Ok (Some (Z.of_nat (length pre + length (concat (map question_bytes qs))))).
Proof.
  induction qs as [|[d tc] qs IH]; intros pre post Em Hq Hlen Hle.
  { simpl. do 3 f_equal. lia. }
  apply Forall_cons in Hq as [[Hd Htc] Hq]. cbn [fst snd map concat length skip_questions] in *.
  change (question_bytes (d, tc)) with (dname_bytes d ++ tc) in *.
  rewrite <- !app_assoc in Em. rewrite !length_app in *.
  rewrite Em at 1. rewrite dns_skip_name_spec by (done || lia). cbn [mbind outcome_bind].
  rewrite Z.gtb_ltb, !u16_small by words. rewrite (proj2 (Z.ltb_ge _ _)) by lia.
  specialize (IH (pre ++ dname_bytes d ++ tc) post). rewrite !length_app, <- !app_assoc in IH.
  replace (Z.of_nat (length pre + length (dname_bytes d)) + 4)
    with (Z.of_nat (length pre + (length (dname_bytes d) + length tc))) by lia.
  rewrite IH by (done || lia). do 3 f_equal. lia.
Qed.

Lemma find_answer_spec msg len rs : forall pre post,
  msg = pre ++ concat (map rr_bytes rs) ++ post -> Forall rr_ok rs ->
  Z.of_nat (length pre + length (concat (map rr_bytes rs))) <= len -> len <= 65000 ->
  find_answer (length rs) msg len (Z.of_nat (length pre)) = Ok (first_address rs).
Proof.
  induction rs as [|r rs IH]; intros pre post Em Hr Hlen Hle; [done|].
  apply Forall_cons in Hr as [(Hd & Hty & Hcl & Httl) Hr]. cbn [map concat length find_answer] in *.
  set (n := Z.of_nat (length (rr_data r))) in *. set (nm := dname_bytes (rr_name r)) in *.
  set (tail := concat (map rr_bytes rs) ++ post) in *.
  assert (msg = pre ++ nm ++ be16 (rr_type r) ++ be16 (rr_class r) ++ rr_ttl r ++ be16 n ++ rr_data r ++ tail) as Em'
    by (rewrite Em; unfold rr_bytes; fold nm n; by rewrite <- !app_assoc).
  assert (length (rr_bytes r) = length nm + 10 + length (rr_data r))%nat as El
    by (unfold rr_bytes; fold nm; rewrite !length_app, Httl; simpl; lia).
  rewrite length_app in Hlen.
  assert (dns_skip_name msg len (Z.of_nat (length pre)) = Ok (Some (Z.of_nat (length (pre ++ nm))))) as ->
    by (rewrite Em', length_app; apply dns_skip_name_spec; [done|fold nm; lia|done]).
  set (off := Z.of_nat (length (pre ++ nm))).
  assert (off = Z.of_nat (length pre + length nm)) as Eoff by (unfold off; by rewrite length_app).
  cbn [mbind outcome_bind]. rewrite Z.gtb_ltb, (u16_small (off + 10)) by words.
  rewrite (proj2 (Z.ltb_ge _ _)) by lia. rewrite (app_assoc pre) in Em'.
  assert (rd16be msg off = Ok (rr_type r)) as -> by (rewrite Em'; by apply rd16be_be16).
  rewrite (app_assoc _ (be16 (rr_type r))) in Em'.
  assert (rd16be msg (off + 2) = Ok (rr_class r)) as ->
    by (rewrite Em'; apply rd16be_be16; [done|rewrite (length_app _ (be16 _)); simpl; lia]).
  rewrite (app_assoc _ (be16 (rr_class r))), (app_assoc _ (rr_ttl r)) in Em'.
  assert (rd16be msg (off + 8) = Ok n) as ->
    by (rewrite Em'; apply rd16be_be16; [unfold is_u16; lia|rewrite !length_app in *; simpl; lia]).
  cbn [mbind outcome_bind]. rewrite Z.gtb_ltb, !(u16_small (_ + n)) by (unfold is_u16; lia).
  rewrite (proj2 (Z.ltb_ge _ _)) by lia. unfold first_address. cbn [List.find]. unfold is_address at 1. fold n.
  destruct ((rr_type r =? 1) && (rr_class r =? 1) && (n =? 4)) eqn:E.
  - rewrite (app_assoc _ (be16 n)) in Em'. rewrite Em', slice_at; [done| |unfold n in *; lia].
    rewrite !length_app in *. simpl. lia.
  - replace (off + 10 + n) with (Z.of_nat (length (pre ++ rr_bytes r))) by (rewrite length_app; lia).
    apply (IH _ post); [by rewrite Em, <- !app_assoc|done|rewrite length_app; lia|done].
Qed.

Section dns.
Context `{Hardware}.

Lemma gets_bind {A B} (f : net -> A) (k : A -> M net B) s tr : (gets f ≫= k) (s, tr) = k (f s) (s, tr).
Proof. done. Qed.

Lemma modify_bind {B} (f : net -> net) (k : unit -> M net B) s tr : (modify f ≫= k) (s, tr) = k tt (f s, tr).
Proof. done. Qed.

(** What a response leaves in the resolver's state. *)
Definition dns_answered (answer : option (list Z)) (d : dns_state) : dns_state :=
  set_dns_replied (set_dns_a (if answer then true else false) (default (replicate 4 0) answer) d).

Lemma dns_header id flags qs rs counts rest : is_u16 id -> is_u16 flags ->
  is_u16 (Z.of_nat (length qs)) -> is_u16 (Z.of_nat (length rs)) ->
  let msg := dns_message id flags qs rs counts rest in
  rd16be msg 0 = Ok id /\ rd16be msg 2 = Ok flags /\
  rd16be msg 4 = Ok (Z.of_nat (length qs)) /\ rd16be msg 6 = Ok (Z.of_nat (length rs)).
Proof.
  intros Hid Hfl Hq Hr msg. unfold msg, dns_message. rewrite <- !app_assoc. split_and!.
  - by apply (rd16be_be16 []).
  - by apply (rd16be_be16 (be16 id)).
  - by apply (rd16be_be16 (be16 id ++ be16 flags)).
  - by apply (rd16be_be16 (be16 id ++ be16 flags ++ be16 (Z.of_nat (length qs)))).
Qed.

(** * Properties *)
End dns.

Section properties.
Context `{Hardware}.

(** C13: The driver answers pings: for every Ethernet frame of up to 1600 bytes
    to this machine's address or broadcast, that holds an unfragmented IPv4
    packet to 10.0.2.15 (fragment offset 0, any other header fields, up to ten
    words of options, any padding) with an ICMP echo request, [handle_ethernet_frame] does nothing but store in [g_tx_buf]
    and send the frame to the sender's addresses with an echo reply of the
    same identifier, sequence number and payload, whose IPv4 header and ICMP
    message both have checksum 0, and count up the packet id. *)
Theorem icmp_echo_correct s tr dst src p ident seq csum payload extra :
  net_ok s -> dst = g_mac (nic s) \/ dst = replicate 6 255 -> length src = 6%nat /\ bytes src ->
  ip_packet_ok p -> is_u16 ident -> is_u16 seq -> p_data p = echo_request csum ident seq payload ->
  let frame := eth_header dst src ETH_TYPE_IPV4 ++ ip_bytes IPV4_PROTO_ICMP p ++ extra in
  Z.of_nat (length frame) <= 1600 ->
  let n := Z.of_nat (length payload) in
  let id := g_ipv4_id s in
  let mac := g_mac (nic s) in
  let header c := ip_header (28 + n) id IPV4_PROTO_ICMP g_ip (p_src p) c in
  let message c := icmp_message 0 ident seq payload c in
  exists tx c1 c2,
    built tx (eth_header src mac ETH_TYPE_IPV4 ++ header c1 ++ message c2) /\
    checksum16 (header c1) 20 = Ok 0 /\ checksum16 (message c2) (8 + n) = Ok 0 /\
    handle_ethernet_frame frame (Z.of_nat (length frame)) (s, tr)
    = (ne_send_frame tx (42 + n);; skip) (set_tx tx (set_ipv4_id (u16 (id + 1)) s), tr).
Proof.
  intros Hs Hdst Hsrc Hp Hident Hseq Hdata frame Hlen n id mac header message.
  pose proof (ok_mac s Hs) as Hmac. pose proof Hp as (_ & _ & _ & _ & _ & Hpsrc & _ & Hpdata).
  assert (length (p_data p) = 8 + length payload)%nat as Hl
    by (rewrite Hdata; unfold echo_request, icmp_message; rewrite !length_app; simpl; lia).
  assert (bytes payload) as Hbp.
  { rewrite Hdata in Hpdata. unfold echo_request, icmp_message in Hpdata.
    by apply Forall_app in Hpdata as [_ [_ [_ [_ ?]%Forall_app]%Forall_app]%Forall_app]. }
  assert (Z.of_nat (length frame) = 14 + Z.of_nat (length (ip_bytes IPV4_PROTO_ICMP p ++ extra))) as Hf.
  { assert (length (eth_header dst src ETH_TYPE_IPV4) = 14%nat) as He.
    { unfold eth_header. destruct Hsrc as [Hsl _], Hmac as [Hml _]. rewrite !length_app, Hsl.
      destruct Hdst as [->| ->]; [by rewrite Hml|by rewrite length_replicate]. }
    unfold frame. rewrite length_app, He. lia. }
  destruct (ip_bytes_data IPV4_PROTO_ICMP p Hp) as (hdr & Ed & Hhdr).
  assert (packet_len p <= Z.of_nat (length (ip_bytes IPV4_PROTO_ICMP p ++ extra))) as Hpl
    by (unfold packet_len; rewrite Ed, !length_app; lia).
  assert (28 + n <= packet_len p) as Hnl by (unfold packet_len, header_len, n; lia).
  destruct (write_icmp_spec (g_tx_buf s) mac src (p_src p) id (ok_tx s Hs) Hmac Hsrc Hpsrc 0 ident seq payload [])
    as (tx & Htx & Hbuilt); [done|done|unfold n in *; lia|]. rewrite app_nil_r in Htx.
  exists tx, (checksum_of (header 0)), (checksum_of (message 0)).
  split; [exact Hbuilt|]. split; [|split].
  - apply ip_header_verifies; [unfold is_u8, IPV4_PROTO_ICMP; lia|split; [done|by repeat constructor]|done].
  - apply icmp_verifies; [unfold is_u8; lia|done|unfold n in *; lia].
  - rewrite Hf. unfold frame. rewrite handle_ethernet_ipv4 by (done || lia || apply Hmac || apply Hsrc).
    rewrite handle_ipv4_spec by (done || lia). change (IPV4_PROTO_ICMP =? IPV4_PROTO_UDP) with false.
    change (negb (IPV4_PROTO_ICMP =? IPV4_PROTO_ICMP)) with false. cbn iota.
    rewrite (handle_echo_spec _ _ ident seq csum payload) by (done || lia).
    unfold send_icmp_packet. rewrite !u16_small by words. rewrite Z.gtb_ltb. unfold BUF_SIZE.
    rewrite (proj2 (Z.ltb_ge _ _)) by (unfold n in *; lia).
    replace (14 + (28 + Z.of_nat (length payload))) with (42 + n) by (unfold n; lia).
    unfold mbind, M_bind, get, modify. cbn [fst snd]. unfold lift. fold id mac. by rewrite Htx.
Qed.

(** C39: The resolver reads answers as RFC 1035 lays them out: for every
    well-formed response of at most 65000 bytes to the pending query (right
    identifier and ports, response bit set), with any questions, any answer
    records and plain or compressed names, [handle_dns_payload] ends with the
    query answered, and the address it leaves is the data of the first answer
    that is a 4-byte class-IN address record, none if there is no such record
    or the response code is an error. *)
Theorem dns_answer_correct s tr id flags qs rs counts rest :
  g_dns_waiting (dns s) = true -> g_dns_expected_id (dns s) = id ->
  is_u16 id -> is_u16 flags -> Z.testbit flags 15 = true -> length counts = 4%nat ->
  Forall question_ok qs -> Forall rr_ok rs ->
  is_u16 (Z.of_nat (length qs)) -> is_u16 (Z.of_nat (length rs)) ->
  let msg := dns_message id flags qs rs counts rest in
  Z.of_nat (length msg) <= 65000 ->
  handle_dns_payload msg (Z.of_nat (length msg)) DNS_PORT (g_dns_expected_src_port (dns s)) (s, tr)
  = Ok (tt, (set_dns (dns_answered (if Z.land flags 15 =? 0 then first_address rs else None)) s, tr)).
Proof.
  intros Hw Hexp Hid Hfl Hqr Hc Hqs Hrs Hql Hrl msg Hlen.
  destruct (dns_header id flags qs rs counts rest Hid Hfl Hql Hrl) as (H0 & H2 & H4 & H6).
  fold msg in H0, H2, H4, H6.
  set (hdr := be16 id ++ be16 flags ++ be16 (Z.of_nat (length qs)) ++ be16 (Z.of_nat (length rs)) ++ counts).
  assert (length hdr = 12%nat) as Hhdr by (unfold hdr; rewrite !length_app, Hc; done).
  assert (msg = hdr ++ concat (map question_bytes qs) ++ concat (map rr_bytes rs) ++ rest) as Em by done.
  assert (length msg = 12 + length (concat (map question_bytes qs)) + length (concat (map rr_bytes rs)) + length rest)%nat
    as El by (rewrite Em, !length_app, Hhdr; lia).
  unfold handle_dns_payload. rewrite gets_bind, Hw, Hexp. change (DNS_PORT =? DNS_PORT) with true.
  rewrite Z.eqb_refl. cbn [negb]. rewrite (proj2 (Z.ltb_ge _ 12)) by lia.
  rewrite (lift_ok _ _ _ _ H0), Z.eqb_refl. cbn [negb]. rewrite (lift_ok _ _ _ _ H2).
  assert (Z.land flags 32768 =? 0 = false) as ->.
  { change 32768 with (Z.shiftl 1 15). rewrite land_pow2, Hqr by lia. done. }
  rewrite (lift_ok _ _ _ _ H4), (lift_ok _ _ _ _ H6), modify_bind, !Nat2Z.id.
  assert (skip_questions (length qs) msg (Z.of_nat (length msg)) 12
    = Ok (Some (Z.of_nat (12 + length (concat (map question_bytes qs)))))) as Hq.
  { pose proof (skip_questions_spec msg (Z.of_nat (length msg)) qs hdr _ Em Hqs) as Hq.
    rewrite Hhdr in Hq. apply Hq; lia. }
  rewrite (lift_ok _ _ _ _ Hq).
  assert (find_answer (length rs) msg (Z.of_nat (length msg)) (Z.of_nat (12 + length (concat (map question_bytes qs))))
    = Ok (first_address rs)) as Ha.
  { pose proof (find_answer_spec msg (Z.of_nat (length msg)) rs (hdr ++ concat (map question_bytes qs)) rest) as Ha.
    rewrite length_app, Hhdr in Ha. apply Ha; [by rewrite <- app_assoc|done|lia|lia]. }
  rewrite (lift_ok _ (if Z.land flags 15 =? 0 then first_address rs else None)) by (by case_match).
  destruct (if Z.land flags 15 =? 0 then first_address rs else None) as [ip|]; done.
Qed.
End properties.

(** A request with four bytes of options and two of payload to the broadcast
    address, padded. *)
Lemma icmp_echo_correct_witness :
  let hw : Hardware := fun _ _ _ => 0 in
  let p := IpPacket 0 7 2 64 0 [10; 0; 2; 2] [1; 1; 1; 0] (echo_request 0 1 2 [5; 6]) in
  let frame := eth_header (replicate 6 255) (replicate 6 3) ETH_TYPE_IPV4 ++
    ip_bytes IPV4_PROTO_ICMP p ++ replicate 12 0 in
  exists tx c1 c2,
    built tx (eth_header (replicate 6 3) (replicate 6 0) ETH_TYPE_IPV4 ++
      ip_header 30 1 IPV4_PROTO_ICMP g_ip [10; 0; 2; 2] c1 ++ icmp_message 0 1 2 [5; 6] c2) /\
    checksum16 (ip_header 30 1 IPV4_PROTO_ICMP g_ip [10; 0; 2; 2] c1) 20 = Ok 0 /\
    checksum16 (icmp_message 0 1 2 [5; 6] c2) 10 = Ok 0 /\
    handle_ethernet_frame frame 60 (net_boot, []) = (ne_send_frame tx 44;; skip) (set_tx tx (set_ipv4_id 2 net_boot), []).
Proof.
  intros hw p frame.
  apply (icmp_echo_correct net_boot [] (replicate 6 255) (replicate 6 3) p 1 2 0 [5; 6] (replicate 12 0)).
  - apply net_boot_ok.
  - by right.
  - by repeat constructor.
  - repeat split; try lia; try (by repeat constructor). by exists 1%nat; split; [lia|].
  - done.
  - done.
  - done.
  - vm_compute. discriminate.
Defined.

(** An answer with an alias first, its name compressed. *)
Lemma dns_answer_correct_witness :
  let hw : Hardware := fun _ _ _ => 0 in
  let s := set_dns (set_dns_expect 9 53000) net_boot in
  let name := Full [bs "heat"; bs "os"] in
  let alias := Rr (Compressed [] 0 12) 5 1 (replicate 4 0) (bs "x") in
  let addr := Rr (Compressed [bs "www"] 0 12) 1 1 (replicate 4 0) [10; 0; 2; 9] in
  let msg := dns_message 9 33152 [(name, [0; 1; 0; 1])] [alias; addr] (replicate 4 0) [] in
  handle_dns_payload msg (Z.of_nat (length msg)) DNS_PORT 53000 (s, [])
  = Ok (tt, (set_dns (dns_answered (Some [10; 0; 2; 9])) s, [])).
Proof.
  intros hw s name alias addr msg.
  apply (dns_answer_correct s [] 9 33152 [(name, [0; 1; 0; 1])] [alias; addr] (replicate 4 0) []).
  - done.
  - done.
  - done.
  - done.
  - done.
  - done.
  - repeat constructor; simpl; lia.
  - repeat constructor; simpl; lia.
  - done.
  - done.
  - vm_compute. discriminate.
Defined.
