(* ===== verification/Vga.v ===== *)
(** The text screen, src/src/drivers/vga.c: 25 rows of 80 cells and the two
    cursor registers of the CRT controller.

    A cell is the character in its low byte and the attribute in its high
    byte.  Accesses to the cell array are checked, also where the code does
    not check. *)
From Stdlib Require Import ZArith Lia Ascii String.
From stdpp Require Import base tactics option numbers list.
From S2P Require Import Prelude Buffer.
#[local] Open Scope Z_scope.

Definition VGA_WIDTH : Z := 80.
Definition VGA_HEIGHT : Z := 25.
Definition VGA_ATTR (fg bg : Z) : Z := u8 (Z.lor (Z.shiftl bg 4) fg).

(** The cells, and the high and low byte of the cursor position. *)
Record vga := Vga { VGA : list Z; crtc_hi : Z; crtc_lo : Z }.

Definition set_cells (v : vga) (cells : list Z) : vga := Vga cells (crtc_hi v) (crtc_lo v).

Definition vga_entry (c attr : Z) : Z := Z.lor (u8 c) (u16 (Z.shiftl attr 8)).

Definition vga_clear (attr : Z) (v : vga) : vga :=
  set_cells v (replicate (Z.to_nat (VGA_WIDTH * VGA_HEIGHT)) (vga_entry (ch " ") attr)).

Definition vga_init : vga -> vga := vga_clear (VGA_ATTR 7 0).

Definition in_screen (row col : Z) : bool :=
  (0 <=? row) && (row <? VGA_HEIGHT) && (0 <=? col) && (col <? VGA_WIDTH).

Definition vga_putchar_at (row col c attr : Z) (v : vga) : outcome vga :=
  if in_screen row col then
    cells ← blit (VGA v) (row * VGA_WIDTH + col) [vga_entry c attr]; Ok (set_cells v cells)
  else Ok v.

Fixpoint vga_write_at (row col : Z) (s : list Z) (attr : Z) (v : vga) : outcome vga :=
  match s with
  | [] => Ok v
  | c :: s' =>
    if (c =? 0) || negb (col <? VGA_WIDTH) then Ok v
    else v ← vga_putchar_at row col c attr v; vga_write_at row (col + 1) s' attr v
  end.

(** The cells of a row from [cc], [n] of them at most. *)
Fixpoint fill_cols (n : nat) (r cc : Z) (entry : Z) (cells : list Z) : outcome (list Z) :=
  match n with
  | O => Ok cells
  | S n =>
    if cc <? VGA_WIDTH then
      cells ← blit cells (r * VGA_WIDTH + cc) [entry]; fill_cols n r (cc + 1) entry cells
    else Ok cells
  end.

Fixpoint fill_rows (h : nat) (r col : Z) (w : nat) (entry : Z) (cells : list Z) : outcome (list Z) :=
  match h with
  | O => Ok cells
  | S h =>
    if r <? VGA_HEIGHT then
      cells ← fill_cols w r col entry cells; fill_rows h (r + 1) col w entry cells
    else Ok cells
  end.

Definition vga_fill_rect (row col h w c attr : Z) (v : vga) : outcome vga :=
  cells ← fill_rows (Z.to_nat h) row col (Z.to_nat w) (vga_entry c attr) (VGA v);
  Ok (set_cells v cells).

Definition vga_fill_row (row c attr : Z) : vga -> outcome vga := vga_fill_rect row 0 1 VGA_WIDTH c attr.

Definition vga_read_at (row col : Z) (v : vga) : outcome Z :=
  if in_screen row col then read (VGA v) (row * VGA_WIDTH + col) else Ok 0.

(** Copies row [r + 1] to row [r], for [n] rows from [r]. *)
Fixpoint scroll_rows (n : nat) (r : Z) (cells : list Z) : outcome (list Z) :=
  match n with
  | O => Ok cells
  | S n =>
    line ← slice cells ((r + 1) * VGA_WIDTH) VGA_WIDTH;
    cells ← blit cells (r * VGA_WIDTH) line;
    scroll_rows n (r + 1) cells
  end.

Definition vga_scroll_up (top bottom attr : Z) (v : vga) : outcome vga :=
  cells ← scroll_rows (Z.to_nat (bottom - 1 - top)) top (VGA v);
  cells ← blit cells ((bottom - 1) * VGA_WIDTH) (replicate (Z.to_nat VGA_WIDTH) (vga_entry (ch " ") attr));
  Ok (set_cells v cells).

(** The two register writes: the low byte to index 0x0F, the high to 0x0E. *)
Definition vga_set_cursor (row col : Z) (v : vga) : vga :=
  let pos := u16 (row * VGA_WIDTH + col) in
  Vga (VGA v) (u8 (Z.land (Z.shiftr pos 8) 255)) (u8 (Z.land pos 255)).

(** * Rows *)

Definition vga_ok (v : vga) : Prop := length (VGA v) = 2000%nat.

(** Row [r] of the screen. *)
Definition vga_row (v : vga) (r : nat) : list Z := take 80 (drop (r * 80) (VGA v)).

(** The cell at [row], [col]. *)
Definition cell (v : vga) (row col : Z) : Z := byte_at (VGA v) (Z.to_nat (row * VGA_WIDTH + col)).

Lemma in_screen_spec row col : in_screen row col = true <-> 0 <= row < 25 /\ 0 <= col < 80.
Proof. unfold in_screen, VGA_HEIGHT, VGA_WIDTH. rewrite !andb_true_iff. lia. Qed.

Lemma blit_one p i x : 0 <= i < Z.of_nat (length p) -> blit p i [x] = Ok (<[Z.to_nat i := x]> p).
Proof.
  intros Hi. rewrite blit_ok by (simpl; lia). f_equal.
  rewrite <- (take_drop_middle p (Z.to_nat i) (byte_at p (Z.to_nat i))) at 3.
  - rewrite insert_app_r_alt by (rewrite length_take; lia). rewrite length_take.
    replace (Z.to_nat i - _)%nat with 0%nat by lia. simpl. by rewrite Nat.add_1_r.
  - destruct (lookup_lt_is_Some_2 p (Z.to_nat i)) as [y Hy]; [lia|]. by rewrite (byte_at_lookup _ _ _ Hy).
Qed.

Lemma vga_putchar_at_ok row col c attr v : vga_ok v ->
  succeeds (vga_putchar_at row col c attr v) (fun v' =>
    vga_ok v' /\ crtc_hi v' = crtc_hi v /\ crtc_lo v' = crtc_lo v /\
    VGA v' = if in_screen row col then <[Z.to_nat (row * 80 + col) := vga_entry c attr]> (VGA v) else VGA v).
Proof.
  intros Hv. unfold vga_putchar_at. destruct (in_screen row col) eqn:E; [|by apply succeeds_ret].
  apply in_screen_spec in E. unfold vga_ok in Hv. rewrite blit_one by (unfold VGA_WIDTH; lia).
  apply succeeds_ret. unfold vga_ok. simpl. by rewrite length_insert.
Qed.

(** A screen as its 25 rows. *)
Lemma vga_row_lookup v r c : vga_ok v -> (r < 25)%nat -> (c < 80)%nat ->
  byte_at (vga_row v r) c = byte_at (VGA v) (r * 80 + c).
Proof.
  intros Hv Hr Hc. unfold vga_row, byte_at, vga_ok in *. rewrite !nth_lookup.
  by rewrite lookup_take_lt, lookup_drop by lia.
Qed.

Lemma scroll_rows_spec n : forall r cells, (r + n < 25)%nat -> length cells = 2000%nat ->
  scroll_rows n (Z.of_nat r) cells =
  Ok (take (r * 80) cells ++ take (n * 80) (drop ((r + 1) * 80) cells) ++ drop ((r + n) * 80) cells).
Proof.
  induction n as [|n IH]; intros r cells Hr Hl.
  { simpl. by rewrite Nat.add_0_r, take_drop. }
  cbn [scroll_rows]. unfold VGA_WIDTH. unfold slice. rewrite (proj2 (andb_true_iff _ _)) by lia.
  cbn [mbind outcome_bind].
  replace (Z.to_nat ((Z.of_nat r + 1) * 80)) with ((r + 1) * 80)%nat by lia.
  change (Z.to_nat 80) with 80%nat. set (line := take 80 (drop ((r + 1) * 80) cells)).
  assert (length line = 80%nat) as Hline by (unfold line; rewrite length_take, length_drop; lia).
  rewrite blit_ok by lia. cbn [mbind outcome_bind].
  replace (Z.to_nat (Z.of_nat r * 80)) with (r * 80)%nat by lia. rewrite Hline.
  replace (Z.of_nat r + 1) with (Z.of_nat (r + 1)) by lia.
  rewrite IH by (try lia; rewrite !length_app, length_take, length_drop; lia).
  assert (length (take (r * 80) cells) = r * 80)%nat as Ht by (rewrite length_take; lia).
  f_equal. rewrite (app_assoc (take (r * 80) cells)). set (front := take (r * 80) cells ++ line).
  assert (length front = (r + 1) * 80)%nat as Hfront by (unfold front; rewrite length_app; lia).
  rewrite take_app_le, take_ge by lia.
  replace (r * 80 + 80)%nat with ((r + 1) * 80)%nat by lia.
  rewrite (drop_app_ge _ _ ((r + 1 + 1) * 80)), (drop_app_ge _ _ ((r + 1 + n) * 80)) by lia.
  rewrite !drop_drop, Hfront. unfold front. rewrite <- app_assoc. f_equal.
  replace (S n * 80)%nat with (80 + n * 80)%nat by lia.
  rewrite <- (take_drop 80 (take (80 + n * 80) _)), take_take, Nat.min_l by lia. fold line.
  rewrite skipn_firstn_comm, drop_drop. rewrite <- app_assoc. f_equal. f_equal; [f_equal; f_equal; lia|f_equal; lia].
Qed.

(** Scrolling the rows [0..bottom]: rows [1..bottom-1] move up, row
    [bottom - 1] becomes blank, row [bottom] and below do not move. *)
Lemma vga_scroll_up_spec bottom attr v : vga_ok v -> (1 <= bottom <= 25)%nat ->
  vga_scroll_up 0 (Z.of_nat bottom) attr v = Ok (set_cells v
    (take ((bottom - 1) * 80) (drop 80 (VGA v)) ++ replicate 80 (vga_entry (ch " ") attr) ++
     drop (bottom * 80) (VGA v))).
Proof.
  intros Hv Hb. unfold vga_ok in Hv. unfold vga_scroll_up.
  replace (Z.to_nat (Z.of_nat bottom - 1 - 0)) with (bottom - 1)%nat by lia.
  change 0 with (Z.of_nat 0). rewrite scroll_rows_spec by (done || lia). cbn [mbind outcome_bind].
  change (0 * 80)%nat with 0%nat. change ((0 + 1) * 80)%nat with 80%nat. rewrite take_0, Nat.add_0_l. cbn [app].
  set (top := take ((bottom - 1) * 80) (drop 80 (VGA v))).
  assert (length top = (bottom - 1) * 80)%nat as Ht by (unfold top; rewrite length_take, length_drop; lia).
  change (Z.to_nat VGA_WIDTH) with 80%nat.
  rewrite <- (take_drop 80 (drop ((bottom - 1) * 80) (VGA v))), drop_drop.
  rewrite blit_app; [|unfold VGA_WIDTH; lia|rewrite length_replicate, length_take, length_drop; lia].
  cbn [mbind outcome_bind]. by replace ((bottom - 1) * 80 + 80)%nat with (bottom * 80)%nat by lia.
Qed.

Lemma vga_scroll_up_rows attr v v' : vga_ok v -> vga_scroll_up 0 24 attr v = Ok v' ->
  vga_ok v' /\ (forall r, (r < 23)%nat -> vga_row v' r = vga_row v (S r)) /\
  vga_row v' 23 = replicate 80 (vga_entry (ch " ") attr) /\ vga_row v' 24 = vga_row v 24.
Proof.
  intros Hv. rewrite (vga_scroll_up_spec 24) by (done || lia). intros E. apply Ok_inj in E as <-.
  unfold vga_ok, vga_row in *.
  cbn [set_cells VGA]. change (24 - 1)%nat with 23%nat. set (top := take (23 * 80) (drop 80 (VGA v))).
  assert (length top = 23 * 80)%nat as Ht by (unfold top; rewrite length_take, length_drop; lia).
  split_and!.
  - rewrite !length_app, length_replicate, Ht, length_drop. lia.
  - intros r Hr. rewrite drop_app_le, take_app_le by (rewrite ?length_drop; lia).
    unfold top. rewrite skipn_firstn_comm, take_take, drop_drop, Nat.min_l by lia.
    done.
  - rewrite drop_app_ge by lia. rewrite Ht, Nat.sub_diag, drop_0. by rewrite take_app_length'.
  - rewrite !drop_app_ge by (rewrite ?length_replicate; lia). rewrite Ht, length_replicate. by rewrite drop_drop.
Qed.
