(* ===== verification/Terminal.v ===== *)
(** The terminal, src/src/terminal/terminal.c: screen output with scrolling,
    the command history and the line editor.

    The file's globals are the record [term].  [on_key] is one turn of the
    loop of [terminal_run] for a key from [keyboard_poll]; the commands it
    dispatches to are a parameter, over the rest [W] of the system. *)
From Stdlib Require Import ZArith Lia Ascii String.
From stdpp Require Import base tactics option numbers list.
From S2P Require Import Prelude Buffer CString Vga.
#[local] Open Scope Z_scope.

Definition HIST_SIZE : Z := 50.
Definition HIST_LEN : Z := 256.

(** Key codes above the ASCII range. *)
Definition KEY_UP : Z := 256.
Definition KEY_DOWN : Z := 257.
Definition KEY_LEFT : Z := 258.
Definition KEY_RIGHT : Z := 259.
Definition KEY_ENTER : Z := 260.
Definition KEY_BACKSPACE : Z := 261.
Definition KEY_ESCAPE : Z := 262.
Definition KEY_TAB : Z := 263.
Definition KEY_F1 : Z := 272.
Definition KEY_F2 : Z := 273.
Definition KEY_F3 : Z := 274.
Definition KEY_F4 : Z := 275.
Definition KEY_F10 : Z := 281.
Definition KEY_HOME : Z := 288.
Definition KEY_END : Z := 289.
Definition KEY_DELETE : Z := 290.
Definition KEY_PAGEUP : Z := 291.
Definition KEY_PAGEDOWN : Z := 292.

(** The command history: 50 slots of 256 bytes, used as a ring. *)
Record history := History {
  g_history : list (list Z); g_hist_count : Z; g_hist_next : Z; g_pending : list Z; g_nav_pos : Z }.

(** The line being edited: a 256-byte buffer, its length, the cursor in it and
    the screen position it starts at. *)
Record editor := Editor { cmdbuf : list Z; cmdlen : Z; cursor_pos : Z; edit_row : Z; edit_col : Z }.

Record term := Term { screen : vga; cursor_x : Z; cursor_y : Z; hist : history; edit : editor }.

(** The globals at boot. *)
Definition term_boot (v : vga) : term :=
  Term v 0 0 (History (replicate 50 (replicate 256 0)) 0 0 (replicate 256 0) 0)
    (Editor (replicate 256 0) 0 0 0 2).

Definition set_screen (t : term) (v : vga) (x y : Z) : term := Term v x y (hist t) (edit t).
Definition set_hist (t : term) (h : history) : term := Term (screen t) (cursor_x t) (cursor_y t) h (edit t).
Definition set_edit (t : term) (e : editor) : term := Term (screen t) (cursor_x t) (cursor_y t) (hist t) e.
Definition set_nav (h : history) (n : Z) : history :=
  History (g_history h) (g_hist_count h) (g_hist_next h) (g_pending h) n.
Definition set_pending (h : history) (p : list Z) : history :=
  History (g_history h) (g_hist_count h) (g_hist_next h) p (g_nav_pos h).
Definition set_edit_row (e : editor) (r : Z) : editor := Editor (cmdbuf e) (cmdlen e) (cursor_pos e) r (edit_col e).
Definition set_line (e : editor) (b : list Z) (len pos : Z) : editor := Editor b len pos (edit_row e) (edit_col e).

(** [strncpy(dst, s, 255); dst[255] = '\0'] for a 256-byte [dst]: the text of
    [s], cut to 255 characters, then NULs. *)
Definition slot (s : list Z) : list Z :=
  let t := take 255 (buf_text s) in t ++ replicate (256 - length t) 0.

(** Such a string in an array of 256. *)
Definition slot_into (s : list Z) : outcome (list Z) := fill_array 256 (slot s).

(** * Output *)

Definition term_putc (c attr : Z) (t : term) : outcome term :=
  '(v, x, y) ←
    (if c =? 10 then Ok (screen t, 0, cursor_y t + 1)
     else if c =? 8 then
       if cursor_x t >? 0 then
         v ← vga_putchar_at (cursor_y t) (cursor_x t - 1) (ch " ") attr (screen t);
         Ok (v, cursor_x t - 1, cursor_y t)
       else Ok (screen t, cursor_x t, cursor_y t)
     else
       v ← vga_putchar_at (cursor_y t) (cursor_x t) c attr (screen t);
       let x := cursor_x t + 1 in
       if x >=? VGA_WIDTH then Ok (v, 0, cursor_y t + 1) else Ok (v, x, cursor_y t));
  if y >=? VGA_HEIGHT then
    v ← vga_scroll_up 0 (VGA_HEIGHT - 1) attr v;
    let y := VGA_HEIGHT - 1 in
    Ok (Term (vga_set_cursor y x v) x y (hist t) (set_edit_row (edit t) y))
  else Ok (set_screen t (vga_set_cursor y x v) x y).

Fixpoint term_puts (s : list Z) (t : term) : outcome term :=
  match s with
  | [] => Ok t
  | c :: s' => if c =? 0 then Ok t else t ← term_putc c 7 t; term_puts s' t
  end.

Definition term_reset_screen (t : term) : term :=
  set_screen t (vga_set_cursor 0 0 (vga_clear 7 (screen t))) 0 0.

(** * History *)

(** [cmd] is not a null pointer at the only call. *)
Definition hist_add (cmd : list Z) (h : history) : outcome history :=
  if hd0 cmd =? 0 then Ok h
  else
    let i := Z.to_nat (g_hist_next h) in
    entry ← slot_into cmd;
    if (i <? length (g_history h))%nat then
      Ok (History (<[i := entry]> (g_history h))
        (if g_hist_count h <? HIST_SIZE then g_hist_count h + 1 else g_hist_count h)
        (Z.rem (g_hist_next h + 1) HIST_SIZE) (g_pending h) (g_nav_pos h))
    else Stuck OutOfBounds.

Definition hist_get (steps_back : Z) (h : history) : outcome (option (list Z)) :=
  if (steps_back <? 1) || (steps_back >? g_hist_count h) then Ok None
  else
    let idx := Z.rem (g_hist_next h - steps_back + HIST_SIZE * 2) HIST_SIZE in
    e ← of_option OutOfBounds (g_history h !! Z.to_nat idx); Ok (Some e).

(** The lines from the [i]th on, [n] of them. *)
Fixpoint history_lines (n : nat) (i : Z) (t : term) : outcome term :=
  match n with
  | O => Ok t
  | S n =>
    entry ← hist_get (g_hist_count (hist t) - i + 1) (hist t);
    match entry with
    | None => history_lines n (i + 1) t
    | Some entry =>
      t ← term_puts (bs "  ") t;
      nbuf ← itoa_into 8 i;
      t ← term_puts nbuf t;
      t ← term_puts (if i <? 10 then bs "   " else bs "  ") t;
      t ← term_puts entry t;
      t ← term_puts [10] t;
      history_lines n (i + 1) t
    end
  end.

Definition term_print_history (t : term) : outcome term :=
  if g_hist_count (hist t) =? 0 then term_puts (bs "  (no history)" ++ [10]) t
  else history_lines (Z.to_nat (g_hist_count (hist t))) 1 t.

(** * The line editor *)

(** The cells [i..avail-1] of the input line: the text, then blanks. *)
Fixpoint redraw_cells (n : nat) (i : Z) (e : editor) (v : vga) : outcome vga :=
  match n with
  | O => Ok v
  | S n =>
    c ← (if i <? cmdlen e then read (cmdbuf e) i else Ok (ch " "));
    v ← vga_putchar_at (edit_row e) (edit_col e + i) c 7 v;
    redraw_cells n (i + 1) e v
  end.

Definition redraw_input (t : term) : outcome term :=
  let e := edit t in
  v ← redraw_cells (Z.to_nat (VGA_WIDTH - edit_col e)) 0 e (screen t);
  let x := edit_col e + cursor_pos e in
  Ok (set_screen t (vga_set_cursor (edit_row e) x v) x (edit_row e)).

(** [strncpy(cmdbuf, s, 255)] and what follows it at both places. *)
Definition load_line (s : list Z) (t : term) : outcome term :=
  b ← slot_into s;
  let len := Z.of_nat (strlen b) in
  redraw_input (set_edit t (set_line (edit t) b len len)).

Definition load_history_entry (steps_back : Z) (t : term) : outcome term :=
  entry ← hist_get steps_back (hist t);
  match entry with None => Ok t | Some s => load_line s t end.

Definition print_prompt (t : term) : outcome term :=
  t ← term_puts (bs "> ") t;
  let e := edit t in
  Ok (set_edit t (Editor (cmdbuf e) (cmdlen e) (cursor_pos e) (cursor_y t) (cursor_x t))).

Definition str_to_lower_in_place (s : list Z) : list Z :=
  map (fun c => if (ch "A" <=? c) && (c <=? ch "Z") then c - ch "A" + ch "a" else c) s.

(** [for (i = from; i < to; i++) cmdbuf[i] = cmdbuf[i + 1]], [n] turns. *)
Fixpoint shift_left (n : nat) (i : Z) (b : list Z) : outcome (list Z) :=
  match n with
  | O => Ok b
  | S n => c ← read b (i + 1); b ← blit b i [c]; shift_left n (i + 1) b
  end.

(** [for (i = len; i > pos; i--) cmdbuf[i] = cmdbuf[i - 1]], [n] turns. *)
Fixpoint shift_right (n : nat) (i : Z) (b : list Z) : outcome (list Z) :=
  match n with
  | O => Ok b
  | S n => c ← read b (i - 1); b ← blit b i [c]; shift_right n (i - 1) b
  end.

(** Removes the character at [pos]: the part Backspace and Delete share. *)
Definition delete_at (pos cursor : Z) (t : term) : outcome term :=
  let e := edit t in
  b ← shift_left (Z.to_nat (cmdlen e - 1 - pos)) pos (cmdbuf e);
  let len := cmdlen e - 1 in
  b ← blit b len [0];
  redraw_input (set_edit t (set_line e b len cursor)).

Definition insert_char (c : Z) (t : term) : outcome term :=
  let e := edit t in
  b ← shift_right (Z.to_nat (cmdlen e - cursor_pos e)) (cmdlen e) (cmdbuf e);
  b ← blit b (cursor_pos e) [u8 c];
  b ← blit b (cmdlen e + 1) [0];
  redraw_input (set_edit t (set_line e b (cmdlen e + 1) (cursor_pos e + 1))).

Definition move_to (pos : Z) (t : term) : outcome term :=
  redraw_input (set_edit t (set_line (edit t) (cmdbuf (edit t)) (cmdlen (edit t)) pos)).

Definition history_up (t : term) : outcome term :=
  let h := hist t in
  pending ← slot_into (cmdbuf (edit t));
  let h := if g_nav_pos h =? 0 then set_pending h pending else h in
  if g_nav_pos h <? g_hist_count h then
    let n := g_nav_pos h + 1 in load_history_entry n (set_hist t (set_nav h n))
  else Ok (set_hist t h).

Definition history_down (t : term) : outcome term :=
  let h := hist t in
  if g_nav_pos h >? 1 then
    let n := g_nav_pos h - 1 in load_history_entry n (set_hist t (set_nav h n))
  else if g_nav_pos h =? 1 then load_line (g_pending h) (set_hist t (set_nav h 0))
  else Ok t.

(** The keys other than Enter, in the order the loop tests them. *)
Definition edit_key (key : Z) (t : term) : outcome term :=
  let e := edit t in
  if (key =? KEY_BACKSPACE) || (key =? 8) then
    if cursor_pos e >? 0 then delete_at (cursor_pos e - 1) (cursor_pos e - 1) t else Ok t
  else if key =? KEY_DELETE then
    if cursor_pos e <? cmdlen e then delete_at (cursor_pos e) (cursor_pos e) t else Ok t
  else if key =? KEY_LEFT then
    if cursor_pos e >? 0 then move_to (cursor_pos e - 1) t else Ok t
  else if key =? KEY_RIGHT then
    if cursor_pos e <? cmdlen e then move_to (cursor_pos e + 1) t else Ok t
  else if key =? KEY_HOME then move_to 0 t
  else if key =? KEY_END then move_to (cmdlen e) t
  else if key =? KEY_UP then history_up t
  else if key =? KEY_DOWN then history_down t
  else if (32 <=? key) && (key <=? 126) && (cmdlen e <? HIST_LEN - 1) then insert_char key t
  else Ok t.

(** * Running a line *)

(** The command word and its arguments in [tmp], a copy of the line. *)
Fixpoint split_space (s : list Z) : list Z * option (list Z) :=
  match s with
  | [] => ([], None)
  | c :: s' => if c =? ch " " then ([], Some s') else let '(w, a) := split_space s' in (c :: w, a)
  end.

Fixpoint skip_spaces (p : list Z) : list Z :=
  match p with c :: p' => if c =? ch " " then skip_spaces p' else p | [] => [] end.

Definition parse_line (line : list Z) : list Z * option (list Z) :=
  let '(w, a) := split_space (buf_text (slot line)) in
  (str_to_lower_in_place w,
   match a with
   | None => None
   | Some a => let a := skip_spaces a in if (length a =? 0)%nat then None else Some a
   end).

Definition help_text : list (list Z) := [
  bs "Available commands:";
  bs "  File:    ls mkdir rm touch cat cd pwd tree cp find grep rmdir mv";
  bs "  Network: ping wget nslookup ifconfig netstat traceroute curl telnet";
  bs "  System:  echo uname whoami date ps kill top dmesg kstats reboot shutdown";
  bs "  System+: uptime sleep calc beep history";
  bs "  Java:    java [file]  jarinfo [file]  /java";
  bs "  Games:   catnake pong";
  bs "  Apps:    mamu kat desktop";
  bs "  Tips:    echo > file  |  Up/Down=history  |  Home/End=line ends" ].

Fixpoint put_lines (l : list (list Z)) (t : term) : outcome term :=
  match l with [] => Ok t | s :: l => t ← term_puts (s ++ [10]) t; put_lines l t end.

Section run.
Context {W : Type}.
Variable cmd_dispatch : list Z -> option (list Z) -> term * W -> outcome (bool * (term * W)).

Definition run_command (cmd : list Z) (args : option (list Z)) (st : term * W) : outcome (term * W) :=
  let '(t, w) := st in
  if strcmp cmd (bs "help") =? 0 then t ← put_lines help_text t; Ok (t, w)
  else if strcmp cmd (bs "clear") =? 0 then Ok (term_reset_screen t, w)
  else if strcmp cmd (bs "history") =? 0 then t ← term_print_history t; Ok (t, w)
  else
    '(handled, st) ← cmd_dispatch cmd args (t, w);
    if (handled : bool) then Ok st
    else
      let '(t, w) := st in
      t ← term_puts (bs "Unknown command: ") t;
      t ← term_puts cmd t;
      t ← term_puts (bs "  (try 'help')" ++ [10]) t;
      Ok (t, w).

(** The line is empty again and the prompt printed. *)
Definition end_line (t : term) : outcome term :=
  b ← blit (cmdbuf (edit t)) 0 [0];
  print_prompt (set_edit t (set_line (edit t) b 0 0)).

Definition enter_key (st : term * W) : outcome (term * W) :=
  let '(t, w) := st in
  let e := edit t in
  b ← blit (cmdbuf e) (cmdlen e) [0];
  t ← term_putc 10 7 (set_edit t (set_line e b (cmdlen e) (cursor_pos e)));
  let t := set_hist t (set_nav (hist t) 0) in
  '(t, w) ←
    (if cmdlen e >? 0 then
       h ← hist_add b (hist t);
       let '(cmd, args) := parse_line b in
       run_command cmd args (set_hist t h, w)
     else Ok (t, w));
  t ← end_line t;
  Ok (t, w).

(** One key that is not 0. *)
Definition on_key (key : Z) (st : term * W) : outcome (term * W) :=
  if (key =? KEY_ENTER) || (key =? 10) then enter_key st
  else t ← edit_key key (fst st); Ok (t, snd st).
End run.

(** What [terminal_run] does before its loop. *)
Definition terminal_start (t : term) : outcome term :=
  let t := term_reset_screen t in
  t ← term_puts (bs "Welcome to HeatOS!" ++ [10]) t;
  t ← term_puts (bs "Type 'help' for commands.  Up/Down=history  Home/End/Del=editing" ++ [10]) t;
  t ← print_prompt t;
  b ← blit (cmdbuf (edit t)) 0 [0];
  Ok (set_edit t (set_line (edit t) b 0 0)).
