(* ===== verification/TerminalProps.v ===== *)
(** What the terminal guarantees: no access outside its buffers, the line
    editor as a cursor in a text, the history as the list of the last lines. *)
From Stdlib Require Import ZArith Lia Ascii String.
From stdpp Require Import base tactics option numbers list.
From S2P Require Import Prelude Buffer CString Vga Terminal.
#[local] Open Scope Z_scope.

(** * The screen *)

(** The cursor is on a row of the screen; its column may be past the last one
    while a long line is edited. *)
Record screen_ok (t : term) : Prop := {
  so_vga : vga_ok (screen t);
  so_x : 0 <= cursor_x t;
  so_y : 0 <= cursor_y t < 25 }.

(** Output changes the screen, the cursor and, by scrolling, [edit_row]. *)
Record output_only (t t' : term) : Prop := {
  oo_hist : hist t' = hist t;
  oo_buf : cmdbuf (edit t') = cmdbuf (edit t);
  oo_len : cmdlen (edit t') = cmdlen (edit t);
  oo_pos : cursor_pos (edit t') = cursor_pos (edit t);
  oo_col : edit_col (edit t') = edit_col (edit t);
  oo_row : edit_row (edit t') = edit_row (edit t) \/ edit_row (edit t') = 24 }.

#[export] Instance output_only_preorder : PreOrder output_only.
Proof.
  split; [split; auto|]. intros a b c [] []. split; try congruence.
  destruct oo_row1; [|by right]. destruct oo_row0; [left|right]; congruence.
Qed.

Lemma vga_scroll_ok attr v : vga_ok v -> succeeds (vga_scroll_up 0 (VGA_HEIGHT - 1) attr v) vga_ok.
Proof.
  intros Hv. change (VGA_HEIGHT - 1) with (Z.of_nat 24).
  pose proof (vga_scroll_up_spec 24 attr v Hv ltac:(lia)) as E. rewrite E. apply succeeds_ret.
  by apply (vga_scroll_up_rows attr v).
Qed.

Lemma term_putc_ok c attr t : screen_ok t ->
  succeeds (term_putc c attr t) (fun t' => screen_ok t' /\ cursor_x t' <= Z.max 80 (cursor_x t) /\ output_only t t').
Proof.
  intros [Hv Hx Hy]. unfold term_putc.
  eapply (succeeds_bind _ _ (fun r => vga_ok r.1.1 /\ 0 <= r.1.2 <= Z.max 80 (cursor_x t) /\ 0 <= r.2 <= 25)).
  { destruct (c =? 10); [apply succeeds_ret; simpl; split_and!; done || lia|].
    destruct (c =? 8).
    - destruct (Z.gtb_spec (cursor_x t) 0); [|apply succeeds_ret; simpl; split_and!; done || lia].
      eapply succeeds_bind; [by apply vga_putchar_at_ok|]. intros v (Hv' & _).
      apply succeeds_ret. simpl. split_and!; done || lia.
    - eapply succeeds_bind; [by apply vga_putchar_at_ok|]. intros v (Hv' & _).
      unfold VGA_WIDTH. destruct (Z.geb_spec (cursor_x t + 1) 80); apply succeeds_ret; simpl; split_and!; done || lia. }
  intros [[v x] y] (Hv' & Hx' & Hy'). simpl in *. unfold VGA_HEIGHT at 1.
  destruct (Z.geb_spec y 25).
  - eapply succeeds_bind; [by apply vga_scroll_ok|]. intros v'' Hv''. apply succeeds_ret.
    split; [split; simpl; done || lia|]. split; [simpl; lia|]. split; try done. by right.
  - apply succeeds_ret. split; [split; simpl; done || lia|]. split; [simpl; lia|]. split; try done. by left.
Qed.

Lemma term_puts_ok s : forall t, screen_ok t ->
  succeeds (term_puts s t) (fun t' => screen_ok t' /\ cursor_x t' <= Z.max 80 (cursor_x t) /\ output_only t t').
Proof.
  induction s as [|c s IH]; intros t Ht; cbn [term_puts].
  { apply succeeds_ret. split_and!; [done|lia|reflexivity]. }
  destruct (c =? 0); [apply succeeds_ret; split_and!; [done|lia|reflexivity]|].
  eapply succeeds_bind; [by apply term_putc_ok|]. intros t1 (Ht1 & Hx1 & Ho1).
  eapply succeeds_mono; [by apply IH|]. intros t2 (Ht2 & Hx2 & Ho2).
  split_and!; [done|lia|by etrans].
Qed.

(** * The line editor *)

(** The buffer holds the text of the line and a NUL after it. *)
Record editor_ok (e : editor) : Prop := {
  eo_buf : length (cmdbuf e) = 256%nat;
  eo_len : 0 <= cursor_pos e <= cmdlen e;
  eo_max : cmdlen e <= 255;
  eo_text : nul_free (take (Z.to_nat (cmdlen e)) (cmdbuf e));
  eo_nul : byte_at (cmdbuf e) (Z.to_nat (cmdlen e)) = 0;
  eo_row : 0 <= edit_row e < 25;
  eo_col : 0 <= edit_col e }.

(** The text, split at the cursor. *)
Definition line_of (e : editor) : list Z := take (Z.to_nat (cmdlen e)) (cmdbuf e).
Definition zipper (e : editor) : list Z * list Z :=
  (take (Z.to_nat (cursor_pos e)) (line_of e), drop (Z.to_nat (cursor_pos e)) (line_of e)).

(** What the keys mean. *)
Definition zip_key (key : Z) (z : list Z * list Z) : list Z * list Z :=
  let '(l, r) := z in
  if (key =? KEY_BACKSPACE) || (key =? 8) then (removelast l, r)
  else if key =? KEY_DELETE then (l, tail r)
  else if key =? KEY_LEFT then
    match last l with Some c => (removelast l, c :: r) | None => (l, r) end
  else if key =? KEY_RIGHT then match r with c :: r' => (l ++ [c], r') | [] => (l, r) end
  else if key =? KEY_HOME then ([], l ++ r)
  else if key =? KEY_END then (l ++ r, [])
  else if (32 <=? key) && (key <=? 126) && (length l + length r <? 255)%nat then (l ++ [key], r)
  else (l, r).

(** A buffer with [text] in it, a NUL and anything behind. *)
Definition holds (b text : list Z) : Prop :=
  length b = 256%nat /\ exists rest, b = text ++ 0 :: rest.

Lemma editor_ok_intro b text pos row col :
  holds b text -> nul_free text -> 0 <= pos <= Z.of_nat (length text) -> 0 <= row < 25 -> 0 <= col ->
  editor_ok (Editor b (Z.of_nat (length text)) pos row col) /\
  line_of (Editor b (Z.of_nat (length text)) pos row col) = text.
Proof.
  intros (Hb & rest & ->) Hnf Hpos Hrow Hcol. rewrite length_app in Hb. simpl in Hb.
  assert (take (Z.to_nat (Z.of_nat (length text))) (text ++ 0 :: rest) = text) as Ht
    by (rewrite Nat2Z.id; by rewrite take_app_length).
  split; [|exact Ht]. split; cbn [cmdbuf cmdlen cursor_pos edit_row edit_col]; try done; try lia.
  - rewrite length_app. simpl. lia.
  - by rewrite Ht.
  - by rewrite Nat2Z.id, byte_at_app_r, Nat.sub_diag by lia.
Qed.

Lemma editor_ok_elim e : editor_ok e ->
  exists rest, cmdbuf e = (zipper e).1 ++ (zipper e).2 ++ 0 :: rest /\ nul_free ((zipper e).1 ++ (zipper e).2) /\
    cursor_pos e = Z.of_nat (length (zipper e).1) /\
    cmdlen e = Z.of_nat (length (zipper e).1 + length (zipper e).2) /\
    (length rest = 255 - length (zipper e).1 - length (zipper e).2)%nat /\
    (length (zipper e).1 + length (zipper e).2 <= 255)%nat.
Proof.
  intros [Hb Hl Hm Ht Hn Hr Hc]. unfold zipper. cbn [fst snd].
  assert (length (line_of e) = Z.to_nat (cmdlen e)) as Hlen by (unfold line_of; rewrite length_take; lia).
  exists (drop (S (Z.to_nat (cmdlen e))) (cmdbuf e)). rewrite app_assoc, take_drop.
  rewrite !length_take, !length_drop, Hlen. split_and!; try done; try lia.
  unfold line_of. rewrite take_drop_middle; [done|].
  destruct (lookup_lt_is_Some_2 (cmdbuf e) (Z.to_nat (cmdlen e))) as [x Hx]; [lia|].
  by rewrite Hx, <- (byte_at_lookup _ _ _ Hx), Hn.
Qed.

Lemma shift_left_spec r : forall pre c rest,
  exists x, shift_left (length r) (Z.of_nat (length pre)) (pre ++ c :: r ++ rest) = Ok (pre ++ r ++ x :: rest).
Proof.
  induction r as [|d r IH]; intros pre c rest; [by exists c|]. cbn [length shift_left].
  assert (read (pre ++ c :: (d :: r) ++ rest) (Z.of_nat (length pre) + 1) = Ok d) as ->.
  { change (c :: (d :: r) ++ rest) with ([c] ++ d :: (r ++ rest)). rewrite (app_assoc pre).
    apply read_at. rewrite length_app. simpl. lia. }
  cbn [mbind outcome_bind]. rewrite (blit_app pre [c] ((d :: r) ++ rest)) by done. cbn [mbind outcome_bind].
  destruct (IH (pre ++ [d]) d rest) as (x & E). exists x. rewrite length_app in E. simpl length in E.
  replace (Z.of_nat (length pre) + 1) with (Z.of_nat (length pre + 1)) by lia.
  rewrite <- app_assoc in E. cbn [app] in E. rewrite <- app_assoc in E. exact E.
Qed.

Lemma shift_right_spec r : forall pre x rest,
  exists y, shift_right (length r) (Z.of_nat (length pre + length r)) (pre ++ r ++ x :: rest)
    = Ok (pre ++ y :: r ++ rest).
Proof.
  induction r as [|d r IH] using rev_ind; intros pre x rest; [by exists x|].
  rewrite length_app. simpl length. rewrite Nat.add_1_r. cbn [shift_right].
  assert (read (pre ++ (r ++ [d]) ++ x :: rest) (Z.of_nat (length pre + S (length r)) - 1) = Ok d) as ->.
  { rewrite <- app_assoc, (app_assoc pre). apply read_at. rewrite length_app. lia. }
  cbn [mbind outcome_bind].
  assert (blit (pre ++ (r ++ [d]) ++ x :: rest) (Z.of_nat (length pre + S (length r))) [d]
    = Ok (pre ++ r ++ d :: d :: rest)) as ->.
  { rewrite (app_assoc pre). change (x :: rest) with ([x] ++ rest).
    rewrite blit_app; [|rewrite !length_app; simpl; lia|done]. by rewrite <- !app_assoc. }
  cbn [mbind outcome_bind]. destruct (IH pre d (d :: rest)) as (y & E). exists y.
  replace (Z.of_nat (length pre + S (length r)) - 1) with (Z.of_nat (length pre + length r)) by lia.
  rewrite E. by rewrite <- app_assoc.
Qed.

(** What the input line of the screen shows. *)
Definition shown (t : term) : Prop :=
  forall i, 0 <= i < 80 - edit_col (edit t) ->
    cell (screen t) (edit_row (edit t)) (edit_col (edit t) + i) =
    vga_entry (if i <? cmdlen (edit t) then byte_at (cmdbuf (edit t)) (Z.to_nat i) else ch " ") 7.

Lemma redraw_cells_ok e n : forall i v, vga_ok v -> editor_ok e -> 0 <= i -> edit_col e + i + Z.of_nat n <= 80 ->
  succeeds (redraw_cells n i e v) (fun v' => vga_ok v' /\
    (forall j, 0 <= j < i -> cell v' (edit_row e) (edit_col e + j) = cell v (edit_row e) (edit_col e + j)) /\
    forall j, i <= j < i + Z.of_nat n -> cell v' (edit_row e) (edit_col e + j) =
      vga_entry (if j <? cmdlen e then byte_at (cmdbuf e) (Z.to_nat j) else ch " ") 7).
Proof.
  induction n as [|n IH]; intros i v Hv He Hi Hn; cbn [redraw_cells].
  { apply succeeds_ret. split_and!; [done|done|lia]. }
  pose proof (eo_buf e He). pose proof (eo_max e He). pose proof (eo_row e He). pose proof (eo_col e He).
  eapply (succeeds_bind _ _ (fun c => c = if i <? cmdlen e then byte_at (cmdbuf e) (Z.to_nat i) else ch " ")).
  { destruct (Z.ltb_spec i (cmdlen e)); [|by apply succeeds_ret]. rewrite read_ok by lia. by apply succeeds_ret. }
  intros c Hc. eapply succeeds_bind; [by apply vga_putchar_at_ok|]. intros v1 (Hv1 & _ & _ & Hcells).
  rewrite (proj2 (in_screen_spec _ _)) in Hcells by lia.
  assert (forall j, 0 <= j < 80 - edit_col e -> cell v1 (edit_row e) (edit_col e + j) =
    if j =? i then vga_entry c 7 else cell v (edit_row e) (edit_col e + j)) as Hcell.
  { intros j Hj. unfold cell, VGA_WIDTH. rewrite Hcells. unfold vga_ok in *. destruct (Z.eqb_spec j i) as [->|Hne].
    - apply byte_at_insert_eq. lia.
    - apply byte_at_insert_ne. lia. }
  eapply succeeds_mono; [apply (IH (i + 1)); done || lia|]. intros v2 (Hv2 & Hlow & Hnew). split; [done|]. split.
  - intros j Hj. rewrite Hlow, Hcell by lia. by rewrite (proj2 (Z.eqb_neq j i)) by lia.
  - intros j Hj. destruct (decide (j = i)) as [->|]; [|apply Hnew; lia].
    rewrite Hlow, Hcell, Z.eqb_refl by lia. by rewrite Hc.
Qed.

(** Redrawing shows the line and leaves the rest of the terminal as it is. *)
Lemma redraw_input_ok t : vga_ok (screen t) -> editor_ok (edit t) ->
  succeeds (redraw_input t) (fun t' => screen_ok t' /\ hist t' = hist t /\ edit t' = edit t /\ shown t').
Proof.
  intros Hv He. pose proof (eo_col _ He). pose proof (eo_row _ He). pose proof (eo_len _ He).
  unfold redraw_input, VGA_WIDTH. destruct (Z_le_gt_dec (edit_col (edit t)) 80) as [Hle|Hgt].
  - eapply succeeds_bind; [apply redraw_cells_ok; done || lia|]. intros v (Hv' & _ & Hnew).
    apply succeeds_ret. split; [split; simpl; done || lia|]. split; [done|]. split; [done|].
    intros i Hi. cbn in *. unfold cell in *. cbn. apply Hnew. lia.
  - replace (Z.to_nat (80 - edit_col (edit t))) with 0%nat by lia. cbn [redraw_cells mbind outcome_bind].
    apply succeeds_ret. split; [split; simpl; done || lia|]. split; [done|]. split; [done|].
    intros i Hi. simpl in Hi. lia.
Qed.

(** The result of a key that edits the line: the new text and cursor, shown. *)
Definition edited (t : term) (z : list Z * list Z) (t' : term) : Prop :=
  screen_ok t' /\ editor_ok (edit t') /\ zipper (edit t') = z /\ hist t' = hist t /\
  edit_row (edit t') = edit_row (edit t) /\ edit_col (edit t') = edit_col (edit t) /\ shown t'.

Lemma redraw_line t b l r : screen_ok t -> editor_ok (edit t) -> holds b (l ++ r) -> nul_free (l ++ r) ->
  succeeds (redraw_input (set_edit t (set_line (edit t) b (Z.of_nat (length l + length r)) (Z.of_nat (length l)))))
    (edited t (l, r)).
Proof.
  intros [Hv _ _] He Hb Hnf.
  destruct (editor_ok_intro b (l ++ r) (Z.of_nat (length l)) (edit_row (edit t)) (edit_col (edit t)) Hb Hnf)
    as [Hok Hline]; [rewrite length_app; lia|apply (eo_row _ He)|apply (eo_col _ He)|].
  rewrite length_app in Hok, Hline.
  eapply succeeds_mono; [apply redraw_input_ok; done|]. intros t' (Hs & Hh & Hed & Hsh).
  unfold edited. rewrite Hed. split_and!; try done. unfold zipper. cbn [set_edit edit set_line cursor_pos].
  unfold set_line. rewrite Hline, Nat2Z.id. by rewrite take_app_length, drop_app_length.
Qed.

Lemma delete_at_ok t l c r rest : screen_ok t -> editor_ok (edit t) ->
  cmdbuf (edit t) = l ++ c :: r ++ 0 :: rest -> cmdlen (edit t) = Z.of_nat (length l + S (length r)) ->
  nul_free (l ++ r) ->
  succeeds (delete_at (Z.of_nat (length l)) (Z.of_nat (length l)) t) (edited t (l, r)).
Proof.
  intros Hs He Hb Hlen Hnf. unfold delete_at. rewrite Hb, Hlen.
  replace (Z.to_nat (Z.of_nat (length l + S (length r)) - 1 - Z.of_nat (length l))) with (length r) by lia.
  destruct (shift_left_spec r l c (0 :: rest)) as (x & ->). cbn [mbind outcome_bind].
  rewrite (app_assoc l). change (x :: 0 :: rest) with ([x] ++ 0 :: rest).
  rewrite blit_app; [|rewrite length_app; lia|done]. cbn [mbind outcome_bind].
  replace (Z.of_nat (length l + S (length r)) - 1) with (Z.of_nat (length l + length r)) by lia.
  apply redraw_line; try done. split; [|by exists (0 :: rest)].
  pose proof (eo_buf _ He) as Hl. rewrite Hb, !length_app in Hl. rewrite !length_app. simpl in *. rewrite length_app in *. simpl in *. lia.
Qed.

Lemma insert_char_ok t l r rest k : screen_ok t -> editor_ok (edit t) ->
  cmdbuf (edit t) = l ++ r ++ 0 :: rest -> cursor_pos (edit t) = Z.of_nat (length l) ->
  cmdlen (edit t) = Z.of_nat (length l + length r) -> (length l + length r < 255)%nat ->
  nul_free (l ++ r) -> 32 <= k <= 126 ->
  succeeds (insert_char k t) (edited t (l ++ [k], r)).
Proof.
  intros Hs He Hb Hpos Hlen Hmax Hnf Hk. unfold insert_char. rewrite Hb, Hlen, Hpos.
  pose proof (eo_buf _ He) as Hl. rewrite Hb, !length_app in Hl. simpl in Hl.
  destruct rest as [|z rest]; [simpl in Hl; lia|]. simpl in Hl.
  replace (Z.to_nat (Z.of_nat (length l + length r) - Z.of_nat (length l))) with (length r) by lia.
  destruct (shift_right_spec r l 0 (z :: rest)) as (y & ->). cbn [mbind outcome_bind].
  change (y :: r ++ z :: rest) with ([y] ++ r ++ z :: rest). rewrite blit_app by done. cbn [mbind outcome_bind].
  rewrite (app_assoc [u8 k] r), (app_assoc l). change (z :: rest) with ([z] ++ rest).
  rewrite blit_app; [|rewrite !length_app; simpl; lia|done]. cbn [mbind outcome_bind].
  rewrite u8_small by (unfold is_u8; lia).
  replace (Z.of_nat (length l + length r) + 1) with (Z.of_nat (length (l ++ [k]) + length r)) by (rewrite length_app; simpl; lia).
  replace (Z.of_nat (length l) + 1) with (Z.of_nat (length (l ++ [k]))) by (rewrite length_app; simpl; lia).
  apply redraw_line; try done.
  - split; [rewrite !length_app; simpl; lia|]. exists rest. by rewrite <- !app_assoc.
  - rewrite <- app_assoc. apply Forall_app in Hnf as [? ?]. apply Forall_app. split; [done|].
    constructor; [lia|done].
Qed.

Lemma move_to_ok t l r : screen_ok t -> editor_ok (edit t) -> l ++ r = line_of (edit t) ->
  succeeds (move_to (Z.of_nat (length l)) t) (edited t (l, r)).
Proof.
  intros Hs He Hlr. destruct (editor_ok_elim _ He) as (rest & Hb & Hnf & _ & Hlen & _).
  unfold zipper in *. cbn [fst snd] in *. rewrite app_assoc, take_drop in Hb. rewrite take_drop in Hnf.
  rewrite <- length_app, take_drop, <- Hlr, length_app in Hlen. rewrite <- Hlr in *.
  unfold move_to. rewrite Hlen. apply redraw_line; try done. split; [apply (eo_buf _ He)|]. by exists rest.
Qed.

Lemma unchanged t : screen_ok t -> editor_ok (edit t) -> shown t -> edited t (zipper (edit t)) t.
Proof. intros. by split_and!. Qed.

(** The result of a key: either nothing happened or the line was redrawn. *)
Definition key_result (t : term) (z : list Z * list Z) (t' : term) : Prop :=
  (t' = t /\ z = zipper (edit t)) \/ edited t z t'.

Lemma edit_key_zip key t : screen_ok t -> editor_ok (edit t) -> key <> KEY_UP -> key <> KEY_DOWN ->
  succeeds (edit_key key t) (key_result t (zip_key key (zipper (edit t)))).
Proof.
  intros Hs He Hup Hdown. pose proof He as He'.
  apply editor_ok_elim in He' as (rest & Hb & Hnf & Hpos & Hlen & Hrest & Hmax).
  assert ((zipper (edit t)).1 ++ (zipper (edit t)).2 = line_of (edit t)) as Hline by apply take_drop.
  assert (succeeds (Ok t) (key_result t (zipper (edit t)))) as Hsame by (apply succeeds_ret; by left).
  destruct (zipper (edit t)) as [l r] eqn:Hz. cbn [fst snd] in *.
  assert (forall z m, succeeds m (edited t z) -> succeeds m (key_result t z)) as Hedit
    by (intros z m Hm; eapply succeeds_mono; [exact Hm|by right]).
  unfold edit_key, zip_key. rewrite Hpos, Hlen. destruct ((key =? KEY_BACKSPACE) || (key =? 8)).
  { rewrite Z.gtb_ltb. destruct (Z.ltb_spec 0 (Z.of_nat (length l))) as [Hp|Hp];
      [|destruct l; [done|simpl in Hp; lia]].
    destruct l as [|c l _] using rev_ind; [simpl in Hp; lia|]. rewrite removelast_last.
    rewrite length_app in *. simpl length in *.
    replace (Z.of_nat (length l + 1) - 1) with (Z.of_nat (length l)) by lia. rewrite <- app_assoc in *.
    apply Hedit. apply (delete_at_ok t l c r rest); try done; [rewrite Hlen; f_equal; lia|].
    apply Forall_app in Hnf as [? Hnf]. apply Forall_app. split; [done|]. by apply Forall_app in Hnf as [_ ?]. }
  destruct (key =? KEY_DELETE).
  { destruct r as [|c r]; [by rewrite Nat.add_0_r, Z.ltb_irrefl|]. rewrite (proj2 (Z.ltb_lt _ _)) by (simpl; lia).
    apply Hedit. apply (delete_at_ok t l c r rest); try done. apply Forall_app in Hnf as [? Hnf].
    apply Forall_app. split; [done|]. by apply Forall_cons in Hnf as [_ ?]. }
  destruct (key =? KEY_LEFT).
  { rewrite Z.gtb_ltb. destruct (Z.ltb_spec 0 (Z.of_nat (length l))) as [Hp|Hp];
      [|destruct l; [done|simpl in Hp; lia]].
    destruct l as [|c l _] using rev_ind; [simpl in Hp; lia|]. rewrite last_snoc, removelast_last.
    rewrite length_app. simpl length. replace (Z.of_nat (length l + 1) - 1) with (Z.of_nat (length l)) by lia.
    apply Hedit, move_to_ok; try done. by rewrite <- Hline, <- app_assoc. }
  destruct (key =? KEY_RIGHT).
  { destruct r as [|c r]; [by rewrite Nat.add_0_r, Z.ltb_irrefl|]. rewrite (proj2 (Z.ltb_lt _ _)) by (simpl; lia).
    replace (Z.of_nat (length l) + 1) with (Z.of_nat (length (l ++ [c]))) by (rewrite length_app; simpl; lia).
    apply Hedit, move_to_ok; try done. by rewrite <- app_assoc. }
  destruct (key =? KEY_HOME); [by apply Hedit, (move_to_ok t [])|].
  destruct (key =? KEY_END).
  { rewrite <- length_app. apply Hedit, move_to_ok; try done. by rewrite app_nil_r. }
  rewrite (proj2 (Z.eqb_neq key KEY_UP)), (proj2 (Z.eqb_neq key KEY_DOWN)) by done.
  destruct (Z.leb_spec 32 key); [|done]. destruct (Z.leb_spec key 126); [|done]. cbn [andb].
  change (HIST_LEN - 1) with 255. destruct (Nat.ltb_spec (length l + length r) 255).
  - rewrite (proj2 (Z.ltb_lt _ _)) by lia. apply Hedit. by apply (insert_char_ok t l r rest).
  - by rewrite (proj2 (Z.ltb_ge _ _)) by lia.
Qed.

(** * The history *)

(** A text as a 256-byte slot holds it. *)
Definition pad (x : list Z) : list Z := x ++ replicate (256 - length x) 0.

Definition entry_ok (x : list Z) : Prop := nul_free x /\ (length x <= 255)%nat.

(** The ring holds the texts [l], the newest first. *)
Record history_ok (h : history) (l : list (list Z)) : Prop := {
  ho_size : length (g_history h) = 50%nat;
  ho_max : (length l <= 50)%nat;
  ho_count : g_hist_count h = Z.of_nat (length l);
  ho_next : 0 <= g_hist_next h < 50;
  ho_entry k x : l !! k = Some x ->
    entry_ok x /\ g_history h !! Z.to_nat ((g_hist_next h - 1 - Z.of_nat k) mod 50) = Some (pad x);
  ho_nav : 0 <= g_nav_pos h <= g_hist_count h;
  ho_pending : exists x, entry_ok x /\ g_pending h = pad x }.

Lemma strlen_pad x : entry_ok x -> strlen (pad x) = length x.
Proof.
  intros [Hnf Hl]. unfold pad. replace (256 - length x)%nat with (S (255 - length x)) by lia.
  cbn [replicate]. by apply strlen_app_nul.
Qed.

Lemma buf_text_nul_free b : nul_free (buf_text b).
Proof.
  unfold buf_text. induction b as [|c b IH]; [constructor|]. simpl.
  destruct (Z.eqb_spec c 0); simpl; [constructor|]. by constructor.
Qed.

Lemma slot_entry s : entry_ok (take 255 (buf_text s)).
Proof. split; [apply Forall_take, buf_text_nul_free|]. rewrite length_take. lia. Qed.

Lemma pad_holds x : entry_ok x -> holds (pad x) x.
Proof.
  intros [Hnf Hl]. unfold holds, pad. split; [rewrite length_app, length_replicate; lia|].
  exists (replicate (255 - length x) 0). by replace (256 - length x)%nat with (S (255 - length x)) by lia.
Qed.

Lemma history_boot_ok : history_ok (hist (term_boot (Vga [] 0 0))) [].
Proof.
  split; try done; try (simpl; lia). exists []. split; [split; [constructor|simpl; lia]|done].
Qed.

Lemma slot_fits s : slot_into s = Ok (slot s).
Proof.
  apply fill_array_ok. unfold slot. pose proof (length_take (buf_text s) 255).
  rewrite length_app, length_replicate. lia.
Qed.

(** Adding a line puts its text first and drops the 51st. *)
Lemma hist_add_ok cmd h l : history_ok h l -> hd0 cmd <> 0 ->
  succeeds (hist_add cmd h) (fun h' => history_ok (set_nav h' 0) (take 50 (take 255 (buf_text cmd) :: l)) /\
    g_nav_pos h' = g_nav_pos h).
Proof.
  intros [Hsize Hmax Hcount Hnext Hentry Hnav Hpend] Hne. unfold hist_add.
  rewrite (proj2 (Z.eqb_neq _ _)), slot_fits by done. cbn [mbind outcome_bind]. rewrite (proj2 (Nat.ltb_lt _ _)) by lia.
  apply succeeds_ret. split; [|done]. set (x := take 255 (buf_text cmd)).
  unfold HIST_SIZE. rewrite Z.rem_mod_nonneg by lia.
  assert (length (take 50 (x :: l)) = Nat.min 50 (S (length l))) as Hlen by by rewrite length_take.
  split; cbn [set_nav g_history g_hist_count g_hist_next g_nav_pos g_pending]; try done.
  - by rewrite length_insert.
  - lia.
  - rewrite Hlen, Hcount. destruct (Z.ltb_spec (Z.of_nat (length l)) 50); lia.
  - apply Z.mod_pos_bound. lia.
  - intros k y Hy. apply lookup_take_Some in Hy as [Hy Hk].
    assert (((g_hist_next h + 1) mod 50 - 1 - Z.of_nat k) mod 50 = (g_hist_next h - Z.of_nat k) mod 50) as ->
      by (Z.to_euclidean_division_equations; lia).
    destruct k as [|k].
    + injection Hy as <-. split; [apply slot_entry|]. rewrite Z.sub_0_r, Z.mod_small by lia.
      by rewrite list_lookup_insert_eq by lia.
    + destruct (Hentry k y Hy) as [Hok Hlk]. split; [done|].
      assert ((g_hist_next h - Z.of_nat (S k)) mod 50 = (g_hist_next h - 1 - Z.of_nat k) mod 50) as -> by (f_equal; lia).
      rewrite list_lookup_insert_ne; [done|]. pose proof (lookup_lt_Some _ _ _ Hy).
      intros E. apply Z2Nat.inj in E; [|lia|apply Z.mod_pos_bound; lia].
      Z.to_euclidean_division_equations; lia.
  - destruct (g_hist_count h <? 50); lia.
Qed.

Lemma hist_get_ok k h l : history_ok h l ->
  hist_get k h = Ok (if 1 <=? k then pad <$> (l !! Z.to_nat (k - 1)) else None).
Proof.
  intros [Hsize Hmax Hcount Hnext Hentry _ _]. unfold hist_get.
  destruct (Z.leb_spec 1 k) as [Hk|Hk]; [|by rewrite (proj2 (Z.ltb_lt _ _)) by lia].
  rewrite (proj2 (Z.ltb_ge _ _)) by lia. rewrite Hcount, Z.gtb_ltb. cbn [orb].
  destruct (Z.ltb_spec (Z.of_nat (length l)) k).
  - by rewrite lookup_ge_None_2 by lia.
  - destruct (lookup_lt_is_Some_2 l (Z.to_nat (k - 1))) as [x Hx]; [lia|]. rewrite Hx.
    destruct (Hentry _ _ Hx) as [_ Hlk]. unfold HIST_SIZE. rewrite Z.rem_mod_nonneg by lia.
    replace ((g_hist_next h - k + 50 * 2) mod 50) with ((g_hist_next h - 1 - Z.of_nat (Z.to_nat (k - 1))) mod 50)
      by (Z.to_euclidean_division_equations; lia).
    by rewrite Hlk.
Qed.

(** Loading a text into the line: the text, the cursor at its end, shown. *)
Lemma slot_pad x : entry_ok x -> slot (pad x) = pad x.
Proof.
  intros Hx. pose proof Hx as [Hnf Hl]. unfold slot.
  assert (buf_text (pad x) = x) as ->.
  { unfold pad. replace (256 - length x)%nat with (S (255 - length x)) by lia. by apply buf_text_app. }
  by rewrite take_ge by lia.
Qed.

Lemma load_line_ok x t : screen_ok t -> editor_ok (edit t) -> entry_ok x ->
  succeeds (load_line (pad x) t) (edited t (x, [])).
Proof.
  intros Hs He Hx. unfold load_line. rewrite slot_fits. cbn [mbind outcome_bind]. rewrite slot_pad, strlen_pad by done.
  pose proof (redraw_line t (pad x) x []) as H. rewrite app_nil_r in H. simpl length in H.
  rewrite Nat.add_0_r in H. apply H; [done|done|by apply pad_holds|apply Hx].
Qed.

Definition nav (t : term) : Z := g_nav_pos (hist t).

(** Up: the line before the shown one; the typed line is kept the first time. *)
Lemma history_up_ok t l x : screen_ok t -> editor_ok (edit t) -> history_ok (hist t) l ->
  l !! Z.to_nat (nav t) = Some x ->
  succeeds (history_up t) (fun t' => screen_ok t' /\ editor_ok (edit t') /\ zipper (edit t') = (x, []) /\ shown t' /\
    hist t' = set_nav (if nav t =? 0 then set_pending (hist t) (pad (line_of (edit t))) else hist t) (nav t + 1)).
Proof.
  intros Hs He Hh Hx. pose proof (ho_count _ _ Hh) as Hc. pose proof (ho_nav _ _ Hh) as Hn.
  pose proof (lookup_lt_Some _ _ _ Hx) as Hlt. unfold nav in *. unfold history_up. rewrite slot_fits. cbn [mbind outcome_bind].
  assert (slot (cmdbuf (edit t)) = pad (line_of (edit t))) as ->.
  { destruct (editor_ok_elim _ He) as (rest & Hb & Hnf & _ & _ & _ & Hm). unfold zipper in *. cbn [fst snd] in *.
    rewrite app_assoc, take_drop in Hb. rewrite take_drop in Hnf. rewrite <- length_app, take_drop in Hm.
    unfold slot. rewrite Hb, buf_text_app by done. by rewrite take_ge by lia. }
  set (h := if g_nav_pos (hist t) =? 0 then _ else hist t).
  assert (g_nav_pos h = g_nav_pos (hist t) /\ g_hist_count h = g_hist_count (hist t) /\
    forall k, hist_get k (set_nav h k) = hist_get k (hist t)) as (-> & -> & Hget)
    by (unfold h; by destruct (g_nav_pos (hist t) =? 0)).
  rewrite (proj2 (Z.ltb_lt _ _)) by lia. unfold load_history_entry. cbn [set_hist hist].
  rewrite Hget, (hist_get_ok _ _ l Hh). rewrite (proj2 (Z.leb_le _ _)) by lia.
  replace (Z.to_nat (g_nav_pos (hist t) + 1 - 1)) with (Z.to_nat (g_nav_pos (hist t))) by lia.
  rewrite Hx. cbn [fmap option_fmap option_map mbind outcome_bind].
  set (t1 := set_hist t _). assert (screen_ok t1) by (destruct Hs; by split).
  destruct (ho_entry _ _ Hh _ _ Hx) as [Hok _].
  eapply succeeds_mono; [apply (load_line_ok x t1); done|]. intros t' (? & ? & ? & Hhist & _ & _ & ?).
  by rewrite Hhist.
Qed.

(** Down: the line after the shown one, in the end the typed line again. *)
Lemma history_down_ok t l x : screen_ok t -> editor_ok (edit t) -> history_ok (hist t) l -> 1 <= nav t ->
  entry_ok x -> (if nav t =? 1 then g_pending (hist t) = pad x else l !! Z.to_nat (nav t - 2) = Some x) ->
  succeeds (history_down t) (fun t' => screen_ok t' /\ editor_ok (edit t') /\ zipper (edit t') = (x, []) /\ shown t' /\
    hist t' = set_nav (hist t) (nav t - 1)).
Proof.
  intros Hs He Hh Hn Hok Hx. unfold nav in *. unfold history_down. rewrite Z.gtb_ltb.
  set (t1 := fun n => set_hist t (set_nav (hist t) n)).
  assert (forall n, screen_ok (t1 n)) by (intros; destruct Hs; by split).
  destruct (Z.eqb_spec (g_nav_pos (hist t)) 1) as [E|].
  - rewrite (proj2 (Z.ltb_ge _ _)) by lia. rewrite Hx.
    eapply succeeds_mono; [apply (load_line_ok x (t1 0)); done|]. intros t' (? & ? & ? & Hhist & _ & _ & ?).
    rewrite Hhist, E. done.
  - rewrite (proj2 (Z.ltb_lt _ _)) by lia. unfold load_history_entry. cbn [set_hist hist].
    change (hist_get ?k (set_nav ?h ?k)) with (hist_get k h). rewrite (hist_get_ok _ _ l Hh).
    rewrite (proj2 (Z.leb_le _ _)) by lia.
    replace (Z.to_nat (g_nav_pos (hist t) - 1 - 1)) with (Z.to_nat (g_nav_pos (hist t) - 2)) by lia.
    rewrite Hx. cbn [fmap option_fmap option_map mbind outcome_bind].
    eapply succeeds_mono; [apply (load_line_ok x (t1 (g_nav_pos (hist t) - 1))); done|].
    intros t' (? & ? & ? & Hhist & _ & _ & ?). by rewrite Hhist.
Qed.

Fixpoint keys (ks : list Z) (t : term) : outcome term :=
  match ks with [] => Ok t | k :: ks => t ← edit_key k t; keys ks t end.

Lemma keys_app ks ks' t : keys (ks ++ ks') t = (t ← keys ks t; keys ks' t).
Proof.
  revert t. induction ks as [|k ks IH]; intros t; [done|]. simpl. destruct (edit_key k t) as [t1|e]; [apply IH|done].
Qed.

Lemma set_nav_ok h l n : history_ok h l -> 0 <= n <= Z.of_nat (length l) -> history_ok (set_nav h n) l.
Proof. intros [] ?. split; try done. cbn. lia. Qed.

Lemma line_entry e : editor_ok e -> entry_ok (line_of e).
Proof. intros [Hb Hl Hm Ht _ _ _]. split; [done|]. unfold line_of. rewrite length_take. lia. Qed.

Lemma set_pending_ok h l x : history_ok h l -> entry_ok x -> history_ok (set_pending h (pad x)) l.
Proof. intros [] ?. split; try done. by exists x. Qed.

(** [k] times Up from the edited line. *)
Lemma ups_ok t l k : screen_ok t -> editor_ok (edit t) -> history_ok (hist t) l -> nav t = 0 ->
  (1 <= k <= length l)%nat ->
  succeeds (keys (replicate k KEY_UP) t) (fun t' => screen_ok t' /\ editor_ok (edit t') /\ shown t' /\
    (exists x, l !! (k - 1)%nat = Some x /\ zipper (edit t') = (x, [])) /\
    hist t' = set_nav (set_pending (hist t) (pad (line_of (edit t)))) (Z.of_nat k)).
Proof.
  intros Hs He Hh Hn. induction k as [|k IH]; intros Hk; [lia|].
  rewrite replicate_S_end, keys_app. destruct k as [|k].
  - simpl. destruct (lookup_lt_is_Some_2 l 0) as [x Hx]; [lia|].
    eapply succeeds_bind; [apply (history_up_ok t l x); try done; by rewrite Hn|].
    intros t' (? & ? & ? & ? & Hhist). apply succeeds_ret. rewrite Hn in Hhist. split_and!; try done. by exists x.
  - eapply succeeds_bind; [apply IH; lia|]. intros t1 (Hs1 & He1 & _ & _ & Hh1). simpl.
    destruct (lookup_lt_is_Some_2 l (S k)) as [x Hx]; [lia|].
    assert (history_ok (hist t1) l) as Hok1.
    { rewrite Hh1. apply set_nav_ok; [|lia]. apply set_pending_ok; [done|by apply line_entry]. }
    assert (nav t1 = Z.of_nat (S k)) as Hn1 by (unfold nav; by rewrite Hh1).
    eapply succeeds_bind; [apply (history_up_ok t1 l x); try done; by rewrite Hn1, Nat2Z.id|].
    intros t' (? & ? & ? & ? & Hhist). apply succeeds_ret. rewrite Hn1 in Hhist.
    rewrite (proj2 (Z.eqb_neq _ _)), Hh1 in Hhist by lia. split_and!; try done.
    + by exists x.
    + rewrite Hhist. unfold set_nav. cbn. f_equal. lia.
Qed.

(** [k] times Down from the [k]th line back. *)
Lemma downs_ok l saved k : forall t, screen_ok t -> editor_ok (edit t) -> history_ok (hist t) l ->
  nav t = Z.of_nat k -> (1 <= k <= length l)%nat -> entry_ok saved -> g_pending (hist t) = pad saved ->
  succeeds (keys (replicate k KEY_DOWN) t) (fun t' => screen_ok t' /\ editor_ok (edit t') /\ shown t' /\
    zipper (edit t') = (saved, []) /\ hist t' = set_nav (hist t) 0).
Proof.
  induction k as [|k IH]; intros t Hs He Hh Hn Hk Hsv Hp; [lia|]. simpl. destruct k as [|k].
  - eapply succeeds_bind; [apply (history_down_ok t l saved); try done; rewrite Hn; done|].
    intros t' (? & ? & ? & ? & Hhist). apply succeeds_ret. rewrite Hn in Hhist. by split_and!.
  - destruct (lookup_lt_is_Some_2 l k) as [x Hx]; [lia|]. destruct (ho_entry _ _ Hh _ _ Hx) as [Hok _].
    eapply succeeds_bind.
    { apply (history_down_ok t l x); try done; [lia|]. rewrite Hn, (proj2 (Z.eqb_neq _ _)) by lia.
      by replace (Z.to_nat (Z.of_nat (S (S k)) - 2)) with k by lia. }
    intros t1 (Hs1 & He1 & _ & _ & Hh1). eapply succeeds_mono; [apply IH; try done|].
    + rewrite Hh1. apply set_nav_ok; [done|]. lia.
    + unfold nav. rewrite Hh1. cbn. lia.
    + lia.
    + by rewrite Hh1.
    + intros t' (? & ? & ? & ? & Hhist). rewrite Hh1 in Hhist. by split_and!.
Qed.

(** * Every key *)

(** The invariant of the terminal's globals between keys. *)
Definition term_ok (t : term) : Prop :=
  screen_ok t /\ editor_ok (edit t) /\ exists l, history_ok (hist t) l.

Lemma output_term_ok t t' : term_ok t -> screen_ok t' -> output_only t t' -> term_ok t'.
Proof.
  intros (_ & [Hb Hl Hm Ht Hn Hr Hc] & l & Hh) Hs [E1 E2 E3 E4 E5 E6].
  split; [done|]. split; [|exists l; by rewrite E1].
  split; rewrite ?E2, ?E3, ?E4, ?E5; try done. destruct E6 as [-> | ->]; [done|lia].
Qed.

Lemma term_puts_keeps s t : term_ok t -> succeeds (term_puts s t) term_ok.
Proof.
  intros Ht. eapply succeeds_mono; [apply term_puts_ok, Ht|]. intros t' (? & _ & ?). by eapply output_term_ok.
Qed.

Lemma term_putc_keeps c attr t : term_ok t -> succeeds (term_putc c attr t) term_ok.
Proof.
  intros Ht. eapply succeeds_mono; [apply term_putc_ok, Ht|]. intros t' (? & _ & ?). by eapply output_term_ok.
Qed.

Lemma put_lines_ok ls : forall t, term_ok t -> succeeds (put_lines ls t) term_ok.
Proof.
  induction ls as [|s ls IH]; intros t Ht; [by apply succeeds_ret|].
  simpl. eapply succeeds_bind; [by apply term_puts_keeps|]. apply IH.
Qed.

Lemma reset_screen_ok t : term_ok t -> term_ok (term_reset_screen t).
Proof.
  intros ([Hv Hx Hy] & He & Hh). split; [|done].
  split; [apply length_replicate|simpl; lia..].
Qed.

Lemma history_lines_ok n : forall i t, term_ok t -> 0 <= i -> i + Z.of_nat n < 10 ^ 7 ->
  succeeds (history_lines n i t) term_ok.
Proof.
  induction n as [|n IH]; intros i t Ht Hi Hn; [by apply succeeds_ret|]. cbn [history_lines].
  destruct Ht as (Hs & He & l & Hh). rewrite (hist_get_ok _ _ l Hh). cbn [mbind outcome_bind].
  assert (term_ok t) as Ht by (split_and!; try done; by exists l).
  match goal with |- context [match ?o with Some _ => _ | None => _ end] => destruct o as [entry|] end; [|apply IH; done || lia].
  clear Hs He l Hh.
  eapply succeeds_bind; [by apply term_puts_keeps|]. clear t Ht. intros t Ht.
  rewrite itoa_into_small by lia. cbn [mbind outcome_bind].
  do 4 (eapply succeeds_bind; [by apply term_puts_keeps|]; clear t Ht; intros t Ht). apply IH; done || lia.
Qed.

Lemma print_history_ok t : term_ok t -> succeeds (term_print_history t) term_ok.
Proof. intros. unfold term_print_history. case_match; [by apply term_puts_keeps|].
  destruct (proj2 (proj2 H)) as (l & [_ Hmax Hcount _ _ _ _]). apply history_lines_ok; [done|lia|]. rewrite Hcount. lia.
Qed.

(** An empty line and a prompt: from any state with a sound screen, history
    and buffer length. *)
Lemma end_line_ok t : term_ok t -> succeeds (end_line t) (fun t' => term_ok t' /\ zipper (edit t') = ([], []) /\
  hist t' = hist t).
Proof.
  intros (Hs & He & Hh). unfold end_line. rewrite blit_one by (rewrite (eo_buf _ He); simpl; lia).
  cbn [mbind outcome_bind]. set (t1 := set_edit t _).
  assert (screen_ok t1) by (destruct Hs; by split). unfold print_prompt.
  eapply succeeds_bind; [by apply term_puts_ok|]. intros t2 (Hs2 & _ & [E1 E2 E3 E4 E5 E6]).
  apply succeeds_ret. pose proof Hs2 as [_ Hx Hy]. split; [|split; [|exact E1]].
  - split; [by destruct Hs2|]. split; [|by simpl; rewrite E1].
    split; simpl; rewrite ?E2, ?E3, ?E4; simpl; try lia.
    + rewrite length_insert. apply (eo_buf _ He).
    + constructor.
    + apply byte_at_insert_eq. rewrite (eo_buf _ He). lia.
  - unfold zipper, line_of. simpl. by rewrite E3, E4.
Qed.

Section dispatch.
Context {W : Type} (E : fault -> Prop) (J : W -> Prop).
Variable cmd_dispatch : list Z -> option (list Z) -> term * W -> outcome (bool * (term * W)).
(** The terminal is sound, and so is the rest of the system. *)
Definition shell_ok (st : term * W) : Prop := term_ok st.1 /\ J st.2.
Hypothesis dispatch_ok : forall cmd args st, shell_ok st ->
  goes E (cmd_dispatch cmd args st) (fun r => shell_ok r.2).

(** Output on the way to [m]. *)
Lemma then_goes {B} (m : outcome term) (f : term -> outcome B) Q :
  succeeds m term_ok -> (forall t, term_ok t -> goes E (f t) Q) -> goes E (m ≫= f) Q.
Proof. intros Hm Hf. eapply goes_bind; [by apply succeeds_goes|done]. Qed.

Lemma run_command_ok cmd args st : shell_ok st -> goes E (run_command cmd_dispatch cmd args st) shell_ok.
Proof.
  destruct st as [t w]. intros [Ht Hw]. unfold run_command. case_match.
  { apply then_goes; [by apply put_lines_ok|]. by intros t' ?. }
  case_match; [by split; [apply reset_screen_ok|]|].
  case_match; [apply then_goes; [by apply print_history_ok|by intros t' ?]|].
  eapply goes_bind; [by apply dispatch_ok|]. intros [[|] [t' w']] [Ht' Hw']; [done|]. cbn in Ht', Hw'.
  do 3 (apply then_goes; [by apply term_puts_keeps|]; intros ? ?). done.
Qed.

Lemma enter_key_ok st : shell_ok st ->
  goes E (enter_key cmd_dispatch st) (fun st => shell_ok st /\ zipper (edit st.1) = ([], [])).
Proof.
  destruct st as [t w]. intros [(Hs & He & l & Hh) Hw]. cbn [fst snd] in *. unfold enter_key. pose proof (eo_buf _ He).
  pose proof (eo_len _ He). pose proof (eo_max _ He). pose proof (eo_nul _ He) as Hnul.
  assert (blit (cmdbuf (edit t)) (cmdlen (edit t)) [0] = Ok (cmdbuf (edit t))) as ->.
  { rewrite blit_one by lia. f_equal. apply list_insert_id.
    destruct (lookup_lt_is_Some_2 (cmdbuf (edit t)) (Z.to_nat (cmdlen (edit t)))) as [x Hx]; [lia|].
    by rewrite Hx, <- (byte_at_lookup _ _ _ Hx), Hnul. }
  cbn [mbind outcome_bind].
  assert (set_line (edit t) (cmdbuf (edit t)) (cmdlen (edit t)) (cursor_pos (edit t)) = edit t) as -> by by destruct (edit t).
  apply then_goes; [apply term_putc_keeps; destruct Hs; split_and!; try done; by exists l|].
  intros t1 (Hs1 & He1 & l1 & Hh1). set (t2 := set_hist t1 _).
  assert (history_ok (hist t2) l1) as Hh2 by (apply set_nav_ok; [done|lia]).
  assert (term_ok t2) as Ht2 by (split_and!; [by destruct Hs1|done|by exists l1]).
  eapply (goes_bind _ _ _ shell_ok).
  - rewrite Z.gtb_ltb. destruct (Z.ltb_spec 0 (cmdlen (edit t))) as [Hpos|]; [|done].
    eapply (goes_bind _ _ _ (fun h => exists l', history_ok h l')).
    { apply succeeds_goes. eapply succeeds_mono; [apply (hist_add_ok _ _ l1); [done|]|].
      - pose proof (eo_text _ He) as Hnf. unfold hd0. destruct (cmdbuf (edit t)) as [|c b]; [simpl in *; lia|].
        destruct (Z.to_nat (cmdlen (edit t))) eqn:En; [lia|]. simpl in Hnf. by apply Forall_cons in Hnf as [? _].
      - intros h' [Hok Hnav']. eexists. replace h' with (set_nav (set_nav h' 0) 0) by (destruct h'; unfold set_nav; simpl in *; by rewrite Hnav').
        apply set_nav_ok; [done|lia]. }
    intros h' (l' & Hh'). destruct (parse_line _) as [cmd args]. apply run_command_ok.
    split; [|done]. split; [by destruct Hs1|]. split; [done|]. by exists l'.
  - intros [t3 w3] [Ht3 Hw3]. eapply goes_bind; [by apply succeeds_goes, end_line_ok|]. by intros t4 (? & ? & _).
Qed.

Lemma edit_key_ok key t : term_ok t -> succeeds (edit_key key t) term_ok.
Proof.
  intros (Hs & He & l & Hh). destruct (decide (key = KEY_UP)) as [->|Hup]; [|destruct (decide (key = KEY_DOWN)) as [->|Hdown]].
  - change (edit_key KEY_UP t) with (history_up t). pose proof (ho_nav _ _ Hh) as Hn. pose proof (ho_count _ _ Hh) as Hc.
    destruct (decide (g_nav_pos (hist t) < g_hist_count (hist t))) as [Hlt|Hge].
    + destruct (lookup_lt_is_Some_2 l (Z.to_nat (nav t))) as [x Hx]; [unfold nav; lia|].
      eapply succeeds_mono; [by eapply history_up_ok|]. intros t' (? & ? & _ & _ & Hhist).
      split; [done|]. split; [done|]. exists l. rewrite Hhist. apply set_nav_ok; [|unfold nav; lia].
      case_match; [|done]. apply set_pending_ok; [done|]. by apply line_entry.
    + unfold history_up. rewrite slot_fits. cbn [mbind outcome_bind]. set (h := if g_nav_pos (hist t) =? 0 then _ else hist t).
      assert (g_nav_pos h = g_nav_pos (hist t) /\ g_hist_count h = g_hist_count (hist t)) as [-> ->]
        by (unfold h; by case_match).
      rewrite (proj2 (Z.ltb_ge _ _)) by lia. apply succeeds_ret. split; [by destruct Hs|]. split; [done|].
      exists l. cbn [set_hist hist]. unfold h. case_match; [|done]. apply set_pending_ok; [done|].
      apply (slot_entry (cmdbuf (edit t))).
  - change (edit_key KEY_DOWN t) with (history_down t). pose proof (ho_nav _ _ Hh) as Hn. pose proof (ho_count _ _ Hh) as Hc.
    destruct (Z_lt_le_dec (nav t) 1) as [Hlt|Hge].
    + unfold nav in Hlt. unfold history_down. rewrite Z.gtb_ltb. rewrite (proj2 (Z.ltb_ge _ _)) by lia.
      rewrite (proj2 (Z.eqb_neq _ _)) by lia. apply succeeds_ret. split_and!; try done. by exists l.
    + assert (exists x, entry_ok x /\ if nav t =? 1 then g_pending (hist t) = pad x else l !! Z.to_nat (nav t - 2) = Some x)
        as (x & Hok & Hx).
      { destruct (Z.eqb_spec (nav t) 1); [apply (ho_pending _ _ Hh)|]. unfold nav in *.
        destruct (lookup_lt_is_Some_2 l (Z.to_nat (g_nav_pos (hist t) - 2))) as [x Hx]; [lia|]. exists x.
        split; [|done]. by destruct (ho_entry _ _ Hh _ _ Hx). }
      eapply succeeds_mono; [by eapply history_down_ok|]. intros t' (? & ? & _ & _ & Hhist).
      split; [done|]. split; [done|]. exists l. rewrite Hhist. apply set_nav_ok; [done|]. unfold nav in *. lia.
  - eapply succeeds_mono; [by apply edit_key_zip|]. intros t' [[-> _]|(? & ? & _ & Hhist & _)].
    + split_and!; try done. by exists l.
    + split_and!; try done. exists l. by rewrite Hhist.
Qed.

Lemma on_key_ok key st : shell_ok st -> goes E (on_key cmd_dispatch key st) shell_ok.
Proof.
  intros Hst. unfold on_key. case_match.
  - eapply goes_mono; [by apply enter_key_ok|]. by intros st' [? _].
  - destruct Hst. apply then_goes; [by apply edit_key_ok|]. by intros t' ?.
Qed.

(** The keys typed at the prompt, in order. *)
Fixpoint session (ks : list Z) (st : term * W) : outcome (term * W) :=
  match ks with [] => Ok st | k :: ks => st ← on_key cmd_dispatch k st; session ks st end.

Lemma session_ok ks : forall st, shell_ok st -> goes E (session ks st) shell_ok.
Proof.
  induction ks as [|k ks IH]; intros st Hst; [done|]. cbn [session].
  eapply goes_bind; [by apply on_key_ok|]. intros st' ?. by apply IH.
Qed.
End dispatch.

Lemma print_prompt_ok t : term_ok t -> succeeds (print_prompt t) term_ok.
Proof.
  intros Ht. unfold print_prompt. eapply succeeds_bind; [by apply term_puts_ok, Ht|].
  intros t1 (Hs1 & _ & Ho). apply succeeds_ret.
  destruct (output_term_ok t t1 Ht Hs1 Ho) as (_ & [Hb Hl Hm Htx Hn Hr Hc] & Hh).
  pose proof Hs1 as [? ? ?]. split; [by destruct Hs1|]. split; [by split|done].
Qed.

Lemma clear_line_ok t : term_ok t ->
  succeeds (b ← blit (cmdbuf (edit t)) 0 [0]; Ok (set_edit t (set_line (edit t) b 0 0))) term_ok.
Proof.
  intros (Hs & He & Hh). rewrite blit_one by (rewrite (eo_buf _ He); simpl; lia). apply succeeds_ret.
  split; [by destruct Hs|]. split; [|done]. destruct He as [Hb Hl Hm Htx Hn Hr Hc].
  split; simpl; try lia; [by rewrite length_insert|constructor|apply byte_at_insert_eq; lia].
Qed.

Lemma terminal_start_ok v : vga_ok v -> succeeds (terminal_start (term_boot v)) term_ok.
Proof.
  intros Hv. unfold terminal_start.
  assert (term_ok (term_boot v)) as H0.
  { split; [split; [exact Hv|simpl; lia..]|]. split; [|exists []; apply history_boot_ok].
    split; simpl; try lia; try done; constructor. }
  apply reset_screen_ok in H0. eapply succeeds_bind; [by apply term_puts_keeps|]. intros t1 H1.
  eapply succeeds_bind; [by apply term_puts_keeps|]. intros t2 H2.
  eapply succeeds_bind; [by apply print_prompt_ok|]. intros t3 H3. by apply clear_line_ok.
Qed.

(** Adds the lines in order. *)
Fixpoint hist_adds (xs : list (list Z)) (h : history) : outcome history :=
  match xs with [] => Ok h | x :: xs => h ← hist_add x h; hist_adds xs h end.

(** The last [n] lines, the newest first, each cut to 255 characters. *)
Definition last_lines (n : nat) (xs : list (list Z)) : list (list Z) :=
  take n (map (fun x => take 255 (buf_text x)) (rev xs)).

Lemma hist_adds_ok xs : forall h l, history_ok h l -> g_nav_pos h = 0 -> Forall (fun x => hd0 x <> 0) xs ->
  succeeds (hist_adds xs h) (fun h' =>
    history_ok h' (take 50 (map (fun x => take 255 (buf_text x)) (rev xs) ++ l)) /\ g_nav_pos h' = 0).
Proof.
  induction xs as [|x xs IH]; intros h l Hh Hn Hx.
  { apply succeeds_ret. simpl. by rewrite take_ge by apply (ho_max _ _ Hh). }
  apply Forall_cons in Hx as [Hx Hxs]. cbn [hist_adds].
  eapply succeeds_bind; [by apply hist_add_ok|]. intros h1 [H1 Hn1]. rewrite Hn in Hn1.
  assert (set_nav h1 0 = h1) as E by (destruct h1; unfold set_nav; simpl in *; by rewrite Hn1). rewrite E in H1.
  eapply succeeds_mono; [by apply (IH h1)|]. cbn beta. intros h' [H2 ?]. split; [|done].
  cbn [rev]. rewrite map_app, <- app_assoc. cbn [map app].
  rewrite !take_app. set (m := map _ (rev xs)). rewrite !take_app in H2. fold m in H2.
  rewrite take_take, Nat.min_l in H2 by lia. exact H2.
Qed.

(** * Properties *)

(** The shell never leaves its buffers: from boot, for every sequence of
    keys (editing, history, Enter, any other code), with any commands that
    themselves leave the terminal's globals sound, [terminal_run] takes every
    key without an access outside the screen, the line buffer or the history,
    and the line stays a NUL-terminated text of at most 255 characters with
    the cursor in it. *)
Theorem terminal_session_safe {W} (cmd_dispatch : list Z -> option (list Z) -> term * W -> outcome (bool * (term * W)))
    v (w : W) ks :
  (forall cmd args t w, term_ok t -> succeeds (cmd_dispatch cmd args (t, w)) (fun r => term_ok r.2.1)) ->
  vga_ok v ->
  succeeds (terminal_start (term_boot v)) (fun t =>
    succeeds (session cmd_dispatch ks (t, w)) (fun st => term_ok st.1)).
Proof.
  intros Hd Hv. eapply succeeds_mono; [by apply terminal_start_ok|]. intros t Ht.
  eapply succeeds_mono; [apply goes_never, (session_ok _ (fun _ => True)); [|by split]|by intros st []].
  intros cmd args [t' w'] [Ht' _]. apply succeeds_goes. eapply succeeds_mono; [by apply Hd|done].
Qed.

Lemma terminal_session_safe_witness :
  succeeds (terminal_start (term_boot (Vga (replicate 2000 0) 0 0))) (fun t =>
    succeeds (session (fun _ _ (st : term * unit) => Ok (false, st)) (map ch ["h"; "i"]%char ++ [KEY_ENTER; KEY_UP]) (t, tt))
      (fun st => term_ok st.1)).
Proof.
  apply (terminal_session_safe (fun _ _ (st : term * unit) => Ok (false, st)) (Vga (replicate 2000 0) 0 0) tt).
  - intros cmd args t w Ht. by apply succeeds_ret.
  - reflexivity.
Defined.

(** C14: The line editor is a cursor in a text: for every sequence of editing
    keys (all but Enter, Up and Down), the pair of texts before and after the
    cursor changes as each key says (a character goes in before the cursor
    while the line has fewer than 255, Backspace and Delete remove on their
    side, Left, Right, Home and End move, other keys do nothing), the history
    is untouched, and a screen line that shows the text shows the new one. *)
Theorem line_editor_correct ks t :
  term_ok t -> Forall (fun k => k <> KEY_UP /\ k <> KEY_DOWN) ks ->
  succeeds (keys ks t) (fun t' =>
    zipper (edit t') = foldl (fun z k => zip_key k z) (zipper (edit t)) ks /\ hist t' = hist t /\
    editor_ok (edit t') /\ (shown t -> shown t')).
Proof.
  intros Ht Hks. revert t Ht. induction Hks as [|k ks [Hup Hdown] Hks IH]; intros t Ht; [apply succeeds_ret; split_and!; done || apply Ht|].
  cbn [keys foldl]. eapply succeeds_bind.
  { apply edit_key_zip; [apply Ht|apply Ht|done|done]. }
  intros t1 [[-> E]|(Hs1 & He1 & Hz1 & Hh1 & _ & _ & Hsh1)].
  - rewrite E. by apply IH.
  - destruct Ht as (_ & _ & l & Hh). eapply succeeds_mono; [apply IH|].
    + split_and!; try done. exists l. by rewrite Hh1.
    + intros t2 (E2 & Hh2 & He2 & Hsh2). rewrite E2, Hz1. split_and!; try done; [congruence|auto].
Qed.

Lemma demo_term_ok : term_ok (term_boot (Vga (replicate 2000 0) 0 0)).
Proof.
  split; [split; [reflexivity|simpl; lia..]|]. split; [|exists []; apply history_boot_ok].
  split; simpl; try lia; try done; constructor.
Qed.

Lemma line_editor_correct_witness :
  succeeds (keys [ch "a"; ch "c"; KEY_LEFT; ch "b"; KEY_END; KEY_BACKSPACE] (term_boot (Vga (replicate 2000 0) 0 0)))
    (fun t' => zipper (edit t') = (bs "ab", []) /\ hist t' = hist (term_boot (Vga (replicate 2000 0) 0 0)) /\
      editor_ok (edit t') /\ (shown (term_boot (Vga (replicate 2000 0) 0 0)) -> shown t')).
Proof.
  apply (line_editor_correct [ch "a"; ch "c"; KEY_LEFT; ch "b"; KEY_END; KEY_BACKSPACE]
    (term_boot (Vga (replicate 2000 0) 0 0))).
  - exact demo_term_ok.
  - repeat constructor; discriminate.
Defined.

(** C40: Up and Down walk through the last 50 lines: after any non-empty lines
    have been entered, [k] times Up at the edited line (at most 50, at most
    the number of lines) shows the [k]th line back, cut to 255 characters,
    with the cursor at its end; [k] times Down from there shows the edited
    line again, its cursor at the end. *)
Theorem history_navigation_correct xs h t k :
  term_ok t -> hist_adds xs (hist (term_boot (Vga [] 0 0))) = Ok h -> hist t = h ->
  Forall (fun x => hd0 x <> 0) xs -> (1 <= k <= length (last_lines 50 xs))%nat ->
  succeeds (keys (replicate k KEY_UP) t) (fun t1 =>
    (exists x, last_lines 50 xs !! (k - 1)%nat = Some x /\ zipper (edit t1) = (x, [])) /\ shown t1 /\
    succeeds (keys (replicate k KEY_DOWN) t1) (fun t2 =>
      zipper (edit t2) = (line_of (edit t), []) /\ shown t2 /\ nav t2 = 0)).
Proof.
  intros (Hs & He & _) Hadds <- Hne Hk.
  destruct (hist_adds_ok xs _ [] history_boot_ok eq_refl Hne) as (h' & E & Hok & Hnav).
  rewrite Hadds in E. injection E as <-. rewrite app_nil_r in Hok. fold (last_lines 50 xs) in Hok.
  eapply succeeds_mono; [by apply ups_ok|]. intros t1 (Hs1 & He1 & Hsh1 & Hx & Hh1). split; [done|]. split; [done|].
  pose proof (line_entry _ He) as Hentry.
  eapply succeeds_mono; [apply (downs_ok (last_lines 50 xs) (line_of (edit t)) k t1); try done|].
  - rewrite Hh1. apply set_nav_ok; [|lia]. by apply set_pending_ok.
  - unfold nav. by rewrite Hh1.
  - by rewrite Hh1.
  - intros t2 (_ & _ & ? & ? & Hh2). split_and!; [done|done|]. unfold nav. by rewrite Hh2.
Qed.

(** The terminal with two lines in its history. *)
Definition demo_history (v : vga) : outcome term :=
  h ← hist_adds [bs "ls"; bs "pwd"] (hist (term_boot v)); Ok (set_hist (term_boot v) h).

Lemma history_navigation_correct_witness :
  exists h t,
  hist_adds [bs "ls"; bs "pwd"] (hist (term_boot (Vga [] 0 0))) = Ok h /\ hist t = h /\
  succeeds (keys (replicate 2 KEY_UP) t) (fun t1 =>
    (exists x, last_lines 50 [bs "ls"; bs "pwd"] !! 1%nat = Some x /\ zipper (edit t1) = (x, [])) /\ shown t1 /\
    succeeds (keys (replicate 2 KEY_DOWN) t1) (fun t2 =>
      zipper (edit t2) = (line_of (edit t), []) /\ shown t2 /\ nav t2 = 0)).
Proof.
  destruct (hist_adds_ok [bs "ls"; bs "pwd"] _ [] history_boot_ok eq_refl) as (h & E & Hok & _);
    [repeat constructor; discriminate|].
  exists h, (set_hist (term_boot (Vga (replicate 2000 0) 0 0)) h). split; [exact E|]. split; [reflexivity|].
  apply (history_navigation_correct [bs "ls"; bs "pwd"] h (set_hist (term_boot (Vga (replicate 2000 0) 0 0)) h) 2).
  - destruct demo_term_ok as ([H1 H2 H3] & H4 & _). split; [split; [exact H1|exact H2|exact H3]|].
    split; [exact H4|]. eexists. exact Hok.
  - exact E.
  - reflexivity.
  - repeat constructor; discriminate.
  - vm_compute. lia.
Defined.

(** A newline on the last row scrolls all rows but the last: rows 1 to 23
    move up, row 23 becomes blank, and row 24, the line just written, stays
    where it is under the cursor (the scroll is called with the last row's
    number for an argument that [vga_scroll_up] treats as one past the last
    row), so the next line is written over it. *)
Theorem scroll_keeps_last_row t :
  screen_ok t -> cursor_y t = 24 ->
  succeeds (term_putc 10 7 t) (fun t' =>
    cursor_y t' = 24 /\ cursor_x t' = 0 /\
    (forall r, (r < 23)%nat -> vga_row (screen t') r = vga_row (screen t) (S r)) /\
    vga_row (screen t') 23 = replicate 80 (vga_entry (ch " ") 7) /\
    vga_row (screen t') 24 = vga_row (screen t) 24).
Proof.
  intros [Hv _ _] Hy. unfold term_putc. change (10 =? 10) with true. cbn [mbind outcome_bind].
  rewrite Hy. change (24 + 1 >=? VGA_HEIGHT) with true. cbn iota.
  destruct (vga_scroll_ok 7 (screen t) Hv) as (v & E & _). rewrite E. cbn [mbind outcome_bind].
  change (VGA_HEIGHT - 1) with 24 in *. destruct (vga_scroll_up_rows 7 _ _ Hv E) as (_ & Hrows & H23 & H24).
  apply succeeds_ret. by split_and!.
Qed.

Lemma scroll_keeps_last_row_witness :
  let t := Term (Vga (replicate 1920 32 ++ replicate 80 65) 0 0) 5 24
    (hist (term_boot (Vga [] 0 0))) (edit (term_boot (Vga [] 0 0))) in
  succeeds (term_putc 10 7 t) (fun t' =>
    cursor_y t' = 24 /\ cursor_x t' = 0 /\
    (forall r, (r < 23)%nat -> vga_row (screen t') r = vga_row (screen t) (S r)) /\
    vga_row (screen t') 23 = replicate 80 (vga_entry (ch " ") 7) /\
    vga_row (screen t') 24 = vga_row (screen t) 24).
Proof.
  intros t. apply (scroll_keeps_last_row t).
  - split; [reflexivity|simpl; lia..].
  - reflexivity.
Defined.
