(* ===== verification/Console.v ===== *)
(** Console programs: the monad of the code that prints through [term_puts]
    and [term_putc] and reports failure by returning false.

    A run gives the bytes it printed and a result, [None] when the function
    returned false (or NULL).  The printed bytes are not lost by a failure,
    and a caller may test for it and go on. *)
From Stdlib Require Import ZArith Lia Ascii String.
From stdpp Require Import base tactics option numbers list.
From S2P Require Import Prelude CString.
#[local] Open Scope Z_scope.

Definition prog (A : Type) : Type := outcome (list Z * option A).

#[export] Instance prog_ret : MRet prog := fun A a => Ok ([], Some a).
#[export] Instance prog_bind : MBind prog := fun A B f m =>
  match m with
  | Ok (o, Some a) => match f a with Ok (o', r) => Ok (o ++ o', r) | Stuck e => Stuck e end
  | Ok (o, None) => Ok (o, None)
  | Stuck e => Stuck e
  end.

(** [term_puts(s)] and the bytes of a loop of [term_putc]. *)
Definition say (s : list Z) : prog unit := Ok (s, Some tt).
(** [return false]. *)
Definition ko {A} : prog A := Ok ([], None).
Definition fail_if (b : bool) : prog unit := if b then ko else mret tt.
Definition lift {A} (m : outcome A) : prog A :=
  match m with Ok a => Ok ([], Some a) | Stuck e => Stuck e end.
Definition of_opt {A} (o : option A) : prog A := Ok ([], o).
(** [term_puts(s); return false;]. *)
Definition die {A} (s : list Z) : prog A := Ok (s, None).
(** The result of a call the caller tests. *)
Definition attempt {A} (m : prog A) : prog (option A) :=
  match m with Ok (o, r) => Ok (o, Some r) | Stuck e => Stuck e end.
(** [if (!m) h]. *)
Definition or_else {A} (m h : prog A) : prog A :=
  r ← attempt m; match r with Some a => mret a | None => h end.

(** A C loop whose turns print and may fail. *)
Fixpoint ploop {St R} (fuel : nat) (body : St -> prog (St + R)) (s : St) : prog R :=
  match fuel with
  | O => Stuck NoFuel
  | S n => x ← body s; match x with inl s' => ploop n body s' | inr r => mret r end
  end.

(** [args && *args]: the argument string, unless it is NULL or empty. *)
Definition nonempty (args : option (list Z)) : option (list Z) :=
  match args with Some a => if hd0 a =? 0 then None else Some a | None => None end.

(** * Laws *)

Lemma prog_bind_ret {A B} (a : A) (f : A -> prog B) : (mret a : prog A) ≫= f = f a.
Proof. unfold mbind, prog_bind, mret, prog_ret. destruct (f a) as [[o r]|e]; done. Qed.

Lemma prog_bind_ok {A B} (o : list Z) (a : A) (f : A -> prog B) o' r :
  f a = Ok (o', r) -> (Ok (o, Some a) : prog A) ≫= f = Ok (o ++ o', r).
Proof. unfold mbind, prog_bind. by intros ->. Qed.

Lemma prog_bind_lift {A B} (m : outcome A) (f : A -> prog B) a : m = Ok a -> lift m ≫= f = f a.
Proof. intros ->. apply (prog_bind_ret a f). Qed.

Lemma prog_bind_assoc {A B C} (m : prog A) (f : A -> prog B) (g : B -> prog C) :
  (m ≫= f) ≫= g = m ≫= (fun a => f a ≫= g).
Proof.
  unfold mbind, prog_bind. destruct m as [[o [a|]]|e]; [|done|done].
  destruct (f a) as [[o' [b|]]|e]; [|done|done].
  destruct (g b) as [[o'' r]|e]; [|done]. by rewrite (assoc_L app).
Qed.

Lemma fail_if_false {B} b (f : unit -> prog B) : b = false -> fail_if b ≫= f = f tt.
Proof. intros ->. apply (prog_bind_ret tt f). Qed.

Lemma fail_if_true {B} b (f : unit -> prog B) : b = true -> fail_if b ≫= f = ko.
Proof. by intros ->. Qed.

(** One turn of a loop that goes on. *)
Lemma ploop_turn {St R} n (body : St -> prog (St + R)) s s' o o' r :
  body s = Ok (o, Some (inl s')) -> ploop n body s' = Ok (o', r) ->
  ploop (S n) body s = Ok (o ++ o', r).
Proof. intros H1 H2. simpl. rewrite H1. by apply prog_bind_ok. Qed.

Lemma ploop_go {St R} n (body : St -> prog (St + R)) s s' :
  body s = mret (inl s') -> ploop (S n) body s = ploop n body s'.
Proof. intros H. simpl. by rewrite H, prog_bind_ret. Qed.

(** A turn that does not go on ends the loop. *)
Lemma ploop_end {St R} n (body : St -> prog (St + R)) s m :
  body s = (x ← m; mret (inr x)) -> ploop (S n) body s = m.
Proof.
  intros H. simpl. rewrite H, prog_bind_assoc.
  unfold mbind, prog_bind. destruct m as [[o [a|]]|e]; try done. simpl. by rewrite app_nil_r.
Qed.

(** * Safety

    [stays m P]: no access leaves its object, and a value satisfies [P]. *)

Definition stays {A} (m : prog A) (P : A -> Prop) : Prop :=
  match m with
  | Ok (_, Some a) => P a
  | Stuck OutOfBounds => False
  | _ => True
  end.

Create HintDb stays.

Lemma stays_ret {A} (a : A) (P : A -> Prop) : P a -> stays (mret a) P.
Proof. done. Qed.

Lemma stays_bind {A B} (m : prog A) (f : A -> prog B) P Q :
  stays m P -> (forall a, P a -> stays (f a) Q) -> stays (m ≫= f) Q.
Proof.
  unfold stays, mbind, prog_bind. destruct m as [[o [a|]]|[]]; try done.
  intros Ha Hf. specialize (Hf a Ha). by destruct (f a) as [[o' [b|]]|[]].
Qed.

Lemma stays_mono {A} (m : prog A) (P Q : A -> Prop) : stays m P -> (forall a, P a -> Q a) -> stays m Q.
Proof. unfold stays. destruct m as [[o [a|]]|[]]; auto. Qed.

Lemma stays_lift {A} (m : outcome A) (P : A -> Prop) : succeeds m P -> stays (lift m) P.
Proof. by intros (a & -> & Ha). Qed.

Lemma stays_ko {A} (P : A -> Prop) : stays ko P.
Proof. done. Qed.

Lemma stays_die {A} s (P : A -> Prop) : stays (die s) P.
Proof. done. Qed.

Lemma stays_attempt {A} (m : prog A) P :
  stays m P -> stays (attempt m) (fun r => match r with Some a => P a | None => True end).
Proof. unfold stays, attempt. by destruct m as [[o [a|]]|[]]. Qed.

Lemma stays_or_else {A} (m h : prog A) P : stays m P -> stays h P -> stays (or_else m h) P.
Proof.
  intros Hm Hh. unfold or_else. eapply stays_bind; [by apply stays_attempt|].
  by intros [a|].
Qed.

Lemma stays_of_opt {A} (o : option A) (P : A -> Prop) : (forall a, o = Some a -> P a) -> stays (of_opt o) P.
Proof. intros H. destruct o; simpl; auto. Qed.

Lemma stays_not_oob {A} (m : prog A) P : stays m P -> m <> Stuck OutOfBounds.
Proof. unfold stays. by intros H ->. Qed.

Lemma stays_fail_if b : stays (fail_if b) (fun _ => b = false).
Proof. by destruct b. Qed.

Lemma stays_say s : stays (say s) (fun _ => True).
Proof. done. Qed.

Lemma stays_ploop {St R} (I : St -> Prop) (P : R -> Prop) (body : St -> prog (St + R)) fuel s :
  (forall s, I s -> stays (body s) (fun x => match x with inl s' => I s' | inr r => P r end)) ->
  I s -> stays (ploop fuel body s) P.
Proof.
  intros Hb. revert s. induction fuel as [|n IH]; intros s Hs; [done|]. simpl.
  eapply stays_bind; [by apply Hb|]. intros [s'|r] H; [by apply IH|done].
Qed.

#[export] Hint Resolve stays_ko stays_die stays_say stays_fail_if : stays.
