(* ===== verification/JavaClass.v ===== *)
(** Java class files, src/src/commands/java.c: the constant pool, the class
    file parser and the method descriptors.

    [jvm_parse_class] and the [cp_*] lookups are console programs ([prog]):
    they print their error messages and return false through [ko].  A pointer
    into the file is the list of bytes from it on.  [int] offsets wrap as the
    compiled code's do where an attribute length from the file is added to
    them ([i32]). *)
From Stdlib Require Import ZArith Lia Ascii String.
From stdpp Require Import base tactics option numbers list.
From S2P Require Import Prelude Buffer CString Console.
#[local] Open Scope Z_scope.

Definition JVM_CP_MAX : Z := 256.
Definition JVM_METHOD_MAX : Z := 64.
Definition JVM_STACK_MAX : Z := 256.
Definition JVM_LOCALS_MAX : Z := 64.
Definition JVM_CALL_DEPTH_MAX : Z := 12.

Definition JVM_REF_PRINTSTREAM : Z := 2130706433.
Definition JVM_REF_STRING_FLAG : Z := 1073741824.
Definition JVM_REF_OBJECT_FLAG : Z := 536870912.

Record jcp_entry_t := CpEntry { tag : Z; cp_a : Z; cp_b : Z }.

(** [code] is [None] for the null pointer of a method without a body. *)
Record jmethod_t := Method {
  access_flags : Z; name_index : Z; desc_index : Z; max_stack : Z; max_locals : Z;
  code : option (list Z); code_len : Z }.

(** The class; [methods] holds the [methods_count] entries in use. *)
Record jclass_t := Class_ {
  cbytes : list Z; csize : Z; minor : Z; major : Z; cp_count : Z; cp : list jcp_entry_t;
  this_class : Z; methods : list jmethod_t }.

(** * Numbers and byte strings *)

Definition rd_le16 (p : list Z) (i : Z) : outcome Z :=
  b0 ← read p i; b1 ← read p (i + 1); Ok (Z.lor b0 (Z.shiftl b1 8)).

Definition rd_le32 (p : list Z) (i : Z) : outcome Z :=
  b0 ← read p i; b1 ← read p (i + 1); b2 ← read p (i + 2); b3 ← read p (i + 3);
  Ok (Z.lor (Z.lor (Z.lor b0 (Z.shiftl b1 8)) (Z.shiftl b2 16)) (Z.shiftl b3 24)).

Definition rd_be16 (p : list Z) (i : Z) : outcome Z :=
  b0 ← read p i; b1 ← read p (i + 1); Ok (u16 (Z.lor (Z.shiftl b0 8) b1)).

Definition rd_be32 (p : list Z) (i : Z) : outcome Z :=
  b0 ← read p i; b1 ← read p (i + 1); b2 ← read p (i + 2); b3 ← read p (i + 3);
  Ok (Z.lor (Z.lor (Z.lor (Z.shiftl b0 24) (Z.shiftl b1 16)) (Z.shiftl b2 8)) b3).

Definition term_print_u32 (v base : Z) : prog unit := say (utoa_text v base).
Definition term_print_i32 (v : Z) : prog unit := say (itoa_text v 10).

(** [s] is the [len] bytes both functions get. *)
Definition term_print_bytes (s : list Z) : prog unit := say s.

Definition bytes_eq_lit (s lit : list Z) : bool :=
  (length s =? length lit)%nat && (memcmp s lit (length lit) =? 0).

Definition ends_with_bytes (s suffix : list Z) : bool :=
  if (length s <? length suffix)%nat then false
  else memcmp (drop (length s - length suffix) s) suffix (length suffix) =? 0.

(** * The constant pool *)

(** The entry [idx], which the callers check to be below [cp_count]. *)
Definition cp_entry (jc : jclass_t) (idx : Z) : prog jcp_entry_t :=
  fail_if ((idx =? 0) || (idx >=? cp_count jc));;
  lift (of_option OutOfBounds (cp jc !! Z.to_nat idx)).

Definition cp_utf8 (jc : jclass_t) (idx : Z) : prog (list Z) :=
  e ← cp_entry jc idx;
  fail_if (negb (tag e =? 1));;
  fail_if (i32 (i32 (cp_a e) + i32 (cp_b e)) >? csize jc);;
  lift (slice (cbytes jc) (cp_a e) (u16 (cp_b e))).

Definition cp_utf8_eq (jc : jclass_t) (idx : Z) (lit : list Z) : prog bool :=
  r ← attempt (cp_utf8 jc idx);
  mret (match r with Some s => bytes_eq_lit s lit | None => false end).

Definition cp_class_name (jc : jclass_t) (class_idx : Z) : prog (list Z) :=
  e ← cp_entry jc class_idx;
  fail_if (negb (tag e =? 7));;
  cp_utf8 jc (u16 (cp_a e)).

Definition cp_name_type (jc : jclass_t) (nt_idx : Z) : prog (list Z * list Z) :=
  e ← cp_entry jc nt_idx;
  fail_if (negb (tag e =? 12));;
  name ← cp_utf8 jc (u16 (cp_a e));
  desc ← cp_utf8 jc (u16 (cp_b e));
  mret (name, desc).

(** The class name, the member's name and its descriptor. *)
Definition cp_resolve_ref (jc : jclass_t) (ref_idx expect_tag : Z) : prog (list Z * list Z * list Z) :=
  e ← cp_entry jc ref_idx;
  fail_if (negb (tag e =? expect_tag));;
  cls ← cp_class_name jc (u16 (cp_a e));
  '(name, desc) ← cp_name_type jc (u16 (cp_b e));
  mret (cls, name, desc).

(** * The class file *)

(** The attributes of a member or of the class, [n] of them. *)
Fixpoint skip_attributes (n : nat) (data : list Z) (size off : Z) : prog Z :=
  match n with
  | O => mret off
  | S n =>
    fail_if (off + 6 >? size);;
    alen ← lift (rd_be32 data (off + 2));
    let off := off + 6 in
    let next := i32 (off + i32 alen) in
    fail_if (next >? size);;
    skip_attributes n data size next
  end.

Definition parse_member_info_skip (data : list Z) (size off : Z) : prog Z :=
  fail_if (off + 8 >? size);;
  attr_count ← lift (rd_be16 data (off + 6));
  skip_attributes (Z.to_nat attr_count) data size (off + 8).

Fixpoint skip_fields (n : nat) (data : list Z) (size off : Z) : prog Z :=
  match n with
  | O => mret off
  | S n => off ← parse_member_info_skip data size off; skip_fields n data size off
  end.

Definition set_cp (pool : list jcp_entry_t) (i : Z) (e : jcp_entry_t) : prog (list jcp_entry_t) :=
  if (0 <=? i) && (i <? Z.of_nat (length pool)) then mret (<[Z.to_nat i := e]> pool)
  else Stuck OutOfBounds.

(** The body of the [switch] on the tag of entry [i]: the new [i], [off] and
    pool. *)
Definition parse_entry (data : list Z) (size count t i off : Z) (pool : list jcp_entry_t) :
    prog (Z * Z * list jcp_entry_t) :=
  if t =? 1 then
    fail_if (off + 2 >? size);;
    len ← lift (rd_be16 data off);
    let off := off + 2 in
    fail_if (off + len >? size);;
    pool ← set_cp pool i (CpEntry t off len);
    mret (i, off + len, pool)
  else if (t =? 3) || (t =? 4) then
    fail_if (off + 4 >? size);;
    a ← lift (rd_be32 data off);
    pool ← set_cp pool i (CpEntry t a 0);
    mret (i, off + 4, pool)
  else if (t =? 5) || (t =? 6) then
    fail_if (off + 8 >? size);;
    pool ← set_cp pool i (CpEntry t 0 0);
    let i := i + 1 in
    pool ← (if i <? count then set_cp pool i (CpEntry 0 0 0) else mret pool);
    mret (i, off + 8, pool)
  else if (t =? 7) || (t =? 8) || (t =? 16) then
    fail_if (off + 2 >? size);;
    a ← lift (rd_be16 data off);
    pool ← set_cp pool i (CpEntry t a 0);
    mret (i, off + 2, pool)
  else if (t =? 9) || (t =? 10) || (t =? 11) || (t =? 12) || (t =? 18) then
    fail_if (off + 4 >? size);;
    a ← lift (rd_be16 data off);
    b ← lift (rd_be16 data (off + 2));
    pool ← set_cp pool i (CpEntry t a b);
    mret (i, off + 4, pool)
  else if t =? 15 then
    fail_if (off + 3 >? size);;
    a ← lift (read data off);
    b ← lift (rd_be16 data (off + 1));
    pool ← set_cp pool i (CpEntry t a b);
    mret (i, off + 3, pool)
  else die (bs "java: unsupported constant pool tag" ++ [10]).

(** The entries from [i] on; [n] turns at most, the pool having at most 256
    entries. *)
Fixpoint parse_pool (n : nat) (data : list Z) (size count i off : Z) (pool : list jcp_entry_t) :
    prog (Z * list jcp_entry_t) :=
  match n with
  | O => Stuck NoFuel
  | S n =>
    if i <? count then
      fail_if (off >=? size);;
      t ← lift (read data off);
      '(i, off, pool) ← parse_entry data size count t i (off + 1) pool;
      parse_pool n data size count (i + 1) off pool
    else mret (off, pool)
  end.

(** The body of an attribute named Code, at [attr_info]. *)
Definition parse_code (data : list Z) (size attr_info attr_len next : Z) (m : jmethod_t) : prog jmethod_t :=
  if (attr_len >=? 8) && (attr_info + 8 <=? size) then
    clen ← lift (rd_be32 data (attr_info + 4));
    if i32 (attr_info + 8 + i32 clen) <=? next then
      ms ← lift (rd_be16 data attr_info);
      ml ← lift (rd_be16 data (attr_info + 2));
      mret (Method (access_flags m) (name_index m) (desc_index m) ms ml
              (Some (from data (attr_info + 8))) clen)
    else mret m
  else mret m.

Fixpoint method_attributes (n : nat) (jc : jclass_t) (data : list Z) (size off : Z) (m : jmethod_t) :
    prog (Z * jmethod_t) :=
  match n with
  | O => mret (off, m)
  | S n =>
    fail_if (off + 6 >? size);;
    attr_name_idx ← lift (rd_be16 data off);
    attr_len ← lift (rd_be32 data (off + 2));
    let attr_info := off + 6 in
    let next := i32 (attr_info + i32 attr_len) in
    fail_if (next >? size);;
    is_code ← cp_utf8_eq jc attr_name_idx (bs "Code");
    m ← (if (is_code : bool) then parse_code data size attr_info attr_len next m else mret m);
    method_attributes n jc data size next m
  end.

Definition parse_method (jc : jclass_t) (data : list Z) (size off : Z) : prog (Z * jmethod_t) :=
  fail_if (off + 8 >? size);;
  flags ← lift (rd_be16 data off);
  name ← lift (rd_be16 data (off + 2));
  desc ← lift (rd_be16 data (off + 4));
  attr_count ← lift (rd_be16 data (off + 6));
  method_attributes (Z.to_nat attr_count) jc data size (off + 8) (Method flags name desc 0 0 None 0).

Fixpoint parse_methods (n : nat) (jc : jclass_t) (data : list Z) (size off : Z) (ms : list jmethod_t) :
    prog (Z * list jmethod_t) :=
  match n with
  | O => mret (off, ms)
  | S n =>
    '(off, m) ← parse_method jc data size off;
    parse_methods n jc data size off
      (if Z.of_nat (length ms) <? JVM_METHOD_MAX then ms ++ [m] else ms)
  end.

Definition set_methods (jc : jclass_t) (ms : list jmethod_t) : jclass_t :=
  Class_ (cbytes jc) (csize jc) (minor jc) (major jc) (cp_count jc) (cp jc) (this_class jc) ms.

(** What follows the constant pool. *)
Definition parse_members (data : list Z) (size minor major count off : Z) (pool : list jcp_entry_t) :
    prog jclass_t :=
  fail_if (off + 8 >? size);;
  this ← lift (rd_be16 data (off + 2));
  interfaces_count ← lift (rd_be16 data (off + 6));
  let off := off + 8 in
  fail_if (off + interfaces_count * 2 >? size);;
  let off := off + interfaces_count * 2 in
  fail_if (off + 2 >? size);;
  fields_count ← lift (rd_be16 data off);
  off ← skip_fields (Z.to_nat fields_count) data size (off + 2);
  fail_if (off + 2 >? size);;
  methods_decl ← lift (rd_be16 data off);
  let jc := Class_ data size minor major count pool this [] in
  '(off, ms) ← parse_methods (Z.to_nat methods_decl) jc data size (off + 2) [];
  fail_if (off + 2 >? size);;
  class_attrs ← lift (rd_be16 data off);
  skip_attributes (Z.to_nat class_attrs) data size (off + 2);;
  mret (set_methods jc ms).

Definition jvm_parse_class (data : list Z) (size : Z) : prog jclass_t :=
  fail_if (size <? 10);;
  magic ← lift (rd_be32 data 0);
  fail_if (negb (magic =? 3405691582));;
  minor ← lift (rd_be16 data 4);
  major ← lift (rd_be16 data 6);
  count ← lift (rd_be16 data 8);
  (if (count =? 0) || (count >? JVM_CP_MAX)
   then die (bs "java: class constant pool too large" ++ [10]) else mret tt);;
  '(off, pool) ← parse_pool (S (Z.to_nat JVM_CP_MAX)) data size count 1 10
    (replicate (Z.to_nat JVM_CP_MAX) (CpEntry 0 0 0));
  parse_members data size minor major count off pool.

(** * Finding methods and reading descriptors *)

(** The first element a (printing, failing) test accepts. *)
Fixpoint find_first {A} (p : A -> prog bool) (l : list A) : prog A :=
  match l with
  | [] => ko
  | x :: l => b ← p x; if (b : bool) then mret x else find_first p l
  end.

Definition is_static (m : jmethod_t) : bool := negb (Z.land (access_flags m) 8 =? 0).

Definition jvm_find_method (cls : jclass_t) (name desc : list Z) (require_static : bool) : prog jmethod_t :=
  find_first (fun m =>
    if require_static && negb (is_static m) then mret false
    else
      n ← cp_utf8_eq cls (name_index m) name;
      if negb n then mret false else cp_utf8_eq cls (desc_index m) desc) (methods cls).

Definition jvm_get_this_class_name (cls : jclass_t) : prog (list Z) := cp_class_name cls (this_class cls).

Definition jvm_class_name_eq (cls : jclass_t) (name : list Z) : prog bool :=
  r ← attempt (jvm_get_this_class_name cls);
  mret (match r with Some this => bytes_eq_lit this name | None => false end).

Definition jvm_find_method_bytes (cls : jclass_t) (name desc : list Z) (require_static : bool) : prog jmethod_t :=
  find_first (fun m =>
    if require_static && negb (is_static m) then mret false
    else
      r ← attempt (cp_utf8 cls (name_index m));
      match r with
      | None => mret false
      | Some cand_name =>
        r ← attempt (cp_utf8 cls (desc_index m));
        match r with
        | None => mret false
        | Some cand_desc => mret (bytes_eq_lit cand_name name && bytes_eq_lit cand_desc desc)
        end
      end) (methods cls).

(** [while (i < len && desc[i] == '[') i++], then the same up to [';']. *)
Fixpoint skip_brackets (l : list Z) : list Z :=
  match l with c :: l' => if c =? ch "[" then skip_brackets l' else l | [] => [] end.
Fixpoint skip_to_semicolon (l : list Z) : list Z :=
  match l with c :: l' => if c =? ch ";" then l else skip_to_semicolon l' | [] => [] end.

Definition is_base_type (c : Z) : bool := bool_decide (c ∈ bs "BCDFIJSZ").

(** The argument types from [l] on, [args] being counted already: the count
    and what follows the arguments ([None] for the returns of -1). *)
Fixpoint desc_types (n : nat) (l : list Z) (args : Z) : option (Z * list Z) :=
  match n with
  | O => None
  | S n =>
    match l with
    | [] => Some (args, [])
    | c :: _ =>
      if c =? ch ")" then Some (args, l)
      else
        match skip_brackets l with
        | [] => None
        | c :: l' =>
          if c =? ch "L" then
            match skip_to_semicolon l' with
            | [] => None
            | _ :: l'' => desc_types n l'' (args + 1)
            end
          else if is_base_type c then desc_types n l' (args + 1) else None
        end
    end
  end.

(** The number of arguments and the kind of the result; [None] for -1. *)
Definition jvm_desc_args (desc : list Z) : option (Z * Z) :=
  if (length desc <? 3)%nat || negb (hd0 desc =? ch "(") then None
  else
    match desc_types (S (length desc)) (tl0 desc) 0 with
    | Some (args, _ :: c :: _) =>
      Some (args, if c =? ch "V" then ch "V" else if (c =? ch "L") || (c =? ch "[") then ch "A" else ch "I")
    | _ => None
    end.
