(* ===== verification/JavaZip.v ===== *)
(** ZIP archives, src/src/commands/java.c: the walk over the local file
    headers, the search for an entry and the manifest.

    Offsets into the archive are C [int]s that the code adds header fields to;
    [data_off + (int)comp_size] wraps ([i32]). *)
From Stdlib Require Import ZArith Lia Ascii String.
From stdpp Require Import base tactics option numbers list.
From S2P Require Import Prelude Buffer CString Console JavaClass.
#[local] Open Scope Z_scope.

(** What [java_zip_next_entry] stores through its out pointers; [payload] is
    the archive from the payload on. *)
Record zip_entry := ZipEntry { zname : list Z; payload : list Z; payload_len : Z; zmethod : Z; next_off : Z }.

Definition java_zip_next_entry (data : list Z) (size off : Z) : prog zip_entry :=
  fail_if (off + 30 >? size);;
  sig ← lift (rd_le32 data off);
  fail_if (negb (sig =? 67324752));;
  flags ← lift (rd_le16 data (off + 6));
  method ← lift (rd_le16 data (off + 8));
  comp_size ← lift (rd_le32 data (off + 18));
  name_len ← lift (rd_le16 data (off + 26));
  extra_len ← lift (rd_le16 data (off + 28));
  let name_off := off + 30 in
  let data_off := name_off + name_len + extra_len in
  fail_if ((name_off + name_len >? size) || (data_off >? size) ||
           (i32 (data_off + i32 comp_size) >? size));;
  fail_if (negb (Z.land flags 8 =? 0));;
  name ← lift (slice data name_off name_len);
  mret (ZipEntry name (from data data_off) comp_size method (i32 (data_off + i32 comp_size))).

(** The walk over the entries from [off] until one satisfies [p]. *)
Definition zip_search (fuel : nat) (data : list Z) (size off : Z) (p : zip_entry -> bool) : prog zip_entry :=
  ploop fuel (fun off =>
    e ← java_zip_next_entry data size off;
    mret (if p e then inr e else inl (next_off e))) off.

Definition java_zip_find_entry (fuel : nat) (data : list Z) (size : Z) (target : list Z) : prog zip_entry :=
  zip_search fuel data size 0 (fun e => bytes_eq_lit (zname e) target).

(** The entry, and the name cut to the caller's buffer. *)
Definition java_zip_find_first_class (fuel : nat) (data : list Z) (size name_cap : Z) : prog (zip_entry * list Z) :=
  e ← zip_search fuel data size 0 (fun e => ends_with_bytes (zname e) (bs ".class"));
  mret (e, take (Z.to_nat (name_cap - 1)) (zname e)).

(** [while (i < lim && p(s[i])) i++]. *)
Fixpoint scan (n : nat) (s : list Z) (lim i : Z) (p : Z -> bool) : outcome Z :=
  match n with
  | O => Stuck NoFuel
  | S n =>
    if i <? lim then
      c ← read s i; if p c then scan n s lim (i + 1) p else Ok i
    else Ok i
  end.

Definition is_eol (c : Z) : bool := (c =? 10) || (c =? 13).

(** One turn of the loop over the lines of the manifest. *)
Definition manifest_line (s : list Z) (len out_cap i : Z) : prog (Z + list Z) :=
  let key := bs "Main-Class:" in
  let n := S (Z.to_nat (len - i)) in
  if i <? len then
    let start := i in
    end_ ← lift (scan n s len i (fun c => negb (is_eol c)));
    i ← lift (scan n s len end_ is_eol);
    if end_ - start <? Z.of_nat (length key) then mret (inl i)
    else
      k ← lift (slice s start (Z.of_nat (length key)));
      if negb (memcmp k key (length key) =? 0) then mret (inl i)
      else
        p ← lift (scan n s end_ (start + Z.of_nat (length key)) (fun c => (c =? ch " ") || (c =? 9)));
        let m := Z.max 0 (Z.min (end_ - p) (out_cap - 7)) in
        path ← lift (slice s p m);
        fail_if (m =? 0);;
        fail_if (m + 6 >=? out_cap);;
        mret (inr (map (fun c => if c =? ch "." then ch "/" else c) path ++ bs ".class"))
  else ko.

Definition java_manifest_main_class (s : list Z) (len out_cap : Z) : prog (list Z) :=
  fail_if (out_cap <? 8);;
  ploop (S (Z.to_nat len)) (manifest_line s (i32 len) out_cap) 0.

(** The entries listed from [off] on, [entries] of them already. *)
Definition list_entry (data : list Z) (size : Z) (st : Z * Z) : prog (Z * Z + Z) :=
  let '(off, entries) := st in
  r ← attempt (java_zip_next_entry data size off);
  match r with
  | None => mret (inr entries)
  | Some e =>
    say (bs "  - ");; term_print_bytes (zname e);;
    say (bs "  method=");; term_print_u32 (zmethod e) 10;;
    say (bs "  bytes=");; term_print_u32 (payload_len e) 10;;
    say [10];;
    mret (inl (next_off e, entries + 1))
  end.

Definition java_zip_list_entries (fuel : nat) (data : list Z) (size : Z) : prog unit :=
  entries ← ploop fuel (list_entry data size) (0, 0);
  if entries =? 0 then die (bs "jarinfo: no local file headers found" ++ [10])
  else
    say (bs "jarinfo: entries parsed=");; term_print_u32 (u32 entries) 10;; say [10].
