(* ===== verification/Jvm.v ===== *)
(** The bytecode interpreter of src/src/commands/java.c.

    A frame has the C arrays of [jvm_exec_method]: a stack of 256 cells with
    the index [sp], 64 locals, and the program counter.  Every access to them
    and to the code is checked, also where the code does not check.  A turn
    of the loop gives the next frame ([inl]) or the returned value ([inr],
    [None] for void); [ko] is [return false].

    Values are signed 32-bit; arithmetic wraps, and a division of the least
    integer by -1 is the CPU's division error ([Trap]).  [calls] bounds the
    nesting of [jvm_exec_method] and [fuel] the turns of each loop. *)
From Stdlib Require Import ZArith Lia Ascii String.
From stdpp Require Import base tactics option numbers list.
From S2P Require Import Prelude Buffer CString Console JavaClass JavaZip.
#[local] Open Scope Z_scope.

Record frame := Frame { stack : list Z; sp : Z; locals : list Z; pc : Z }.

Definition set_pc (f : frame) (n : Z) : frame := Frame (stack f) (sp f) (locals f) n.

(** [stack[sp++] = v] and [stack[--sp]]. *)
Definition push (v : Z) (f : frame) : prog frame :=
  s ← lift (blit (stack f) (sp f) [v]); mret (Frame s (sp f + 1) (locals f) (pc f)).
Definition pop (f : frame) : prog (Z * frame) :=
  v ← lift (read (stack f) (sp f - 1)); mret (v, Frame (stack f) (sp f - 1) (locals f) (pc f)).
Definition pop2 (f : frame) : prog (Z * Z * frame) :=
  '(b, f) ← pop f; '(a, f) ← pop f; mret (a, b, f).

Definition store_local (i v : Z) (f : frame) : prog frame :=
  l ← lift (blit (locals f) i [v]); mret (Frame (stack f) (sp f) l (pc f)).

(** [a / b] and [a % b]: [idiv] traps when the quotient does not fit. *)
Definition quot32 (a b : Z) : outcome Z :=
  if (a =? -2147483648) && (b =? -1) then Stuck Trap else Ok (Z.quot a b).
Definition rem32 (a b : Z) : outcome Z :=
  if (a =? -2147483648) && (b =? -1) then Stuck Trap else Ok (Z.rem a b).

(** The pops of [for (i = argc - 1; i >= 0; i--) argv[i] = stack[--sp]]. *)
Fixpoint pop_args (n : nat) (argv : list Z) (f : frame) : prog (list Z * frame) :=
  match n with
  | O => mret (argv, f)
  | S n => '(v, f) ← pop f; pop_args n (v :: argv) f
  end.

Definition jvm_print_string_ref (cls : jclass_t) (ref : Z) : prog unit :=
  if ref =? 0 then say (bs "null")
  else if Z.land ref JVM_REF_STRING_FLAG =? 0 then say (bs "<non-string-ref>")
  else
    r ← attempt (cp_utf8 cls (u16 (Z.land ref 65535)));
    match r with None => say (bs "<bad-string-ref>") | Some s => term_print_bytes s end.

Definition jvm_push_ldc (cls : jclass_t) (idx : Z) (f : frame) : prog frame :=
  fail_if ((idx =? 0) || (idx >=? cp_count cls) || (sp f >=? JVM_STACK_MAX));;
  e ← lift (of_option OutOfBounds (cp cls !! Z.to_nat idx));
  if tag e =? 3 then push (i32 (cp_a e)) f
  else if tag e =? 8 then push (i32 (Z.lor JVM_REF_STRING_FLAG (Z.land (cp_a e) 65535))) f
  else ko.

Definition jvm_load_class_from_jar (fuel : nat) (rt : option (list Z * Z)) (class_name : list Z) : prog jclass_t :=
  match rt with
  | None => ko
  | Some (jar_data, jar_size) =>
    fail_if (jar_size <=? 0);;
    fail_if (Z.of_nat (length class_name) =? 0);;
    fail_if (Z.of_nat (length class_name) + 7 >=? 160);;
    e ← java_zip_find_entry fuel jar_data jar_size (buf_text (class_name ++ bs ".class"));
    if negb (zmethod e =? 0) then
      die (bs "java: referenced class is compressed; need STORED entries" ++ [10])
    else jvm_parse_class (payload e) (i32 (payload_len e))
  end.

Section ops.
Variables (cls : jclass_t) (code : list Z) (code_len : Z).

Definition no_room (f : frame) : bool := sp f >=? JVM_STACK_MAX.

Definition op_const (v : Z) (f : frame) : prog frame := fail_if (no_room f);; push v f.

Definition op_bipush (f : frame) : prog frame :=
  fail_if ((pc f >=? code_len) || no_room f);;
  b ← lift (read code (pc f)); push (i8 b) (set_pc f (pc f + 1)).

Definition op_sipush (f : frame) : prog frame :=
  fail_if ((pc f + 2 >? code_len) || no_room f);;
  v ← lift (rd_be16 code (pc f)); push (i16 v) (set_pc f (pc f + 2)).

Definition op_ldc (f : frame) : prog frame :=
  fail_if (pc f >=? code_len);;
  idx ← lift (read code (pc f));
  or_else (jvm_push_ldc cls idx (set_pc f (pc f + 1)))
    (die (bs "java: unsupported ldc constant" ++ [10])).

Definition op_ldc_w (f : frame) : prog frame :=
  fail_if (pc f + 2 >? code_len);;
  idx ← lift (rd_be16 code (pc f));
  or_else (jvm_push_ldc cls idx (set_pc f (pc f + 2)))
    (die (bs "java: unsupported ldc_w constant" ++ [10])).

(** iload and aload, with an operand byte. *)
Definition op_load (f : frame) : prog frame :=
  fail_if ((pc f >=? code_len) || no_room f);;
  idx ← lift (read code (pc f));
  fail_if (idx >=? JVM_LOCALS_MAX);;
  v ← lift (read (locals f) idx); push v (set_pc f (pc f + 1)).

(** iload_n and aload_n. *)
Definition op_load_n (idx : Z) (f : frame) : prog frame :=
  fail_if (no_room f || (idx >=? JVM_LOCALS_MAX));;
  v ← lift (read (locals f) idx); push v f.

(** istore and astore, with an operand byte. *)
Definition op_store (f : frame) : prog frame :=
  fail_if ((pc f >=? code_len) || (sp f <? 1));;
  idx ← lift (read code (pc f));
  fail_if (idx >=? JVM_LOCALS_MAX);;
  '(v, f) ← pop (set_pc f (pc f + 1)); store_local idx v f.

(** istore_n and astore_n. *)
Definition op_store_n (idx : Z) (f : frame) : prog frame :=
  fail_if ((sp f <? 1) || (idx >=? JVM_LOCALS_MAX));;
  '(v, f) ← pop f; store_local idx v f.

Definition op_pop (f : frame) : prog frame := fail_if (sp f <? 1);; '(_, f) ← pop f; mret f.

Definition op_dup (f : frame) : prog frame :=
  fail_if ((sp f <? 1) || no_room f);;
  v ← lift (read (stack f) (sp f - 1)); push v f.

Definition op_dup_x1 (f : frame) : prog frame :=
  fail_if ((sp f <? 2) || no_room f);;
  v ← lift (read (stack f) (sp f - 1));
  s ← lift (blit (stack f) (sp f) [v]);
  w ← lift (read s (sp f - 2));
  s ← lift (blit s (sp f - 1) [w]);
  v ← lift (read s (sp f));
  s ← lift (blit s (sp f - 2) [v]);
  mret (Frame s (sp f + 1) (locals f) (pc f)).

Definition op_swap (f : frame) : prog frame :=
  fail_if (sp f <? 2);; '(a, b, f) ← pop2 f; f ← push b f; push a f.

(** iadd, isub, imul, idiv. *)
Definition op_arith (op : Z) (f : frame) : prog frame :=
  fail_if (sp f <? 2);;
  '(a, b, f) ← pop2 f;
  if op =? 96 then push (i32 (a + b)) f
  else if op =? 100 then push (i32 (a - b)) f
  else if op =? 104 then push (i32 (a * b)) f
  else if b =? 0 then die (bs "java: division by zero" ++ [10])
  else v ← lift (quot32 a b); push v f.

Definition op_irem (f : frame) : prog frame :=
  fail_if (sp f <? 2);;
  '(a, b, f) ← pop2 f;
  if b =? 0 then die (bs "java: modulo by zero" ++ [10]) else v ← lift (rem32 a b); push v f.

Definition op_ineg (f : frame) : prog frame :=
  fail_if (sp f <? 1);; '(v, f) ← pop f; push (i32 (- v)) f.

(** ishl, ishr, iushr, iand, ior, ixor. *)
Definition bit_op (op a b : Z) : Z :=
  if op =? 120 then i32 (Z.shiftl a (Z.land b 31))
  else if op =? 122 then Z.shiftr a (Z.land b 31)
  else if op =? 124 then i32 (Z.shiftr (u32 a) (Z.land b 31))
  else if op =? 126 then Z.land a b
  else if op =? 128 then Z.lor a b
  else Z.lxor a b.

Definition op_bits (op : Z) (f : frame) : prog frame :=
  fail_if (sp f <? 2);; '(a, b, f) ← pop2 f; push (bit_op op a b) f.

Definition op_iinc (f : frame) : prog frame :=
  fail_if (pc f + 2 >? code_len);;
  idx ← lift (read code (pc f));
  c ← lift (read code (pc f + 1));
  fail_if (idx >=? JVM_LOCALS_MAX);;
  v ← lift (read (locals f) idx);
  store_local idx (i32 (v + i8 c)) (set_pc f (pc f + 2)).

(** The jump by [rel] from the instruction at [op_pc]. *)
Definition jump (op_pc rel : Z) (f : frame) : prog frame :=
  let dst := i32 (op_pc + rel) in
  fail_if ((dst <? 0) || (dst >=? code_len));; mret (set_pc f dst).

(** ifeq, ifne, iflt, ifge, ifgt, ifle. *)
Definition if_test (op v : Z) : bool :=
  if op =? 153 then v =? 0 else if op =? 154 then negb (v =? 0)
  else if op =? 155 then v <? 0 else if op =? 156 then v >=? 0
  else if op =? 157 then v >? 0 else v <=? 0.

Definition op_if (test : Z -> bool) (op_pc : Z) (f : frame) : prog frame :=
  fail_if ((pc f + 2 >? code_len) || (sp f <? 1));;
  rel ← lift (rd_be16 code (pc f));
  '(v, f) ← pop (set_pc f (pc f + 2));
  if test v then jump op_pc (i16 rel) f else mret f.

(** if_icmpeq, if_icmpne, if_icmplt, if_icmpge, if_icmpgt, if_icmple. *)
Definition cmp_test (op a b : Z) : bool :=
  if op =? 159 then a =? b else if op =? 160 then negb (a =? b)
  else if op =? 161 then a <? b else if op =? 162 then a >=? b
  else if op =? 163 then a >? b else a <=? b.

Definition op_if_cmp (test : Z -> Z -> bool) (op_pc : Z) (f : frame) : prog frame :=
  fail_if ((pc f + 2 >? code_len) || (sp f <? 2));;
  rel ← lift (rd_be16 code (pc f));
  '(a, b, f) ← pop2 (set_pc f (pc f + 2));
  if test a b then jump op_pc (i16 rel) f else mret f.

Definition op_goto (op_pc : Z) (f : frame) : prog frame :=
  fail_if (pc f + 2 >? code_len);;
  rel ← lift (rd_be16 code (pc f)); jump op_pc (i16 rel) f.

Definition op_goto_w (op_pc : Z) (f : frame) : prog frame :=
  fail_if (pc f + 4 >? code_len);;
  rel ← lift (rd_be32 code (pc f)); jump op_pc (i32 rel) f.

Definition op_ireturn (f : frame) : prog (option Z) :=
  fail_if (sp f <? 1);; '(v, _) ← pop f; mret (Some v).

Definition op_getstatic (f : frame) : prog frame :=
  fail_if ((pc f + 2 >? code_len) || no_room f);;
  idx ← lift (rd_be16 code (pc f));
  '(cls_name, fld_name, fld_desc) ← or_else (cp_resolve_ref cls idx 9)
    (die (bs "java: bad fieldref in getstatic" ++ [10]));
  if bytes_eq_lit cls_name (bs "java/lang/System") &&
     (bytes_eq_lit fld_name (bs "out") || bytes_eq_lit fld_name (bs "err")) &&
     bytes_eq_lit fld_desc (bs "Ljava/io/PrintStream;")
  then push JVM_REF_PRINTSTREAM (set_pc f (pc f + 2))
  else die (bs "java: unsupported getstatic target" ++ [10]).

(** What the three invocations start with: the reference, the number of
    arguments and the kind of the result. *)
Definition invoke_target (what : list Z) (f : frame) :
    prog (list Z * list Z * list Z * option (Z * Z) * frame) :=
  fail_if (pc f + 2 >? code_len);;
  idx ← lift (rd_be16 code (pc f));
  '(cls_name, m_name, m_desc) ← or_else (cp_resolve_ref cls idx 10)
    (die (bs "java: bad methodref in " ++ what ++ [10]));
  mret (cls_name, m_name, m_desc, jvm_desc_args m_desc, set_pc f (pc f + 2)).

(** [print] and [println] by the signature; [argv] has one element where the
    descriptor has one argument. *)
Definition print_arg (m_desc : list Z) (argv : list Z) : prog unit :=
  let argc := Z.of_nat (length argv) in
  if bytes_eq_lit m_desc (bs "()V") then mret tt
  else if bytes_eq_lit m_desc (bs "(I)V") || bytes_eq_lit m_desc (bs "(S)V") ||
          bytes_eq_lit m_desc (bs "(B)V") || bytes_eq_lit m_desc (bs "(C)V") ||
          bytes_eq_lit m_desc (bs "(Z)V") then
    fail_if (negb (argc =? 1));;
    if bytes_eq_lit m_desc (bs "(Z)V") then say (if hd0 argv =? 0 then bs "false" else bs "true")
    else if bytes_eq_lit m_desc (bs "(C)V") then say [u8 (hd0 argv)]
    else term_print_i32 (hd0 argv)
  else if bytes_eq_lit m_desc (bs "(Ljava/lang/String;)V") then
    fail_if (negb (argc =? 1));; jvm_print_string_ref cls (hd0 argv)
  else die (bs "java: unsupported PrintStream signature" ++ [10]).

Definition op_invokevirtual (f : frame) : prog frame :=
  '(cls_name, m_name, m_desc, sig, f) ← invoke_target (bs "invokevirtual") f;
  '(argc, _) ← of_opt sig;
  fail_if ((argc >? 8) || (sp f <? argc + 1));;
  '(argv, f) ← pop_args (Z.to_nat argc) [] f;
  '(obj, f) ← pop f;
  if bytes_eq_lit cls_name (bs "java/io/PrintStream") &&
     (bytes_eq_lit m_name (bs "print") || bytes_eq_lit m_name (bs "println")) &&
     (obj =? JVM_REF_PRINTSTREAM)
  then
    print_arg m_desc argv;;
    (if bytes_eq_lit m_name (bs "println") then say [10] else mret tt);;
    mret f
  else die (bs "java: unsupported invokevirtual target" ++ [10]).

Definition op_invokespecial (f : frame) : prog frame :=
  '(cls_name, m_name, m_desc, sig, f) ← invoke_target (bs "invokespecial") f;
  '(argc, ret_kind) ← of_opt sig;
  fail_if ((argc >? 8) || (sp f <? argc + 1));;
  '(argv, f) ← pop_args (Z.to_nat argc) [] f;
  '(obj, f) ← pop f;
  if Z.land obj JVM_REF_OBJECT_FLAG =? 0 then die (bs "java: invokespecial on non-object" ++ [10])
  else if bytes_eq_lit m_name (bs "<init>") then fail_if (negb (ret_kind =? ch "V"));; mret f
  else die (bs "java: unsupported invokespecial target" ++ [10]).

Definition op_new (f : frame) : prog frame :=
  fail_if ((pc f + 2 >? code_len) || no_room f);;
  idx ← lift (rd_be16 code (pc f));
  or_else (e ← cp_entry cls idx; fail_if (negb (tag e =? 7)))
    (die (bs "java: bad class in new" ++ [10]));;
  push (i32 (Z.lor JVM_REF_OBJECT_FLAG (Z.land idx 65535))) (set_pc f (pc f + 2)).

(** The rest of the invocation: where the class comes from and the recursive
    call are arguments. *)
Definition op_invokestatic (load : list Z -> prog jclass_t)
    (exec : jclass_t -> jmethod_t -> list Z -> prog (option Z)) (f : frame) : prog frame :=
  '(cls_name, m_name, m_desc, sig, f) ← invoke_target (bs "invokestatic") f;
  '(argc, ret_kind) ← of_opt sig;
  fail_if ((argc >? 8) || (sp f <? argc));;
  '(argv, f) ← pop_args (Z.to_nat argc) [] f;
  here ← jvm_class_name_eq cls cls_name;
  target_cls ← (if (here : bool) then mret cls
                else or_else (load cls_name) (die (bs "java: target class not found in jar" ++ [10])));
  target ← or_else (jvm_find_method_bytes target_cls m_name m_desc true)
    (die (bs "java: target static method not found" ++ [10]));
  ret ← exec target_cls target argv;
  if negb (ret_kind =? ch "V") then
    match ret with
    | None => die (bs "java: missing return value" ++ [10])
    | Some v => fail_if (no_room f);; push v f
    end
  else mret f.

Definition next (m : prog frame) : prog (frame + option Z) := f ← m; mret (inl f).

Definition between (lo hi op : Z) : bool := (lo <=? op) && (op <=? hi).

(** The [switch] of the loop; [f] has the program counter after the opcode. *)
Definition exec_op (load : list Z -> prog jclass_t)
    (exec : jclass_t -> jmethod_t -> list Z -> prog (option Z)) (op op_pc : Z) (f : frame) :
    prog (frame + option Z) :=
  if op =? 0 then mret (inl f)
  else if op =? 1 then next (op_const 0 f)
  else if between 2 8 op then next (op_const (op - 3) f)
  else if op =? 16 then next (op_bipush f)
  else if op =? 17 then next (op_sipush f)
  else if op =? 18 then next (op_ldc f)
  else if op =? 19 then next (op_ldc_w f)
  else if (op =? 21) || (op =? 25) then next (op_load f)
  else if between 26 29 op then next (op_load_n (op - 26) f)
  else if between 42 45 op then next (op_load_n (op - 42) f)
  else if (op =? 54) || (op =? 58) then next (op_store f)
  else if between 59 62 op then next (op_store_n (op - 59) f)
  else if between 75 78 op then next (op_store_n (op - 75) f)
  else if op =? 87 then next (op_pop f)
  else if op =? 89 then next (op_dup f)
  else if op =? 90 then next (op_dup_x1 f)
  else if op =? 95 then next (op_swap f)
  else if (op =? 96) || (op =? 100) || (op =? 104) || (op =? 108) then next (op_arith op f)
  else if op =? 112 then next (op_irem f)
  else if op =? 116 then next (op_ineg f)
  else if (op =? 120) || (op =? 122) || (op =? 124) || (op =? 126) || (op =? 128) || (op =? 130) then
    next (op_bits op f)
  else if op =? 132 then next (op_iinc f)
  else if between 153 158 op then next (op_if (if_test op) op_pc f)
  else if between 159 164 op then next (op_if_cmp (cmp_test op) op_pc f)
  else if op =? 165 then next (op_if_cmp Z.eqb op_pc f)
  else if op =? 166 then next (op_if_cmp (fun a b => negb (a =? b)) op_pc f)
  else if op =? 167 then next (op_goto op_pc f)
  else if op =? 200 then next (op_goto_w op_pc f)
  else if op =? 198 then next (op_if (fun v => v =? 0) op_pc f)
  else if op =? 199 then next (op_if (fun v => negb (v =? 0)) op_pc f)
  else if (op =? 172) || (op =? 176) then v ← op_ireturn f; mret (inr v)
  else if op =? 177 then mret (inr None)
  else if op =? 178 then next (op_getstatic f)
  else if op =? 182 then next (op_invokevirtual f)
  else if op =? 183 then next (op_invokespecial f)
  else if op =? 187 then next (op_new f)
  else if op =? 184 then next (op_invokestatic load exec f)
  else
    say (bs "java: unsupported opcode 0x");; term_print_u32 op 16;; die [10].

(** One turn of [while (pc < (int)m->code_len)]. *)
Definition exec_turn (load : list Z -> prog jclass_t)
    (exec : jclass_t -> jmethod_t -> list Z -> prog (option Z)) (f : frame) : prog (frame + option Z) :=
  if pc f <? code_len then
    op ← lift (read code (pc f));
    exec_op load exec op (pc f) (set_pc f (pc f + 1))
  else mret (inr None).
End ops.

Definition start_frame (args : list Z) : frame :=
  Frame (replicate (Z.to_nat JVM_STACK_MAX) 0) 0
    (args ++ replicate (Z.to_nat JVM_LOCALS_MAX - length args) 0) 0.

Fixpoint jvm_exec_method (calls fuel : nat) (rt : option (list Z * Z)) (depth : Z)
    (cls : jclass_t) (m : jmethod_t) (args : list Z) : prog (option Z) :=
  match calls with
  | O => Stuck NoFuel
  | S calls =>
    match code m with
    | None => die (bs "java: invalid method body" ++ [10])
    | Some c =>
      if code_len m =? 0 then die (bs "java: invalid method body" ++ [10])
      else if depth >? JVM_CALL_DEPTH_MAX then die (bs "java: call depth exceeded" ++ [10])
      else if Z.of_nat (length args) >? JVM_LOCALS_MAX then die (bs "java: too many method args" ++ [10])
      else
        ploop fuel (exec_turn cls c (i32 (code_len m)) (jvm_load_class_from_jar fuel rt)
          (fun cls m args => jvm_exec_method calls fuel rt (depth + 1) cls m args)) (start_frame args)
    end
  end.

Definition jvm_execute_class_with_rt (calls fuel : nat) (data : list Z) (size : Z)
    (rt : option (list Z * Z)) : prog unit :=
  cls ← or_else (jvm_parse_class data size) (die (bs "java: class parse failed" ++ [10]));
  say (bs "java: TinyJVM class mode (extended)" ++ [10]);;
  say (bs "  ClassFile version ");; term_print_u32 (major cls) 10;; say (bs ".");;
  term_print_u32 (minor cls) 10;; say [10];;
  main_m ← or_else (jvm_find_method cls (bs "main") (bs "([Ljava/lang/String;)V") true)
    (or_else (jvm_find_method cls (bs "main") (bs "()V") true)
       (die (bs "java: no supported static main method found" ++ [10])));
  with_args ← cp_utf8_eq cls (desc_index main_m) (bs "([Ljava/lang/String;)V");
  jvm_exec_method calls fuel rt 0 cls main_m (if (with_args : bool) then [0] else []);;
  mret tt.

Definition jvm_execute_class (calls fuel : nat) (data : list Z) (size : Z) : prog unit :=
  jvm_execute_class_with_rt calls fuel data size None.

Definition java_run_jar (calls fuel : nat) (data : list Z) (size : Z) : prog unit :=
  r ← attempt (java_zip_find_entry fuel data size (bs "META-INF/MANIFEST.MF"));
  target ← match r with
           | Some e =>
             if zmethod e =? 0 then attempt (java_manifest_main_class (payload e) (payload_len e) 128)
             else mret None
           | None => mret None
           end;
  e ← match target with
      | Some class_path =>
        e ← or_else (java_zip_find_entry fuel data size (buf_text class_path))
              (die (bs "java: Main-Class entry not found in jar" ++ [10]));
        say (bs "java: jar Main-Class => ");; say (buf_text class_path);; say [10];; mret e
      | None =>
        '(e, first_name) ← or_else (java_zip_find_first_class fuel data size 128)
              (die (bs "java: jar has no .class entry" ++ [10]));
        say (bs "java: jar fallback class => ");; say (buf_text first_name);; say [10];; mret e
      end;
  if negb (zmethod e =? 0) then
    die (bs "java: compressed class entries are not supported yet (need STORED, method=0)" ++ [10])
  else jvm_execute_class_with_rt calls fuel (payload e) (i32 (payload_len e)) (Some (data, size)).
