(* ===== verification/Hjar.v ===== *)
(** The HJAR mini format of src/src/commands/java.c: a stack machine with 64
    cells over the bytes after a five-byte header. *)
From Stdlib Require Import ZArith Lia Ascii String.
From stdpp Require Import base tactics option numbers list.
From S2P Require Import Prelude Buffer CString Console JavaClass Jvm.
#[local] Open Scope Z_scope.

(** 0 unknown, 1 HJAR, 2 ZIP/JAR, 3 class file. *)
Definition java_detect_format (data : list Z) (size : Z) : outcome Z :=
  if size <? 4 then Ok 0
  else
    h ← slice data 0 4;
    be ← rd_be32 data 0;
    Ok (if (size >=? 5) && bool_decide (h = bs "HJAR") then 1
        else if bool_decide (h = [80; 75; 3; 4]) then 2
        else if be =? 3405691582 then 3 else 0).

(** [int32_t stack[64]] with [sp], and [pc]. *)
Record hstate := HState { hstack : list Z; hsp : Z; hpc : Z }.

Definition hpush (v : Z) (s : hstate) : prog hstate :=
  st ← lift (blit (hstack s) (hsp s) [v]); mret (HState st (hsp s + 1) (hpc s)).
Definition hpop (s : hstate) : prog (Z * hstate) :=
  v ← lift (read (hstack s) (hsp s - 1)); mret (v, HState (hstack s) (hsp s - 1) (hpc s)).

Definition hjar_push_byte (data : list Z) (size : Z) (s : hstate) : prog hstate :=
  (if (hpc s >=? size) || (hsp s >=? 64) then die (bs "java: HJAR stack/bytecode error" ++ [10])
   else mret tt);;
  b ← lift (read data (hpc s));
  hpush (i8 b) (HState (hstack s) (hsp s) (hpc s + 1)).

Definition hjar_arith (op : Z) (s : hstate) : prog hstate :=
  (if hsp s <? 2 then die (bs "java: HJAR stack underflow" ++ [10]) else mret tt);;
  '(b, s) ← hpop s;
  '(a, s) ← hpop s;
  if op =? 96 then hpush (i32 (a + b)) s
  else if op =? 100 then hpush (i32 (a - b)) s
  else if op =? 104 then hpush (i32 (a * b)) s
  else if b =? 0 then die (bs "java: divide by zero" ++ [10])
  else v ← lift (quot32 a b); hpush v s.

Definition hjar_literal (data : list Z) (size : Z) (s : hstate) : prog hstate :=
  (if hpc s >=? size then die (bs "java: HJAR truncated literal" ++ [10]) else mret tt);;
  n ← lift (read data (hpc s));
  let pc := hpc s + 1 in
  (if pc + n >? size then die (bs "java: HJAR literal out of range" ++ [10]) else mret tt);;
  t ← lift (slice data pc n);
  say t;;
  mret (HState (hstack s) (hsp s) (pc + n)).

Definition hjar_print (s : hstate) : prog hstate :=
  (if hsp s <? 1 then die (bs "java: HJAR print stack underflow" ++ [10]) else mret tt);;
  '(v, s) ← hpop s;
  term_print_i32 v;;
  mret s.

(** One turn of [while (pc < size)]; [inr] is [return true]. *)
Definition hjar_turn (data : list Z) (size : Z) (s : hstate) : prog (hstate + unit) :=
  if hpc s <? size then
    op ← lift (read data (hpc s));
    let s := HState (hstack s) (hsp s) (hpc s + 1) in
    if op =? 16 then s ← hjar_push_byte data size s; mret (inl s)
    else if (op =? 96) || (op =? 100) || (op =? 104) || (op =? 108) then
      s ← hjar_arith op s; mret (inl s)
    else if op =? 252 then s ← hjar_literal data size s; mret (inl s)
    else if op =? 254 then s ← hjar_print s; mret (inl s)
    else if op =? 177 then say [10];; mret (inr tt)
    else say (bs "java: unknown HJAR opcode 0x");; term_print_u32 op 16;; die [10]
  else die (bs "java: HJAR ended without return" ++ [10]).

(** Each turn consumes a byte of the program. *)
Definition java_hjar_exec (data : list Z) (size : Z) : prog unit :=
  fmt ← lift (if size <? 5 then Ok 0 else java_detect_format data size);
  if negb (fmt =? 1) then die (bs "java: invalid HJAR" ++ [10])
  else ploop (S (Z.to_nat size)) (hjar_turn data size) (HState (replicate 64 0) 0 5).
