(* ===== verification/JavaCmd.v ===== *)
(** The java, jarinfo and /java commands of src/src/commands/java.c: where a
    program file is looked for, and what is run.

    The commands read the RAM disk [st]; a path is a C string.  The file
    buffer is the bytes read, [JAVA_BUF_CAP] at most. *)
From Stdlib Require Import ZArith Lia Ascii String.
From stdpp Require Import base tactics option numbers list.
From S2P Require Import Prelude Buffer CString Ramdisk Console JavaClass JavaZip Jvm Hjar.
#[local] Open Scope Z_scope.

Definition JAVA_BUF_CAP : Z := 8192.

(** [fs_resolve_checked(path, &n) && fs_is_file(n)]. *)
Definition resolves_to_file (st : fs) (path : list Z) : outcome (option nat) :=
  r ← fs_resolve_checked st (Some path);
  Ok (match r with Some n => if fs_is_file st n then Some n else None | None => None end).

Definition java_file_exists (st : fs) (path : list Z) : outcome bool :=
  if hd0 path =? 0 then Ok false
  else r ← resolves_to_file st path; Ok (bool_decide (is_Some r)).

(** The copy, when it fits with its NUL. *)
Definition java_copy_path (dst_cap : Z) (src : list Z) : option (list Z) :=
  if (dst_cap <=? 0) || (Z.of_nat (length src) + 1 >? dst_cap) then None else Some src.

(** Backwards from the end to the last slash. *)
Fixpoint has_dot (rpath : list Z) : bool :=
  match rpath with
  | [] => false
  | c :: r => if c =? ch "/" then false else if c =? ch "." then true else has_dot r
  end.
Definition java_path_has_extension (path : list Z) : bool := has_dot (rev path).

Definition java_join_path (out_cap : Z) (dir name : list Z) : option (list Z) :=
  let sep := if (0 <? length dir)%nat && negb (byte_at dir (length dir - 1) =? ch "/") then [ch "/"] else [] in
  let s := dir ++ sep ++ name in
  if (out_cap <=? 0) || (Z.of_nat (length s) + 1 >? out_cap) then None else Some s.

Definition java_exts : list (list Z) := [bs ".jar"; bs ".class"; bs ".hjar"].

(** The first extension that names a file; [Some None] is the false of a
    failed copy. *)
Fixpoint try_exts (st : fs) (base : list Z) (resolved_cap : Z) (exts : list (list Z)) :
    outcome (option (list Z)) :=
  match exts with
  | [] => Ok None
  | e :: exts =>
    let candidate := base ++ e in
    if Z.of_nat (length candidate) + 1 >? 160 then try_exts st base resolved_cap exts
    else
      found ← java_file_exists st candidate;
      if (found : bool) then Ok (java_copy_path resolved_cap candidate)
      else try_exts st base resolved_cap exts
  end.

Definition java_try_base_and_ext (st : fs) (base : list Z) (resolved_cap : Z) : outcome (option (list Z)) :=
  if (hd0 base =? 0) || (resolved_cap <=? 0) then Ok None
  else
    found ← java_file_exists st base;
    if (found : bool) then Ok (java_copy_path resolved_cap base)
    else if java_path_has_extension base then Ok None
    else try_exts st base resolved_cap java_exts.

Fixpoint first_file (st : fs) (paths : list (list Z)) : outcome (option (list Z)) :=
  match paths with
  | [] => Ok None
  | p :: ps =>
    r ← resolves_to_file st p;
    match r with Some _ => Ok (Some p) | None => first_file st ps end
  end.

Definition java_default_path (st : fs) : outcome (option (list Z)) :=
  first_file st [bs "/java/tinyjvm.jar"; bs "/java/hello.class"; bs "/java/hello.jar"; bs "/java/sample.jar"].

(** [path += 2] while it starts with "./". *)
Fixpoint skip_dot_slash (path : list Z) : list Z :=
  match path with
  | c :: d :: p => if (c =? ch ".") && (d =? ch "/") then skip_dot_slash p else path
  | _ => path
  end.

(** The directories a relative name is looked up in, in order. *)
Fixpoint try_dirs (st : fs) (path : list Z) (dirs : list (list Z)) : outcome (option (list Z)) :=
  match dirs with
  | [] => Ok None
  | d :: dirs =>
    r ← match java_join_path 160 d path with
        | Some c => java_try_base_and_ext st c 160
        | None => Ok None
        end;
    match r with Some p => Ok (Some p) | None => try_dirs st path dirs end
  end.

(** The path (NULL is [None]) and [*out_used_fallback]. *)
Definition java_resolve_path (st : fs) (raw_path : option (list Z)) : outcome (option (list Z) * bool) :=
  let fall_back (_ : unit) := d ← java_default_path st; Ok (d, true) in
  match raw_path with
  | None => fall_back tt
  | Some raw =>
    let path := skip_dot_slash raw in
    if hd0 path =? 0 then fall_back tt
    else
      r ← java_try_base_and_ext st path 160;
      match r with
      | Some p => Ok (Some p, false)
      | None =>
        r ← (if negb (hd0 path =? ch "/") then
               cwd ← fs_build_path st (fs_cwd_get st) 64;
               try_dirs st path [default [] cwd; bs "/java"; bs "/home"; bs "/docs"]
             else Ok None);
        match r with
        | Some p => Ok (Some p, false)
        | None => d ← java_default_path st; Ok (d, bool_decide (is_Some d))
        end
      end
  end.

(** The bytes, their number and their format. *)
Definition java_load_file (st : fs) (path : list Z) (cap : Z) : prog (list Z * Z * Z) :=
  if hd0 path =? 0 then die (bs "java: missing file path" ++ [10])
  else
    r ← lift (resolves_to_file st path);
    match r with
    | None => say (bs "java: file not found: ");; say path;; die [10]
    | Some node =>
      '(buf, n) ← lift (fs_read st node cap);
      if n <=? 0 then die (bs "java: failed to read file" ++ [10])
      else fmt ← lift (java_detect_format buf n); mret (buf, n, fmt)
    end.

Definition java_class_info (data : list Z) (size : Z) : prog unit :=
  magic ← (if size <? 10 then mret 0 else lift (rd_be32 data 0));
  if negb (magic =? 3405691582) then die (bs "java: invalid class file" ++ [10])
  else
    minor ← lift (rd_be16 data 4);
    major ← lift (rd_be16 data 6);
    cp_count ← lift (rd_be16 data 8);
    say (bs "ClassFile version: ");; term_print_u32 major 10;; say (bs ".");;
    term_print_u32 minor 10;;
    say (bs "  cp_count=");; term_print_u32 cp_count 10;; say [10];;
    say (bs "Execution path: TinyJVM extended mode (class + jar + cross-class static calls)." ++ [10]).

(** The part both commands start with. *)
Definition java_open (st : fs) (args : option (list Z)) (none other : list Z) : prog (list Z * Z * Z) :=
  '(path, used_fallback) ← lift (java_resolve_path st (nonempty args));
  match path with
  | None => die none
  | Some path =>
    (if bool_decide (is_Some (nonempty args)) && used_fallback
     then say other;; say path;; say [10] else mret tt);;
    java_load_file st path JAVA_BUF_CAP
  end.

Definition cmd_jarinfo (fuel : nat) (st : fs) (args : option (list Z)) : prog unit :=
  '(buf, n, fmt) ← java_open st args
    (bs "jarinfo: no default Java file found. try: ls /java" ++ [10])
    (bs "jarinfo: requested file not found, using ");
  if fmt =? 1 then
    v ← lift (read buf 4);
    say (bs "jarinfo: HJAR (HeatOS mini format), version=");; term_print_u32 v 10;;
    say (bs " size=");; term_print_u32 n 10;; say [10]
  else if fmt =? 2 then
    say (bs "jarinfo: ZIP/JAR detected" ++ [10]);;
    attempt (java_zip_list_entries fuel buf n);; mret tt
  else if fmt =? 3 then
    say (bs "jarinfo: ClassFile detected" ++ [10]);; java_class_info buf n
  else say (bs "jarinfo: unknown file format" ++ [10]).

Definition cmd_java (calls fuel : nat) (st : fs) (args : option (list Z)) : prog unit :=
  '(buf, n, fmt) ← java_open st args
    (bs "java: no default Java file found. try: ls /java" ++ [10])
    (bs "java: requested path not found, running ");
  if fmt =? 1 then
    say (bs "java: running HJAR app" ++ [10]);; attempt (java_hjar_exec buf n);; mret tt
  else if fmt =? 2 then
    say (bs "java: ZIP/JAR detected" ++ [10]);;
    or_else (java_run_jar calls fuel buf n) (say (bs "java: jar execution failed" ++ [10]))
  else if fmt =? 3 then
    say (bs "java: direct .class input detected" ++ [10]);;
    attempt (java_class_info buf n);;
    or_else (jvm_execute_class calls fuel buf n) (say (bs "java: class execution failed" ++ [10]))
  else say (bs "java: unsupported file format" ++ [10]).

(** The output and the new working directory; the listing that follows is
    [cmd_ls]. *)
Definition cmd_java_dir (st : fs) (cmd_ls : fs -> outcome (list Z)) : outcome (list Z * fs) :=
  r ← fs_resolve_checked st (Some (bs "/java"));
  match r with
  | Some node =>
    if fs_is_dir st node then
      let st := fs_cwd_set st node in
      o ← cmd_ls st; Ok (bs "cwd => /java" ++ [10] ++ o, st)
    else Ok (bs "/java: directory not found" ++ [10], st)
  | None => Ok (bs "/java: directory not found" ++ [10], st)
  end.
