(* ===== verification/JvmSafe.v ===== *)
(** Type safety of the bytecode interpreter: the machine state stays well
    typed, whatever the bytecode. *)
From Stdlib Require Import ZArith Lia Ascii String.
From stdpp Require Import base tactics option numbers list.
From S2P Require Import Prelude Buffer CString Console JavaClass JavaZip Jvm.
#[local] Open Scope Z_scope.

(** * Well-formed states *)

(** An Utf8 entry lies in the file. *)
Definition entry_ok (size : Z) (e : jcp_entry_t) : Prop :=
  tag e = 1 -> 0 <= cp_a e /\ is_u16 (cp_b e) /\ cp_a e + cp_b e <= size.

(** A body is as long as its method says. *)
Definition method_ok (m : jmethod_t) : Prop :=
  match code m with Some c => bytes c /\ i32 (code_len m) <= Z.of_nat (length c) | None => True end.

Definition class_ok (c : jclass_t) : Prop :=
  bytes (cbytes c) /\ csize c <= Z.of_nat (length (cbytes c)) /\ csize c < 2147483648 /\
  cp_count c <= 256 /\ length (cp c) = 256%nat /\
  Forall (entry_ok (csize c)) (cp c) /\ Forall method_ok (methods c).

Definition values (l : list Z) : Prop := Forall is_i32 l.

Definition frame_ok (f : frame) : Prop :=
  length (stack f) = 256%nat /\ values (stack f) /\ 0 <= sp f <= 256 /\
  length (locals f) = 64%nat /\ values (locals f) /\ 0 <= pc f.

(** * Arrays of values *)

Lemma values_read l i : values l -> 0 <= i < Z.of_nat (length l) -> succeeds (read l i) is_i32.
Proof.
  intros Hl Hi. rewrite read_ok by done. apply succeeds_ret. unfold byte_at.
  rewrite nth_lookup. destruct (lookup_lt_is_Some_2 l (Z.to_nat i)) as [x Hx]; [lia|]. rewrite Hx.
  by apply (Forall_lookup_1 _ _ _ _ Hl Hx).
Qed.

Lemma values_blit l i v : values l -> is_i32 v -> 0 <= i < Z.of_nat (length l) ->
  succeeds (blit l i [v]) (fun l' => length l' = length l /\ values l').
Proof.
  intros Hl Hv Hi. rewrite blit_ok by (simpl; lia). apply succeeds_ret. split.
  - rewrite !length_app, length_take, length_drop. simpl. lia.
  - apply Forall_app; split; [by apply Forall_take|]. apply Forall_app; split; [by constructor|].
    by apply Forall_drop.
Qed.

Lemma rd_be16_safe p i : bytes p -> 0 <= i -> i + 2 <= Z.of_nat (length p) -> succeeds (rd_be16 p i) is_u16.
Proof.
  intros Hp Hi Hl. unfold rd_be16. rewrite !read_ok by lia. cbn [mbind outcome_bind].
  apply succeeds_ret, u16_range.
Qed.

Lemma rd_be32_safe p i : bytes p -> 0 <= i -> i + 4 <= Z.of_nat (length p) -> succeeds (rd_be32 p i) (fun _ => True).
Proof.
  intros Hp Hi Hl. unfold rd_be32. rewrite !read_ok by lia. cbn [mbind outcome_bind].
  by apply succeeds_ret.
Qed.

Lemma i8_i32 z : is_i32 (i8 z).
Proof. words. Qed.
Lemma i16_i32 z : is_i32 (i16 z).
Proof. words. Qed.

(** * Stack operations *)

Lemma set_pc_ok f n : frame_ok f -> 0 <= n -> frame_ok (set_pc f n).
Proof. unfold frame_ok. simpl. tauto. Qed.

Lemma push_ok v f : frame_ok f -> sp f < 256 -> is_i32 v ->
  stays (push v f) (fun f' => frame_ok f' /\ sp f' = sp f + 1).
Proof.
  intros (Hl & Hs & Hsp & Hf) Hr Hv. unfold push.
  eapply stays_bind; [apply stays_lift, values_blit; [done|done|lia]|].
  intros s [Hn Hs']. apply stays_ret. unfold frame_ok. simpl. split_and!; try tauto; lia.
Qed.

Lemma push_keeps v f : frame_ok f -> sp f < 256 -> is_i32 v -> stays (push v f) frame_ok.
Proof. intros. eapply stays_mono; [by apply push_ok|]. by intros ? []. Qed.

Lemma pop_ok f : frame_ok f -> 1 <= sp f ->
  stays (pop f) (fun x => is_i32 x.1 /\ frame_ok x.2 /\ sp x.2 = sp f - 1).
Proof.
  intros (Hl & Hs & Hsp & Hf) Hr. unfold pop.
  eapply stays_bind; [apply stays_lift, values_read; [done|lia]|].
  intros v Hv. apply stays_ret. unfold frame_ok. simpl. split_and!; try tauto; lia.
Qed.

Lemma pop2_ok f : frame_ok f -> 2 <= sp f ->
  stays (pop2 f) (fun x => is_i32 x.1.1 /\ is_i32 x.1.2 /\ frame_ok x.2 /\ sp x.2 = sp f - 2).
Proof.
  intros Hf Hr. unfold pop2. eapply stays_bind; [apply pop_ok; [done|lia]|].
  intros [b f1] (Hb & Hf1 & Hs1). simpl in *. eapply stays_bind; [apply pop_ok; [done|lia]|].
  intros [a f2] (Ha & Hf2 & Hs2). simpl in *. apply stays_ret. simpl. split_and!; try done. lia.
Qed.

Lemma store_local_ok i v f : frame_ok f -> 0 <= i < 64 -> is_i32 v -> stays (store_local i v f) frame_ok.
Proof.
  intros (Hl & Hs & Hsp & Hll & Hv & Hp) Hi Hv'. unfold store_local.
  eapply stays_bind; [apply stays_lift, values_blit; [done|done|lia]|].
  intros l [Hn Hs']. apply stays_ret. unfold frame_ok. simpl. split_and!; try tauto; lia.
Qed.

Lemma pop_args_ok n : forall argv f, frame_ok f -> Z.of_nat n <= sp f -> values argv ->
  stays (pop_args n argv f) (fun x =>
    values x.1 /\ length x.1 = (n + length argv)%nat /\ frame_ok x.2 /\ sp x.2 = sp f - Z.of_nat n).
Proof.
  induction n as [|n IH]; intros argv f Hf Hn Ha; cbn [pop_args].
  - apply stays_ret. simpl. split_and!; try done. lia.
  - eapply stays_bind; [apply pop_ok; [done|lia]|]. intros [v f1] (Hv & Hf1 & Hs1). simpl in *.
    eapply stays_mono; [apply IH; [done|lia|by constructor]|]. simpl.
    intros [l f2] (H1 & H2 & H3 & H4). simpl in *. split_and!; try done; lia.
Qed.

Lemma quot32_ok a b : is_i32 a -> is_i32 b -> b <> 0 -> stays (lift (quot32 a b)) is_i32.
Proof.
  intros Ha Hb Hn. unfold quot32.
  destruct ((a =? -2147483648) && (b =? -1)) eqn:E; [done|]. simpl.
  apply andb_false_iff in E. unfold is_i32 in *.
  assert (Z.abs (a ÷ b) <= Z.abs a) as H.
  { rewrite <- Z.quot_abs by done.
    apply Z.quot_le_upper_bound; [lia|]. nia. }
  destruct (decide (a = -2147483648)) as [->|]; [|lia].
  destruct (decide (b = 1)) as [->|]; [rewrite Z.quot_1_r; lia|].
  assert (Z.abs (-2147483648 ÷ b) <= 1073741824); [|lia].
  rewrite <- Z.quot_abs by done. apply Z.quot_le_upper_bound; [lia|]. nia.
Qed.

Lemma rem32_ok a b : is_i32 a -> is_i32 b -> b <> 0 -> stays (lift (rem32 a b)) is_i32.
Proof.
  intros Ha Hb Hn. unfold rem32.
  destruct ((a =? -2147483648) && (b =? -1)); [done|]. simpl. unfold is_i32 in *.
  pose proof (Z.rem_bound_abs a b Hn). lia.
Qed.

Lemma is_i32_shiftr z : is_i32 z <-> Z.shiftr z 31 = 0 \/ Z.shiftr z 31 = -1.
Proof. rewrite Z.shiftr_div_pow2 by lia. unfold is_i32. change (2 ^ 31) with 2147483648. Z.to_euclidean_division_equations. lia. Qed.

Lemma bit_op_i32 op a b : is_i32 a -> is_i32 b -> is_i32 (bit_op op a b).
Proof.
  intros Ha Hb. unfold bit_op.
  assert (0 <= Z.land b 31 < 32) as Hs.
  { change 31 with (Z.ones 5). rewrite Z.land_ones by lia. apply Z.mod_pos_bound. lia. }
  repeat case_match; try apply i32_range.
  - rewrite Z.shiftr_div_pow2 by lia. unfold is_i32 in *.
    pose proof (Z.pow_pos_nonneg 2 (Z.land b 31) ltac:(lia) ltac:(lia)).
    split; [apply Z.div_le_lower_bound; nia|apply Z.div_lt_upper_bound; nia].
  - apply is_i32_shiftr in Ha, Hb. apply is_i32_shiftr. rewrite Z.shiftr_land.
    destruct Ha as [-> | ->], Hb as [-> | ->]; vm_compute; auto.
  - apply is_i32_shiftr in Ha, Hb. apply is_i32_shiftr. rewrite Z.shiftr_lor.
    destruct Ha as [-> | ->], Hb as [-> | ->]; vm_compute; auto.
  - apply is_i32_shiftr in Ha, Hb. apply is_i32_shiftr. rewrite Z.shiftr_lxor.
    destruct Ha as [-> | ->], Hb as [-> | ->]; vm_compute; auto.
Qed.

(** * The constant pool *)

Section class.
Context (cls : jclass_t) (Hcls : class_ok cls).

Lemma cp_entry_ok idx : stays (cp_entry cls idx) (entry_ok (csize cls)).
Proof using Hcls.
  destruct Hcls as (_ & _ & _ & Hc & Hl & He & _). unfold cp_entry.
  eapply stays_bind; [apply stays_fail_if|]. intros [] E. apply orb_false_iff in E as [_ E].
  apply stays_lift. destruct (lookup_lt_is_Some_2 (cp cls) (Z.to_nat idx)) as [e Hi]; [lia|].
  rewrite Hi. apply succeeds_ret. by apply (Forall_lookup_1 _ _ _ _ He Hi).
Qed.

Lemma cp_utf8_ok idx : stays (cp_utf8 cls idx) bytes.
Proof using Hcls.
  unfold cp_utf8. eapply stays_bind; [apply cp_entry_ok|]. intros e He.
  destruct Hcls as (Hb & Hs & Hm & _).
  eapply stays_bind; [apply stays_fail_if|]. intros [] Ht.
  eapply stays_bind; [apply stays_fail_if|]. intros [] _.
  destruct He as (Ha & Hlen & Hab); [lia|].
  apply stays_lift. rewrite u16_small by done. unfold is_u16 in *.
  eapply succeeds_mono; [apply slice_safe; [done|lia|lia|lia]|]. by intros l [_ H].
Qed.

Lemma cp_utf8_eq_ok idx lit : stays (cp_utf8_eq cls idx lit) (fun _ => True).
Proof using Hcls. unfold cp_utf8_eq. eapply stays_bind; [apply stays_attempt, cp_utf8_ok|done]. Qed.

Lemma cp_class_name_ok idx : stays (cp_class_name cls idx) bytes.
Proof using Hcls.
  unfold cp_class_name. eapply stays_bind; [apply cp_entry_ok|]. intros e _.
  eapply stays_bind; [apply stays_fail_if|]. intros [] _. apply cp_utf8_ok.
Qed.

Lemma cp_resolve_ref_ok idx t : stays (cp_resolve_ref cls idx t) (fun _ => True).
Proof using Hcls.
  unfold cp_resolve_ref, cp_name_type. eapply stays_bind; [apply cp_entry_ok|]. intros e _.
  eapply stays_bind; [apply stays_fail_if|]. intros [] _.
  eapply stays_bind; [apply cp_class_name_ok|]. intros c _.
  eapply stays_bind; [|by intros [n d] _].
  eapply stays_bind; [apply cp_entry_ok|]. intros e' _.
  eapply stays_bind; [apply stays_fail_if|]. intros [] _.
  eapply stays_bind; [apply cp_utf8_ok|]. intros n _.
  eapply stays_bind; [apply cp_utf8_ok|]. intros d _. by apply (stays_ret _ (fun _ => True)).
Qed.

Lemma find_first_ok {A} (p : A -> prog bool) (P : A -> Prop) l :
  Forall P l -> (forall x, stays (p x) (fun _ => True)) -> stays (find_first p l) P.
Proof.
  intros Hl Hp. induction Hl as [|x l Hx _ IH]; [done|]. simpl.
  eapply stays_bind; [apply Hp|]. by intros [] _.
Qed.

Lemma find_method_ok name desc st : stays (jvm_find_method cls name desc st) method_ok.
Proof using Hcls.
  unfold jvm_find_method. apply find_first_ok; [apply Hcls|]. intros m. destruct (st && _); [done|].
  eapply stays_bind; [apply cp_utf8_eq_ok|]. intros [] _; simpl; [apply cp_utf8_eq_ok|done].
Qed.

Lemma find_method_bytes_ok name desc st : stays (jvm_find_method_bytes cls name desc st) method_ok.
Proof using Hcls.
  unfold jvm_find_method_bytes. apply find_first_ok; [apply Hcls|]. intros m. destruct (st && _); [done|].
  eapply stays_bind; [apply stays_attempt, cp_utf8_ok|]. intros [n|] _; [|done].
  eapply stays_bind; [apply stays_attempt, cp_utf8_ok|]. by intros [d|] _.
Qed.

Lemma class_name_eq_ok name : stays (jvm_class_name_eq cls name) (fun _ => True).
Proof using Hcls. unfold jvm_class_name_eq. eapply stays_bind; [apply stays_attempt, cp_class_name_ok|done]. Qed.

Lemma print_string_ref_ok ref : stays (jvm_print_string_ref cls ref) (fun _ => True).
Proof using Hcls.
  unfold jvm_print_string_ref. repeat (case_match; [apply stays_say|]).
  eapply stays_bind; [apply stays_attempt, cp_utf8_ok|]. by intros [s|] _.
Qed.

Lemma print_arg_ok d argv : stays (print_arg cls d argv) (fun _ => True).
Proof using Hcls.
  unfold print_arg. destruct (bytes_eq_lit d (bs "()V")); [done|].
  destruct (_ || _); [|destruct (bytes_eq_lit _ _); [|done]];
    (eapply stays_bind; [apply stays_fail_if|]; intros [] _); [|apply print_string_ref_ok].
  by repeat case_match.
Qed.

Lemma push_ldc_ok idx f : frame_ok f -> stays (jvm_push_ldc cls idx f) frame_ok.
Proof using Hcls.
  intros Hf. unfold jvm_push_ldc. eapply stays_bind; [apply stays_fail_if|]. intros [] E.
  apply orb_false_iff in E as [E Hsp]. apply orb_false_iff in E as [_ E].
  destruct Hcls as (_ & _ & _ & Hc & Hl & _).
  destruct (lookup_lt_is_Some_2 (cp cls) (Z.to_nat idx)) as [e Hi]; [lia|].
  eapply (stays_bind _ _ (fun _ => True)); [apply stays_lift; rewrite Hi; by apply succeeds_ret|].
  intros e' _. unfold JVM_STACK_MAX in Hsp.
  repeat case_match; try done; (apply push_keeps; [done|lia|apply i32_range]).
Qed.
End class.

(** * Descriptors *)

Lemma desc_types_args n : forall l a, match desc_types n l a with Some (k, _) => a <= k | None => True end.
Proof.
  induction n as [|n IH]; intros l a; [done|]. cbn [desc_types].
  destruct l as [|x l]; [lia|]. destruct (x =? _); [lia|].
  destruct (skip_brackets _) as [|y l']; [done|]. destruct (y =? _).
  - destruct (skip_to_semicolon l') as [|z l'']; [done|]. specialize (IH l'' (a + 1)).
    destruct (desc_types _ _ _) as [[k r]|]; [lia|done].
  - destruct (is_base_type y); [|done]. specialize (IH l' (a + 1)).
    destruct (desc_types _ _ _) as [[k r]|]; [lia|done].
Qed.

(** The number of arguments a descriptor gives. *)
Definition sig_ok (sig : option (Z * Z)) : Prop := match sig with Some (k, _) => 0 <= k | None => True end.

Lemma desc_args_ok d : sig_ok (jvm_desc_args d).
Proof.
  unfold jvm_desc_args. destruct (_ || _); [done|].
  pose proof (desc_types_args (S (length d)) (tl0 d) 0) as Hk.
  by destruct (desc_types _ _ _) as [[j [|x [|y r]]]|].
Qed.

(** * The instructions *)

(** Splits the failing tests at the head of an instruction. *)
Ltac tests :=
  repeat (eapply stays_bind; [apply stays_fail_if|];
    let E := fresh "E" in intros [] E;
    repeat match type of E with _ || _ = false => apply orb_false_iff in E as [? E] end);
  unfold no_room, JVM_STACK_MAX, JVM_LOCALS_MAX in *.

Section ops_ok.
Context (cls : jclass_t) (Hcls : class_ok cls).
Context (c : list Z) (n : Z) (Hc : bytes c) (Hn : n <= Z.of_nat (length c)).
Implicit Types (f : frame).

Lemma code_byte {A} i (k : Z -> prog A) P : 0 <= i < n ->
  (forall b, is_u8 b -> stays (k b) P) -> stays (lift (read c i) ≫= k) P.
Proof using Hc Hn.
  intros Hi Hk. eapply stays_bind; [|apply Hk]. apply stays_lift, read_safe; [done|lia].
Qed.

Lemma code_word {A} i (k : Z -> prog A) P : 0 <= i -> i + 2 <= n ->
  (forall w, is_u16 w -> stays (k w) P) -> stays (lift (rd_be16 c i) ≫= k) P.
Proof using Hc Hn.
  intros Hi Hi' Hk. eapply stays_bind; [|apply Hk]. apply stays_lift, rd_be16_safe; [done|lia|lia].
Qed.

Lemma local_read {A} i (k : Z -> prog A) P f : frame_ok f -> 0 <= i < 64 ->
  (forall v, is_i32 v -> stays (k v) P) -> stays (lift (read (locals f) i) ≫= k) P.
Proof.
  intros (_ & _ & _ & Hl & Hv & _) Hi Hk. eapply stays_bind; [|apply Hk].
  apply stays_lift, values_read; [done|lia].
Qed.

Lemma stack_read {A} i (k : Z -> prog A) P f : frame_ok f -> 0 <= i < 256 ->
  (forall v, is_i32 v -> stays (k v) P) -> stays (lift (read (stack f) i) ≫= k) P.
Proof.
  intros (Hl & Hv & _) Hi Hk. eapply stays_bind; [|apply Hk].
  apply stays_lift, values_read; [done|lia].
Qed.

Lemma popped {A} f (k : Z * frame -> prog A) P : frame_ok f -> 1 <= sp f ->
  (forall v f', is_i32 v -> frame_ok f' -> sp f' = sp f - 1 -> stays (k (v, f')) P) ->
  stays (pop f ≫= k) P.
Proof.
  intros Hf Hs Hk. eapply stays_bind; [by apply pop_ok|]. intros [v f'] (H1 & H2 & H3). by apply Hk.
Qed.

Lemma popped2 {A} f (k : Z * Z * frame -> prog A) P : frame_ok f -> 2 <= sp f ->
  (forall a b f', is_i32 a -> is_i32 b -> frame_ok f' -> sp f' = sp f - 2 -> stays (k (a, b, f')) P) ->
  stays (pop2 f ≫= k) P.
Proof.
  intros Hf Hs Hk. eapply stays_bind; [by apply pop2_ok|]. intros [[a b] f'] (H1 & H2 & H3 & H4). by apply Hk.
Qed.

Lemma room f : frame_ok f -> 0 <= sp f <= 256.
Proof. unfold frame_ok. tauto. Qed.
Lemma pc_nonneg f : frame_ok f -> 0 <= pc f.
Proof. unfold frame_ok. tauto. Qed.

Lemma u8_i32 b : is_u8 b -> is_i32 b.
Proof. words. Qed.

Lemma op_const_ok v f : is_i32 v -> frame_ok f -> stays (op_const v f) frame_ok.
Proof. intros Hv Hf. unfold op_const. tests. by apply push_keeps; [|lia|]. Qed.

Lemma op_bipush_ok f : frame_ok f -> stays (op_bipush c n f) frame_ok.
Proof using Hc Hn.
  intros Hf. pose proof (pc_nonneg f Hf). unfold op_bipush. tests.
  apply code_byte; [lia|]. intros b Hb. apply push_keeps; [apply set_pc_ok; [done|lia]|simpl; lia|apply i8_i32].
Qed.

Lemma op_sipush_ok f : frame_ok f -> stays (op_sipush c n f) frame_ok.
Proof using Hc Hn.
  intros Hf. pose proof (pc_nonneg f Hf). unfold op_sipush. tests.
  apply code_word; [lia|lia|]. intros b Hb. apply push_keeps; [apply set_pc_ok; [done|lia]|simpl; lia|apply i16_i32].
Qed.

Lemma op_ldc_ok f : frame_ok f -> stays (op_ldc cls c n f) frame_ok.
Proof using Hc Hn Hcls.
  intros Hf. pose proof (pc_nonneg f Hf). unfold op_ldc. tests.
  apply code_byte; [lia|]. intros b Hb. apply stays_or_else; [|done].
  apply push_ldc_ok; [done|]. apply set_pc_ok; [done|lia].
Qed.

Lemma op_ldc_w_ok f : frame_ok f -> stays (op_ldc_w cls c n f) frame_ok.
Proof using Hc Hn Hcls.
  intros Hf. pose proof (pc_nonneg f Hf). unfold op_ldc_w. tests.
  apply code_word; [lia|lia|]. intros b Hb. apply stays_or_else; [|done].
  apply push_ldc_ok; [done|]. apply set_pc_ok; [done|lia].
Qed.

Lemma op_load_ok f : frame_ok f -> stays (op_load c n f) frame_ok.
Proof using Hc Hn.
  intros Hf. pose proof (pc_nonneg f Hf). unfold op_load. tests.
  apply code_byte; [lia|]. intros b Hb. tests. unfold is_u8 in Hb.
  apply local_read; [done|lia|]. intros v Hv.
  apply push_keeps; [apply set_pc_ok; [done|lia]|simpl; lia|done].
Qed.

Lemma op_load_n_ok i f : 0 <= i -> frame_ok f -> stays (op_load_n i f) frame_ok.
Proof.
  intros Hi Hf. unfold op_load_n. tests. apply local_read; [done|lia|]. intros v Hv.
  apply push_keeps; [done|lia|done].
Qed.

Lemma op_store_ok f : frame_ok f -> stays (op_store c n f) frame_ok.
Proof using Hc Hn.
  intros Hf. pose proof (pc_nonneg f Hf). unfold op_store. tests.
  apply code_byte; [lia|]. intros b Hb. tests. unfold is_u8 in Hb.
  apply popped; [apply set_pc_ok; [done|lia]|simpl; lia|]. intros v f' Hv Hf' _.
  apply store_local_ok; [done|lia|done].
Qed.

Lemma op_store_n_ok i f : 0 <= i -> frame_ok f -> stays (op_store_n i f) frame_ok.
Proof.
  intros Hi Hf. unfold op_store_n. tests. apply popped; [done|lia|]. intros v f' Hv Hf' _.
  apply store_local_ok; [done|lia|done].
Qed.

Lemma op_pop_ok f : frame_ok f -> stays (op_pop f) frame_ok.
Proof. intros Hf. unfold op_pop. tests. apply popped; [done|lia|]. by intros. Qed.

Lemma op_dup_ok f : frame_ok f -> stays (op_dup f) frame_ok.
Proof.
  intros Hf. pose proof (room f Hf). unfold op_dup. tests. apply stack_read; [done|lia|].
  intros v Hv. apply push_keeps; [done|lia|done].
Qed.

Lemma op_dup_x1_ok f : frame_ok f -> stays (op_dup_x1 f) frame_ok.
Proof.
  intros Hf. unfold op_dup_x1. tests. destruct Hf as (Hl & Hs & Hsp & Hf).
  eapply stays_bind; [apply stays_lift, values_read; [done|lia]|]. intros v Hv.
  eapply stays_bind; [apply stays_lift, values_blit; [done|done|lia]|]. intros s1 [Hl1 Hs1].
  eapply stays_bind; [apply stays_lift, values_read; [done|lia]|]. intros w Hw.
  eapply stays_bind; [apply stays_lift, values_blit; [done|done|lia]|]. intros s2 [Hl2 Hs2].
  eapply stays_bind; [apply stays_lift, values_read; [done|lia]|]. intros x Hx.
  eapply stays_bind; [apply stays_lift, values_blit; [done|done|lia]|]. intros s3 [Hl3 Hs3].
  apply stays_ret. unfold frame_ok. simpl. split_and!; try tauto; lia.
Qed.

Lemma op_swap_ok f : frame_ok f -> stays (op_swap f) frame_ok.
Proof.
  intros Hf. pose proof (room f Hf). unfold op_swap. tests. apply popped2; [done|lia|].
  intros a b f' Ha Hb Hf' Hs. eapply stays_bind; [apply push_ok; [done|lia|done]|].
  intros f2 [Hf2 Hs2]. apply push_keeps; [done|lia|done].
Qed.

Lemma op_arith_ok op f : frame_ok f -> stays (op_arith op f) frame_ok.
Proof.
  intros Hf. pose proof (room f Hf). unfold op_arith. tests. apply popped2; [done|lia|].
  intros a b f' Ha Hb Hf' Hs.
  do 3 (case_match; [apply push_keeps; [done|lia|apply i32_range]|]).
  destruct (Z.eqb_spec b 0); [done|]. eapply stays_bind; [by apply quot32_ok|].
  intros v Hv. apply push_keeps; [done|lia|done].
Qed.

Lemma op_irem_ok f : frame_ok f -> stays (op_irem f) frame_ok.
Proof.
  intros Hf. pose proof (room f Hf). unfold op_irem. tests. apply popped2; [done|lia|].
  intros a b f' Ha Hb Hf' Hs.
  destruct (Z.eqb_spec b 0); [done|]. eapply stays_bind; [by apply rem32_ok|].
  intros v Hv. apply push_keeps; [done|lia|done].
Qed.

Lemma op_ineg_ok f : frame_ok f -> stays (op_ineg f) frame_ok.
Proof.
  intros Hf. pose proof (room f Hf). unfold op_ineg. tests. apply popped; [done|lia|].
  intros v f' Hv Hf' Hs. apply push_keeps; [done|lia|apply i32_range].
Qed.

Lemma op_bits_ok op f : frame_ok f -> stays (op_bits op f) frame_ok.
Proof.
  intros Hf. pose proof (room f Hf). unfold op_bits. tests. apply popped2; [done|lia|].
  intros a b f' Ha Hb Hf' Hs. apply push_keeps; [done|lia|by apply bit_op_i32].
Qed.

Lemma op_iinc_ok f : frame_ok f -> stays (op_iinc c n f) frame_ok.
Proof using Hc Hn.
  intros Hf. pose proof (pc_nonneg f Hf). unfold op_iinc. tests.
  apply code_byte; [lia|]. intros b Hb. apply code_byte; [lia|]. intros d Hd. tests. unfold is_u8 in Hb.
  apply local_read; [done|lia|]. intros v Hv.
  apply store_local_ok; [apply set_pc_ok; [done|lia]|lia|apply i32_range].
Qed.

Lemma jump_ok p rel f : frame_ok f -> stays (jump n p rel f) frame_ok.
Proof. intros Hf. unfold jump. tests. apply stays_ret, set_pc_ok; [done|lia]. Qed.

Lemma op_if_ok test p f : frame_ok f -> stays (op_if c n test p f) frame_ok.
Proof using Hc Hn.
  intros Hf. pose proof (pc_nonneg f Hf). unfold op_if. tests.
  apply code_word; [lia|lia|]. intros w Hw. apply popped; [apply set_pc_ok; [done|lia]|simpl; lia|].
  intros v f' Hv Hf' _. case_match; [by apply jump_ok|done].
Qed.

Lemma op_if_cmp_ok test p f : frame_ok f -> stays (op_if_cmp c n test p f) frame_ok.
Proof using Hc Hn.
  intros Hf. pose proof (pc_nonneg f Hf). unfold op_if_cmp. tests.
  apply code_word; [lia|lia|]. intros w Hw. apply popped2; [apply set_pc_ok; [done|lia]|simpl; lia|].
  intros a b f' Ha Hb Hf' _. case_match; [by apply jump_ok|done].
Qed.

Lemma op_goto_ok p f : frame_ok f -> stays (op_goto c n p f) frame_ok.
Proof using Hc Hn.
  intros Hf. pose proof (pc_nonneg f Hf). unfold op_goto. tests.
  apply code_word; [lia|lia|]. intros w Hw. by apply jump_ok.
Qed.

Lemma op_goto_w_ok p f : frame_ok f -> stays (op_goto_w c n p f) frame_ok.
Proof using Hc Hn.
  intros Hf. pose proof (pc_nonneg f Hf). unfold op_goto_w. tests.
  eapply stays_bind; [apply stays_lift, rd_be32_safe; [done|lia|lia]|]. intros w _. by apply jump_ok.
Qed.

Lemma op_ireturn_ok f : frame_ok f ->
  stays (op_ireturn f) (fun r => match r with Some v => is_i32 v | None => True end).
Proof. intros Hf. unfold op_ireturn. tests. apply popped; [done|lia|]. by intros. Qed.

Lemma op_getstatic_ok f : frame_ok f -> stays (op_getstatic cls c n f) frame_ok.
Proof using Hc Hn Hcls.
  intros Hf. pose proof (pc_nonneg f Hf). unfold op_getstatic. tests.
  apply code_word; [lia|lia|]. intros w Hw.
  eapply stays_bind; [apply stays_or_else; [by apply cp_resolve_ref_ok|done]|]. intros [[a b] d] _.
  case_match; [|done]. apply push_keeps; [apply set_pc_ok; [done|lia]|simpl; lia|unfold JVM_REF_PRINTSTREAM; words].
Qed.

Lemma op_new_ok f : frame_ok f -> stays (op_new cls c n f) frame_ok.
Proof using Hc Hn Hcls.
  intros Hf. pose proof (pc_nonneg f Hf). unfold op_new. tests.
  apply code_word; [lia|lia|]. intros w Hw.
  eapply (stays_bind _ _ (fun _ => True)).
  { apply stays_or_else; [|done]. eapply stays_bind; [by apply cp_entry_ok|].
    intros e _. by destruct (negb _). }
  intros _ _. apply push_keeps; [apply set_pc_ok; [done|lia]|simpl; lia|apply i32_range].
Qed.

Lemma invoke_target_ok what f : frame_ok f ->
  stays (invoke_target cls c n what f) (fun x => sig_ok x.1.2 /\ frame_ok x.2).
Proof using Hc Hn Hcls.
  intros Hf. pose proof (pc_nonneg f Hf). unfold invoke_target. tests.
  apply code_word; [lia|lia|]. intros w Hw.
  eapply stays_bind; [apply stays_or_else; [by apply cp_resolve_ref_ok|done]|]. intros [[a b] d] _.
  apply stays_ret. split; [apply desc_args_ok|]. apply set_pc_ok; [done|lia].
Qed.
End ops_ok.

(** A result is a value or void. *)
Definition result_ok (r : option Z) : Prop := match r with Some v => is_i32 v | None => True end.

(** The two cases of the test at the head of the goal. *)
Ltac branch := match goal with |- stays (if ?b then _ else _) _ => destruct b eqn:?E end.

Section invokes_ok.
Context (cls : jclass_t) (Hcls : class_ok cls).
Context (c : list Z) (n : Z) (Hc : bytes c) (Hn : n <= Z.of_nat (length c)).
Context (load : list Z -> prog jclass_t) (Hload : forall name, stays (load name) class_ok).
Context (exec : jclass_t -> jmethod_t -> list Z -> prog (option Z)).
Context (Hexec : forall k m args, class_ok k -> method_ok m -> values args -> stays (exec k m args) result_ok).
Implicit Types (f : frame).

(** The arguments and the object below them are popped. *)
Lemma popped_args {A} argc f (k : list Z * frame -> prog A) P : frame_ok f -> 0 <= argc <= sp f ->
  (forall argv f', values argv -> frame_ok f' -> sp f' = sp f - argc -> stays (k (argv, f')) P) ->
  stays (pop_args (Z.to_nat argc) [] f ≫= k) P.
Proof.
  intros Hf Hs Hk. eapply stays_bind; [apply pop_args_ok; [done|lia|constructor]|].
  intros [argv f'] (H1 & _ & H3 & H4). apply Hk; [done|done|]. simpl in H4. lia.
Qed.

Lemma op_invokevirtual_ok f : frame_ok f -> stays (op_invokevirtual cls c n f) frame_ok.
Proof using Hc Hn Hcls.
  intros Hf. unfold op_invokevirtual.
  eapply stays_bind; [by apply invoke_target_ok|]. intros [[[[a b] d] sig] f1] [Hsig Hf1]. cbn [fst snd] in Hsig, Hf1.
  eapply stays_bind; [apply (stays_of_opt _ (fun x => 0 <= x.1)); by intros [k t] ->|].
  intros [argc kind] Hargc. simpl in Hargc. tests.
  apply popped_args; [done|lia|]. intros argv f2 _ Hf2 Hs2.
  apply popped; [done|lia|]. intros obj f3 _ Hf3 _. case_match; [|done].
  eapply stays_bind; [by apply print_arg_ok|]. intros [] _.
  eapply (stays_bind _ _ (fun _ => True)); [by case_match|]. by intros [] _.
Qed.

Lemma op_invokespecial_ok f : frame_ok f -> stays (op_invokespecial cls c n f) frame_ok.
Proof using Hc Hn Hcls.
  intros Hf. unfold op_invokespecial.
  eapply stays_bind; [by apply invoke_target_ok|]. intros [[[[a b] d] sig] f1] [Hsig Hf1]. cbn [fst snd] in Hsig, Hf1.
  eapply stays_bind; [apply (stays_of_opt _ (fun x => 0 <= x.1)); by intros [k t] ->|].
  intros [argc kind] Hargc. simpl in Hargc. tests.
  apply popped_args; [done|lia|]. intros argv f2 _ Hf2 Hs2.
  apply popped; [done|lia|]. intros obj f3 _ Hf3 _. repeat (case_match; [done|]).
  case_match; [|done]. by destruct (negb _).
Qed.

Lemma op_invokestatic_ok f : frame_ok f -> stays (op_invokestatic cls c n load exec f) frame_ok.
Proof using Hc Hn Hcls Hload Hexec.
  intros Hf. unfold op_invokestatic.
  eapply stays_bind; [by apply invoke_target_ok|]. intros [[[[a b] d] sig] f1] [Hsig Hf1]. cbn [fst snd] in Hsig, Hf1.
  eapply stays_bind; [apply (stays_of_opt _ (fun x => 0 <= x.1)); by intros [k t] ->|].
  intros [argc kind] Hargc. simpl in Hargc. tests.
  apply popped_args; [done|lia|]. intros argv f2 Hargv Hf2 Hs2.
  eapply stays_bind; [by apply class_name_eq_ok|]. intros here _.
  eapply (stays_bind _ _ class_ok); [destruct here; [done|apply stays_or_else; [apply Hload|done]]|].
  intros k Hk. eapply stays_bind; [apply stays_or_else; [by apply find_method_bytes_ok|done]|].
  intros m Hm. eapply stays_bind; [by apply Hexec|]. intros [v|] Hr; destruct (negb _); try done.
  tests. by apply push_keeps; [|lia|].
Qed.

Lemma next_ok (m : prog frame) : stays m frame_ok ->
  stays (next m) (fun x => match x with inl f => frame_ok f | inr r => result_ok r end).
Proof. intros Hm. unfold next. by eapply stays_bind. Qed.

Lemma exec_op_ok op p f : frame_ok f ->
  stays (exec_op cls c n load exec op p f)
    (fun x => match x with inl f => frame_ok f | inr r => result_ok r end).
Proof using Hc Hn Hcls Hload Hexec.
  intros Hf. unfold exec_op, between.
  branch; [done|].
  do 12 (branch; [apply next_ok;
    first [apply op_const_ok | apply op_bipush_ok | apply op_sipush_ok | apply op_ldc_ok | apply op_ldc_w_ok
          | apply op_load_ok | apply op_load_n_ok | apply op_store_ok | apply op_store_n_ok];
    first [done | lia | unfold is_i32; lia]|]).
  do 17 (branch; [apply next_ok;
    first [by apply op_pop_ok | by apply op_dup_ok | by apply op_dup_x1_ok | by apply op_swap_ok
          | by apply op_arith_ok | by apply op_irem_ok | by apply op_ineg_ok | by apply op_bits_ok
          | by apply op_iinc_ok | by apply op_if_ok | by apply op_if_cmp_ok | by apply op_goto_ok
          | by apply op_goto_w_ok]|]).
  branch; [eapply stays_bind; [by apply op_ireturn_ok|]; done|].
  branch; [done|].
  do 5 (branch; [apply next_ok;
    first [by apply op_getstatic_ok | by apply op_invokevirtual_ok | by apply op_invokespecial_ok
          | by apply op_new_ok | by apply op_invokestatic_ok]|]).
  done.
Qed.

Lemma exec_turn_ok f : frame_ok f ->
  stays (exec_turn cls c n load exec f)
    (fun x => match x with inl f => frame_ok f | inr r => result_ok r end).
Proof using Hc Hn Hcls Hload Hexec.
  intros Hf. pose proof (pc_nonneg f Hf) as Hpc. unfold exec_turn. branch; [|done].
  eapply code_byte; [done|done|lia|]. intros op Hop.
  apply exec_op_ok. apply set_pc_ok; [done|lia].
Qed.
End invokes_ok.

Lemma start_frame_ok args : values args -> (length args <= 64)%nat -> frame_ok (start_frame args).
Proof.
  intros Ha Hl. unfold start_frame, JVM_STACK_MAX, JVM_LOCALS_MAX. unfold frame_ok.
  cbn [stack sp locals pc]. split_and!; try lia.
  - by rewrite length_replicate.
  - apply Forall_replicate. unfold is_i32. lia.
  - rewrite length_app, length_replicate. lia.
  - apply Forall_app; split; [done|]. apply Forall_replicate. unfold is_i32. lia.
Qed.

(** The classes an archive gives are well formed. *)
Definition jar_ok (rt : option (list Z * Z)) : Prop :=
  forall fuel name, stays (jvm_load_class_from_jar fuel rt name) class_ok.

Lemma exec_method_ok rt calls fuel : jar_ok rt -> forall depth cls m args,
  class_ok cls -> method_ok m -> values args ->
  stays (jvm_exec_method calls fuel rt depth cls m args) result_ok.
Proof.
  intros Hjar. induction calls as [|calls IH]; intros depth cls m args Hcls Hm Hargs; [done|].
  cbn [jvm_exec_method]. unfold method_ok in Hm. destruct (code m) as [c|]; [|done]. destruct Hm as [Hc Hlen].
  do 2 (branch; [done|]). branch; [done|]. unfold JVM_LOCALS_MAX in *.
  apply stays_ploop with (I := frame_ok); [|apply start_frame_ok; [done|lia]].
  intros f Hf. apply exec_turn_ok; try done. intros. by apply IH.
Qed.
