(* ===== verification/JavaFormat.v ===== *)
(** The class file format, as the encoding of an abstract class file: the
    reference the parser of JavaClass.v is checked against.

    [holds_at data off l] says that the bytes [l] stand at [off]; every read
    of the parser is an instance of one of its lemmas. *)
From Stdlib Require Import ZArith Lia Ascii String.
From stdpp Require Import base tactics option numbers list.
From S2P Require Import Prelude Buffer CString Console JavaClass JavaZip Jvm JvmSafe.
#[local] Open Scope Z_scope.

(** * Bytes at an offset *)

Definition be2 (v : Z) : list Z := [v / 256; v mod 256].
Definition be4 (v : Z) : list Z := [v / 16777216; v / 65536 mod 256; v / 256 mod 256; v mod 256].
Definition le2 (v : Z) : list Z := [v mod 256; v / 256].
Definition le4 (v : Z) : list Z := [v mod 256; v / 256 mod 256; v / 65536 mod 256; v / 16777216].

Definition zlen {A} (l : list A) : Z := Z.of_nat (length l).

Lemma zlen_app {A} (a b : list A) : zlen (a ++ b) = zlen a + zlen b.
Proof. unfold zlen. rewrite length_app. lia. Qed.
Lemma zlen_cons {A} (x : A) l : zlen (x :: l) = 1 + zlen l.
Proof. unfold zlen. simpl. lia. Qed.
Lemma zlen_nil {A} : zlen (@nil A) = 0.
Proof. done. Qed.
Lemma zlen_nonneg {A} (l : list A) : 0 <= zlen l.
Proof. unfold zlen. lia. Qed.
Lemma zlen_to_nat {A} (l : list A) : Z.to_nat (zlen l) = length l.
Proof. apply Nat2Z.id. Qed.
Lemma zlen_be2 v : zlen (be2 v) = 2.
Proof. done. Qed.
Lemma zlen_be4 v : zlen (be4 v) = 4.
Proof. done. Qed.
Lemma zlen_le2 v : zlen (le2 v) = 2.
Proof. done. Qed.
Lemma zlen_le4 v : zlen (le4 v) = 4.
Proof. done. Qed.

Create HintDb zlen.
#[export] Hint Rewrite @zlen_app @zlen_cons @zlen_nil zlen_be2 zlen_be4 zlen_le2 zlen_le4 : zlen.

Definition holds_at (data : list Z) (off : Z) (l : list Z) : Prop :=
  exists pre post, data = pre ++ l ++ post /\ zlen pre = off.

Section holds.
Context (data : list Z).
Implicit Types (off : Z) (l : list Z).

Lemma holds_left off a b : holds_at data off (a ++ b) -> holds_at data off a.
Proof. intros (pre & post & -> & <-). exists pre, (b ++ post). by rewrite <- !(assoc_L app). Qed.

Lemma holds_right off a b off' : holds_at data off (a ++ b) -> off' = off + zlen a -> holds_at data off' b.
Proof.
  intros (pre & post & -> & <-) ->. exists (pre ++ a), post.
  split; [by rewrite <- !(assoc_L app)|]. unfold zlen. rewrite length_app. lia.
Qed.

Lemma holds_bound off l : holds_at data off l -> 0 <= off /\ off + zlen l <= zlen data.
Proof. intros (pre & post & -> & <-). unfold zlen. rewrite !length_app. lia. Qed.

Lemma holds_read off l k c : holds_at data off l -> l !! k = Some c -> read data (off + Z.of_nat k) = Ok c.
Proof.
  intros (pre & post & -> & <-) Hk. unfold zlen. pose proof (lookup_lt_Some _ _ _ Hk).
  rewrite read_ok by (rewrite !length_app; lia). f_equal.
  apply byte_at_lookup. rewrite lookup_app_r by lia.
  replace (Z.to_nat _ - length pre)%nat with k by lia. by apply lookup_app_l_Some.
Qed.

Lemma holds_slice off l : holds_at data off l -> slice data off (zlen l) = Ok l.
Proof. intros (pre & post & -> & <-). by apply slice_at. Qed.

Lemma holds_from off l : holds_at data off l -> exists post, from data off = l ++ post.
Proof. intros (pre & post & -> & <-). exists post. by apply from_at. Qed.
End holds.

(** [a] above [k] bits of [b]. *)
Lemma lor_shift a b k : 0 <= k -> 0 <= b < 2 ^ k -> Z.lor (Z.shiftl a k) b = a * 2 ^ k + b.
Proof.
  intros Hk Hb. rewrite Z.shiftl_mul_pow2 by done.
  assert (Z.land (a * 2 ^ k) b = 0) as H.
  { apply Z.bits_inj'. intros n Hn. rewrite Z.land_spec, Z.bits_0.
    destruct (Z.ltb_spec n k); [by rewrite Z.mul_pow2_bits_low|].
    rewrite <- (Z.mod_small b (2 ^ k)) by done. by rewrite (Z.mod_pow2_bits_high b), andb_false_r by lia. }
  by rewrite <- Z.lxor_lor, <- Z.add_nocarry_lxor.
Qed.

Lemma lor_bytes4 b0 b1 b2 b3 : is_u8 b1 -> is_u8 b2 -> is_u8 b3 ->
  Z.lor (Z.lor (Z.lor (Z.shiftl b0 24) (Z.shiftl b1 16)) (Z.shiftl b2 8)) b3 =
  ((b0 * 256 + b1) * 256 + b2) * 256 + b3.
Proof.
  unfold is_u8. intros H1 H2 H3.
  replace (Z.shiftl b0 24) with (Z.shiftl (Z.shiftl (Z.shiftl b0 8) 8) 8) by (by rewrite !Z.shiftl_shiftl by lia).
  replace (Z.shiftl b1 16) with (Z.shiftl (Z.shiftl b1 8) 8) by (by rewrite !Z.shiftl_shiftl by lia).
  rewrite <- !Z.shiftl_lor, !lor_shift by lia. reflexivity.
Qed.

Lemma lor_rev a b c d : Z.lor (Z.lor (Z.lor a b) c) d = Z.lor (Z.lor (Z.lor d c) b) a.
Proof.
  apply Z.bits_inj'. intros n _. rewrite !Z.lor_spec.
  by destruct (Z.testbit a n), (Z.testbit b n), (Z.testbit c n), (Z.testbit d n).
Qed.

Lemma at_be16 data off v : holds_at data off (be2 v) -> is_u16 v -> rd_be16 data off = Ok v.
Proof.
  intros H Hv. unfold rd_be16.
  pose proof (holds_read _ _ _ 0 _ H eq_refl) as R0. pose proof (holds_read _ _ _ 1 _ H eq_refl) as R1.
  change (Z.of_nat 0) with 0 in R0. change (Z.of_nat 1) with 1 in R1. rewrite Z.add_0_r in R0.
  rewrite R0, R1. cbn [mbind outcome_bind]. rewrite lor_shift by words.
  f_equal. change (2 ^ 8) with 256. words.
Qed.

Lemma reads4 data off b0 b1 b2 b3 : holds_at data off [b0; b1; b2; b3] ->
  read data off = Ok b0 /\ read data (off + 1) = Ok b1 /\ read data (off + 2) = Ok b2 /\ read data (off + 3) = Ok b3.
Proof.
  intros H. rewrite <- (Z.add_0_r off) at 1.
  by split_and!; [apply (holds_read _ _ _ 0 _ H)|apply (holds_read _ _ _ 1 _ H)
    |apply (holds_read _ _ _ 2 _ H)|apply (holds_read _ _ _ 3 _ H)].
Qed.

Lemma at_be32 data off v : holds_at data off (be4 v) -> is_u32 v -> rd_be32 data off = Ok v.
Proof.
  intros H Hv. unfold rd_be32. apply reads4 in H as (-> & -> & -> & ->). cbn [mbind outcome_bind].
  rewrite lor_bytes4 by words. f_equal. words.
Qed.

Lemma at_le16 data off v : holds_at data off (le2 v) -> is_u16 v -> rd_le16 data off = Ok v.
Proof.
  intros H Hv. unfold rd_le16.
  pose proof (holds_read _ _ _ 0 _ H eq_refl) as R0. pose proof (holds_read _ _ _ 1 _ H eq_refl) as R1.
  change (Z.of_nat 0) with 0 in R0. change (Z.of_nat 1) with 1 in R1. rewrite Z.add_0_r in R0.
  rewrite R0, R1. cbn [mbind outcome_bind]. rewrite Z.lor_comm, lor_shift by words.
  f_equal. change (2 ^ 8) with 256. words.
Qed.

Lemma at_le32 data off v : holds_at data off (le4 v) -> is_u32 v -> rd_le32 data off = Ok v.
Proof.
  intros H Hv. unfold rd_le32. apply reads4 in H as (-> & -> & -> & ->). cbn [mbind outcome_bind].
  rewrite lor_rev, lor_bytes4 by words. f_equal. words.
Qed.

(** * Class files *)

(** A constant: Utf8, Integer and Float, Long and Double (two slots), the
    kinds with one index (Class, String, MethodType) and with two (the three
    references, NameAndType, InvokeDynamic), and MethodHandle. *)
Inductive const :=
| CUtf8 (s : list Z)
| CWord (t v : Z)
| CWide (t hi lo : Z)
| CIndex (t a : Z)
| CPair (t a b : Z)
| CHandle (k r : Z).

Definition const_wf (k : const) : Prop :=
  match k with
  | CUtf8 s => bytes s /\ is_u16 (zlen s)
  | CWord t v => (t = 3 \/ t = 4) /\ is_u32 v
  | CWide t hi lo => (t = 5 \/ t = 6) /\ is_u32 hi /\ is_u32 lo
  | CIndex t a => (t = 7 \/ t = 8 \/ t = 16) /\ is_u16 a
  | CPair t a b => (t = 9 \/ t = 10 \/ t = 11 \/ t = 12 \/ t = 18) /\ is_u16 a /\ is_u16 b
  | CHandle k r => is_u8 k /\ is_u16 r
  end.

Definition const_tag (k : const) : Z :=
  match k with
  | CUtf8 _ => 1 | CWord t _ => t | CWide t _ _ => t | CIndex t _ => t | CPair t _ _ => t | CHandle _ _ => 15
  end.

Definition const_body (k : const) : list Z :=
  match k with
  | CUtf8 s => be2 (zlen s) ++ s
  | CWord _ v => be4 v
  | CWide _ hi lo => be4 hi ++ be4 lo
  | CIndex _ a => be2 a
  | CPair _ a b => be2 a ++ be2 b
  | CHandle k r => [k] ++ be2 r
  end.

Definition const_slots (k : const) : nat := match k with CWide _ _ _ => 2 | _ => 1 end.

Definition enc_const (k : const) : list Z := [const_tag k] ++ const_body k.
Definition enc_pool (l : list const) : list Z := flat_map enc_const l.
Definition pool_slots (l : list const) : nat := sum_list_with const_slots l.

(** The constant with index [i], counted from 1. *)
Fixpoint const_at (l : list const) (i : nat) : option const :=
  match l, i with
  | k :: _, 1%nat => Some k
  | k :: l, S _ => if (const_slots k <? i)%nat then const_at l (i - const_slots k) else None
  | _, _ => None
  end.

(** An entry of the parsed pool stands for a constant. *)
Definition represents (data : list Z) (k : const) (e : jcp_entry_t) : Prop :=
  match k with
  | CUtf8 s => exists off, e = CpEntry 1 off (zlen s) /\ holds_at data off s
  | CWord t v => e = CpEntry t v 0
  | CWide t _ _ => e = CpEntry t 0 0
  | CIndex t a => e = CpEntry t a 0
  | CPair t a b => e = CpEntry t a b
  | CHandle k r => e = CpEntry 15 k r
  end.

Lemma represents_ok data k e : const_wf k -> represents data k e -> entry_ok (zlen data) e.
Proof.
  destruct k; simpl; intros Hk He.
  - destruct He as (off & -> & H). apply holds_bound in H. intros _. simpl. split_and!; try lia. apply Hk.
  - subst e. unfold entry_ok. simpl. lia.
  - subst e. unfold entry_ok. simpl. lia.
  - subst e. unfold entry_ok. simpl. lia.
  - subst e. unfold entry_ok. simpl. lia.
  - subst e. unfold entry_ok. simpl. lia.
Qed.

Lemma set_cp_ok pool (i : nat) e : (i < length pool)%nat -> set_cp pool (Z.of_nat i) e = mret (<[i := e]> pool).
Proof.
  intros Hi. unfold set_cp. rewrite (proj2 (andb_true_iff _ _)) by lia. by rewrite Nat2Z.id.
Qed.

(** Runs the head of a program whose tests and reads are decided. *)
Ltac run :=
  repeat first
    [ rewrite prog_bind_ret
    | rewrite fail_if_false by lia
    | erewrite prog_bind_lift by eassumption
    | rewrite prog_bind_assoc ].

(** Two results equal up to arithmetic. *)
Ltac same := repeat first [reflexivity | lia | f_equal].

(** The pool after the entry [i]. *)
Definition entry_set (size : Z) (i : nat) (e : jcp_entry_t) (pool pool' : list jcp_entry_t) : Prop :=
  length pool' = 256%nat /\ pool' !! i = Some e /\ (forall j, (j < i)%nat -> pool' !! j = pool !! j) /\
  (Forall (entry_ok size) pool -> Forall (entry_ok size) pool').

Lemma entry_set_insert size i e pool : length pool = 256%nat -> (i < 256)%nat -> entry_ok size e ->
  entry_set size i e pool (<[i := e]> pool).
Proof.
  intros Hl Hi He. split_and!.
  - by rewrite length_insert.
  - apply list_lookup_insert_eq. lia.
  - intros j Hj. apply list_lookup_insert_ne. lia.
  - intros Hp. by apply Forall_insert.
Qed.

Lemma entry_set_wide size i e pool : length pool = 256%nat -> (S i < 256)%nat -> entry_ok size e ->
  entry_set size i e pool (<[S i := CpEntry 0 0 0]> (<[i := e]> pool)).
Proof.
  intros Hl Hi He. split_and!.
  - by rewrite !length_insert.
  - rewrite list_lookup_insert_ne by lia. apply list_lookup_insert_eq. lia.
  - intros j Hj. by rewrite !list_lookup_insert_ne by lia.
  - intros Hp. apply Forall_insert; [by apply Forall_insert|]. unfold entry_ok. simpl. lia.
Qed.

Lemma parse_entry_spec data k (i count : nat) off pool :
  const_wf k -> holds_at data off (const_body k) -> length pool = 256%nat ->
  (i + const_slots k <= count <= 256)%nat ->
  exists e pool', represents data k e /\ entry_set (zlen data) i e pool pool' /\
    parse_entry data (zlen data) (Z.of_nat count) (const_tag k) (Z.of_nat i) off pool =
    mret (Z.of_nat (i + const_slots k - 1), off + zlen (const_body k), pool').
Proof.
  intros Hk Hd Hl Hi. pose proof (holds_bound _ _ _ Hd) as Hb.
  assert (forall e, represents data k e -> entry_ok (zlen data) e) as Hok by (intros; by eapply represents_ok).
  destruct k as [s|t v|t hi lo|t a|t a b|k r]; cbn [const_body const_tag const_slots const_wf] in *;
    autorewrite with zlen in *; unfold parse_entry.
  - assert (rd_be16 data off = Ok (zlen s)) as R by (apply at_be16; [by eapply holds_left|apply Hk]).
    assert (holds_at data (off + 2) s) as Hs by (by eapply holds_right).
    pose proof (zlen_nonneg s). exists (CpEntry 1 (off + 2) (zlen s)). eexists. split; [by exists (off + 2)|].
    split; [apply entry_set_insert; [done|lia|by apply Hok; exists (off + 2)]|]. cbn [Z.eqb Pos.eqb]. run.
    rewrite set_cp_ok by lia. run. same.
  - destruct Hk as [Ht Hv]. assert (rd_be32 data off = Ok v) as R by (by apply at_be32).
    exists (CpEntry t v 0). eexists. split; [done|].
    split; [apply entry_set_insert; [done|lia|by apply Hok]|].
    destruct Ht as [-> | ->]; cbn [Z.eqb Pos.eqb orb]; run; rewrite set_cp_ok by lia; run; same.
  - destruct Hk as [Ht _]. exists (CpEntry t 0 0).
    exists (if (S i <? count)%nat then <[S i := CpEntry 0 0 0]> (<[i := CpEntry t 0 0]> pool) else <[i := CpEntry t 0 0]> pool).
    split; [done|]. rewrite (proj2 (Nat.ltb_lt _ _)) by lia.
    split; [apply entry_set_wide; [done|lia|by apply Hok]|].
    destruct Ht as [-> | ->]; cbn [Z.eqb Pos.eqb orb]; run; rewrite set_cp_ok by lia; run;
      replace (Z.of_nat i + 1) with (Z.of_nat (S i)) by lia; zdec;
      (rewrite set_cp_ok by (rewrite length_insert; lia)); run; same.
  - destruct Hk as [Ht Hv]. assert (rd_be16 data off = Ok a) as R by (by apply at_be16).
    exists (CpEntry t a 0). eexists. split; [done|].
    split; [apply entry_set_insert; [done|lia|by apply Hok]|].
    destruct Ht as [-> | [-> | ->]]; cbn [Z.eqb Pos.eqb orb]; run; rewrite set_cp_ok by lia; run; same.
  - destruct Hk as (Ht & Ha & Hv).
    assert (rd_be16 data off = Ok a) as R by (apply at_be16; [by eapply holds_left|done]).
    assert (rd_be16 data (off + 2) = Ok b) as R' by (apply at_be16; [by eapply holds_right|done]).
    exists (CpEntry t a b). eexists. split; [done|].
    split; [apply entry_set_insert; [done|lia|by apply Hok]|].
    destruct Ht as [-> | [-> | [-> | [-> | ->]]]]; cbn [Z.eqb Pos.eqb orb]; run;
      rewrite set_cp_ok by lia; run; same.
  - destruct Hk as [Ha Hv].
    assert (read data off = Ok k) as R by (rewrite <- (Z.add_0_r off); by apply (holds_read _ _ _ 0 _ Hd)).
    assert (rd_be16 data (off + 1) = Ok r) as R' by (apply at_be16; [by eapply holds_right|done]).
    exists (CpEntry 15 k r). eexists. split; [done|].
    split; [apply entry_set_insert; [done|lia|by apply Hok]|].
    cbn [Z.eqb Pos.eqb orb]; run; rewrite set_cp_ok by lia; run; same.
Qed.

(** The pool read from index [i] on has the constants of [l] there. *)
Definition pool_holds (data : list Z) (l : list const) (i : nat) (pool : list jcp_entry_t) : Prop :=
  length pool = 256%nat /\
  (forall j k, const_at l j = Some k -> exists e, pool !! (i + j - 1)%nat = Some e /\ represents data k e).

Lemma const_at_cons k l j x : const_at (k :: l) j = Some x ->
  (j = 1%nat /\ x = k) \/ ((const_slots k < j)%nat /\ const_at l (j - const_slots k) = Some x).
Proof.
  simpl. destruct j as [|[|j]]; [done|intros [= ->]; by left|]. intros H. right.
  destruct (Nat.ltb_spec (const_slots k) (S (S j))); [done|by destruct k].
Qed.

Lemma slots_pos k : (1 <= const_slots k <= 2)%nat.
Proof. destruct k; simpl; lia. Qed.

Lemma parse_pool_spec data l : forall n i off pool,
  Forall const_wf l -> holds_at data off (enc_pool l) -> length pool = 256%nat ->
  (1 <= i)%nat -> (i + pool_slots l <= 256)%nat -> (length l < n)%nat ->
  exists pool', parse_pool n data (zlen data) (Z.of_nat (i + pool_slots l)) (Z.of_nat i) off pool =
      mret (off + zlen (enc_pool l), pool') /\
    pool_holds data l i pool' /\ (forall j, (j < i)%nat -> pool' !! j = pool !! j) /\
    (Forall (entry_ok (zlen data)) pool -> Forall (entry_ok (zlen data)) pool').
Proof.
  induction l as [|k l IH]; intros n i off pool Hwf Hd Hl Hi Hs Hn; (destruct n as [|n]; [simpl in Hn; lia|]).
  - exists pool. cbn [parse_pool]. unfold pool_slots. simpl. rewrite Nat.add_0_r, Z.ltb_irrefl, Z.add_0_r.
    split; [done|]. split; [|done]. split; [done|]. by intros [].
  - apply Forall_cons in Hwf as [Hk Hwf]. simpl in Hn. change (pool_slots (k :: l)) with (const_slots k + pool_slots l)%nat in *.
    change (enc_pool (k :: l)) with ((([const_tag k] ++ const_body k)) ++ enc_pool l) in *.
    rewrite <- (assoc_L app) in Hd. pose proof (slots_pos k). pose proof (holds_bound _ _ _ Hd) as Hb.
    autorewrite with zlen in Hb. pose proof (zlen_nonneg (const_body k)). pose proof (zlen_nonneg (enc_pool l)).
    destruct (parse_entry_spec data k i (i + (const_slots k + pool_slots l)) (off + 1) pool) as (e & pool1 & He & (Hl1 & Hi1 & Hlt1 & Hok1) & Hrun);
      [done| |done|lia|].
    { eapply holds_left, (holds_right _ _ _ _ _ Hd). done. }
    destruct (IH n (i + const_slots k)%nat (off + 1 + zlen (const_body k)) pool1) as (pool' & Hrest & [Hl' Hat] & Hlt & Hok);
      [done| |done|lia|lia|lia|].
    { eapply (holds_right _ (off + 1)); [by eapply holds_right|done]. }
    exists pool'. split; [|split; [split; [done|]|split]].
    + cbn [parse_pool]. zdec. run.
      assert (read data off = Ok (const_tag k)) as R.
      { rewrite <- (Z.add_0_r off). apply (holds_read _ off _ 0 _ (holds_left _ _ _ _ Hd)). done. }
      run. rewrite Hrun. run.
      replace (Z.of_nat (i + const_slots k - 1) + 1) with (Z.of_nat (i + const_slots k)) by lia.
      replace (i + (const_slots k + pool_slots l))%nat with (i + const_slots k + pool_slots l)%nat by lia.
      rewrite Hrest. autorewrite with zlen. same.
    + intros j x Hx. apply const_at_cons in Hx as [[-> ->]|[Hj Hx]].
      * exists e. split; [|done]. rewrite Hlt by lia. by replace (i + 1 - 1)%nat with i by lia.
      * destruct (Hat _ _ Hx) as (e' & He' & Hr). exists e'. split; [|done].
        by replace (i + j - 1)%nat with (i + const_slots k + (j - const_slots k) - 1)%nat by lia.
    + intros j Hj. rewrite Hlt by lia. by apply Hlt1.
    + auto.
Qed.

(** * Members and attributes *)

(** A Code attribute: the code, and the exception table and attributes that
    follow it; any other attribute. *)
Inductive attr :=
| ACode (name ms ml : Z) (body rest : list Z)
| AOther (name : Z) (info : list Z).

Definition attr_name (a : attr) : Z := match a with ACode n _ _ _ _ => n | AOther n _ => n end.
Definition attr_info (a : attr) : list Z :=
  match a with
  | ACode _ ms ml body rest => be2 ms ++ be2 ml ++ be4 (zlen body) ++ body ++ rest
  | AOther _ info => info
  end.

Record member := Member { mflags : Z; mname : Z; mdesc : Z; mattrs : list attr }.

Record class_file := ClassFile {
  cf_minor : Z; cf_major : Z; cf_pool : list const; cf_access : Z; cf_this : Z; cf_super : Z;
  cf_interfaces : list Z; cf_fields : list member; cf_methods : list member; cf_attrs : list attr }.

Definition enc_attr (a : attr) : list Z := be2 (attr_name a) ++ be4 (zlen (attr_info a)) ++ attr_info a.
Definition enc_attrs (l : list attr) : list Z := be2 (zlen l) ++ flat_map enc_attr l.
Definition enc_member (m : member) : list Z :=
  be2 (mflags m) ++ be2 (mname m) ++ be2 (mdesc m) ++ enc_attrs (mattrs m).
Definition enc_members (l : list member) : list Z := be2 (zlen l) ++ flat_map enc_member l.

Definition encode (c : class_file) : list Z :=
  be4 3405691582 ++ be2 (cf_minor c) ++ be2 (cf_major c) ++
  be2 (1 + Z.of_nat (pool_slots (cf_pool c))) ++ enc_pool (cf_pool c) ++
  be2 (cf_access c) ++ be2 (cf_this c) ++ be2 (cf_super c) ++
  (be2 (zlen (cf_interfaces c)) ++ flat_map be2 (cf_interfaces c)) ++
  enc_members (cf_fields c) ++ enc_members (cf_methods c) ++ enc_attrs (cf_attrs c).

(** The Utf8 constant with an index. *)
Definition utf8_at (l : list const) (i : Z) : option (list Z) :=
  match const_at l (Z.to_nat i) with Some (CUtf8 s) => Some s | _ => None end.

(** The attribute's numbers fit their fields, and the name tells a Code
    attribute from the others. *)
Definition attr_wf (l : list const) (a : attr) : Prop :=
  is_u16 (attr_name a) /\ is_u32 (zlen (attr_info a)) /\ bytes (attr_info a) /\
  match a with
  | ACode _ ms ml body _ => is_u16 ms /\ is_u16 ml /\ utf8_at l (attr_name a) = Some (bs "Code")
  | AOther _ _ => exists s, utf8_at l (attr_name a) = Some s /\ s <> bs "Code"
  end.

Definition member_wf (l : list const) (m : member) : Prop :=
  is_u16 (mflags m) /\ is_u16 (mname m) /\ is_u16 (mdesc m) /\ is_u16 (zlen (mattrs m)) /\
  Forall (attr_wf l) (mattrs m).

(** A class file that the format allows and the parser has room for: fewer
    than 256 constant pool slots and less than 2 GiB. *)
Definition class_wf (c : class_file) : Prop :=
  is_u16 (cf_minor c) /\ is_u16 (cf_major c) /\ (pool_slots (cf_pool c) < 256)%nat /\
  Forall const_wf (cf_pool c) /\ is_u16 (cf_access c) /\ is_u16 (cf_this c) /\ is_u16 (cf_super c) /\
  is_u16 (zlen (cf_interfaces c)) /\ Forall is_u16 (cf_interfaces c) /\
  is_u16 (zlen (cf_fields c)) /\ Forall (member_wf (cf_pool c)) (cf_fields c) /\
  is_u16 (zlen (cf_methods c)) /\ Forall (member_wf (cf_pool c)) (cf_methods c) /\
  is_u16 (zlen (cf_attrs c)) /\ Forall (attr_wf (cf_pool c)) (cf_attrs c) /\
  bytes (encode c) /\ zlen (encode c) < 2147483648.

(** The body the interpreter runs: that of the last Code attribute. *)
Definition code_of (l : list attr) : option (Z * Z * list Z) :=
  foldl (fun r a => match a with ACode _ ms ml body _ => Some (ms, ml, body) | AOther _ _ => r end) None l.

(** The parsed method has the body. *)
Definition body_is (r : option (Z * Z * list Z)) (jm : jmethod_t) : Prop :=
  match r with
  | Some (ms, ml, body) =>
    max_stack jm = ms /\ max_locals jm = ml /\ code_len jm = zlen body /\
    exists rest, code jm = Some (body ++ rest) /\ bytes (body ++ rest)
  | None => code jm = None
  end.

(** The parsed method is the member. *)
Definition method_is (m : member) (jm : jmethod_t) : Prop :=
  access_flags jm = mflags m /\ name_index jm = mname m /\ desc_index jm = mdesc m /\
  body_is (code_of (mattrs m)) jm.

(** * The parser on an encoding *)

Lemma memcmp_eq a : forall b, length a = length b -> memcmp a b (length b) = 0 <-> a = b.
Proof.
  induction a as [|x a IH]; intros [|y b] Hl; try done. injection Hl as Hl.
  specialize (IH b Hl). cbn [length memcmp hd0 byte_at nth tl0 tail].
  unfold hd0, tl0, byte_at. cbn [nth tail].
  destruct (negb _) eqn:E; [|rewrite IH].
  - split; [lia|intros [= -> ->]; lia].
  - split; [intros ->; f_equal; lia|by intros [= _ ->]].
Qed.

Lemma bytes_eq_lit_spec s lit : bytes_eq_lit s lit = bool_decide (s = lit).
Proof.
  unfold bytes_eq_lit. destruct (Nat.eqb_spec (length s) (length lit)) as [Hl|Hl].
  - cbn [andb]. symmetry. destruct (Z.eqb_spec (memcmp s lit (length lit)) 0).
    + apply bool_decide_eq_true. by apply memcmp_eq.
    + apply bool_decide_eq_false. by rewrite <- memcmp_eq.
  - symmetry. apply bool_decide_eq_false. by intros ->.
Qed.

Section parse.
Context (data : list Z) (Hdata : bytes data) (Hsize : zlen data < 2147483648).
Context (l : list const).

(** The offset after an attribute does not wrap. *)
Lemma next_small off n : 0 <= off -> 0 <= n -> off + n <= zlen data -> i32 (off + i32 n) = off + n.
Proof using Hsize. intros. rewrite (i32_small n) by (unfold is_i32; lia). apply i32_small. unfold is_i32; lia. Qed.

(** The two numbers an attribute starts with. *)
Lemma attr_header off a : attr_wf l a -> holds_at data off (enc_attr a) ->
  rd_be16 data off = Ok (attr_name a) /\ rd_be32 data (off + 2) = Ok (zlen (attr_info a)) /\
  holds_at data (off + 6) (attr_info a) /\ 0 <= off /\ off + 6 + zlen (attr_info a) <= zlen data.
Proof.
  intros (H1 & H2 & _) H. unfold enc_attr in H. pose proof (holds_bound _ _ _ H) as Hb.
  autorewrite with zlen in Hb. split_and!; try lia.
  - apply at_be16; [by eapply holds_left|done].
  - apply at_be32; [eapply holds_left; by eapply holds_right|done].
  - eapply holds_right; [by eapply holds_right|]. autorewrite with zlen. lia.
Qed.

Lemma zlen_enc_attr a : zlen (enc_attr a) = 6 + zlen (attr_info a).
Proof. unfold enc_attr. autorewrite with zlen. lia. Qed.

Lemma skip_attributes_spec attrs : forall off, Forall (attr_wf l) attrs ->
  holds_at data off (flat_map enc_attr attrs) ->
  skip_attributes (length attrs) data (zlen data) off = mret (off + zlen (flat_map enc_attr attrs)).
Proof using Hsize.
  induction attrs as [|a attrs IH]; intros off Hwf H; cbn [length skip_attributes flat_map] in *.
  - by rewrite zlen_nil, Z.add_0_r.
  - apply Forall_cons in Hwf as [Ha Hwf].
    destruct (attr_header off a Ha (holds_left _ _ _ _ H)) as (_ & R & _ & H0 & Hb).
    pose proof (zlen_nonneg (attr_info a)).
    run. rewrite next_small by lia. run. rewrite IH; [|done|].
    + autorewrite with zlen. rewrite zlen_enc_attr. same.
    + eapply holds_right; [done|]. rewrite zlen_enc_attr. lia.
Qed.

(** A count and the attributes it counts. *)
Lemma attrs_header off attrs : is_u16 (zlen attrs) -> holds_at data off (enc_attrs attrs) ->
  rd_be16 data off = Ok (zlen attrs) /\ holds_at data (off + 2) (flat_map enc_attr attrs).
Proof.
  intros Hn H. split; [apply at_be16; [by eapply holds_left|done]|by eapply holds_right].
Qed.

(** The fixed part of a member, and its attributes. *)
Lemma member_header off m : member_wf l m -> holds_at data off (enc_member m) ->
  rd_be16 data off = Ok (mflags m) /\ rd_be16 data (off + 2) = Ok (mname m) /\
  rd_be16 data (off + 4) = Ok (mdesc m) /\ rd_be16 data (off + 6) = Ok (zlen (mattrs m)) /\
  holds_at data (off + 8) (flat_map enc_attr (mattrs m)) /\
  0 <= off /\ off + zlen (enc_member m) <= zlen data /\
  zlen (enc_member m) = 8 + zlen (flat_map enc_attr (mattrs m)).
Proof.
  intros (H1 & H2 & H3 & H4 & _) H. pose proof (holds_bound _ _ _ H) as Hb.
  unfold enc_member in H.
  pose proof (holds_right _ _ _ _ (off + 2) H eq_refl) as Ha.
  pose proof (holds_right _ _ _ _ (off + 4) Ha ltac:(rewrite zlen_be2; lia)) as Hc.
  pose proof (holds_right _ _ _ _ (off + 6) Hc ltac:(rewrite zlen_be2; lia)) as Hd.
  destruct (attrs_header _ _ H4 Hd) as [R6 H8]. rewrite <- Z.add_assoc in H8.
  split_and!; try done; try lia.
  - apply at_be16; [by eapply holds_left|done].
  - apply at_be16; [by eapply holds_left|done].
  - apply at_be16; [by eapply holds_left|done].
  - unfold enc_member, enc_attrs. autorewrite with zlen. lia.
Qed.

Lemma skip_fields_spec ms : forall off, Forall (member_wf l) ms ->
  holds_at data off (flat_map enc_member ms) ->
  skip_fields (length ms) data (zlen data) off = mret (off + zlen (flat_map enc_member ms)).
Proof using Hsize.
  induction ms as [|m ms IH]; intros off Hwf H; cbn [length skip_fields flat_map] in *.
  - by rewrite zlen_nil, Z.add_0_r.
  - apply Forall_cons in Hwf as [Hm Hwf].
    destruct (member_header off m Hm (holds_left _ _ _ _ H)) as (_ & _ & _ & R & Ha & H0 & Hb & Hz).
    pose proof (zlen_nonneg (flat_map enc_attr (mattrs m))).
    unfold parse_member_info_skip. run. rewrite zlen_to_nat.
    rewrite skip_attributes_spec by (done || apply Hm). run. rewrite IH; [|done|].
    + autorewrite with zlen. same.
    + eapply holds_right; [done|]. lia.
Qed.

Lemma from_bytes_at off b : holds_at data off b -> exists rest, from data off = b ++ rest /\ bytes (b ++ rest).
Proof using Hdata.
  intros H. destruct (holds_from _ _ _ H) as [rest E]. exists rest. split; [done|]. rewrite <- E.
  by apply from_bytes.
Qed.

(** The body of a Code attribute replaces the method's. *)
Lemma parse_code_spec off a m ms ml body rest : attr_wf l a -> a = ACode (attr_name a) ms ml body rest ->
  holds_at data off (attr_info a) -> 0 <= off -> off + zlen (attr_info a) <= zlen data ->
  exists m', parse_code data (zlen data) off (zlen (attr_info a)) (off + zlen (attr_info a)) m = mret m' /\
    body_is (Some (ms, ml, body)) m' /\
    access_flags m' = access_flags m /\ name_index m' = name_index m /\ desc_index m' = desc_index m.
Proof using Hdata Hsize.
  intros Hwf Ea H H0 Hb. destruct Hwf as (_ & Hlen & _ & Hwf). rewrite Ea in Hwf. destruct Hwf as (Hms & Hml & _).
  rewrite Ea in *. cbn [attr_info] in *. set (n := zlen (be2 ms ++ _)) in *.
  assert (n = 8 + zlen body + zlen rest) as Hn by (unfold n; autorewrite with zlen; lia).
  pose proof (zlen_nonneg body). pose proof (zlen_nonneg rest).
  assert (is_u32 (zlen body)) as Hbody by (unfold is_u32 in *; lia).
  pose proof (holds_right _ _ _ _ (off + 2) H eq_refl) as K2.
  pose proof (holds_right _ _ _ _ (off + 4) K2 ltac:(rewrite zlen_be2; lia)) as K4.
  pose proof (holds_right _ _ _ _ (off + 8) K4 ltac:(rewrite zlen_be4; lia)) as K8.
  destruct (from_bytes_at (off + 8) (body ++ rest) K8) as (post & Hfrom & Hpost).
  exists (Method (access_flags m) (name_index m) (desc_index m) ms ml (Some (from data (off + 8))) (zlen body)).
  split; [|split; [|done]].
  - unfold parse_code. rewrite (proj2 (andb_true_iff _ _)) by lia.
    assert (rd_be32 data (off + 4) = Ok (zlen body)) as R4 by (apply at_be32; [by eapply holds_left|done]).
    assert (rd_be16 data off = Ok ms) as R0 by (apply at_be16; [by eapply holds_left|done]).
    assert (rd_be16 data (off + 2) = Ok ml) as R2 by (apply at_be16; [by eapply holds_left|done]).
    run. rewrite (next_small (off + 8)) by lia. zdec. run. done.
  - cbn [body_is max_stack max_locals code_len code]. split_and!; [done|done|done|].
    exists (rest ++ post). rewrite Hfrom. rewrite <- (assoc_L app) in *. done.
Qed.

(** The class whose constant pool has been read. *)
Context (jc : jclass_t) (Hbytes : cbytes jc = data) (Hcsize : csize jc = zlen data).
Context (Hcount : cp_count jc = Z.of_nat (1 + pool_slots l)) (Hcp : pool_holds data l 1 (cp jc)).
Context (Hlwf : Forall const_wf l).

Lemma const_at_bound k : forall j x, const_at k j = Some x -> (1 <= j <= pool_slots k)%nat /\ x ∈ k.
Proof.
  induction k as [|c k IH]; intros j x H; [by destruct j|].
  change (pool_slots (c :: k)) with (const_slots c + pool_slots k)%nat. pose proof (slots_pos c).
  apply const_at_cons in H as [[-> ->]|[Hj H]]; [split; [lia|by left]|].
  apply IH in H as [Hb Hin]. split; [lia|by right].
Qed.

Lemma cp_entry_at idx k : const_at l (Z.to_nat idx) = Some k ->
  exists e, cp_entry jc idx = mret e /\ represents data k e /\ const_wf k.
Proof using Hcount Hcp Hlwf.
  intros H. destruct (const_at_bound _ _ _ H) as [Hb Hin].
  destruct Hcp as [_ Hat]. destruct (Hat _ _ H) as (e & He & Hr).
  exists e. split; [|split; [done|by apply (proj1 (Forall_forall _ _) Hlwf)]].
  unfold cp_entry. run. replace (1 + Z.to_nat idx - 1)%nat with (Z.to_nat idx) in He by lia. by rewrite He.
Qed.

Lemma cp_utf8_at idx s : utf8_at l idx = Some s -> cp_utf8 jc idx = mret s.
Proof using Hbytes Hcsize Hcount Hcp Hlwf Hsize.
  unfold utf8_at. destruct (const_at _ _) as [[u| | | | |]|] eqn:E; try done. intros [= ->].
  destruct (cp_entry_at _ _ E) as (e & Hrun & (off & -> & Hat) & [_ Hlen]).
  unfold cp_utf8. rewrite Hrun. run. cbn [tag cp_a cp_b Z.eqb Pos.eqb negb].
  pose proof (holds_bound _ _ _ Hat). pose proof (zlen_nonneg s).
  rewrite Hcsize, (i32_small off), next_small by (unfold is_i32; lia). run.
  rewrite Hbytes, u16_small by done. by rewrite (holds_slice _ _ _ Hat).
Qed.

Lemma cp_utf8_eq_at idx s lit : utf8_at l idx = Some s -> cp_utf8_eq jc idx lit = mret (bool_decide (s = lit)).
Proof using Hbytes Hcsize Hcount Hcp Hlwf Hsize.
  intros H. unfold cp_utf8_eq. rewrite (cp_utf8_at _ _ H). cbn [attempt mret prog_ret].
  rewrite <- bytes_eq_lit_spec. done.
Qed.

Lemma method_attributes_spec attrs : forall off m r, Forall (attr_wf l) attrs ->
  holds_at data off (flat_map enc_attr attrs) -> body_is r m ->
  exists m', method_attributes (length attrs) jc data (zlen data) off m =
      mret (off + zlen (flat_map enc_attr attrs), m') /\
    body_is (foldl (fun r a => match a with ACode _ ms ml body _ => Some (ms, ml, body) | AOther _ _ => r end) r attrs) m' /\
    access_flags m' = access_flags m /\ name_index m' = name_index m /\ desc_index m' = desc_index m.
Proof using Hdata Hsize Hbytes Hcsize Hcount Hcp Hlwf.
  induction attrs as [|a attrs IH]; intros off m r Hwf H Hm; cbn [length method_attributes flat_map foldl] in *.
  - exists m. by rewrite zlen_nil, Z.add_0_r.
  - apply Forall_cons in Hwf as [Ha Hwf].
    destruct (attr_header off a Ha (holds_left _ _ _ _ H)) as (R0 & R & Hi & H0 & Hb).
    pose proof (zlen_nonneg (attr_info a)).
    assert (holds_at data (off + 6 + zlen (attr_info a)) (flat_map enc_attr attrs)) as Hrest.
    { eapply holds_right; [done|]. rewrite zlen_enc_attr. lia. }
    autorewrite with zlen. rewrite zlen_enc_attr.
    replace (off + (6 + zlen (attr_info a) + zlen (flat_map enc_attr attrs)))
      with (off + 6 + zlen (attr_info a) + zlen (flat_map enc_attr attrs)) by lia.
    run. rewrite next_small by lia. run. destruct a as [n ms ml body rest|n info].
    + pose proof Ha as (_ & _ & _ & _ & _ & Hname). cbn [attr_name] in *.
      rewrite (cp_utf8_eq_at _ _ _ Hname), bool_decide_true by done. run.
      destruct (parse_code_spec (off + 6) _ m ms ml body rest Ha eq_refl Hi ltac:(lia) ltac:(lia))
        as (m1 & Hrun & Hbody & Hf).
      rewrite Hrun. run. destruct (IH _ m1 _ Hwf Hrest Hbody) as (m' & Hrun' & Hbody' & Hf').
      exists m'. split; [done|]. split; [done|]. destruct Hf as (<- & <- & <-). done.
    + pose proof Ha as (_ & _ & _ & s & Hname & Hne). cbn [attr_name] in *.
      rewrite (cp_utf8_eq_at _ _ _ Hname), bool_decide_false by done. run. by apply IH.
Qed.

Lemma parse_methods_spec ms : forall off jms, Forall (member_wf l) ms ->
  holds_at data off (flat_map enc_member ms) -> (length jms <= 64)%nat ->
  exists new, parse_methods (length ms) jc data (zlen data) off jms =
      mret (off + zlen (flat_map enc_member ms), take 64 (jms ++ new)) /\
    Forall2 method_is ms new.
Proof using Hdata Hsize Hbytes Hcsize Hcount Hcp Hlwf.
  induction ms as [|m ms IH]; intros off jms Hwf H Hl; cbn [length parse_methods flat_map] in *.
  - exists []. rewrite zlen_nil, Z.add_0_r, app_nil_r, take_ge by lia. done.
  - apply Forall_cons in Hwf as [Hm Hwf].
    destruct (member_header off m Hm (holds_left _ _ _ _ H)) as (R0 & R2 & R4 & R6 & Ha & H0 & Hb & Hz).
    pose proof (zlen_nonneg (flat_map enc_attr (mattrs m))).
    destruct (method_attributes_spec (mattrs m) (off + 8)
      (Method (mflags m) (mname m) (mdesc m) 0 0 None 0) None) as (m' & Hrun & Hbody & Hf); [apply Hm|done|done|].
    assert (holds_at data (off + 8 + zlen (flat_map enc_attr (mattrs m))) (flat_map enc_member ms)) as Hrest.
    { eapply holds_right; [done|]. lia. }
    unfold parse_method. run. rewrite zlen_to_nat, Hrun. run. autorewrite with zlen. rewrite Hz.
    destruct (IH _ (if Z.of_nat (length jms) <? JVM_METHOD_MAX then jms ++ [m'] else jms) Hwf Hrest) as (new & Hrun' & Hnew).
    { unfold JVM_METHOD_MAX. destruct (Z.ltb_spec (Z.of_nat (length jms)) 64); [rewrite length_app; simpl|]; lia. }
    exists (m' :: new). rewrite Hrun'. split; [|constructor; [|done]].
    + replace (take 64 (jms ++ m' :: new)) with
        (take 64 ((if Z.of_nat (length jms) <? JVM_METHOD_MAX then jms ++ [m'] else jms) ++ new)); [same|].
      unfold JVM_METHOD_MAX. destruct (Z.ltb_spec (Z.of_nat (length jms)) 64).
      * by rewrite <- (assoc_L app).
      * by rewrite !take_app_length' by lia.
    + destruct Hf as (Hf1 & Hf2 & Hf3). by split_and!.
Qed.
End parse.
