(* ===== verification/JavaProps.v ===== *)
(** The class file parser and the interpreter on well-formed class files:
    parsing gives back the class that was encoded, and running any method of
    it keeps the machine state well typed. *)
From Stdlib Require Import ZArith Lia Ascii String.
From stdpp Require Import base tactics option numbers list.
From S2P Require Import Prelude Buffer CString Console JavaClass JavaZip Jvm JvmSafe JavaFormat.
#[local] Open Scope Z_scope.

Lemma zlen_be2s l : zlen (flat_map be2 l) = zlen l * 2.
Proof. induction l as [|x l IH]; [done|]. cbn [flat_map]. autorewrite with zlen. lia. Qed.

(** The elements of a counted list. *)
Lemma counted_right data off n l rest : holds_at data off ((be2 n ++ l) ++ rest) -> holds_at data (off + 2) l.
Proof. intros H. eapply holds_right; [by eapply holds_left|done]. Qed.

(** What the constant pool is followed by. *)
Lemma parse_members_spec c data off pool : class_wf c -> data = encode c ->
  pool_holds data (cf_pool c) 1 pool ->
  holds_at data off (be2 (cf_access c) ++ be2 (cf_this c) ++ be2 (cf_super c) ++
    (be2 (zlen (cf_interfaces c)) ++ flat_map be2 (cf_interfaces c)) ++
    enc_members (cf_fields c) ++ enc_members (cf_methods c) ++ enc_attrs (cf_attrs c)) ->
  exists jms, Forall2 method_is (cf_methods c) jms /\
    parse_members data (zlen data) (cf_minor c) (cf_major c) (Z.of_nat (1 + pool_slots (cf_pool c))) off pool =
    mret (Class_ data (zlen data) (cf_minor c) (cf_major c) (Z.of_nat (1 + pool_slots (cf_pool c))) pool
            (cf_this c) (take 64 jms)).
Proof.
  intros (_ & _ & _ & Hpool & _ & Hthis & _ & Hni & Hin & Hnf & Hf & Hnm & Hm & Hna & Ha & Hb & Hs) -> Hcp H.
  set (data := encode c) in *.
  pose proof (holds_right _ _ _ _ (off + 2) H eq_refl) as K2.
  pose proof (holds_right _ _ _ _ (off + 4) K2 ltac:(rewrite zlen_be2; lia)) as K4.
  pose proof (holds_right _ _ _ _ (off + 6) K4 ltac:(rewrite zlen_be2; lia)) as K6.
  pose proof (zlen_be2s (cf_interfaces c)) as Hi2.
  set (n := zlen (cf_interfaces c)) in *.
  pose proof (holds_right _ _ _ _ (off + 8 + n * 2) K6 ltac:(autorewrite with zlen; lia)) as K8.
  set (mf := zlen (flat_map enc_member (cf_fields c))).
  pose proof (holds_right _ _ _ _ (off + 8 + n * 2 + 2 + mf) K8
    ltac:(unfold enc_members; autorewrite with zlen; lia)) as K9.
  set (mm := zlen (flat_map enc_member (cf_methods c))).
  pose proof (holds_right _ _ _ _ (off + 8 + n * 2 + 2 + mf + 2 + mm) K9
    ltac:(unfold enc_members; autorewrite with zlen; lia)) as K10.
  pose proof (holds_bound _ _ _ H) as B0. pose proof (holds_bound _ _ _ K8) as B8.
  pose proof (holds_bound _ _ _ K9) as B9. pose proof (holds_bound _ _ _ K10) as B10.
  unfold enc_members, enc_attrs in B8, B9, B10. autorewrite with zlen in B8, B9, B10.
  pose proof (zlen_nonneg (flat_map enc_attr (cf_attrs c))). fold mf in B8. fold mm in B8, B9.
  assert (0 <= mf) by apply zlen_nonneg. assert (0 <= mm) by apply zlen_nonneg.
  unfold is_u16 in Hni.
  assert (rd_be16 data (off + 2) = Ok (cf_this c)) as R2 by (apply at_be16; [by eapply holds_left|done]).
  assert (rd_be16 data (off + 6) = Ok n) as R6.
  { apply at_be16; [by do 2 eapply holds_left|done]. }
  assert (rd_be16 data (off + 8 + n * 2) = Ok (zlen (cf_fields c))) as R8.
  { apply at_be16; [by do 2 eapply holds_left|done]. }
  assert (rd_be16 data (off + 8 + n * 2 + 2 + mf) = Ok (zlen (cf_methods c))) as R9.
  { apply at_be16; [by do 2 eapply holds_left|done]. }
  destruct (attrs_header data _ _ Hna K10) as [R10 K11].
  set (jc := Class_ data (zlen data) (cf_minor c) (cf_major c) (Z.of_nat (1 + pool_slots (cf_pool c))) pool (cf_this c) []).
  destruct (parse_methods_spec data Hb Hs (cf_pool c) jc eq_refl eq_refl eq_refl Hcp Hpool
    (cf_methods c) (off + 8 + n * 2 + 2 + mf + 2) []) as (jms & Hrun & Hjms);
    [done|by apply (counted_right _ _ _ _ _ K9)|simpl; lia|].
  exists jms. split; [done|]. unfold parse_members. run.
  rewrite zlen_to_nat, (skip_fields_spec data Hs (cf_pool c)) by (done || by apply (counted_right _ _ _ _ _ K8)).
  fold mf. run. rewrite zlen_to_nat. fold jc. rewrite Hrun. fold mm. run.
  rewrite zlen_to_nat, (skip_attributes_spec data Hs (cf_pool c)) by done. run. done.
Qed.

Lemma parse_class_spec c : class_wf c ->
  exists pool jms, pool_holds (encode c) (cf_pool c) 1 pool /\
    Forall (entry_ok (zlen (encode c))) pool /\ Forall2 method_is (cf_methods c) jms /\
    jvm_parse_class (encode c) (zlen (encode c)) =
    mret (Class_ (encode c) (zlen (encode c)) (cf_minor c) (cf_major c)
            (Z.of_nat (1 + pool_slots (cf_pool c))) pool (cf_this c) (take 64 jms)).
Proof.
  intros Hwf. pose proof Hwf as (Hmin & Hmaj & Hslots & Hpool & _).
  set (data := encode c). assert (holds_at data 0 (encode c)) as H.
  { exists [], []. by rewrite app_nil_r. }
  unfold encode in H. pose proof (holds_bound _ _ _ H) as B. autorewrite with zlen in B.
  pose proof (holds_right _ _ _ _ 4 H eq_refl) as K4. pose proof (holds_right _ _ _ _ 6 K4 eq_refl) as K6.
  pose proof (holds_right _ _ _ _ 8 K6 eq_refl) as K8. pose proof (holds_right _ _ _ _ 10 K8 eq_refl) as K10.
  pose proof (holds_right _ _ _ _ _ K10 eq_refl) as Kp.
  assert (rd_be32 data 0 = Ok 3405691582) as R0 by (apply at_be32; [by eapply holds_left|words]).
  assert (rd_be16 data 4 = Ok (cf_minor c)) as R4 by (apply at_be16; [by eapply holds_left|done]).
  assert (rd_be16 data 6 = Ok (cf_major c)) as R6 by (apply at_be16; [by eapply holds_left|done]).
  assert (rd_be16 data 8 = Ok (Z.of_nat (1 + pool_slots (cf_pool c)))) as R8.
  { apply at_be16; [|unfold is_u16; lia]. rewrite Nat2Z.inj_add. by eapply holds_left. }
  destruct (parse_pool_spec data (cf_pool c) 257 1 10 (replicate 256 (CpEntry 0 0 0)))
    as (pool & Hrun & Hcp & _ & Hok);
    [done|by eapply holds_left|done|lia|lia| |].
  { assert (length (cf_pool c) <= pool_slots (cf_pool c))%nat; [|lia].
    clear. induction (cf_pool c) as [|k l IH]; [done|]. pose proof (slots_pos k).
    change (pool_slots (k :: l)) with (const_slots k + pool_slots l)%nat. simpl. lia. }
  destruct (parse_members_spec c data _ pool Hwf eq_refl Hcp Kp) as (jms & Hjms & Hrest).
  exists pool, jms. split; [done|]. split; [|split; [done|]].
  { apply Hok, Forall_replicate. unfold entry_ok. simpl. lia. }
  pose proof (zlen_nonneg data). fold data.
  unfold jvm_parse_class, JVM_CP_MAX.
  assert (10 <= zlen data).
  { pose proof (zlen_nonneg (enc_pool (cf_pool c))). pose proof (zlen_nonneg (flat_map be2 (cf_interfaces c))).
    pose proof (zlen_nonneg (enc_members (cf_fields c))). pose proof (zlen_nonneg (enc_members (cf_methods c))).
    pose proof (zlen_nonneg (enc_attrs (cf_attrs c))). lia. }
  assert ((Z.of_nat (1 + pool_slots (cf_pool c)) =? 0) = false) as E0 by (apply Z.eqb_neq; lia).
  assert ((Z.of_nat (1 + pool_slots (cf_pool c)) >? 256) = false) as E1
    by (rewrite Z.gtb_ltb; apply Z.ltb_ge; lia).
  run. rewrite E0, E1. cbn [orb]. run.
  change (S (Z.to_nat 256)) with 257%nat. change (Z.to_nat 256) with 256%nat. change (Z.of_nat 1) with 1 in Hrun.
  rewrite Hrun. run. apply Hrest.
Qed.

(** The class the parser leaves is well formed for the interpreter. *)
Lemma parsed_ok c pool jms : class_wf c -> pool_holds (encode c) (cf_pool c) 1 pool ->
  Forall (entry_ok (zlen (encode c))) pool -> Forall2 method_is (cf_methods c) jms ->
  class_ok (Class_ (encode c) (zlen (encode c)) (cf_minor c) (cf_major c)
    (Z.of_nat (1 + pool_slots (cf_pool c))) pool (cf_this c) (take 64 jms)).
Proof.
  intros Hwf Hcp Hok Hjms. destruct Hwf as (_ & _ & Hslots & _ & _ & _ & _ & _ & _ & _ & _ & _ & _ & _ & _ & Hb & Hs).
  unfold class_ok. cbn [cbytes csize cp_count cp methods]. split_and!; try done.
  - lia.
  - apply Hcp.
  - apply Forall_take. clear -Hjms. induction Hjms as [|m jm ms jms H _ IH]; [constructor|].
    constructor; [|done]. destruct H as (_ & _ & _ & H). unfold method_ok, body_is in *.
    destruct (code_of (mattrs m)) as [[[ms0 ml] body]|]; [|by rewrite H].
    destruct H as (_ & _ & Hn & rest & -> & Hbytes). split; [done|]. rewrite Hn.
    rewrite length_app. unfold zlen. pose proof (i32_range (Z.of_nat (length body))). words.
Qed.

(** C17: Parsing the encoding of a class file gives that class back: its
    version, its constant pool entry by entry, its class index and its
    methods (the first 64), each with the code, stack and locals of its last
    Code attribute and whatever other attributes, fields and interfaces
    surround it; every Utf8 constant is looked up by its index; and the parsed
    class is well formed for the interpreter. *)
Theorem class_roundtrip c (Hwf : class_wf c) :
  exists cls, jvm_parse_class (encode c) (zlen (encode c)) = mret cls /\
    minor cls = cf_minor c /\ major cls = cf_major c /\ this_class cls = cf_this c /\
    (forall i k, const_at (cf_pool c) i = Some k ->
       exists e, cp cls !! i = Some e /\ represents (encode c) k e) /\
    (forall i s, utf8_at (cf_pool c) i = Some s -> cp_utf8 cls i = mret s) /\
    Forall2 method_is (take 64 (cf_methods c)) (methods cls) /\ class_ok cls.
Proof.
  destruct (parse_class_spec c Hwf) as (pool & jms & Hcp & Hok & Hjms & Hrun).
  pose proof (parsed_ok c pool jms Hwf Hcp Hok Hjms) as Hcls. pose proof Hwf as (_ & _ & Hslots & Hpool & _ & _ & _ & _ & _ & _ & _ & _ & _ & _ & _ & _ & Hs).
  eexists. split; [exact Hrun|]. cbn [minor major this_class cp methods].
  split_and!; try done.
  - intros i k H. destruct Hcp as [_ Hat]. destruct (Hat _ _ H) as (e & He & Hr). exists e.
    by replace (1 + i - 1)%nat with i in He by lia.
  - intros i s H. by eapply (cp_utf8_at (encode c) Hs (cf_pool c)).
  - by apply Forall2_take.
Qed.

(** C16: Type safety of the bytecode interpreter.  Whatever the bytecode in a
    well-formed class file (one that is not in an archive), running any of its methods on 32-bit arguments
    never reads or writes outside the 256-cell stack, the 64 locals, the code
    or the constant pool, at any call depth, and a returned value is a 32-bit
    integer; and each turn of the loop leaves a well-typed frame: the stack
    pointer within the stack, every cell and local a 32-bit value. *)
Theorem jvm_type_safe c (Hwf : class_wf c) :
  exists cls, jvm_parse_class (encode c) (zlen (encode c)) = mret cls /\
    forall m, m ∈ methods cls -> forall calls fuel depth args, values args ->
      jvm_exec_method calls fuel None depth cls m args <> Stuck OutOfBounds /\
      (forall o v, jvm_exec_method calls fuel None depth cls m args = Ok (o, Some (Some v)) -> is_i32 v) /\
      (forall f body, code m = Some body -> frame_ok f ->
         stays (exec_turn cls body (i32 (code_len m)) (jvm_load_class_from_jar fuel None)
                  (fun cls m args => jvm_exec_method calls fuel None (depth + 1) cls m args) f)
           (fun x => match x with inl f' => frame_ok f' | inr r => result_ok r end)).
Proof.
  destruct (parse_class_spec c Hwf) as (pool & jms & Hcp & Hok & Hjms & Hrun).
  pose proof (parsed_ok c pool jms Hwf Hcp Hok Hjms) as Hcls. set (cls := Class_ _ _ _ _ _ _ _ _) in *.
  exists cls. split; [done|]. intros m Hin calls fuel depth args Hargs.
  assert (method_ok m) as Hm by (eapply Forall_forall; [apply Hcls|done]).
  assert (jar_ok None) as Hjar by (intros fuel' name; done).
  pose proof (exec_method_ok None calls fuel Hjar depth cls m args Hcls Hm Hargs) as Hs.
  split; [by eapply stays_not_oob|]. split.
  - intros o v E. by rewrite E in Hs.
  - intros f body Hbody Hf. unfold method_ok in Hm. rewrite Hbody in Hm.
    apply exec_turn_ok; try done; [apply Hm|apply Hm|].
    intros. by apply exec_method_ok.
Qed.

(** * A class file *)

(** [static void main() { int s = 0; for (int i = 10; i > 0; i--) s += i;
    System.out.println(s); }] in the class [Main]. *)
Definition demo_body : list Z :=
  [3; 59; 16; 10; 60; 27; 158; 0; 13; 26; 27; 96; 59; 132; 1; 255; 167; 255; 245;
   178; 0; 11; 26; 182; 0; 17; 177].

Definition demo_class : class_file :=
  ClassFile 0 52
    [CUtf8 (bs "Code"); CUtf8 (bs "main"); CUtf8 (bs "()V"); CUtf8 (bs "Main"); CIndex 7 4;
     CUtf8 (bs "java/lang/System"); CIndex 7 6; CUtf8 (bs "out"); CUtf8 (bs "Ljava/io/PrintStream;");
     CPair 12 8 9; CPair 9 7 10; CUtf8 (bs "java/io/PrintStream"); CIndex 7 12; CUtf8 (bs "println");
     CUtf8 (bs "(I)V"); CPair 12 14 15; CPair 10 13 16; CUtf8 (bs "SourceFile"); CWide 5 0 7]
    33 5 0 [] []
    [Member 9 2 3 [ACode 1 2 2 demo_body [0; 0; 0; 0]]]
    [AOther 18 [0; 1]].

Lemma bytes_decide l : bool_decide (Forall (fun z => 0 <= z /\ z < 256) l) = true -> bytes l.
Proof. intros H. by apply bool_decide_eq_true in H. Qed.

(** Closes a range goal on literals. *)
Ltac literal := unfold is_u8, is_u16, is_u32; vm_compute; split; congruence.

Lemma demo_pool_wf : Forall const_wf (cf_pool demo_class).
Proof.
  repeat (apply Forall_cons; split;
    [cbn [const_wf]; first
      [split; [apply bytes_decide; by vm_compute|literal]
      |split; [lia|literal] | split; [lia|split; literal]]|]).
  constructor.
Qed.

Lemma demo_attrs_wf : Forall (attr_wf (cf_pool demo_class)) (cf_attrs demo_class).
Proof.
  apply Forall_cons. split; [|constructor]. split; [literal|]. split; [literal|].
  split; [apply bytes_decide; by vm_compute|].
  exists (bs "SourceFile"). split; [by vm_compute|]. intros E. apply (f_equal length) in E. by vm_compute in E.
Qed.

Lemma demo_methods_wf : Forall (member_wf (cf_pool demo_class)) (cf_methods demo_class).
Proof.
  apply Forall_cons. split; [|constructor]. unfold member_wf. do 4 (split; [literal|]).
  apply Forall_cons. split; [|constructor]. split; [literal|]. split; [literal|].
  split; [apply bytes_decide; by vm_compute|]. do 2 (split; [literal|]). by vm_compute.
Qed.

Lemma demo_wf_class : class_wf demo_class.
Proof.
  unfold class_wf. do 2 (split; [literal|]). split; [vm_compute; lia|]. split; [apply demo_pool_wf|].
  do 4 (split; [literal|]). split; [constructor|]. split; [literal|]. split; [constructor|].
  split; [literal|]. split; [apply demo_methods_wf|]. split; [literal|]. split; [apply demo_attrs_wf|].
  split; [apply bytes_decide; by vm_compute|by vm_compute].
Qed.

(** It runs and prints the sum. *)
Example demo_runs : jvm_execute_class 1 100 (encode demo_class) (zlen (encode demo_class)) =
  Ok (bs "java: TinyJVM class mode (extended)" ++ [10] ++ bs "  ClassFile version 52.0" ++ [10] ++
      bs "55" ++ [10], Some tt).
Proof. by vm_compute. Qed.

Lemma class_roundtrip_witness :
  exists cls, jvm_parse_class (encode demo_class) (zlen (encode demo_class)) = mret cls /\
    cp_utf8 cls 14 = mret (bs "println") /\ class_ok cls.
Proof.
  destruct (class_roundtrip demo_class demo_wf_class) as (cls & H & _ & _ & _ & _ & Hu & _ & Hok).
  exists cls. split; [exact H|]. split; [apply Hu; reflexivity|exact Hok].
Defined.

Lemma jvm_type_safe_witness :
  exists cls, jvm_parse_class (encode demo_class) (zlen (encode demo_class)) = mret cls /\
    forall m, m ∈ methods cls -> jvm_exec_method 1 100 None 0 cls m [] <> Stuck OutOfBounds.
Proof.
  destruct (jvm_type_safe demo_class demo_wf_class) as (cls & H & Hm).
  exists cls. split; [exact H|]. intros m Hin. apply (Hm m Hin 1%nat 100%nat 0 []). constructor.
Defined.

(** A class whose only class attribute claims 4 294 967 280 bytes sends the
    parser 16 bytes back; one whose field has such an attribute makes it read
    before the start of the file. *)
Example negative_attribute_length :
  jvm_parse_class (be4 3405691582 ++ be2 0 ++ be2 52 ++ be2 1 ++ be2 33 ++ be2 0 ++ be2 0 ++ be2 0 ++
    be2 1 ++ be2 0 ++ be2 0 ++ be2 0 ++ be2 1 ++ be2 0 ++ be4 4294967196 ++ be2 0 ++ be2 0) 42 =
  Stuck OutOfBounds.
Proof. by vm_compute. Qed.
