(* ===== verification/HjarProps.v ===== *)
(** HJAR programs compute: a compiler from printing statements over integer
    expressions to the HJAR format, and the proof that running the compiled
    file does what the statements say, errors included. *)
From Stdlib Require Import ZArith Lia Ascii String.
From stdpp Require Import base tactics option numbers list.
From S2P Require Import Prelude Buffer CString Console JavaClass JavaZip Jvm JvmSafe JavaFormat Hjar.
#[local] Open Scope Z_scope.

Inductive aop := Add | Sub | Mul | Div.
Inductive aexp := Lit (n : Z) | Bin (op : aop) (a b : aexp).
Inductive stmt := Print (e : aexp) | Text (s : list Z).

(** * Meaning *)

Definition apply_op (op : aop) (a b : Z) : prog Z :=
  match op with
  | Add => mret (i32 (a + b))
  | Sub => mret (i32 (a - b))
  | Mul => mret (i32 (a * b))
  | Div => if b =? 0 then die (bs "java: divide by zero" ++ [10]) else lift (quot32 a b)
  end.

Fixpoint eval (e : aexp) : prog Z :=
  match e with
  | Lit n => mret n
  | Bin op a b => x ← eval a; y ← eval b; apply_op op x y
  end.

Fixpoint meaning (ss : list stmt) : prog unit :=
  match ss with
  | [] => say [10]
  | Print e :: ss => v ← eval e; term_print_i32 v;; meaning ss
  | Text s :: ss => say s;; meaning ss
  end.

Lemma apply_op_silent op a b o v : apply_op op a b = Ok (o, Some v) -> o = [].
Proof.
  unfold apply_op, mret, prog_ret, lift, die, quot32. intros H.
  destruct op; [congruence..|]. destruct (b =? 0); [congruence|]. destruct (_ && _); congruence.
Qed.

(** * Compilation *)

Definition opcode (op : aop) : Z :=
  match op with Add => 96 | Sub => 100 | Mul => 104 | Div => 108 end.

Fixpoint compile (e : aexp) : list Z :=
  match e with
  | Lit n => [16; u8 n]
  | Bin op a b => compile a ++ compile b ++ [opcode op]
  end.

Definition compile_stmt (s : stmt) : list Z :=
  match s with
  | Print e => compile e ++ [254]
  | Text t => [252; zlen t] ++ t
  end.

Definition hjar_file (version : Z) (ss : list stmt) : list Z :=
  bs "HJAR" ++ [version] ++ flat_map compile_stmt ss ++ [177].

(** The stack an expression needs, and its instructions. *)
Fixpoint depth (e : aexp) : nat :=
  match e with Lit _ => 1 | Bin _ a b => Nat.max (depth a) (S (depth b)) end.
Fixpoint turns (e : aexp) : nat :=
  match e with Lit _ => 1 | Bin _ a b => turns a + turns b + 1 end.

Fixpoint lits_ok (e : aexp) : Prop :=
  match e with Lit n => -128 <= n < 128 | Bin _ a b => lits_ok a /\ lits_ok b end.

Definition stmt_wf (s : stmt) : Prop :=
  match s with
  | Print e => lits_ok e /\ (depth e <= 64)%nat
  | Text t => zlen t < 256
  end.

Lemma depth_pos e : (1 <= depth e)%nat.
Proof. induction e; simpl; lia. Qed.

(** * Running compiled code *)

Section run.
Context (data : list Z) (Hsize : zlen data < 2147483648).

Notation hrun n s := (ploop n (hjar_turn data (zlen data)) s).

(** The opcode at the program counter. *)
Lemma opcode_at p op l : holds_at data p (op :: l) -> read data p = Ok op.
Proof. intros H. rewrite <- (Z.add_0_r p). by apply (holds_read _ _ _ 0 _ H). Qed.

(** The stack after [stack[k] = v]. *)
Lemma stack_put (st : list Z) (k : nat) v : length st = 64%nat -> (k < 64)%nat ->
  exists st', blit st (Z.of_nat k) [v] = Ok st' /\ length st' = 64%nat /\
    take k st' = take k st /\ st' !! k = Some v.
Proof.
  intros Hl Hk. rewrite blit_ok by (simpl; lia). eexists. split; [done|]. rewrite Nat2Z.id. cbn [length].
  split_and!.
  - rewrite !length_app, length_take, length_drop. simpl. lia.
  - rewrite take_app_length' by (rewrite length_take; lia). done.
  - rewrite lookup_app_r by (rewrite length_take; lia). rewrite length_take.
    by replace (k - k `min` length st)%nat with 0%nat by lia.
Qed.

Lemma stack_get (st : list Z) (k : nat) v : length st = 64%nat -> st !! k = Some v ->
  read st (Z.of_nat k) = Ok v.
Proof.
  intros Hl Hk. pose proof (lookup_lt_Some _ _ _ Hk). rewrite read_ok by lia. rewrite Nat2Z.id.
  f_equal. by apply byte_at_lookup.
Qed.

(** From stack height [h] and [p], [t] turns reach [p'] with the value of [r]
    pushed on the [k] lowest cells, or end the run as [r] does. *)
Definition computes (st : list Z) (h k : nat) (p p' : Z) (t : nat) (r : prog Z) : Prop :=
  match r with
  | Ok (o, Some v) => o = [] /\ exists st', length st' = 64%nat /\ take k st' = take k st /\ st' !! k = Some v /\
      forall n, hrun (t + n) (HState st (Z.of_nat h) p) = hrun n (HState st' (Z.of_nat (S k)) p')
  | Ok (o, None) => forall n, hrun (t + n) (HState st (Z.of_nat h) p) = Ok (o, None)
  | Stuck e => forall n, hrun (t + n) (HState st (Z.of_nat h) p) = Stuck e
  end.

(** Two runs in sequence. *)
Lemma computes_bind st h k k' p p1 p2 t1 t2 (r : prog Z) (f : Z -> prog Z) :
  computes st h k p p1 t1 r -> (k' <= k)%nat ->
  (forall st1 v, length st1 = 64%nat -> take k st1 = take k st -> st1 !! k = Some v ->
     computes st1 (S k) k' p1 p2 t2 (f v)) ->
  computes st h k' p p2 (t1 + t2) (r ≫= f).
Proof.
  intros H1 Hk H2. unfold mbind, prog_bind. destruct r as [[o [v|]]|e].
  - destruct H1 as (-> & st1 & Hl & Ht & Hv & Hrun). specialize (H2 st1 v Hl Ht Hv).
    unfold computes in *. destruct (f v) as [[o' [w|]]|e'].
    + destruct H2 as (-> & st2 & Hl2 & Ht2 & Hw & Hrun2). split; [done|]. exists st2. split_and!; try done.
      * rewrite Ht2. apply (f_equal (take k')) in Ht. by rewrite !firstn_firstn, !Nat.min_l in Ht by done.
      * intros n. by rewrite <- Nat.add_assoc, Hrun, Hrun2.
    + intros n. by rewrite <- Nat.add_assoc, Hrun, H2.
    + intros n. by rewrite <- Nat.add_assoc, Hrun, H2.
  - intros n. by rewrite <- Nat.add_assoc, H1.
  - intros n. by rewrite <- Nat.add_assoc, H1.
Qed.

(** One turn on the instruction [op]. *)
Lemma turn_at st (k : nat) p op l : holds_at data p (op :: l) ->
  hjar_turn data (zlen data) (HState st (Z.of_nat k) p) =
  (let s := HState st (Z.of_nat k) (p + 1) in
   if op =? 16 then s ← hjar_push_byte data (zlen data) s; mret (inl s)
   else if (op =? 96) || (op =? 100) || (op =? 104) || (op =? 108) then s ← hjar_arith op s; mret (inl s)
   else if op =? 252 then s ← hjar_literal data (zlen data) s; mret (inl s)
   else if op =? 254 then s ← hjar_print s; mret (inl s)
   else if op =? 177 then say [10];; mret (inr tt)
   else say (bs "java: unknown HJAR opcode 0x");; term_print_u32 op 16;; die [10]).
Proof.
  intros H. pose proof (holds_bound _ _ _ H) as Hb. rewrite zlen_cons in Hb. pose proof (zlen_nonneg l).
  pose proof (opcode_at _ _ _ H) as R. unfold hjar_turn. cbn [hpc hsp hstack]. zdec. by run.
Qed.

Lemma computes_lit st k p m : length st = 64%nat -> (k < 64)%nat -> -128 <= m < 128 ->
  holds_at data p [16; u8 m] -> computes st k k p (p + 2) 1 (mret m).
Proof using Hsize.
  intros Hl Hk Hm H. pose proof (holds_bound _ _ _ H) as Hb. autorewrite with zlen in Hb.
  destruct (stack_put st k m Hl Hk) as (st' & Hblit & Hl' & Ht & Hv).
  split; [done|]. exists st'. split_and!; try done. intros n.
  assert (read data (p + 1) = Ok (u8 m)) as R by (by apply (holds_read _ _ _ 1 _ H)).
  apply ploop_go. rewrite (turn_at _ _ _ _ _ H). cbn [Z.eqb Pos.eqb].
  unfold hjar_push_byte. cbn [hpc hsp hstack]. rewrite (proj2 (orb_false_iff _ _)) by lia. run.
  replace (i8 (u8 m)) with m by words. unfold hpush. cbn [hpc hsp hstack]. run. same.
Qed.

(** An arithmetic instruction pops its operands and pushes its result. *)
Lemma hjar_arith_spec st (k : nat) p op x y : length st = 64%nat -> (S k < 64)%nat ->
  st !! k = Some x -> st !! S k = Some y ->
  hjar_arith (opcode op) (HState st (Z.of_nat (S (S k))) p) =
  (v ← apply_op op x y; hpush v (HState st (Z.of_nat k) p)).
Proof.
  intros Hl Hk Hx Hy. pose proof (stack_get _ _ _ Hl Hx) as Rx. pose proof (stack_get _ _ _ Hl Hy) as Ry.
  unfold hjar_arith. cbn [hsp]. zdec. run. unfold hpop. cbn [hsp hstack hpc].
  replace (Z.of_nat (S (S k)) - 1) with (Z.of_nat (S k)) by lia. run. cbn [hsp hstack hpc].
  replace (Z.of_nat (S k) - 1) with (Z.of_nat k) by lia. run.
  destruct op; cbn [opcode Z.eqb Pos.eqb apply_op]; run; try done.
  by destruct (y =? 0).
Qed.

Lemma computes_op st (k : nat) p op x y : length st = 64%nat -> (S k < 64)%nat ->
  st !! k = Some x -> st !! S k = Some y -> holds_at data p [opcode op] ->
  computes st (S (S k)) k p (p + 1) 1 (apply_op op x y).
Proof using Hsize.
  intros Hl Hk Hx Hy H.
  assert (hjar_turn data (zlen data) (HState st (Z.of_nat (S (S k))) p) =
    (v ← apply_op op x y; s ← hpush v (HState st (Z.of_nat k) (p + 1)); mret (inl s))) as Hturn.
  { rewrite (turn_at _ _ _ _ _ H).
    transitivity (s ← hjar_arith (opcode op) (HState st (Z.of_nat (S (S k))) (p + 1));
                  mret (inl s) : prog (hstate + unit)); [by destruct op|].
    rewrite (hjar_arith_spec _ _ (p + 1) op x y Hl Hk Hx Hy). apply prog_bind_assoc. }
  unfold computes. destruct (apply_op op x y) as [[o [v|]]|e] eqn:E.
  - assert (o = []) as ->.
    { by eapply apply_op_silent. }
    split; [done|]. destruct (stack_put st k v Hl ltac:(lia)) as (st' & Hblit & Hl' & Ht & Hv).
    exists st'. split_and!; try done. intros n. apply ploop_go. rewrite Hturn.
    unfold hpush. cbn [hpc hsp hstack].
    change (Ok ([], Some v)) with (mret v : prog Z). run. same.
  - intros n. cbn [Nat.add ploop]. by rewrite Hturn.
  - intros n. cbn [Nat.add ploop]. by rewrite Hturn.
Qed.

Lemma computes_exp e : forall st k p, length st = 64%nat -> (k + depth e <= 64)%nat -> lits_ok e ->
  holds_at data p (compile e) -> computes st k k p (p + zlen (compile e)) (turns e) (eval e).
Proof using Hsize.
  induction e as [m|op a IHa b IHb]; intros st k p Hl Hk Hlits H; cbn [depth lits_ok compile turns eval] in *.
  - by apply computes_lit; [|lia| |].
  - destruct Hlits as [Ha Hb]. pose proof (depth_pos b). autorewrite with zlen.
    pose proof (holds_right _ _ _ _ _ H eq_refl) as Hb1.
    pose proof (holds_right _ _ _ _ _ Hb1 eq_refl) as Ho.
    replace (p + (zlen (compile a) + (zlen (compile b) + (1 + 0))))
      with (p + zlen (compile a) + zlen (compile b) + 1) by lia.
    rewrite <- Nat.add_assoc. eapply computes_bind; [apply IHa; [done|lia|done|by eapply holds_left]|done|].
    intros st1 x Hl1 Ht1 Hx. eapply (computes_bind _ _ (S k)); [apply IHb; [done|lia|done|by eapply holds_left]|lia|].
    intros st2 y Hl2 Ht2 Hy. eapply computes_op; [done|lia| |done|done].
    rewrite <- (lookup_take_lt st2 (S k)), Ht2, lookup_take_lt by lia. done.
Qed.
End run.

(** * Whole programs *)

Section program.
Context (data : list Z) (Hsize : zlen data < 2147483648).

Notation hrun n s := (ploop n (hjar_turn data (zlen data)) s).

Definition stmt_turns (s : stmt) : nat := match s with Print e => turns e + 1 | Text _ => 1 end.

Lemma turns_length e : (turns e <= length (compile e))%nat.
Proof. induction e; simpl; rewrite ?length_app; simpl; lia. Qed.

Lemma print_turn st p v (f : prog unit) n : length st = 64%nat -> st !! 0%nat = Some v ->
  holds_at data p [254] ->
  (forall st', length st' = 64%nat -> hrun n (HState st' 0 (p + 1)) = f) ->
  hrun (1 + n) (HState st 1 p) = (term_print_i32 v;; f).
Proof using Hsize.
  intros Hl Hv H Hf. change (HState st 1 p) with (HState st (Z.of_nat 1) p). cbn [Nat.add ploop].
  rewrite (turn_at _ _ _ _ _ _ H). cbn [Z.eqb Pos.eqb orb]. unfold hjar_print, hpop. cbn [hsp hstack hpc].
  pose proof (stack_get _ _ _ Hl Hv) as R. change (Z.of_nat 1 - 1) with (Z.of_nat 0). zdec. run. cbn [hsp hstack hpc].
  rewrite <- (Hf st Hl). unfold term_print_i32, say, mbind, prog_bind, mret, prog_ret. simpl.
  by destruct (ploop n _ _) as [[o r]|e].
Qed.

Lemma text_turn st p t (f : prog unit) n : length st = 64%nat -> zlen t < 256 ->
  holds_at data p ([252; zlen t] ++ t) ->
  (forall st', length st' = 64%nat -> hrun n (HState st' 0 (p + 2 + zlen t)) = f) ->
  hrun (1 + n) (HState st 0 p) = (say t;; f).
Proof using Hsize.
  intros Hl Ht H Hf. change (HState st 0 p) with (HState st (Z.of_nat 0) p). cbn [Nat.add ploop].
  pose proof (holds_bound _ _ _ H) as B. autorewrite with zlen in B. pose proof (zlen_nonneg t).
  rewrite (turn_at _ _ _ _ _ _ H). cbn [Z.eqb Pos.eqb orb]. unfold hjar_literal. cbn [hsp hstack hpc].
  assert (read data (p + 1) = Ok (zlen t)) as R by (by apply (holds_read _ _ _ 1 _ H)).
  assert (slice data (p + 1 + 1) (zlen t) = Ok t) as S.
  { apply holds_slice. eapply holds_right; [done|]. autorewrite with zlen. lia. }
  zdec. run. zdec. run.
  rewrite <- (Hf st Hl). unfold say, mbind, prog_bind, mret, prog_ret. simpl.
  replace (p + 1 + 1 + zlen t) with (p + 2 + zlen t) by lia.
  by destruct (ploop n _ _) as [[o r]|e].
Qed.

Lemma stmts_run ss : forall st p n, length st = 64%nat -> Forall stmt_wf ss ->
  holds_at data p (flat_map compile_stmt ss ++ [177]) -> (sum_list_with stmt_turns ss < n)%nat ->
  hrun n (HState st 0 p) = meaning ss.
Proof using Hsize.
  induction ss as [|s ss IH]; intros st p n Hl Hwf H Hn; cbn [sum_list_with flat_map meaning] in *.
  - destruct n as [|n]; [lia|]. apply ploop_end.
    change (HState st 0 p) with (HState st (Z.of_nat 0) p). by rewrite (turn_at _ _ _ _ _ _ H).
  - apply Forall_cons in Hwf as [Hs Hwf]. rewrite <- (assoc_L app) in H.
    pose proof (holds_right _ _ _ _ _ H eq_refl) as Hrest.
    destruct s as [e|t]; cbn [compile_stmt stmt_turns] in *.
    + destruct Hs as [Hlits Hd]. rewrite <- (assoc_L app) in H.
      pose proof (computes_exp data Hsize e st 0 p Hl ltac:(lia) Hlits (holds_left _ _ _ _ H)) as Hc.
      replace n with (turns e + (n - turns e))%nat by lia. unfold computes in Hc.
      change (HState st 0 p) with (HState st (Z.of_nat 0) p).
      destruct (eval e) as [[o [v|]]|err]; [|by rewrite Hc|by rewrite Hc].
      destruct Hc as (-> & st' & Hl' & _ & Hv & Hrun). rewrite Hrun.
      change (Ok ([], Some v)) with (mret v : prog Z). rewrite prog_bind_ret.
      replace (n - turns e)%nat with (1 + (n - turns e - 1))%nat by lia.
      change (Z.of_nat 1) with 1. apply print_turn; [done|done| |].
      * eapply holds_left, (holds_right _ _ _ _ _ H). done.
      * intros st2 Hl2. apply IH; [done|done| |lia].
        by replace (p + zlen (compile e) + 1) with (p + zlen (compile e ++ [254]))
          by (autorewrite with zlen; lia).
    + replace n with (1 + (n - 1))%nat by lia. eapply text_turn; [done|done|by eapply holds_left|].
      intros st2 Hl2. apply IH; [done|done| |lia].
      by replace (p + 2 + zlen t) with (p + zlen ([252; zlen t] ++ t)) by (autorewrite with zlen; lia).
Qed.
End program.

Lemma turns_total ss : (sum_list_with stmt_turns ss <= length (flat_map compile_stmt ss))%nat.
Proof.
  induction ss as [|s ss IH]; [done|]. cbn [sum_list_with flat_map]. rewrite length_app.
  assert (stmt_turns s <= length (compile_stmt s))%nat; [|lia].
  destruct s as [e|t]; simpl; [|lia]. rewrite length_app. pose proof (turns_length e). simpl. lia.
Qed.

(** C18: Running a compiled HJAR file does what its statements mean.  For every
    list of print and text statements whose literals are bytes and whose
    expressions need at most 64 stack cells, [java_hjar_exec] on the compiled
    file (whatever follows it) ends, prints the texts and the decimal values
    of the expressions, computed with 32-bit wrap-around, in order, and a
    newline; it fails with the message at the first division by zero, and a
    division of the least integer by -1 is the CPU's trap. *)
Theorem hjar_compiled_correct version ss rest (Hwf : Forall stmt_wf ss)
  (Hsize : zlen (hjar_file version ss ++ rest) < 2147483648) :
  java_hjar_exec (hjar_file version ss ++ rest) (zlen (hjar_file version ss ++ rest)) = meaning ss.
Proof.
  set (data := hjar_file version ss ++ rest) in *.
  assert (holds_at data 5 (flat_map compile_stmt ss ++ [177])) as H.
  { exists (bs "HJAR" ++ [version]), rest. split; [|done]. unfold data, hjar_file. by rewrite <- !(assoc_L app). }
  assert (zlen (flat_map compile_stmt ss) + 6 <= zlen data) as Hlen.
  { unfold data, hjar_file. autorewrite with zlen. change (zlen (bs "HJAR")) with 4.
    pose proof (zlen_nonneg rest). lia. }
  pose proof (zlen_nonneg (flat_map compile_stmt ss)).
  assert (slice data 0 4 = Ok (bs "HJAR")) as Hmagic.
  { change 4 with (zlen (bs "HJAR")). apply holds_slice. exists [], ([version] ++ flat_map compile_stmt ss ++ [177] ++ rest).
    split; [|done]. unfold data, hjar_file. by rewrite <- !(assoc_L app). }
  assert (exists be, rd_be32 data 0 = Ok be) as [be Hbe].
  { unfold rd_be32, zlen in *. rewrite !read_ok by lia. by eexists. }
  unfold java_hjar_exec, java_detect_format. rewrite Hmagic, Hbe. cbn [mbind outcome_bind]. zdec.
  rewrite bool_decide_true by done. cbn [andb]. erewrite prog_bind_lift by reflexivity. cbn [Z.eqb Pos.eqb negb].
  apply stmts_run; [done|by rewrite length_replicate|done|done|].
  pose proof (turns_total ss). unfold zlen in *. lia.
Qed.

(** [(100 - 58) * 1000 / -7] after a text. *)
Lemma hjar_compiled_correct_witness :
  java_hjar_exec (hjar_file 1 [Text (bs "v="); Print (Bin Div (Bin Mul (Bin Sub (Lit 100) (Lit 58)) (Lit 100)) (Lit (-7)))])
    (zlen (hjar_file 1 [Text (bs "v="); Print (Bin Div (Bin Mul (Bin Sub (Lit 100) (Lit 58)) (Lit 100)) (Lit (-7)))])) =
  Ok (bs "v=-600" ++ [10], Some tt).
Proof.
  rewrite <- (app_nil_r (hjar_file _ _)). rewrite hjar_compiled_correct.
  - vm_compute. reflexivity.
  - repeat constructor; simpl; lia.
  - vm_compute. reflexivity.
Defined.

(** The least integer divided by -1 stops the machine. *)
Example hjar_division_trap :
  java_hjar_exec (hjar_file 1 [Print (Bin Div (Bin Mul (Bin Mul (Bin Mul (Lit (-128)) (Lit 64)) (Lit 64)) (Bin Mul (Lit 64) (Lit 64))) (Lit (-1)))])
    28 = Stuck Trap.
Proof. by vm_compute. Qed.
