(* ===== verification/ZipProps.v ===== *)
(** The ZIP walk on well-formed archives: finding an entry by name. *)
From Stdlib Require Import ZArith Lia Ascii String.
From stdpp Require Import base tactics option numbers list.
From S2P Require Import Prelude Buffer CString Console JavaClass JavaZip Jvm JvmSafe JavaFormat.
#[local] Open Scope Z_scope.

(** A stored or compressed entry with its local header. *)
Record zfile := ZFile {
  z_version : Z; z_flags : Z; z_method : Z; z_time : Z; z_date : Z; z_crc : Z; z_usize : Z;
  z_name : list Z; z_extra : list Z; z_data : list Z }.

Definition enc_zfile (e : zfile) : list Z :=
  le4 67324752 ++ le2 (z_version e) ++ le2 (z_flags e) ++ le2 (z_method e) ++ le2 (z_time e) ++
  le2 (z_date e) ++ le4 (z_crc e) ++ le4 (zlen (z_data e)) ++ le4 (z_usize e) ++
  le2 (zlen (z_name e)) ++ le2 (zlen (z_extra e)) ++ z_name e ++ z_extra e ++ z_data e.

(** Sizes fit their fields, and no data descriptor follows the data. *)
Definition zfile_wf (e : zfile) : Prop :=
  is_u16 (z_flags e) /\ Z.land (z_flags e) 8 = 0 /\ is_u16 (z_method e) /\
  is_u16 (zlen (z_name e)) /\ is_u16 (zlen (z_extra e)) /\ is_u32 (zlen (z_data e)).

(** What follows the entries: the central directory, or nothing. *)
Definition no_header (tail : list Z) : Prop :=
  zlen tail < 30 \/ exists sig rest, tail = le4 sig ++ rest /\ is_u32 sig /\ sig <> 67324752.

Definition archive (es : list zfile) (tail : list Z) : list Z := flat_map enc_zfile es ++ tail.

(** What the walk reports of an entry. *)
Definition entry_is (e : zfile) (r : zip_entry) : Prop :=
  zname r = z_name e /\ zmethod r = z_method e /\ payload_len r = zlen (z_data e) /\
  exists rest, payload r = z_data e ++ rest.

Section archive.
Context (data : list Z) (Hsize : zlen data < 2147483648).

Lemma zip_next_spec e off : zfile_wf e -> holds_at data off (enc_zfile e) ->
  exists r, java_zip_next_entry data (zlen data) off = mret r /\ entry_is e r /\
    next_off r = off + zlen (enc_zfile e).
Proof using Hsize.
  intros (Hf & Hf8 & Hm & Hn & Hx & Hd) H. unfold enc_zfile in H.
  pose proof (holds_bound _ _ _ H) as B. autorewrite with zlen in B.
  pose proof (zlen_nonneg (z_name e)). pose proof (zlen_nonneg (z_extra e)). pose proof (zlen_nonneg (z_data e)).
  pose proof (holds_right _ _ _ _ (off + 4) H ltac:(rewrite zlen_le4; lia)) as K4.
  pose proof (holds_right _ _ _ _ (off + 6) K4 ltac:(rewrite zlen_le2; lia)) as K6.
  pose proof (holds_right _ _ _ _ (off + 8) K6 ltac:(rewrite zlen_le2; lia)) as K8.
  pose proof (holds_right _ _ _ _ (off + 10) K8 ltac:(rewrite zlen_le2; lia)) as K10.
  pose proof (holds_right _ _ _ _ (off + 12) K10 ltac:(rewrite zlen_le2; lia)) as K12.
  pose proof (holds_right _ _ _ _ (off + 14) K12 ltac:(rewrite zlen_le2; lia)) as K14.
  pose proof (holds_right _ _ _ _ (off + 18) K14 ltac:(rewrite zlen_le4; lia)) as K18.
  pose proof (holds_right _ _ _ _ (off + 22) K18 ltac:(rewrite zlen_le4; lia)) as K22.
  pose proof (holds_right _ _ _ _ (off + 26) K22 ltac:(rewrite zlen_le4; lia)) as K26.
  pose proof (holds_right _ _ _ _ (off + 28) K26 ltac:(rewrite zlen_le2; lia)) as K28.
  pose proof (holds_right _ _ _ _ (off + 30) K28 ltac:(rewrite zlen_le2; lia)) as K30.
  set (n := zlen (z_name e)) in *. set (x := zlen (z_extra e)) in *. set (d := zlen (z_data e)) in *.
  assert (holds_at data (off + 30 + n + x) (z_data e)) as Kd.
  { eapply holds_right; [by eapply holds_right|done]. }
  assert (rd_le32 data off = Ok 67324752) as R0 by (apply at_le32; [by eapply holds_left|words]).
  assert (rd_le16 data (off + 6) = Ok (z_flags e)) as R6 by (apply at_le16; [by eapply holds_left|done]).
  assert (rd_le16 data (off + 8) = Ok (z_method e)) as R8 by (apply at_le16; [by eapply holds_left|done]).
  assert (rd_le32 data (off + 18) = Ok d) as R18 by (apply at_le32; [by eapply holds_left|done]).
  assert (rd_le16 data (off + 26) = Ok n) as R26 by (apply at_le16; [by eapply holds_left|done]).
  assert (rd_le16 data (off + 28) = Ok x) as R28 by (apply at_le16; [by eapply holds_left|done]).
  assert (slice data (off + 30) n = Ok (z_name e)) as Rn by (apply holds_slice; by eapply holds_left).
  destruct (holds_from _ _ _ Kd) as [rest Hrest].
  eexists. split; [|split].
  - unfold java_zip_next_entry. run. rewrite (next_small data Hsize) by lia. run. reflexivity.
  - unfold entry_is. cbn [zname zmethod payload_len payload]. split_and!; try done. by exists rest.
  - cbn [next_off]. unfold enc_zfile. autorewrite with zlen. lia.
Qed.

Lemma zip_next_end off tail : holds_at data off tail -> off + zlen tail = zlen data -> no_header tail ->
  java_zip_next_entry data (zlen data) off = ko.
Proof.
  intros H Hend Ht. unfold java_zip_next_entry. pose proof (holds_bound _ _ _ H).
  destruct (Z.gtb_spec (off + 30) (zlen data)); [done|].
  destruct Ht as [Ht|(sig & rest & -> & Hs & Hne)]; [lia|].
  assert (rd_le32 data off = Ok sig) as R by (apply at_le32; [by eapply holds_left|done]).
  run. rewrite fail_if_true by lia. done.
Qed.

(** The walk stops at the first entry the test accepts, and at the end. *)
Lemma zip_search_spec (p : zip_entry -> bool) (q : zfile -> bool) es : (forall e r, entry_is e r -> p r = q e) ->
  forall fuel off tail, Forall zfile_wf es -> holds_at data off (archive es tail) ->
  off + zlen (archive es tail) = zlen data -> no_header tail -> (length es < fuel)%nat ->
  match List.find q es with
  | Some e => exists r, zip_search fuel data (zlen data) off p = mret r /\ entry_is e r
  | None => zip_search fuel data (zlen data) off p = ko
  end.
Proof using Hsize.
  intros Hpq. unfold archive, zip_search.
  induction es as [|e es IH]; intros fuel off tail Hwf H Hend Ht Hfuel; cbn [List.find flat_map] in *;
    (destruct fuel as [|fuel]; [simpl in Hfuel; lia|]); cbn [ploop].
  - by rewrite (zip_next_end off tail).
  - apply Forall_cons in Hwf as [He Hwf]. rewrite <- (assoc_L app) in H.
    destruct (zip_next_spec e off He (holds_left _ _ _ _ H)) as (r & Hrun & Hr & Hnext).
    rewrite Hrun. run. rewrite (Hpq _ _ Hr). destruct (q e); run.
    + by exists r.
    + rewrite Hnext. eapply IH; [done|by eapply holds_right| |done|simpl in Hfuel; lia].
      revert Hend. autorewrite with zlen. lia.
Qed.
End archive.

(** C19: Finding an entry in a ZIP archive.  In an archive made of entries with
    local headers (whatever their times, sizes and extra fields, but with their
    sizes in the header, not behind the data: flag bit 3 clear), followed by
    anything that is not another local header, [java_zip_find_entry] ends, at
    most one turn per entry and one more, and gives the first entry with the
    name: its compression method, its length and its bytes; and it fails when
    no entry has the name. *)
Theorem zip_find_entry_correct es tail target fuel (Hwf : Forall zfile_wf es) (Htail : no_header tail)
  (Hsize : zlen (archive es tail) < 2147483648) (Hfuel : (length es < fuel)%nat) :
  match List.find (fun e => bool_decide (z_name e = target)) es with
  | Some e => exists r, java_zip_find_entry fuel (archive es tail) (zlen (archive es tail)) target = mret r /\
      zname r = target /\ zmethod r = z_method e /\ payload_len r = zlen (z_data e) /\
      take (length (z_data e)) (payload r) = z_data e
  | None => java_zip_find_entry fuel (archive es tail) (zlen (archive es tail)) target = ko
  end.
Proof.
  pose proof (zip_search_spec (archive es tail) Hsize (fun e => bytes_eq_lit (zname e) target)
    (fun e => bool_decide (z_name e = target)) es) as H.
  specialize (H ltac:(intros e r (-> & _); apply bytes_eq_lit_spec) fuel 0 tail Hwf).
  specialize (H ltac:(exists [], []; by rewrite app_nil_r) eq_refl Htail Hfuel).
  destruct (List.find _ es) as [e|] eqn:E; [|done].
  destruct H as (r & Hrun & (Hn & Hm & Hl & rest & Hp)). exists r. split; [done|].
  apply List.find_some in E as [_ E]. apply bool_decide_eq_true in E. subst target.
  split_and!; try done. by rewrite Hp, take_app_length.
Qed.

Definition demo_entry (name : list Z) (d : list Z) : zfile := ZFile 20 0 0 0 0 0 (zlen d) name [] d.

Lemma zip_find_entry_correct_witness :
  exists r, java_zip_find_entry 3 (archive [demo_entry (bs "A.class") [1; 2]; demo_entry (bs "B.class") [3; 4; 5]] (le4 33639248))
    (zlen (archive [demo_entry (bs "A.class") [1; 2]; demo_entry (bs "B.class") [3; 4; 5]] (le4 33639248))) (bs "B.class") = mret r /\
    take 3 (payload r) = [3; 4; 5].
Proof.
  destruct (zip_find_entry_correct [demo_entry (bs "A.class") [1; 2]; demo_entry (bs "B.class") [3; 4; 5]]
    (le4 33639248) (bs "B.class") 3) as (r & H & _ & _ & _ & Hp).
  - repeat constructor; vm_compute; congruence.
  - left. vm_compute. reflexivity.
  - vm_compute. reflexivity.
  - simpl. lia.
  - exists r. split; [exact H|exact Hp].
Defined.

(** An entry whose size field is 2^32 minus the length of its header and name
    sends the walk back to itself: it never ends. *)
Definition looping_entry (name : list Z) : list Z :=
  le4 67324752 ++ le2 20 ++ le2 0 ++ le2 0 ++ le2 0 ++ le2 0 ++ le4 0 ++
  le4 (4294967296 - (30 + zlen name)) ++ le4 0 ++ le2 (zlen name) ++ le2 0 ++ name.

Lemma looping_next name : is_u16 (zlen name) ->
  exists r, java_zip_next_entry (looping_entry name) (zlen (looping_entry name)) 0 = mret r /\
    zname r = name /\ next_off r = 0.
Proof.
  intros Hn. set (data := looping_entry name). assert (holds_at data 0 (looping_entry name)) as H.
  { exists [], []. by rewrite app_nil_r. }
  unfold looping_entry in H. pose proof (holds_bound _ _ _ H) as B. autorewrite with zlen in B.
  pose proof (zlen_nonneg name). unfold is_u16 in Hn.
  pose proof (holds_right _ _ _ _ 4 H eq_refl) as K4. pose proof (holds_right _ _ _ _ 6 K4 eq_refl) as K6.
  pose proof (holds_right _ _ _ _ 8 K6 eq_refl) as K8. pose proof (holds_right _ _ _ _ 10 K8 eq_refl) as K10.
  pose proof (holds_right _ _ _ _ 12 K10 eq_refl) as K12. pose proof (holds_right _ _ _ _ 14 K12 eq_refl) as K14.
  pose proof (holds_right _ _ _ _ 18 K14 eq_refl) as K18. pose proof (holds_right _ _ _ _ 22 K18 eq_refl) as K22.
  pose proof (holds_right _ _ _ _ 26 K22 eq_refl) as K26. pose proof (holds_right _ _ _ _ 28 K26 eq_refl) as K28.
  pose proof (holds_right _ _ _ _ 30 K28 eq_refl) as K30.
  assert (rd_le32 data 0 = Ok 67324752) as R0 by (apply at_le32; [by eapply holds_left|words]).
  assert (rd_le16 data 6 = Ok 0) as R6 by (apply at_le16; [by eapply holds_left|words]).
  assert (rd_le16 data 8 = Ok 0) as R8 by (apply at_le16; [by eapply holds_left|words]).
  assert (rd_le32 data 18 = Ok (4294967296 - (30 + zlen name))) as R18
    by (apply at_le32; [by eapply holds_left|unfold is_u32; lia]).
  assert (rd_le16 data 26 = Ok (zlen name)) as R26 by (apply at_le16; [by eapply holds_left|done]).
  assert (rd_le16 data 28 = Ok 0) as R28 by (apply at_le16; [by eapply holds_left|words]).
  assert (slice data 30 (zlen name) = Ok name) as Rn by (by apply holds_slice).
  assert (i32 (30 + zlen name + 0 + i32 (4294967296 - (30 + zlen name))) = 0) as Hback by words.
  assert (zlen data = 30 + zlen name) as Hz by (unfold data, looping_entry; autorewrite with zlen; lia).
  eexists. split.
  - unfold java_zip_next_entry. rewrite !Z.add_0_l. run. rewrite Hback. run. reflexivity.
  - done.
Qed.

Theorem zip_walk_loops name target (Hn : is_u16 (zlen name)) (Hne : name <> target) fuel :
  java_zip_find_entry fuel (looping_entry name) (zlen (looping_entry name)) target = Stuck NoFuel.
Proof.
  destruct (looping_next name Hn) as (r & Hrun & Hname & Hnext). unfold java_zip_find_entry, zip_search.
  induction fuel as [|fuel IH]; [done|]. cbn [ploop]. rewrite Hrun. run.
  rewrite bytes_eq_lit_spec, Hname, bool_decide_false by done. run. by rewrite Hnext.
Qed.
