(* ===== verification/Command.v ===== *)
(** Shell commands: console programs over a state.

    A run gives the bytes printed, the state left and a result, [None] when
    the function returned early ([return;] or [return false;]): what was
    printed and changed before stays. *)
From Stdlib Require Import ZArith Lia Ascii String.
From stdpp Require Import base tactics option numbers list.
From S2P Require Import Prelude CString Console.
#[local] Open Scope Z_scope.

Definition cmd (S A : Type) : Type := S -> outcome (list Z * S * option A).

#[export] Instance cmd_ret S : MRet (cmd S) := fun A a st => Ok ([], st, Some a).
#[export] Instance cmd_bind S : MBind (cmd S) := fun A B f m st =>
  match m st with
  | Ok (o, st, Some a) =>
    match f a st with Ok (o', st, r) => Ok (o ++ o', st, r) | Stuck e => Stuck e end
  | Ok (o, st, None) => Ok (o, st, None)
  | Stuck e => Stuck e
  end.

Section cmd.
Context {S : Type}.

(** [term_puts(s)]: up to the NUL. *)
Definition puts (s : list Z) : cmd S unit := fun st => Ok (buf_text s, st, Some tt).
(** [return;] and [term_puts(s); return;]. *)
Definition quit {A} : cmd S A := fun st => Ok ([], st, None).
Definition quit_with {A} (s : list Z) : cmd S A := fun st => Ok (s, st, None).
Definition quit_if (b : bool) : cmd S unit := if b then quit else mret tt.
(** A computation that leaves the state alone. *)
Definition eval {A} (m : outcome A) : cmd S A := fun st =>
  match m with Ok a => Ok ([], st, Some a) | Stuck e => Stuck e end.
Definition look {A} (f : S -> A) : cmd S A := fun st => Ok ([], st, Some (f st)).
Definition update (f : S -> S) : cmd S unit := fun st => Ok ([], f st, Some tt).
(** A query of the state. *)
Definition query {A} (f : S -> outcome A) : cmd S A := fun st =>
  match f st with Ok a => Ok ([], st, Some a) | Stuck e => Stuck e end.
(** A query that may return false. *)
Definition ask {A} (f : S -> outcome (option A)) : cmd S A := fun st =>
  match f st with Ok r => Ok ([], st, r) | Stuck e => Stuck e end.
(** A call that changes the state and returns a boolean. *)
Definition call (f : S -> outcome (S * bool)) : cmd S unit := fun st =>
  match f st with
  | Ok (st, b) => Ok ([], st, if (b : bool) then Some tt else None)
  | Stuck e => Stuck e
  end.
(** [if (!m) h]. *)
Definition if_fails {A} (m h : cmd S A) : cmd S A := fun st =>
  match m st with
  | Ok (o, st, Some a) => Ok (o, st, Some a)
  | Ok (o, st, None) =>
    match h st with Ok (o', st, r) => Ok (o ++ o', st, r) | Stuck e => Stuck e end
  | Stuck e => Stuck e
  end.
(** The result of a call as a value. *)
Definition try_ {A} (m : cmd S A) : cmd S (option A) := fun st =>
  match m st with Ok (o, st, r) => Ok (o, st, Some r) | Stuck e => Stuck e end.
(** A console program. *)
Definition console {A} (m : prog A) : cmd S A := fun st =>
  match m with Ok (o, r) => Ok (o, st, r) | Stuck e => Stuck e end.
End cmd.

(** [itoa(n, buf, 10); term_puts(buf);] with a buffer of [room] bytes, and with [utoa]. *)
Definition put_itoa {S} (room n : Z) : cmd S unit := s ← eval (itoa_into room n); puts s.
Definition put_utoa {S} (room n base : Z) : cmd S unit := s ← eval (utoa_into room n base); puts s.

(** A command of a component, run on the part of the state it works on. *)
Definition within {S T A} (get : S -> T) (set : T -> S -> S) (m : cmd T A) : cmd S A := fun st =>
  match m (get st) with Ok (o, t, r) => Ok (o, set t st, r) | Stuck e => Stuck e end.

(** * Safety

    [ckeeps E I m P]: from a state satisfying [I], the command [m] ends with a
    state satisfying [I] and a value, if it has one, satisfying [P], or with a
    fault that [E] allows. *)

Definition holds_if {A} (P : A -> Prop) (r : option A) : Prop :=
  match r with Some a => P a | None => True end.

Definition ckeeps {S A} (E : fault -> Prop) (I : S -> Prop) (m : cmd S A) (P : A -> Prop) : Prop :=
  forall st, I st -> goes E (m st) (fun r => I r.1.2 /\ holds_if P r.2).

Section ckeeps.
Context {S : Type} (E : fault -> Prop) (I : S -> Prop).

Lemma ckeeps_ret {A} (a : A) (P : A -> Prop) : P a -> ckeeps E I (mret a) P.
Proof. by intros Ha st Hst. Qed.

Lemma ckeeps_ret_any {A} (a : A) : ckeeps E I (mret a) (fun _ => True).
Proof. by apply ckeeps_ret. Qed.

Lemma ckeeps_bind {A B} (m : cmd S A) (f : A -> cmd S B) P Q :
  ckeeps E I m P -> (forall a, P a -> ckeeps E I (f a) Q) -> ckeeps E I (m ≫= f) Q.
Proof.
  intros Hm Hf st Hst. specialize (Hm st Hst). unfold mbind, cmd_bind.
  destruct (m st) as [[[o st1] [a|]]|e]; try done. destruct Hm as [Hst1 Ha].
  specialize (Hf a Ha st1 Hst1). by destruct (f a st1) as [[[o' st2] r]|e].
Qed.

Lemma ckeeps_mono {A} (m : cmd S A) (P Q : A -> Prop) :
  ckeeps E I m P -> (forall a, P a -> Q a) -> ckeeps E I m Q.
Proof.
  intros Hm HPQ st Hst. eapply goes_mono; [by apply Hm|]. intros [[o st'] [a|]] [? ?]; split; cbn in *; auto.
Qed.

Lemma ckeeps_puts s : ckeeps E I (puts s) (fun _ => True).
Proof. done. Qed.
Lemma ckeeps_quit {A} (P : A -> Prop) : ckeeps E I quit P.
Proof. done. Qed.
Lemma ckeeps_quit_with {A} s (P : A -> Prop) : ckeeps E I (quit_with s) P.
Proof. done. Qed.
Lemma ckeeps_quit_if b : ckeeps E I (quit_if b) (fun _ => b = false).
Proof. by destruct b. Qed.
Lemma ckeeps_look {A} (f : S -> A) (P : A -> Prop) : (forall st, I st -> P (f st)) -> ckeeps E I (look f) P.
Proof. intros H st Hst. split; [done|]. by apply H. Qed.
Lemma ckeeps_update f : (forall st, I st -> I (f st)) -> ckeeps E I (update f) (fun _ => True).
Proof. intros H st Hst. split; [by apply H|done]. Qed.
Lemma ckeeps_eval {A} (m : outcome A) (P : A -> Prop) : goes E m P -> ckeeps E I (eval m) P.
Proof. intros H st Hst. unfold eval. by destruct m as [a|e]. Qed.
Lemma ckeeps_query {A} (f : S -> outcome A) (P : A -> Prop) :
  (forall st, I st -> goes E (f st) P) -> ckeeps E I (query f) P.
Proof. intros H st Hst. specialize (H st Hst). unfold query. by destruct (f st). Qed.
Lemma ckeeps_ask {A} (f : S -> outcome (option A)) (P : A -> Prop) :
  (forall st, I st -> goes E (f st) (holds_if P)) -> ckeeps E I (ask f) P.
Proof. intros H st Hst. specialize (H st Hst). unfold ask. by destruct (f st) as [[a|]|e]. Qed.
Lemma ckeeps_call (f : S -> outcome (S * bool)) :
  (forall st, I st -> goes E (f st) (fun r => I r.1)) -> ckeeps E I (call f) (fun _ => True).
Proof. intros H st Hst. specialize (H st Hst). unfold call. by destruct (f st) as [[st' []]|e]. Qed.

Lemma ckeeps_if_fails {A} (m h : cmd S A) P : ckeeps E I m P -> ckeeps E I h P -> ckeeps E I (if_fails m h) P.
Proof.
  intros Hm Hh st Hst. specialize (Hm st Hst). unfold if_fails.
  destruct (m st) as [[[o st1] [a|]]|e]; try done. destruct Hm as [Hst1 _].
  specialize (Hh st1 Hst1). by destruct (h st1) as [[[o' st2] r]|e].
Qed.

Lemma ckeeps_try {A} (m : cmd S A) P : ckeeps E I m P -> ckeeps E I (try_ m) (holds_if P).
Proof. intros Hm st Hst. specialize (Hm st Hst). unfold try_. by destruct (m st) as [[[o st1] [a|]]|e]. Qed.

Lemma ckeeps_console {A} (m : prog A) P : goes E m (fun r => holds_if P r.2) -> ckeeps E I (console m) P.
Proof. intros Hm st Hst. unfold console. by destruct m as [[o r]|e]. Qed.

(** A test of a boolean, both ways. *)
Lemma ckeeps_if {A} (b : bool) (m h : cmd S A) P : ckeeps E I m P -> ckeeps E I h P -> ckeeps E I (if b then m else h) P.
Proof. by destruct b. Qed.

Lemma ckeeps_any {A} (m : cmd S A) P : ckeeps E I m P -> ckeeps E I m (fun _ => True).
Proof. intros Hm. by eapply ckeeps_mono. Qed.
End ckeeps.

Lemma ckeeps_within {S T A} (E : fault -> Prop) (I : S -> Prop) (J : T -> Prop) (get : S -> T) (set : T -> S -> S)
    (m : cmd T A) P :
  (forall st, I st -> J (get st)) -> (forall st t, I st -> J t -> I (set t st)) ->
  ckeeps E J m P -> ckeeps E I (within get set m) P.
Proof.
  intros Hget Hset Hm st Hst. specialize (Hm (get st) (Hget st Hst)). unfold within.
  destruct (m (get st)) as [[[o t] r]|e]; [|done]. destruct Hm. split; [by apply Hset|done].
Qed.

(** Goes through a command by the rules. *)
Create HintDb keeps.
#[export] Hint Resolve ckeeps_puts ckeeps_quit ckeeps_quit_with : keeps.

Ltac keeps_step :=
  lazymatch goal with
  | |- ckeeps _ _ (mbind _ _) _ => eapply ckeeps_bind; [|intros ? ?]
  | |- ckeeps _ _ (mret _) ?P => first [is_evar P; apply ckeeps_ret_any | apply ckeeps_ret]
  | |- ckeeps _ _ (if_fails _ _) _ => eapply ckeeps_if_fails
  | |- ckeeps _ _ (try_ _) _ => eapply ckeeps_try
  | |- ckeeps _ _ (quit_if _) _ => apply ckeeps_quit_if
  | |- ckeeps _ _ (if ?b then _ else _) _ => destruct b eqn:?
  | |- ckeeps _ _ (let '(_, _) := ?x in _) _ => destruct x eqn:?
  | |- ckeeps _ _ (match ?x with _ => _ end) _ => destruct x eqn:?
  end.
Ltac keeps := repeat first [solve [eauto with keeps] | solve [eapply ckeeps_any; eauto with keeps] | keeps_step | exact I | done].
