(* ===== verification/FsCmd.v ===== *)
(** The file system commands of src/src/commands and the kat viewer of
    src/src/apps/kat.c, as commands over the RAM disk.

    Arguments are C strings without an embedded NUL, NULL being [None].  The
    arrays of the code are filled with checked writes (Buffer.v).  Loops
    over the children of a directory run with 64 turns and the recursive walks
    with 64 levels: a directory has at most 63 children and a chain of
    directories at most 63 links. *)
From Stdlib Require Import ZArith Lia Ascii String.
From stdpp Require Import base tactics option numbers list.
From S2P Require Import Prelude Buffer CString Console Command Ramdisk.
#[local] Open Scope Z_scope.

(** * Access to the file system *)

Definition resolve (path : list Z) : cmd fs nat := ask (fun st => fs_resolve_checked st (Some path)).
Definition is_dir (n : nat) : cmd fs bool := look (fun st => fs_is_dir st n).
Definition is_file (n : nat) : cmd fs bool := look (fun st => fs_is_file st n).
Definition create_file (parent : nat) (name : list Z) : cmd fs unit :=
  call (fun st => fs_create_file st parent (Some name)).
Definition delete (n : nat) : cmd fs unit := call (fun st => fs_delete st n).
Definition write (n : nat) (buf : list Z) (size : Z) : cmd fs unit :=
  call (fun st => fs_write st n (Some buf) size).

(** [fs_read] into an array of [room] bytes, and the NUL put at [n]. *)
Definition read_into (room : Z) (node : nat) (size : Z) : cmd fs (list Z * Z) :=
  '(buf, n) ← query (fun st => fs_read st node size);
  eval (if Z.of_nat (length buf) <=? room then Ok (buf, n) else Stuck OutOfBounds).
Definition nul_at (room n : Z) : cmd fs unit := eval (if (0 <=? n) && (n <? room) then Ok tt else Stuck OutOfBounds).

(** The iterator, when [fs_list_begin] returns true. *)
Definition list_begin (dir : nat) : cmd fs nat := ask (fun st =>
  '(it, more) ← fs_list_begin st dir; Ok (if (more : bool) then it else None)).

(** [while (fs_list_next(&iter, &child)) f(child)]. *)
Fixpoint each_child (n : nat) (iter : nat) (f : nat -> cmd fs unit) : cmd fs unit :=
  match n with
  | O => fun _ => Stuck NoFuel
  | S n =>
    '(iter, child) ← query (fun st => fs_list_next st iter);
    match child with
    | None => mret tt
    | Some c => f c;; each_child n iter f
    end
  end.

(** * Strings *)

Fixpoint skip_spaces (s : list Z) : list Z :=
  match s with c :: s' => if c =? ch " " then skip_spaces s' else s | [] => [] end.

(** A word up to a space, and all that is left, in an array of [cap]
    characters; with the rest. *)
Definition copy_word (cap : nat) (s : list Z) : outcome (list Z * list Z) := copy_text (fun c => c =? ch " ") cap s.
Definition copy_rest (cap : nat) (s : list Z) : outcome (list Z * list Z) := copy_text (fun _ => false) cap s.

Fixpoint drop_spaces_rev (r : list Z) : list Z :=
  match r with c :: r' => if c =? ch " " then drop_spaces_rev r' else r | [] => [] end.
Definition trim_right_spaces (s : list Z) : list Z := rev (drop_spaces_rev (rev s)).

(** The position after the last slash, 0 when there is none. *)
Fixpoint split_at (i split : nat) (s : list Z) : nat :=
  match s with
  | [] => split
  | c :: s' => split_at (S i) (if c =? ch "/" then S i else split) s'
  end.

Definition ascii_lower (c : Z) : Z :=
  if (ch "A" <=? c) && (c <=? ch "Z") then c - ch "A" + ch "a" else c.

(** The needle stands at the start of the haystack. *)
Fixpoint starts_nocase (h n : list Z) : bool :=
  match n, h with
  | [], _ => true
  | x :: n', y :: h' => (ascii_lower y =? ascii_lower x) && starts_nocase h' n'
  | _, [] => false
  end.

Fixpoint contains_loop (h n : list Z) : bool :=
  match h with
  | [] => false
  | _ :: h' => starts_nocase h n || contains_loop h' n
  end.

Definition contains_nocase (haystack needle : list Z) : bool :=
  match needle with [] => true | _ => contains_loop haystack needle end.

(** The parent path and the name of a path, in arrays of [psz] and [nsz]
    characters; [tmp] has 256. *)
Definition split_parent_and_name (path : list Z) (psz nsz : nat) : outcome (option (list Z * list Z)) :=
  '(tmp, _) ← copy_rest 256 (skip_spaces path);
  let tmp := trim_right_spaces tmp in
  let n := length tmp in
  if (n =? 0)%nat then Ok None
  else
    let split := split_at 0 0 tmp in
    let name (p : list Z) (s : list Z) :=
      nm ← strncpy_text nsz (nsz - 1) s;
      Ok (if (length nm =? 0)%nat then None else Some (p, nm)) in
    if (split =? 0)%nat then
      if (psz <? 2)%nat then Ok None else p ← put_char psz [] (ch "."); p ← end_text psz p; name p tmp
    else if (split =? n)%nat then Ok None
    else if (split =? 1)%nat then
      if (psz <? 2)%nat then Ok None else p ← put_char psz [] (ch "/"); p ← end_text psz p; name p (drop split tmp)
    else
      let plen := (split - 1)%nat in
      if (psz <? plen + 1)%nat then Ok None
      else p ← end_text psz (take plen tmp); name p (drop split tmp).

Definition split_two_args (args : option (list Z)) (asz bsz : nat) : outcome (option (list Z * list Z)) :=
  match args with
  | None => Ok None
  | Some args =>
    let args := skip_spaces args in
    if hd0 args =? 0 then Ok None
    else
      '(a, rest) ← copy_word asz args;
      '(b, _) ← copy_rest bsz (skip_spaces rest);
      Ok (if (length a =? 0)%nat || (length b =? 0)%nat then None else Some (a, b))
  end.

(** * Directories *)

Definition ls_entry (child : nat) : cmd fs unit :=
  name ← look (fun st => fs_get_name st child);
  puts name;;
  d ← is_dir child;
  (if (d : bool) then puts (bs "/") else mret tt);;
  puts (bs "  ").

Definition cmd_ls (args : option (list Z)) : cmd fs unit :=
  target ← match nonempty args with
           | Some a => if_fails (resolve a) (quit_with (bs "ls: path not found" ++ [10]))
           | None => look fs_cwd_get
           end;
  f ← is_file target;
  if (f : bool) then name ← look (fun st => fs_get_name st target); puts name;; puts [10]
  else
    iter ← if_fails (list_begin target) (quit_with (bs "(empty)" ++ [10]));
    each_child 64 iter ls_entry;;
    puts [10].

Definition cmd_cd (args : option (list Z)) : cmd fs unit :=
  match nonempty args with
  | None => update (fun st => fs_cwd_set st 0)
  | Some a =>
    target ← if_fails (resolve a)
      (puts (bs "cd: directory not found: ");; puts a;; puts [10];; quit);
    d ← is_dir target;
    if negb d then puts (bs "cd: not a directory: ");; puts a;; puts [10]
    else update (fun st => fs_cwd_set st target)
  end.

Definition cmd_pwd (args : option (list Z)) : cmd fs unit :=
  path ← query (fun st => fs_build_path st (fs_cwd_get st) 256);
  puts (default [] path);; puts [10].

Definition cmd_mkdir (args : option (list Z)) : cmd fs unit :=
  match nonempty args with
  | None => puts (bs "Usage: mkdir <name>" ++ [10])
  | Some a =>
    if_fails (call (fun st => fs_mkdir_child st (fs_cwd_get st) (Some a)))
      (quit_with (bs "mkdir: failed (exists/invalid/full)" ++ [10]));;
    puts (bs "OK" ++ [10])
  end.

Definition cmd_touch (args : option (list Z)) : cmd fs unit :=
  match nonempty args with
  | None => puts (bs "Usage: touch <name>" ++ [10])
  | Some a =>
    if_fails (call (fun st => fs_create_file st (fs_cwd_get st) (Some a)))
      (quit_with (bs "touch: failed (exists/invalid/full)" ++ [10]));;
    puts (bs "OK" ++ [10])
  end.

Definition cmd_rm (args : option (list Z)) : cmd fs unit :=
  match nonempty args with
  | None => puts (bs "Usage: rm <name>" ++ [10])
  | Some a =>
    target ← if_fails (resolve a) (quit_with (bs "rm: not found" ++ [10]));
    cwd ← look fs_cwd_get;
    if (target =? 0)%nat then puts (bs "rm: cannot remove root" ++ [10])
    else if (target =? cwd)%nat then puts (bs "rm: cannot remove current directory" ++ [10])
    else
      if_fails (delete target) (quit_with (bs "rm: failed (non-empty dir or invalid)" ++ [10]));;
      puts (bs "OK" ++ [10])
  end.

(** The directory has a child. *)
Definition has_child (target : nat) : cmd fs bool :=
  it ← try_ (list_begin target);
  match it with
  | None => mret false
  | Some iter => '(_, child) ← query (fun st => fs_list_next st iter); mret (bool_decide (is_Some child))
  end.

Definition cmd_rmdir (args : option (list Z)) : cmd fs unit :=
  match nonempty args with
  | None => puts (bs "Usage: rmdir <dirname>" ++ [10])
  | Some a =>
    target ← if_fails (resolve a) (quit_with (bs "rmdir: directory not found" ++ [10]));
    cwd ← look fs_cwd_get;
    d ← is_dir target;
    if (target =? 0)%nat then puts (bs "rmdir: cannot remove root" ++ [10])
    else if (target =? cwd)%nat then puts (bs "rmdir: cannot remove current directory" ++ [10])
    else if negb d then puts (bs "rmdir: not a directory" ++ [10])
    else
      full ← has_child target;
      if (full : bool) then puts (bs "rmdir: directory not empty" ++ [10])
      else
        if_fails (delete target) (quit_with (bs "rmdir: failed to remove" ++ [10]));;
        puts (bs "OK" ++ [10])
  end.

(** * Walks *)

Fixpoint indent (depth : nat) : cmd fs unit :=
  match depth with O => mret tt | S d => puts (bs "  ");; indent d end.

Fixpoint tree_recursive (levels : nat) (node depth : nat) : cmd fs unit :=
  match levels with
  | O => fun _ => Stuck NoFuel
  | S levels =>
    it ← try_ (list_begin node);
    match it with
    | None => mret tt
    | Some iter =>
      each_child 64 iter (fun child =>
        indent depth;;
        puts (bs "|- ");;
        name ← look (fun st => fs_get_name st child);
        puts name;;
        d ← is_dir child;
        if (d : bool) then puts (bs "/" ++ [10]);; tree_recursive levels child (depth + 1)
        else puts [10])
    end
  end.

Definition cmd_tree (args : option (list Z)) : cmd fs unit :=
  puts (bs "./" ++ [10]);;
  cwd ← look fs_cwd_get;
  tree_recursive 64 cwd 1.

Fixpoint find_recursive (levels : nat) (node : nat) (pattern : list Z) : cmd fs unit :=
  match levels with
  | O => fun _ => Stuck NoFuel
  | S levels =>
    it ← try_ (list_begin node);
    match it with
    | None => mret tt
    | Some iter =>
      each_child 64 iter (fun child =>
        name ← look (fun st => fs_get_name st child);
        (if contains_nocase name pattern then
           path ← query (fun st => fs_build_path st child 256);
           puts (default [] path);; puts [10]
         else mret tt);;
        d ← is_dir child;
        if (d : bool) then find_recursive levels child pattern else mret tt)
    end
  end.

Definition cmd_find (args : option (list Z)) : cmd fs unit :=
  cwd ← look fs_cwd_get;
  find_recursive 64 cwd (skip_spaces (default [] args)).

(** * Files *)

(** [resolve_allow_root(path, &n) && fs_is_file(n)]. *)
Definition resolve_file (path : list Z) : cmd fs nat :=
  n ← resolve path; f ← is_file n; quit_if (negb f);; mret n.

(** [fs_resolve_checked(path, &n) && fs_is_dir(n)]. *)
Definition resolve_dir (path : list Z) : cmd fs nat :=
  n ← resolve path; d ← is_dir n; quit_if (negb d);; mret n.

(** The number of bytes copied; it fails after a message. *)
Definition cmd_copy_file_path (src_path dst_path : list Z) : cmd fs Z :=
  src_node ← if_fails (resolve_file src_path)
    (quit_with (bs "cp: source not found or not a file" ++ [10]));
  dst ← try_ (resolve dst_path);
  dst_node ← match dst with
    | Some n =>
      f ← is_file n;
      if negb f then quit_with (bs "cp: destination must be a file path" ++ [10]) else mret n
    | None =>
      split ← eval (split_parent_and_name dst_path 256 RAMDISK_NAME_LEN);
      match split with
      | None => quit_with (bs "cp: invalid destination path" ++ [10])
      | Some (parent_path, child_name) =>
        dst_parent ← if_fails (resolve_dir parent_path)
          (quit_with (bs "cp: destination parent not found" ++ [10]));
        if_fails (create_file dst_parent child_name)
          (quit_with (bs "cp: failed to create destination file" ++ [10]));;
        if_fails (resolve_file dst_path)
          (quit_with (bs "cp: destination resolution failed" ++ [10]))
      end
    end;
  '(copy_buf, n) ← read_into RAMDISK_DATA_CAP src_node RAMDISK_DATA_CAP;
  (if n <? 0 then quit_with (bs "cp: read failed" ++ [10]) else mret tt);;
  if_fails (write dst_node copy_buf n) (quit_with (bs "cp: write failed" ++ [10]));;
  mret n.

Definition cmd_cp (args : option (list Z)) : cmd fs unit :=
  split ← eval (split_two_args args 256 256);
  match split with
  | None => puts (bs "Usage: cp <source> <dest>" ++ [10])
  | Some (src, dst) =>
    n ← cmd_copy_file_path src dst;
    s ← eval (itoa_into 16 (i32 n));
    puts (bs "Copied ");; puts s;; puts (bs " bytes" ++ [10])
  end.

Definition cmd_mv (args : option (list Z)) : cmd fs unit :=
  split ← eval (split_two_args args 256 256);
  match split with
  | None => puts (bs "Usage: mv <source> <dest>" ++ [10])
  | Some (src, dst) =>
    src_node ← if_fails (resolve_file src) (quit_with (bs "mv: source not found" ++ [10]));
    dst_node ← try_ (resolve dst);
    if bool_decide (dst_node = Some src_node) then
      puts (bs "mv: source and destination are identical" ++ [10])
    else
      cmd_copy_file_path src dst;;
      if_fails (delete src_node)
        (quit_with (bs "mv: move copied, but source deletion failed" ++ [10]));;
      puts (bs "OK" ++ [10])
  end.

Definition resolve_or_create_file (path : list Z) : cmd fs nat :=
  quit_if (hd0 path =? 0);;
  r ← try_ (resolve path);
  match r with
  | Some node => f ← is_file node; quit_if (negb f);; mret node
  | None =>
    split ← eval (split_parent_and_name path 256 RAMDISK_NAME_LEN);
    match split with
    | None => quit
    | Some (parent_path, child_name) =>
      parent ← resolve_dir parent_path;
      create_file parent child_name;;
      resolve_file path
    end
  end.

(** Splits at the first [>]. *)
Fixpoint split_redir (s : list Z) : list Z * option (list Z) :=
  match s with
  | [] => ([], None)
  | c :: s' => if c =? ch ">" then ([], Some s') else let '(w, r) := split_redir s' in (c :: w, r)
  end.

Definition cmd_echo (args : option (list Z)) : cmd fs unit :=
  match nonempty args with
  | None => puts [10]
  | Some a =>
    line ← eval (strncpy_text 256 255 (buf_text a));
    match split_redir line with
    | (work, None) => puts work;; puts [10]
    | (work, Some redir) =>
      let work := trim_right_spaces work in
      let redir := skip_spaces redir in
      if hd0 redir =? 0 then puts (bs "echo: missing redirect target" ++ [10])
      else
        node ← if_fails (resolve_or_create_file redir)
          (quit_with (bs "echo: invalid redirect target" ++ [10]));
        if_fails (write node work (Z.of_nat (length work)))
          (quit_with (bs "echo: write failed" ++ [10]))
    end
  end.

Definition split_pattern_file (args : option (list Z)) (pattern_size file_size : nat)
    : outcome (option (list Z * list Z)) :=
  match nonempty args with
  | None => Ok None
  | Some a =>
    '(pattern, rest) ← copy_word pattern_size (skip_spaces a);
    '(file, _) ← copy_rest file_size (skip_spaces rest);
    Ok (if (length pattern =? 0)%nat || (length file =? 0)%nat then None else Some (pattern, file))
  end.

(** The line [line], read back to front, ends here. *)
Definition grep_line (pattern line : list Z) (line_num matches : Z) : cmd fs Z :=
  let text := rev line in
  if contains_nocase text pattern then
    put_itoa 16 (i32 line_num);; puts (bs ": ");; puts text;; puts [10];; mret (matches + 1)
  else mret matches.

(** The loop over the file: [line] is the current line so far. *)
Fixpoint grep_lines (pattern content line : list Z) (line_num matches : Z) : cmd fs Z :=
  match content with
  | [] => grep_line pattern line line_num matches
  | c :: content =>
    if c =? 0 then grep_line pattern line line_num matches
    else if c =? 10 then
      matches ← grep_line pattern line line_num matches;
      grep_lines pattern content [] (line_num + 1) matches
    else grep_lines pattern content (c :: line) line_num matches
  end.

Definition cmd_grep (args : option (list Z)) : cmd fs unit :=
  split ← eval (split_pattern_file args 64 256);
  match split with
  | None => puts (bs "Usage: grep <pattern> <file>" ++ [10])
  | Some (pattern, file_name) =>
    file ← if_fails (resolve_file file_name) (quit_with (bs "grep: file not found" ++ [10]));
    '(buf, n) ← read_into (RAMDISK_DATA_CAP + 1) file RAMDISK_DATA_CAP;
    if n >? 0 then
      nul_at (RAMDISK_DATA_CAP + 1) n;;
      matches ← grep_lines pattern buf [] 1 0;
      if matches =? 0 then puts (bs "No matches" ++ [10]) else mret tt
    else if n =? 0 then puts (bs "No matches" ++ [10])
    else puts (bs "grep: read failed" ++ [10])
  end.

Definition KAT_BUFFER_SIZE : Z := 4096.

Definition kat_run (filename : option (list Z)) : cmd fs unit :=
  match nonempty filename with
  | None => puts (bs "kat: missing file operand" ++ [10])
  | Some f =>
    let complain (s : list Z) : cmd fs unit := puts (bs "kat: ");; puts f;; puts s in
    node ← query (fun st => fs_resolve st (Some f));
    if (node =? 0)%nat then complain (bs ": No such file or directory" ++ [10])
    else
      b ← is_file node;
      if negb b then complain (bs ": Is a directory" ++ [10])
      else
        '(buffer, n) ← read_into KAT_BUFFER_SIZE node (KAT_BUFFER_SIZE - 1);
        if n <? 0 then complain (bs ": Error reading file" ++ [10])
        else nul_at KAT_BUFFER_SIZE n;; puts buffer;; puts [10]
  end.

Definition cmd_kat (args : option (list Z)) : cmd fs unit := kat_run args.
Definition cmd_cat (args : option (list Z)) : cmd fs unit := kat_run args.

Definition cmd_uname {S} (args : option (list Z)) : cmd S unit :=
  puts (bs "HeatOS 1.0 (32-bit Protected Mode)" ++ [10]).
Definition cmd_whoami {S} (args : option (list Z)) : cmd S unit := puts (bs "root" ++ [10]).
