(* ===== verification/Cpu.v ===== *)
(** Segment and interrupt descriptors: src/src/kernel/gdt.c and
    src/src/kernel/idt.c.

    The tables are lists of records with the fields of the packed structs.
    What [gdt_flush] and [idt_flush] (assembly) load is the pair of limit and
    base left in the pointer structs; the addresses of the tables and of the
    handlers are parameters. *)
From Stdlib Require Import ZArith Lia.
From stdpp Require Import base tactics option numbers list.
From S2P Require Import Prelude.
#[local] Open Scope Z_scope.

Record gdt_entry := GdtEntry {
  limit_low : Z; base_low : Z; base_middle : Z; access : Z; granularity : Z; base_high : Z }.

Record idt_entry := IdtEntry { base_lo : Z; sel : Z; always0 : Z; flags : Z; base_hi : Z }.

(** A table and the pointer struct describing it. *)
Record gdt := Gdt { gdt_entries : list gdt_entry; gdt_ptr_limit : Z; gdt_ptr_base : Z }.
Record idt := Idt { idt_entries : list idt_entry; idt_ptr_limit : Z; idt_ptr_base : Z }.

Definition gdt_boot : gdt := Gdt (replicate 3 (GdtEntry 0 0 0 0 0 0)) 0 0.
Definition idt_boot : idt := Idt (replicate 256 (IdtEntry 0 0 0 0 0)) 0 0.

Definition gdt_gate (base limit acc gran : Z) : gdt_entry :=
  GdtEntry (u16 (Z.land limit 65535)) (u16 (Z.land base 65535)) (u8 (Z.land (Z.shiftr base 16) 255)) acc
    (Z.lor (u8 (Z.land (Z.shiftr limit 16) 15)) (Z.land gran 240)) (u8 (Z.land (Z.shiftr base 24) 255)).

Definition gdt_set_gate (num base limit acc gran : Z) (g : gdt) : outcome gdt :=
  l ← store num (gdt_gate base limit acc gran) (gdt_entries g);
  Ok (Gdt l (gdt_ptr_limit g) (gdt_ptr_base g)).

Definition gdt_init (entries_addr : Z) (g : gdt) : outcome gdt :=
  let g := Gdt (gdt_entries g) (u16 (8 * 3 - 1)) (u32 entries_addr) in
  g ← gdt_set_gate 0 0 0 0 0 g;
  g ← gdt_set_gate 1 0 4294967295 154 207 g;
  gdt_set_gate 2 0 4294967295 146 207 g.

Definition idt_gate (base s fl : Z) : idt_entry :=
  IdtEntry (u16 (Z.land base 65535)) s 0 fl (u16 (Z.land (Z.shiftr base 16) 65535)).

Definition idt_set_gate (num base s fl : Z) (d : idt) : outcome idt :=
  l ← store num (idt_gate base s fl) (idt_entries d);
  Ok (Idt l (idt_ptr_limit d) (idt_ptr_base d)).

Fixpoint idt_zero (n : nat) (i : Z) (d : idt) : outcome idt :=
  match n with
  | O => Ok d
  | S n => d ← idt_set_gate (u8 i) 0 8 142 d; idt_zero n (i + 1) d
  end.

Definition idt_init (entries_addr : Z) (d : idt) : outcome idt :=
  idt_zero 256 0 (Idt (idt_entries d) (u16 (8 * 256 - 1)) (u32 entries_addr)).

Definition idt_register_handler (num handler : Z) (d : idt) : outcome idt :=
  idt_set_gate num (u32 handler) 8 142 d.

(** * What the CPU reads back *)

Definition segment_base (e : gdt_entry) : Z :=
  base_low e + Z.shiftl (base_middle e) 16 + Z.shiftl (base_high e) 24.
Definition segment_limit (e : gdt_entry) : Z := limit_low e + Z.shiftl (Z.land (granularity e) 15) 16.
Definition segment_flags (e : gdt_entry) : Z := Z.shiftr (granularity e) 4.
Definition gate_offset (e : idt_entry) : Z := base_lo e + Z.shiftl (base_hi e) 16.

Lemma land_low16 a : Z.land a 65535 = a mod 65536.
Proof. exact (Z.land_ones a 16 ltac:(lia)). Qed.
Lemma land_low8 a : Z.land a 255 = a mod 256.
Proof. exact (Z.land_ones a 8 ltac:(lia)). Qed.
Lemma land_low4 a : Z.land a 15 = a mod 16.
Proof. exact (Z.land_ones a 4 ltac:(lia)). Qed.

Lemma gate_offset_base base s fl : is_u32 base -> gate_offset (idt_gate base s fl) = base.
Proof.
  intros Hb. unfold gate_offset, idt_gate. cbn.
  rewrite ?land_low16, ?land_low8, Z.shiftr_div_pow2, Z.shiftl_mul_pow2 by lia.
  words.
Qed.

Lemma gdt_gate_base base limit acc gran : is_u32 base -> segment_base (gdt_gate base limit acc gran) = base.
Proof.
  intros Hb. unfold segment_base, gdt_gate. cbn.
  rewrite ?land_low16, ?land_low8, !Z.shiftr_div_pow2, !Z.shiftl_mul_pow2 by lia.
  words.
Qed.

Lemma u8_of x : 0 <= x < 16 -> u8 x = x.
Proof. words. Qed.

Lemma gdt_gate_limit base limit acc gran : 0 <= limit -> is_u8 gran ->
  segment_limit (gdt_gate base limit acc gran) = limit mod 2 ^ 20 /\
  segment_flags (gdt_gate base limit acc gran) = gran / 16.
Proof.
  intros Hl Hg. unfold segment_limit, segment_flags, gdt_gate. cbn.
  rewrite land_low16, (land_low4 (Z.shiftr limit 16)).
  rewrite u8_of by (apply Z.mod_pos_bound; lia). set (h := Z.shiftr limit 16 mod 16).
  assert (Hh : 0 <= h < 16) by (apply Z.mod_pos_bound; lia).
  assert (Hlow : Z.land (Z.lor h (Z.land gran 240)) 15 = h).
  { rewrite Z.land_lor_distr_l, <- Z.land_assoc. change (Z.land 240 15) with 0. rewrite Z.land_0_r, Z.lor_0_r.
    rewrite land_low4. apply Z.mod_small. lia. }
  split.
  - rewrite Hlow, Z.shiftl_mul_pow2 by lia. unfold h. rewrite Z.shiftr_div_pow2 by lia. words.
  - rewrite Z.shiftr_lor, Z.shiftr_land. change (Z.shiftr 240 4) with 15.
    rewrite !Z.shiftr_div_pow2 by lia. rewrite (Z.div_small h) by lia. rewrite Z.lor_0_l.
    rewrite land_low4. apply Z.mod_small. words.
Qed.

(** * Initialisation *)

(** The flat segments: code and data from 0 to 4 GiB (2^20 pages of 4 KiB),
    present, ring 0; the pointer covers exactly the three entries. *)
Lemma gdt_init_flat addr : is_u32 addr -> succeeds (gdt_init addr gdt_boot) (fun g =>
  gdt_ptr_limit g = 8 * 3 - 1 /\ gdt_ptr_base g = addr /\
  exists code data, gdt_entries g = [GdtEntry 0 0 0 0 0 0; code; data] /\
    Forall (fun e => segment_base e = 0 /\ segment_limit e = 2 ^ 20 - 1 /\ segment_flags e = 12) [code; data] /\
    access code = 154 /\ access data = 146).
Proof.
  intros Ha. apply succeeds_ret. split; [done|]. split; [by apply u32_small|].
  do 2 eexists. split; [vm_compute; reflexivity|]. repeat constructor.
Qed.

Lemma idt_zero_ok n : forall i d, length (idt_entries d) = 256%nat -> 0 <= i -> i + Z.of_nat n <= 256 ->
  succeeds (idt_zero n i d) (fun d' => length (idt_entries d') = 256%nat /\
    idt_ptr_limit d' = idt_ptr_limit d /\ idt_ptr_base d' = idt_ptr_base d /\
    forall k, (0 <= k < 256)%nat -> idt_entries d' !! k =
      if decide (i <= Z.of_nat k < i + Z.of_nat n) then Some (idt_gate 0 8 142) else idt_entries d !! k).
Proof.
  induction n as [|n IH]; intros i d Hl Hi Hn; cbn [idt_zero].
  { apply succeeds_ret. split_and!; try done. intros. by rewrite decide_False by lia. }
  rewrite u8_small by (unfold is_u8; lia). unfold idt_set_gate. rewrite store_ok by lia. cbn [mbind outcome_bind].
  eapply succeeds_mono; [apply IH; cbn; rewrite ?length_insert; lia|]. cbn. intros d' (H1 & H2 & H3 & H4).
  split_and!; try done. intros k Hk. rewrite H4 by done.
  destruct (decide (k = Z.to_nat i)) as [->|Hne].
  - do 2 case_decide; try lia. apply list_lookup_insert_eq. lia.
  - rewrite list_lookup_insert_ne by done. do 2 case_decide; lia || done.
Qed.

(** Registering a handler points exactly one vector at it. *)
Lemma idt_register_ok num handler d : length (idt_entries d) = 256%nat -> is_u8 num -> is_u32 handler ->
  succeeds (idt_register_handler num handler d) (fun d' => length (idt_entries d') = 256%nat /\
    forall k, idt_entries d' !! k =
      if decide (k = Z.to_nat num) then Some (idt_gate handler 8 142) else idt_entries d !! k).
Proof.
  intros Hl Hn Hh. unfold idt_register_handler, idt_set_gate. rewrite u32_small by done.
  unfold is_u8 in Hn. rewrite store_ok by lia. apply succeeds_ret. cbn.
  split; [by rewrite length_insert|]. intros k. case_decide as Hk.
  - subst k. apply list_lookup_insert_eq. lia.
  - by apply list_lookup_insert_ne.
Qed.
