(* ===== verification/Input.v ===== *)
(** The PS/2 controller: src/src/drivers/keyboard.c and src/src/drivers/mouse.c.

    Both devices share one data port; the status port says whether a byte
    waits and which device sent it.  The globals of the two files are the
    record [input].  The loops that only an empty controller ends run with
    [fuel] turns; the guarded ones with the bound of the code. *)
From Stdlib Require Import ZArith Lia Ascii String.
From stdpp Require Import base tactics option numbers list.
From S2P Require Import Prelude Buffer Ports Vga Terminal.
#[local] Open Scope Z_scope.

Definition KB_DATA_PORT : Z := 96.
Definition KB_STATUS_PORT : Z := 100.
Definition KB_STATUS_OBF : Z := 1.
Definition KB_STATUS_IBF : Z := 2.
Definition KB_STATUS_AUX : Z := 32.

(** The globals of mouse.c. *)
Record mouse := Mouse {
  g_mouse_x : Z; g_mouse_y : Z; g_dx_accum : Z; g_dy_accum : Z; g_buttons : Z;
  g_has_event : bool; g_ready : bool; g_packet : list Z; g_packet_idx : Z }.

(** The globals of keyboard.c. *)
Record kbd := Kbd { g_shift_left : bool; g_shift_right : bool; g_extended : bool }.

Record input := Input { keyboard : kbd; the_mouse : mouse }.

Definition set_kbd (k : kbd) (s : input) : input := Input k (the_mouse s).
Definition set_mouse (m : mouse) (s : input) : input := Input (keyboard s) m.

(** The state at boot. *)
Definition kbd_boot : kbd := Kbd false false false.
Definition mouse_boot : mouse := Mouse (VGA_WIDTH / 2) (VGA_HEIGHT / 2) 0 0 0 false false [0; 0; 0] 0.
Definition input_boot : input := Input kbd_boot mouse_boot.

(** * Mouse packets *)

Definition clampi (v lo hi : Z) : Z := if v <? lo then lo else if v >? hi then hi else v.

Definition mouse_process_packet (b0 b1 b2 : Z) (m : mouse) : mouse :=
  if negb (Z.land b0 192 =? 0) then m
  else
    let dx := i8 b1 in
    let dy := i8 b2 in
    let new_buttons := Z.land b0 7 in
    Mouse (clampi (g_mouse_x m + dx) 0 (VGA_WIDTH - 1)) (clampi (g_mouse_y m - dy) 0 (VGA_HEIGHT - 1))
      (i32 (g_dx_accum m + dx)) (i32 (g_dy_accum m - dy)) new_buttons
      (if negb (dx =? 0) || negb (dy =? 0) || negb (new_buttons =? g_buttons m) then true else g_has_event m)
      (g_ready m) (g_packet m) (g_packet_idx m).

Definition set_packet (p : list Z) (i : Z) (m : mouse) : mouse :=
  Mouse (g_mouse_x m) (g_mouse_y m) (g_dx_accum m) (g_dy_accum m) (g_buttons m) (g_has_event m)
    (g_ready m) p i.

Definition mouse_handle_aux_byte (data : Z) (m : mouse) : outcome mouse :=
  if negb (g_ready m) then Ok m
  else if (g_packet_idx m =? 0) && (Z.land data 8 =? 0) then Ok m
  else
    p ← blit (g_packet m) (g_packet_idx m) [data];
    let i := g_packet_idx m + 1 in
    if i >=? 3 then
      b0 ← read p 0; b1 ← read p 1; b2 ← read p 2;
      Ok (set_packet p 0 (mouse_process_packet b0 b1 b2 (set_packet p i m)))
    else Ok (set_packet p i m).

Definition mouse_get_screen_pos (m : mouse) : Z * Z := (g_mouse_x m, g_mouse_y m).
Definition mouse_get_buttons (m : mouse) : Z := g_buttons m.
Definition mouse_has_event (m : mouse) : bool := g_has_event m.

Definition mouse_get_delta (m : mouse) : Z * Z * mouse :=
  (g_dx_accum m, g_dy_accum m,
   Mouse (g_mouse_x m) (g_mouse_y m) 0 0 (g_buttons m) (g_has_event m) (g_ready m) (g_packet m) (g_packet_idx m)).

Definition mouse_clear_event (m : mouse) : mouse :=
  Mouse (g_mouse_x m) (g_mouse_y m) (g_dx_accum m) (g_dy_accum m) (g_buttons m) false (g_ready m)
    (g_packet m) (g_packet_idx m).

Definition mouse_set_screen_pos (x y : Z) (m : mouse) : mouse :=
  Mouse (clampi x 0 (VGA_WIDTH - 1)) (clampi y 0 (VGA_HEIGHT - 1)) (g_dx_accum m) (g_dy_accum m)
    (g_buttons m) (g_has_event m) (g_ready m) (g_packet m) (g_packet_idx m).

(** * Scan codes *)

(** US QWERTY, scan code set 1; the entries from 0x3B on are 0. *)
Definition scancode_ascii : list Z :=
  [0; 27] ++ bs "1234567890-=" ++ [8; 9] ++ bs "qwertyuiop[]" ++ [13; 0] ++ bs "asdfghjkl;'`" ++
  [0] ++ bs "\zxcvbnm,./" ++ [0; ch "*"; 0; ch " "; 0] ++ replicate 69 0.
Definition scancode_shift : list Z :=
  [0; 27] ++ bs "!@#$%^&*()_+" ++ [8; 9] ++ bs "QWERTYUIOP{}" ++ [13; 0] ++ bs "ASDFGHJKL:" ++
  [34] ++ bs "~" ++ [0] ++ bs "|ZXCVBNM<>?" ++ [0; ch "*"; 0; ch " "; 0] ++ replicate 69 0.

Definition shift_held (k : kbd) : bool := g_shift_left k || g_shift_right k.

Fixpoint key_switch (l : list (Z * Z)) (code : Z) : option Z :=
  match l with
  | [] => None
  | (c, key) :: l => if code =? c then Some key else key_switch l code
  end.

Definition extended_keys : list (Z * Z) :=
  [(72, KEY_UP); (80, KEY_DOWN); (75, KEY_LEFT); (77, KEY_RIGHT); (71, KEY_HOME); (79, KEY_END);
   (83, KEY_DELETE); (73, KEY_PAGEUP); (81, KEY_PAGEDOWN)].
Definition plain_keys : list (Z * Z) :=
  [(1, KEY_ESCAPE); (14, KEY_BACKSPACE); (15, KEY_TAB); (28, KEY_ENTER); (59, KEY_F1); (60, KEY_F2);
   (61, KEY_F3); (62, KEY_F4); (68, KEY_F10); (72, KEY_UP); (80, KEY_DOWN); (75, KEY_LEFT); (77, KEY_RIGHT)].

(** What [keyboard_poll] does with a byte [sc] of the keyboard: the key it
    returns, [None] when it goes on. *)
Definition keyboard_byte (sc : Z) (k : kbd) : outcome (option Z * kbd) :=
  let extended e := Kbd (g_shift_left k) (g_shift_right k) e in
  if sc =? 224 then Ok (None, extended true)
  else if sc =? 225 then Ok (None, extended false)
  else
    let released := negb (Z.land sc 128 =? 0) in
    let code := Z.land sc 127 in
    if code =? 42 then Ok (None, Kbd (negb released) (g_shift_right k) (g_extended k))
    else if code =? 54 then Ok (None, Kbd (g_shift_left k) (negb released) (g_extended k))
    else if released then Ok (None, extended false)
    else if g_extended k then Ok (key_switch extended_keys code, extended false)
    else
      match key_switch plain_keys code with
      | Some key => Ok (Some key, k)
      | None =>
        c ← (if code <? 128 then read (if shift_held k then scancode_shift else scancode_ascii) code else Ok 0);
        Ok (if c =? 0 then None else Some c, k)
      end.

(** * The drivers *)

Section drivers.
Context `{Hardware}.
Abbreviation inputM := (M input).

Definition mouse_feed (data : Z) : inputM unit :=
  m ← gets the_mouse; m ← lift (mouse_handle_aux_byte data m); modify (set_mouse m).

(** [status & bit]. *)
Definition status_bit (bit : Z) : inputM bool := s ← inb KB_STATUS_PORT; mret (negb (Z.land s bit =? 0)).

(** [while (guard--) if (c) return true;] and the [false] after it. *)
Definition wait_status (guard : Z) (c : inputM bool) : inputM bool :=
  r ← mrepeat (Z.to_nat guard) (b ← c; mret (if (b : bool) then Some tt else None));
  mret (bool_decide (is_Some r)).

Definition ps2_wait_input_clear (guard : Z) : inputM bool :=
  wait_status guard (b ← status_bit KB_STATUS_IBF; mret (negb b)).
Definition ps2_wait_output_full (guard : Z) : inputM bool :=
  wait_status guard (status_bit KB_STATUS_OBF).

Definition mouse_read_data : inputM (option Z) :=
  ok ← ps2_wait_output_full 800000;
  if (ok : bool) then v ← inb KB_DATA_PORT; mret (Some v) else mret None.

(** Waits until the controller takes a byte and sends it to [port]. *)
Definition ps2_send (port value : Z) : inputM bool :=
  ok ← ps2_wait_input_clear 800000;
  if (ok : bool) then outb port value;; mret true else mret false.

Definition mouse_write_device (value : Z) : inputM bool :=
  a ← ps2_send KB_STATUS_PORT 212;
  if negb a then mret false
  else
    b ← ps2_send KB_DATA_PORT value;
    if negb b then mret false
    else ack ← mouse_read_data; mret (bool_decide (ack = Some 250)).

(** The fields [mouse_init] clears. *)
Definition mouse_reset (m : mouse) : mouse :=
  Mouse (VGA_WIDTH / 2) (VGA_HEIGHT / 2) 0 0 0 false false (g_packet m) 0.
Definition mouse_enable (m : mouse) : mouse :=
  Mouse (g_mouse_x m) (g_mouse_y m) (g_dx_accum m) (g_dy_accum m) (g_buttons m) (g_has_event m) true
    (g_packet m) (g_packet_idx m).

Definition mouse_init : inputM bool :=
  modify (fun s => set_mouse (mouse_reset (the_mouse s)) s);;
  a ← ps2_send KB_STATUS_PORT 168;
  if negb a then mret false else
  b ← ps2_send KB_STATUS_PORT 32;
  if negb b then mret false else
  cmd ← mouse_read_data;
  match cmd with
  | None => mret false
  | Some cmd =>
    let cmd := Z.land (Z.lor cmd 2) 223 in
    c ← ps2_send KB_STATUS_PORT 96;
    if negb c then mret false else
    d ← ps2_send KB_DATA_PORT cmd;
    if negb d then mret false else
    e ← mouse_write_device 246;
    if negb e then mret false else
    f ← mouse_write_device 244;
    if negb f then mret false else
    modify (fun s => set_mouse (mouse_enable (the_mouse s)) s);;
    mret true
  end.

Definition mouse_poll (fuel : nat) : inputM unit :=
  mloop fuel (
    full ← status_bit KB_STATUS_OBF;
    if negb full then mret (Some tt)
    else
      aux ← status_bit KB_STATUS_AUX;
      if negb aux then mret (Some tt)
      else d ← inb KB_DATA_PORT; mouse_feed d;; mret None).

Definition keyboard_init (fuel : nat) : inputM unit :=
  modify (set_kbd kbd_boot);;
  mloop fuel (
    full ← status_bit KB_STATUS_OBF;
    if negb full then mret (Some tt) else inb KB_DATA_PORT;; mret None).

(** One turn of the loops of [keyboard_has_key] and [keyboard_poll]: mouse
    bytes go to the mouse; [empty] or [other] decides the rest. *)
Definition poll_turn {R} (empty : R) (other : inputM (option R)) : inputM (option R) :=
  status ← inb KB_STATUS_PORT;
  if Z.land status KB_STATUS_OBF =? 0 then mret (Some empty)
  else if negb (Z.land status KB_STATUS_AUX =? 0) then
    d ← inb KB_DATA_PORT; mouse_feed d;; mret None
  else other.

Definition keyboard_has_key (fuel : nat) : inputM bool :=
  mloop fuel (poll_turn false (mret (Some true))).

(** A turn of [keyboard_poll] with a byte of the keyboard. *)
Definition read_key : inputM (option Z) :=
  sc ← inb KB_DATA_PORT;
  k ← gets keyboard;
  '(key, k) ← lift (keyboard_byte sc k);
  modify (set_kbd k);;
  mret key.

Definition keyboard_poll (fuel : nat) : inputM Z := mloop fuel (poll_turn 0 read_key).

Definition keyboard_wait (fuel : nat) : inputM Z :=
  mloop fuel (key ← keyboard_poll fuel; mret (if key =? 0 then None else Some key)).
End drivers.
