(* ===== verification/InputProps.v ===== *)
(** What the PS/2 drivers compute, against a controller that holds a queue of
    bytes of either device. *)
From Stdlib Require Import ZArith Lia Ascii String.
From stdpp Require Import base tactics option numbers list.
From S2P Require Import Prelude Buffer Ports Vga Terminal Input.
#[local] Open Scope Z_scope.

(** * The controller

    A byte of the queue and whether the mouse sent it.  Reading the data port
    takes the first one; the status port shows it. *)

Definition data_reads (tr : list io_event) : nat :=
  length (List.filter (fun e => match e with In _ p _ => p =? KB_DATA_PORT | _ => false end) tr).

Definition ps2_answer (l : list (bool * Z)) (port : Z) : Z :=
  match l with
  | [] => 0
  | (aux, b) :: _ =>
    if port =? KB_STATUS_PORT then (if (aux : bool) then KB_STATUS_OBF + KB_STATUS_AUX else KB_STATUS_OBF)
    else b
  end.

Definition ps2 (queue : list (bool * Z)) : Hardware := fun tr _ port =>
  ps2_answer (drop (data_reads tr) queue) port.

Definition mouse_bytes (l : list (bool * Z)) : list Z := map snd (List.filter fst l).
Definition kbd_bytes (l : list (bool * Z)) : list Z := map snd (List.filter (fun b => negb b.1) l).

(** * The mouse's packets *)

Definition mouse_ok (m : mouse) : Prop :=
  length (g_packet m) = 3%nat /\ 0 <= g_packet_idx m < 3 /\
  0 <= g_mouse_x m < VGA_WIDTH /\ 0 <= g_mouse_y m < VGA_HEIGHT.

(** What is left of a packet, and the position it moves the pointer to. *)
Definition feed (m : mouse) (d : Z) : mouse :=
  match mouse_handle_aux_byte d m with Ok m' => m' | Stuck _ => m end.

Lemma clampi_range v n : 0 < n -> 0 <= clampi v 0 (n - 1) < n.
Proof. intros. unfold clampi. rewrite Z.gtb_ltb. zcases; lia. Qed.

Lemma process_ok b0 b1 b2 m : mouse_ok m ->
  mouse_ok (mouse_process_packet b0 b1 b2 m) /\
  g_packet_idx (mouse_process_packet b0 b1 b2 m) = g_packet_idx m.
Proof.
  intros (Hl & Hi & Hx & Hy). unfold mouse_process_packet.
  destruct (negb _); [by split_and!|]. split; [|done].
  split; [done|]. split; [done|]. split; by apply clampi_range.
Qed.

Lemma handle_ok d m : mouse_ok m -> succeeds (mouse_handle_aux_byte d m) mouse_ok.
Proof.
  intros Hm. pose proof Hm as (Hl & Hi & Hx & Hy). unfold mouse_handle_aux_byte.
  destruct (negb _); [by apply succeeds_ret|]. destruct (_ && _); [by apply succeeds_ret|].
  eapply succeeds_bind with (P := fun p => length p = 3%nat).
  { rewrite blit_ok by (rewrite ?Hl; simpl; lia). apply succeeds_ret.
    rewrite !length_app, length_take, length_drop. simpl. lia. }
  intros p Hp. destruct (g_packet_idx m + 1 >=? 3) eqn:E.
  - rewrite !read_ok by lia. apply succeeds_ret.
    destruct (process_ok (byte_at p 0) (byte_at p 1) (byte_at p 2) (set_packet p (g_packet_idx m) m))
      as [Hok _]; [unfold mouse_ok; cbn; lia|].
    unfold mouse_ok, mouse_process_packet, set_packet in *. cbn in *.
    destruct (negb _); cbn in *; split_and!; lia || apply Hok.
  - apply succeeds_ret. rewrite Z.geb_leb in E. apply Z.leb_gt in E. unfold mouse_ok; cbn. split_and!; lia.
Qed.

Lemma feed_ok m d : mouse_ok m -> mouse_handle_aux_byte d m = Ok (feed m d) /\ mouse_ok (feed m d).
Proof. intros Hm. destruct (handle_ok d m Hm) as (m' & E & Hm'). unfold feed. by rewrite E. Qed.

Lemma feeds_ok l : forall m, mouse_ok m -> mouse_ok (foldl feed m l).
Proof. induction l as [|d l IH]; intros m Hm; [done|]. cbn. apply IH, feed_ok, Hm. Qed.

(** * Decoding scan codes *)

Definition kbyte (k : kbd) (sc : Z) : option Z * kbd :=
  match keyboard_byte sc k with Ok r => r | Stuck _ => (None, k) end.

(** The keys of a sequence of keyboard bytes, and the modifiers after it. *)
Fixpoint decode (k : kbd) (l : list Z) : list Z :=
  match l with [] => [] | sc :: l => option_list (kbyte k sc).1 ++ decode (kbyte k sc).2 l end.
Definition modifiers (k : kbd) (l : list Z) : kbd := foldl (fun k sc => (kbyte k sc).2) k l.

Definition kbds : list kbd :=
  a ← [true; false]; b ← [true; false]; c ← [true; false]; [Kbd a b c].

Definition byte_decodes (k : kbd) (sc : Z) : bool :=
  match keyboard_byte sc k with
  | Ok (Some key, _) => negb (key =? 0)
  | Ok (None, _) => true
  | Stuck _ => false
  end.

Lemma bytes_decode : forallb (fun k => forallb (byte_decodes k) (seqZ 0 256)) kbds = true.
Proof. vm_compute. reflexivity. Qed.

Lemma keyboard_byte_ok k sc : is_u8 sc ->
  keyboard_byte sc k = Ok (kbyte k sc) /\ (forall key, (kbyte k sc).1 = Some key -> key <> 0).
Proof.
  intros Hsc. pose proof bytes_decode as H. rewrite forallb_forall in H.
  assert (Hk : List.In k kbds) by (destruct k as [[] [] []]; cbn; tauto).
  specialize (H k Hk). rewrite forallb_forall in H.
  specialize (H sc). unfold byte_decodes in H. unfold kbyte.
  destruct (keyboard_byte sc k) as [[[key|] k']|e]; cbn.
  - split; [done|]. intros ? [= <-] ->. discriminate H.
    apply list_elem_of_In, elem_of_seqZ. unfold is_u8 in Hsc. lia.
  - done.
  - discriminate H. apply list_elem_of_In, elem_of_seqZ. unfold is_u8 in Hsc. lia.
Qed.

(** * Polling *)

Section poll.
Variable queue : list (bool * Z).
#[local] Instance the_ps2 : Hardware := ps2 queue.

Definition waiting (tr : list io_event) (l : list (bool * Z)) : Prop := drop (data_reads tr) queue = l.

Lemma status_read (s : input) tr l : waiting tr l ->
  exists tr', inb KB_STATUS_PORT (s, tr) = Ok (u8 (ps2_answer l KB_STATUS_PORT), (s, tr')) /\ waiting tr' l.
Proof. intros <-. eexists. split; reflexivity. Qed.

Lemma data_read (s : input) tr aux b l : waiting tr ((aux, b) :: l) -> is_u8 b ->
  exists tr', inb KB_DATA_PORT (s, tr) = Ok (b, (s, tr')) /\ waiting tr' l.
Proof.
  intros Hw Hb. unfold inb, port_in. cbn [fst snd].
  change (answer tr W8 KB_DATA_PORT) with (ps2_answer (drop (data_reads tr) queue) KB_DATA_PORT).
  unfold waiting in Hw. rewrite Hw. cbn [trunc]. change (ps2_answer _ _) with b. rewrite u8_small by done.
  eexists. split; [reflexivity|]. unfold waiting. cbn [data_reads List.filter].
  change (data_reads (In W8 KB_DATA_PORT b :: tr)) with (S (data_reads tr)).
  by rewrite <- Nat.add_1_r, <- drop_drop, Hw.
Qed.

(** A turn of a polling loop with a mouse byte in front. *)
Lemma turn_mouse {R} (e : R) o s tr b l : waiting tr ((true, b) :: l) -> is_u8 b -> mouse_ok (the_mouse s) ->
  exists tr', poll_turn e o (s, tr) = Ok (None, (set_mouse (feed (the_mouse s) b) s, tr')) /\ waiting tr' l.
Proof.
  intros Hw Hb Hm. destruct (status_read s tr _ Hw) as (tr1 & E1 & Hw1).
  destruct (data_read s tr1 _ _ _ Hw1 Hb) as (tr2 & E2 & Hw2). exists tr2. split; [|done].
  unfold poll_turn, mbind, M_bind. rewrite E1. change (Z.land _ KB_STATUS_OBF =? 0) with false.
  change (negb _) with true. cbv iota beta. rewrite E2. unfold mouse_feed, mbind, M_bind, gets, lift. cbn [fst snd].
  by destruct (feed_ok (the_mouse s) b Hm) as [-> _].
Qed.

(** With a keyboard byte in front, or none. *)
Lemma turn_kbd {R} (e : R) o s tr b l : waiting tr ((false, b) :: l) ->
  exists tr', poll_turn e o (s, tr) = o (s, tr') /\ waiting tr' ((false, b) :: l).
Proof.
  intros Hw. destruct (status_read s tr _ Hw) as (tr1 & E1 & Hw1). exists tr1. split; [|done].
  unfold poll_turn, mbind, M_bind. by rewrite E1.
Qed.

Lemma turn_empty {R} (e : R) o s tr : waiting tr [] ->
  exists tr', poll_turn e o (s, tr) = Ok (Some e, (s, tr')) /\ waiting tr' [].
Proof.
  intros Hw. destruct (status_read s tr _ Hw) as (tr1 & E1 & Hw1). exists tr1. split; [|done].
  unfold poll_turn, mbind, M_bind. by rewrite E1.
Qed.

(** What is still to come from [s] with [l] waiting. *)
Definition rest (s : input) (l : list (bool * Z)) : list Z * input :=
  (decode (keyboard s) (kbd_bytes l),
   Input (modifiers (keyboard s) (kbd_bytes l)) (foldl feed (the_mouse s) (mouse_bytes l))).

Lemma poll_spec fuel : forall l s tr, waiting tr l -> Forall (fun b => is_u8 b.2) l -> mouse_ok (the_mouse s) ->
  (length l < fuel)%nat ->
  exists key s' tr' l', keyboard_poll fuel (s, tr) = Ok (key, (s', tr')) /\ waiting tr' l' /\
    Forall (fun b => is_u8 b.2) l' /\ mouse_ok (the_mouse s') /\ (rest s l).2 = (rest s' l').2 /\
    ((key = 0 /\ l' = [] /\ (rest s l).1 = []) \/
     (key <> 0 /\ (length l' < length l)%nat /\ (rest s l).1 = key :: (rest s' l').1)).
Proof.
  induction fuel as [|fuel IH]; intros l s tr Hw Hl Hm Hfuel; [lia|].
  unfold keyboard_poll. cbn [mloop]. destruct l as [|[[] b] l].
  - destruct (turn_empty 0 read_key s tr Hw) as (tr1 & E1 & Hw1).
    unfold mbind at 1, M_bind at 1. rewrite E1. do 4 eexists. split; [reflexivity|]. split_and!; try done.
    by left.
  - apply Forall_cons in Hl as [Hb Hl].
    destruct (turn_mouse 0 read_key s tr b l Hw Hb Hm) as (tr1 & E1 & Hw1).
    unfold mbind at 1, M_bind at 1. rewrite E1.
    destruct (IH l (set_mouse (feed (the_mouse s) b) s) tr1 Hw1 Hl) as (key & s' & tr' & l' & E & Hw' & Hl' & Hm' & Hr & Hc);
      [by apply feed_ok|cbn in Hfuel; lia|].
    exists key, s', tr', l'. split_and!; try done. destruct Hc as [?|(?&?&?)]; [by left|right; split_and!; cbn; try done; lia].
  - apply Forall_cons in Hl as [Hb Hl].
    destruct (turn_kbd 0 read_key s tr b l Hw) as (tr1 & E1 & Hw1).
    unfold mbind at 1, M_bind at 1. rewrite E1. unfold read_key at 1.
    destruct (data_read s tr1 _ _ _ Hw1 Hb) as (tr2 & E2 & Hw2). cbn in Hb.
    destruct (keyboard_byte_ok (keyboard s) b Hb) as [E3 Hne].
    unfold mbind at 1, M_bind at 1. rewrite E2.
    unfold mbind at 1 2 3, M_bind at 1 2 3, gets at 1, lift at 1. cbn [fst snd]. rewrite E3.
    unfold rest in *. cbn [kbd_bytes mouse_bytes List.filter fst snd negb map decode] in *.
    destruct (kbyte (keyboard s) b) as [[key|] k'] eqn:Ek; cbn [fst snd] in *.
    + exists key, (set_kbd k' s), tr2, l. split; [reflexivity|]. split_and!; try done.
      * unfold modifiers. cbn. by rewrite Ek.
      * right. split_and!; [by apply Hne|cbn; lia|done].
    + destruct (IH l (set_kbd k' s) tr2 Hw2 Hl Hm) as (key & s' & tr' & l' & E & Hw' & Hl' & Hm' & Hr & Hc);
        [cbn in Hfuel; lia|].
      exists key, s', tr', l'. split; [exact E|]. split_and!; try done.
      * rewrite <- Hr. cbn. unfold modifiers. cbn. by rewrite Ek.
      * destruct Hc as [?|(?&?&?)]; [by left|right; split_and!; cbn; try done; lia].
Qed.

(** Polling until no key comes. *)
Fixpoint drain (n fuel : nat) : M input (list Z) :=
  match n with
  | O => fun _ => Stuck NoFuel
  | S n => key ← keyboard_poll fuel; if key =? 0 then mret [] else keys ← drain n fuel; mret (key :: keys)
  end.

Lemma drain_spec fuel n : forall l s tr, waiting tr l -> Forall (fun b => is_u8 b.2) l -> mouse_ok (the_mouse s) ->
  (length l < fuel)%nat -> (length l < n)%nat ->
  exists tr', drain n fuel (s, tr) = Ok ((rest s l).1, ((rest s l).2, tr')).
Proof.
  induction n as [|n IH]; intros l s tr Hw Hl Hm Hfuel Hn; [lia|]. cbn [drain].
  destruct (poll_spec fuel l s tr Hw Hl Hm Hfuel) as (key & s' & tr' & l' & E & Hw' & Hl' & Hm' & -> & Hc).
  unfold mbind at 1, M_bind at 1. rewrite E. destruct Hc as [(-> & -> & ->)|(Hk & Hlt & ->)].
  - exists tr'. by destruct s'.
  - rewrite (proj2 (Z.eqb_neq _ _) Hk).
    destruct (IH l' s' tr' Hw' Hl' Hm') as (tr2 & E2); [lia|lia|].
    exists tr2. unfold mbind, M_bind. by rewrite E2.
Qed.
End poll.

(** * Typing *)

(** The US keyboard, scan code set 1: the keys of a row from code [first] on,
    each with its character and the one it gives with Shift held, and the codes
    a key sends when it is pressed and released. *)
Definition press (code : Z) : list Z := [code; code + 128].
Definition held_shift (codes : list Z) : list Z := [42] ++ codes ++ [42 + 128].

Fixpoint row (first : Z) (plain shifted : list Z) : list (Z * list Z) :=
  match plain, shifted with
  | p :: plain, s :: shifted => (p, press first) :: (s, held_shift (press first)) :: row (first + 1) plain shifted
  | _, _ => []
  end.

Definition characters : list (Z * list Z) :=
  row 2 (bs "1234567890-=") (bs "!@#$%^&*()_+") ++
  row 16 (bs "qwertyuiop[]") (bs "QWERTYUIOP{}") ++
  row 30 (bs "asdfghjkl;'`") (bs "ASDFGHJKL:" ++ [34] ++ bs "~") ++
  row 43 (bs "\zxcvbnm,./") (bs "|ZXCVBNM<>?") ++
  [(ch " ", press 57)].

(** The keys of the separate block send a prefix. *)
Definition separate (code : Z) : list Z := [224; code; 224; code + 128].
Definition named_keys : list (Z * list Z) :=
  [(KEY_ESCAPE, press 1); (KEY_BACKSPACE, press 14); (KEY_TAB, press 15); (KEY_ENTER, press 28);
   (KEY_F1, press 59); (KEY_F2, press 60); (KEY_F3, press 61); (KEY_F4, press 62); (KEY_F10, press 68);
   (KEY_HOME, separate 71); (KEY_UP, separate 72); (KEY_PAGEUP, separate 73); (KEY_LEFT, separate 75);
   (KEY_RIGHT, separate 77); (KEY_END, separate 79); (KEY_DOWN, separate 80); (KEY_PAGEDOWN, separate 81);
   (KEY_DELETE, separate 83)].

(** Pressing and releasing the key that gives [key]. *)
Definition strike (key : Z) : list Z :=
  match List.find (fun p => p.1 =? key) (characters ++ named_keys) with Some (_, codes) => codes | None => [] end.

(** The keys of the line editor and the screen: the printable characters and
    the special keys. *)
Definition typeable : list Z := seqZ 32 95 ++ map fst named_keys.

Lemma strikes : forallb (fun key =>
  bool_decide (decode kbd_boot (strike key) = [key]) &&
  match modifiers kbd_boot (strike key) with Kbd false false false => true | _ => false end &&
  forallb (fun b => (0 <=? b) && (b <? 256)) (strike key)) typeable = true.
Proof. vm_compute. reflexivity. Qed.

Lemma decode_app l l' : forall k, decode k (l ++ l') = decode k l ++ decode (modifiers k l) l'.
Proof. induction l as [|b l IH]; intros k; [done|]. cbn. by rewrite IH, app_assoc. Qed.

Lemma decode_typed keys : Forall (fun k => k ∈ typeable) keys ->
  decode kbd_boot (concat (map strike keys)) = keys /\
  modifiers kbd_boot (concat (map strike keys)) = kbd_boot /\ bytes (concat (map strike keys)).
Proof.
  induction 1 as [|key keys Hkey _ (IH1 & IH2 & IH3)]; [by repeat constructor|]. cbn [map concat].
  pose proof strikes as H. rewrite forallb_forall in H. specialize (H key (proj1 (list_elem_of_In _ _) Hkey)).
  apply andb_prop in H as [[H1%bool_decide_eq_true H2]%andb_prop H3].
  assert (Hmod : modifiers kbd_boot (strike key) = kbd_boot).
  { clear H1. destruct (modifiers kbd_boot (strike key)) as [[] [] []]; [discriminate H2..|reflexivity]. }
  rewrite decode_app, H1, Hmod, IH1. split_and!; [done| |].
  - unfold modifiers in *. by rewrite foldl_app, Hmod.
  - apply Forall_app; split; [|done]. rewrite forallb_forall in H3. apply Forall_forall. intros b Hb.
    specialize (H3 b (proj1 (list_elem_of_In _ _) Hb)). unfold is_u8. lia.
Qed.

(** * The theorems *)

(** C15: The shared PS/2 port is demultiplexed correctly: whatever the order in
    which keyboard and mouse bytes wait in the controller, polling until no
    key comes returns exactly the keys that the keyboard's bytes decode to, in
    order, leaves the modifiers those bytes set, and the mouse in the state its
    own bytes give, with the pointer still on the screen; no byte is lost or
    given to the other device. *)
Theorem keyboard_demux l s n :
  mouse_ok (the_mouse s) -> Forall (fun b => is_u8 b.2) l -> (length l < n)%nat ->
  mouse_ok (foldl feed (the_mouse s) (mouse_bytes l)) /\
  exists tr, drain l n n (s, []) =
    Ok (decode (keyboard s) (kbd_bytes l),
        (Input (modifiers (keyboard s) (kbd_bytes l)) (foldl feed (the_mouse s) (mouse_bytes l)), tr)).
Proof.
  intros Hm Hl Hn. split; [by apply feeds_ok|]. by apply (drain_spec l n n l s []).
Qed.

Lemma keyboard_demux_witness : exists tr,
  drain [(false, 42); (true, 8); (false, 30); (true, 5); (false, 158); (true, 254); (false, 170)] 8 8
    (Input kbd_boot (mouse_enable mouse_boot), []) =
  Ok ([ch "A"], (Input kbd_boot (Mouse 45 14 5 2 0 true true [8; 5; 254] 0), tr)).
Proof.
  destruct (keyboard_demux [(false, 42); (true, 8); (false, 30); (true, 5); (false, 158); (true, 254); (false, 170)]
    (Input kbd_boot (mouse_enable mouse_boot)) 8) as [_ [tr H]].
  - repeat split; vm_compute; congruence.
  - repeat constructor; vm_compute; congruence.
  - cbn. lia.
  - exists tr. rewrite H. vm_compute. reflexivity.
Defined.

(** C20: What is typed is what is read: for every sequence of keys (printable
    characters and the special keys), when the keyboard sends the codes that the
    US layout of scan code set 1 has for striking them (Shift, break codes and E0
    prefixes included), interleaved in any way with bytes of the mouse, polling
    returns exactly those keys.  The layout is written down here row by row and
    does not refer to the driver's tables. *)
Theorem typing_roundtrip keys l m n :
  Forall (fun k => k ∈ typeable) keys -> kbd_bytes l = concat (map strike keys) ->
  bytes (mouse_bytes l) -> mouse_ok m -> (length l < n)%nat ->
  exists tr, drain l n n (Input kbd_boot m, []) = Ok (keys, (Input kbd_boot (foldl feed m (mouse_bytes l)), tr)).
Proof.
  intros Hkeys Hl Hmb Hm Hn. destruct (decode_typed keys Hkeys) as (Hd & Hmod & Hkb).
  assert (Hb : Forall (fun b => is_u8 b.2) l).
  { rewrite <- Hl in Hkb. unfold mouse_bytes, kbd_bytes, bytes in *. clear -Hmb Hkb.
    induction l as [|[[] b] l IH]; cbn in *; [constructor|apply Forall_cons in Hmb as [? ?]|apply Forall_cons in Hkb as [? ?]];
      constructor; auto. }
  destruct (drain_spec l n n l (Input kbd_boot m) [] eq_refl Hb Hm Hn Hn) as [tr E].
  exists tr. rewrite E. unfold rest. cbn [keyboard the_mouse fst snd]. by rewrite Hl, Hd, Hmod.
Qed.

Lemma typing_roundtrip_witness : exists tr,
  drain [(false, 42); (false, 35); (true, 9); (false, 163); (false, 170); (true, 0); (false, 28); (false, 156);
         (false, 224); (false, 72); (false, 224); (false, 200)] 13 13 (Input kbd_boot mouse_boot, []) =
  Ok ([ch "H"; KEY_ENTER; KEY_UP], (Input kbd_boot mouse_boot, tr)).
Proof.
  apply (typing_roundtrip [ch "H"; KEY_ENTER; KEY_UP]
    [(false, 42); (false, 35); (true, 9); (false, 163); (false, 170); (true, 0); (false, 28); (false, 156);
     (false, 224); (false, 72); (false, 224); (false, 200)] mouse_boot 13).
  - repeat constructor; apply (bool_decide_unpack _); vm_compute; exact I.
  - vm_compute. reflexivity.
  - repeat constructor; vm_compute; congruence.
  - repeat split; vm_compute; congruence.
  - cbn. lia.
Defined.
