(* ===== verification/Devices.v ===== *)
(** The timer, the serial port, the speaker, the display back end and the
    power switch: src/src/drivers/pit.c, serial.c, speaker.c, graphics.c and the
    port accesses of src/src/commands/reboot.c and shutdown.c.

    [g_ticks] changes by interrupts: [interrupts] says how many timer
    interrupts happen before each read of it (none once the list is used up),
    so every interleaving of the timer with the code is one such list. *)
From Stdlib Require Import ZArith Lia Ascii String.
From stdpp Require Import base tactics option numbers list.
From S2P Require Import Prelude Ports Vga.
#[local] Open Scope Z_scope.

Inductive gfx_backend_t := GFX_BACKEND_VGA_TEXT | GFX_BACKEND_VIRTIO_TEXT.

Record devices := Devices {
  g_ticks : Z; interrupts : list nat; g_serial_ready : bool;
  g_backend : gfx_backend_t; g_virtio_present : bool }.

Definition devices_boot (future : list nat) : devices :=
  Devices 0 future false GFX_BACKEND_VGA_TEXT false.

Definition set_ticks (t : Z) (d : devices) : devices :=
  Devices t (interrupts d) (g_serial_ready d) (g_backend d) (g_virtio_present d).
Definition set_interrupts (l : list nat) (d : devices) : devices :=
  Devices (g_ticks d) l (g_serial_ready d) (g_backend d) (g_virtio_present d).
Definition set_serial (b : bool) (d : devices) : devices :=
  Devices (g_ticks d) (interrupts d) b (g_backend d) (g_virtio_present d).
Definition set_gfx (b : gfx_backend_t) (v : bool) (d : devices) : devices :=
  Devices (g_ticks d) (interrupts d) (g_serial_ready d) b v.

Definition PIT_CHANNEL0 : Z := 64.
Definition PIT_CHANNEL2 : Z := 66.
Definition PIT_CMD : Z := 67.
Definition PIC_MASTER_IMR : Z := 33.
Definition PIT_HZ : Z := 100.
Definition PIT_BASE_FREQ : Z := 1193180.
Definition PIT_DIVISOR : Z := PIT_BASE_FREQ / PIT_HZ.
Definition MS_PER_TICK : Z := 1000 / PIT_HZ.
Definition PC_SPEAKER_CTL : Z := 97.
Definition SERIAL_COM1 : Z := 1016.

Section devices.
Context `{Hardware}.
Abbreviation devM := (M devices).

(** * Timer *)

Definition pit_irq0 : devM unit :=
  modify (fun d => set_ticks (u32 (g_ticks d + 1)) d);;
  outb 32 32.

Fixpoint run_irqs (n : nat) : devM unit :=
  match n with O => skip | S n => pit_irq0;; run_irqs n end.

(** A read of the volatile [g_ticks], after the interrupts before it. *)
Definition pit_ticks : devM Z :=
  l ← gets interrupts;
  match l with
  | [] => gets g_ticks
  | n :: l => modify (set_interrupts l);; run_irqs n;; gets g_ticks
  end.

(** [hlt]: without a further interrupt it never ends. *)
Definition hlt : devM unit :=
  l ← gets interrupts;
  match l with [] => lift (Stuck NoFuel) | _ => skip end.

(** The two ends of [pit_init]; between them it registers the handler. *)
Definition pit_program : devM unit :=
  outb PIT_CMD 54;;
  outb PIT_CHANNEL0 (Z.land PIT_DIVISOR 255);;
  outb PIT_CHANNEL0 (Z.shiftr PIT_DIVISOR 8).

Definition pit_unmask : devM unit :=
  mask ← inb PIC_MASTER_IMR;
  outb PIC_MASTER_IMR (Z.land mask 254).

Definition pit_ms_since_boot : devM Z := t ← pit_ticks; mret (u32 (t * MS_PER_TICK)).
Definition uptime_seconds : devM Z := t ← pit_ticks; mret (t / PIT_HZ).

Definition sleep_ms (fuel : nat) (ms : Z) : devM unit :=
  let ticks_needed := ms / MS_PER_TICK in
  let ticks_needed := if ticks_needed =? 0 then 1 else ticks_needed in
  t ← pit_ticks;
  let end_ := u32 (t + ticks_needed) in
  mloop fuel (
    t ← pit_ticks;
    if t <? end_ then hlt;; mret None else mret (Some tt)).

(** * Serial port *)

Definition serial_tx_ready : devM bool :=
  v ← inb (SERIAL_COM1 + 5); mret (negb (Z.land v 32 =? 0)).

Definition serial_init : devM unit :=
  outb (SERIAL_COM1 + 1) 0;;
  outb (SERIAL_COM1 + 3) 128;;
  outb (SERIAL_COM1 + 0) 3;;
  outb (SERIAL_COM1 + 1) 0;;
  outb (SERIAL_COM1 + 3) 3;;
  outb (SERIAL_COM1 + 2) 199;;
  outb (SERIAL_COM1 + 4) 11;;
  modify (set_serial true).

Definition serial_is_ready : devM bool := gets g_serial_ready.

(** The wait for the transmitter, 1000001 times at most, and the byte. *)
Definition serial_send (c : Z) : devM unit :=
  ready ← mrepeat (Z.to_nat 1000001) (b ← serial_tx_ready; mret (if (b : bool) then Some tt else None));
  match ready with Some _ => outb SERIAL_COM1 (u8 c) | None => skip end.

Definition serial_putc (c : Z) : devM unit :=
  ready ← serial_is_ready;
  if negb ready then skip
  else (if c =? 10 then serial_send 13 else skip);; serial_send c.

Fixpoint serial_write (s : list Z) : devM unit :=
  match s with
  | [] => skip
  | c :: s => if c =? 0 then skip else serial_putc c;; serial_write s
  end.

(** * Speaker *)

Definition speaker_off : devM unit :=
  v ← inb PC_SPEAKER_CTL; outb PC_SPEAKER_CTL (Z.land v 252).

Definition speaker_beep (fuel : nat) (freq_hz duration_ms : Z) : devM unit :=
  if (freq_hz =? 0) || (freq_hz >? 20000) then speaker_off
  else
    let divisor := PIT_BASE_FREQ / freq_hz in
    outb PIT_CMD 182;;
    outb PIT_CHANNEL2 (Z.land divisor 255);;
    outb PIT_CHANNEL2 (u8 (Z.shiftr divisor 8));;
    v ← inb PC_SPEAKER_CTL;
    outb PC_SPEAKER_CTL (Z.lor v 3);;
    sleep_ms fuel duration_ms;;
    speaker_off.

(** * Display back end *)

Definition gfx_pci_read32 (slot reg : Z) : devM Z :=
  outl 3320 (Z.lor (Z.lor 2147483648 (Z.shiftl slot 11)) (Z.land reg 252));;
  inl32 3324.

Fixpoint virtio_slots (n : nat) (slot : Z) : devM bool :=
  match n with
  | O => mret false
  | S n =>
    id ← gfx_pci_read32 slot 0;
    let vendor := Z.land id 65535 in
    if vendor =? 65535 then virtio_slots n (slot + 1)
    else
      class_reg ← gfx_pci_read32 slot 8;
      if (vendor =? 6900) && (Z.shiftr class_reg 24 =? 3) then mret true else virtio_slots n (slot + 1)
  end.

Definition detect_virtio_gpu : devM bool := virtio_slots 32 0.

Definition gfx_init : devM unit :=
  v ← detect_virtio_gpu;
  modify (set_gfx (if (v : bool) then GFX_BACKEND_VIRTIO_TEXT else GFX_BACKEND_VGA_TEXT) v).

Definition gfx_backend (d : devices) : gfx_backend_t := g_backend d.
Definition gfx_virtio_present (d : devices) : bool := g_virtio_present d.
Definition gfx_backend_name (d : devices) : list Z :=
  match g_backend d with GFX_BACKEND_VIRTIO_TEXT => bs "virtio-text" | GFX_BACKEND_VGA_TEXT => bs "vga-text" end.

(** The drawing calls go to the text screen whatever the back end. *)
Definition gfx_clear := vga_clear.
Definition gfx_put_cell := vga_putchar_at.
Definition gfx_write_text := vga_write_at.
Definition gfx_fill_rect := vga_fill_rect.
Definition gfx_fill_row := vga_fill_row.
Definition gfx_read_cell := vga_read_at.

(** * Power *)

(** The delay loops have no effect and are left out. *)
Definition power_ports (a b : Z) : devM unit := outb 3321 a;; outb 3321 b;; hlt.
End devices.
