(* ===== verification/Play.v ===== *)
(** Full-screen programs: computations over the text screen, the keyboard and
    the mouse, and the program's own variables [S].

    The delay loops of these programs have no effect and are left out. *)
From Stdlib Require Import ZArith Lia Ascii String.
From stdpp Require Import base tactics option numbers list.
From S2P Require Import Prelude Buffer CString Ports Vga Input InputProps.
#[local] Open Scope Z_scope.

Record play (S : Type) := Play { p_screen : vga; p_input : input; p_own : S }.
Arguments Play {S}.
Arguments p_screen {S}.
Arguments p_input {S}.
Arguments p_own {S}.

Definition set_p_screen {S} (v : vga) (p : play S) : play S := Play v (p_input p) (p_own p).
Definition set_own {S} (x : S) (p : play S) : play S := Play (p_screen p) (p_input p) x.

(** The theme of vga.h. *)
Definition THEME_TOPBAR : Z := VGA_ATTR 15 8.
Definition THEME_TITLE : Z := VGA_ATTR 14 1.
Definition THEME_MENU_BG : Z := VGA_ATTR 15 8.
Definition THEME_APP_BG : Z := VGA_ATTR 15 1.
Definition THEME_BORDER : Z := VGA_ATTR 7 1.

Section play.
Context `{Hardware} {S : Type}.
Abbreviation playM := (M (play S)).

Definition draw (f : vga -> outcome vga) : playM unit :=
  v ← gets p_screen; v ← lift (f v); modify (set_p_screen v).
Definition paint (f : vga -> vga) : playM unit := modify (fun p => set_p_screen (f (p_screen p)) p).
Definition put_cell (row col c attr : Z) : playM unit := draw (vga_putchar_at row col c attr).
Definition put_text (row col : Z) (s : list Z) (attr : Z) : playM unit := draw (vga_write_at row col s attr).

(** A number, as [itoa] writes it into an array of [room] characters, at a place
    of the screen. *)
Definition put_number (room row col n attr : Z) : playM unit :=
  s ← lift (itoa_into room (i32 n)); put_text row col s attr.

(** [for (int i = 0; i < n; i++) f(i)]. *)
Fixpoint each (n : nat) (i : Z) (f : Z -> playM unit) : playM unit :=
  match n with O => skip | Datatypes.S n => f i;; each n (i + 1) f end.

Definition with_input {A} (m : M input A) : playM A := fun '(p, tr) =>
  '(a, (i, tr)) ← m (p_input p, tr); Ok (a, (Play (p_screen p) i (p_own p), tr)).

Definition poll (fuel : nat) : playM Z := with_input (keyboard_poll fuel).
Definition wait_key (fuel : nat) : playM Z := with_input (keyboard_wait fuel).

Definition own : playM S := gets p_own.
Definition change (f : S -> S) : playM unit := modify (fun p => set_own (f (p_own p)) p).

(** [while ((k = keyboard_poll()) != 0) f(k);] *)
Definition drain_keys (fuel : nat) (f : Z -> playM unit) : playM unit :=
  mloop fuel (k ← poll fuel; if k =? 0 then mret (Some tt) else f k;; mret None).
End play.

Lemma wp_own `{Hardware} {S} (Q : S -> play S * list io_event -> Prop) v i s tr :
  Q s (Play v i s, tr) -> wp own Q (Play v i s, tr).
Proof. done. Qed.

Lemma wp_change `{Hardware} {S} (f : S -> S) Q v i s tr :
  Q tt (Play v i (f s), tr) -> wp (change f) Q (Play v i s, tr).
Proof. done. Qed.

(** * The screen stays a screen *)

Section safety.
Context `{Hardware} {S : Type} (I : S -> Prop).

Record play_ok (p : play S) : Prop := {
  po_screen : vga_ok (p_screen p);
  po_mouse : mouse_ok (the_mouse (p_input p));
  po_own : I (p_own p) }.

Lemma keeps_draw f : (forall v, vga_ok v -> succeeds (f v) vga_ok) -> mkeeps play_ok (draw f) any.
Proof.
  intros Hf [p tr] Hp. unfold draw, wp, mbind, M_bind, gets, lift, modify. cbn [fst snd].
  destruct (Hf (p_screen p) (po_screen _ Hp)) as (v & -> & Hv). split; [|done]. by destruct Hp.
Qed.

Lemma keeps_paint f : (forall v, vga_ok v -> vga_ok (f v)) -> mkeeps play_ok (paint f) any.
Proof. intros Hf. apply mkeeps_modify. intros p []. split; cbn; auto. Qed.

Lemma clear_ok attr v : vga_ok (vga_clear attr v).
Proof. unfold vga_ok, vga_clear. cbn. by rewrite length_replicate. Qed.

Lemma write_at_ok row s attr : forall col v, vga_ok v -> succeeds (vga_write_at row col s attr v) vga_ok.
Proof.
  induction s as [|c s IH]; intros col v Hv; cbn [vga_write_at]; [by apply succeeds_ret|].
  destruct (_ || _); [by apply succeeds_ret|].
  eapply succeeds_bind; [by apply vga_putchar_at_ok|]. intros v' [Hv' _]. by apply IH.
Qed.

Lemma keeps_clear attr : mkeeps play_ok (paint (vga_clear attr)) any.
Proof. apply keeps_paint. intros v _. apply clear_ok. Qed.

Lemma keeps_cell row col c attr : mkeeps play_ok (put_cell row col c attr) any.
Proof. apply keeps_draw. intros v Hv. eapply succeeds_mono; [by apply vga_putchar_at_ok|]. by intros v' []. Qed.

Lemma keeps_text row col s attr : mkeeps play_ok (put_text row col s attr) any.
Proof. apply keeps_draw. intros v Hv. by apply write_at_ok. Qed.
Lemma keeps_number room row col n attr : 12 <= room -> mkeeps play_ok (put_number room row col n attr) any.
Proof.
  intros Hr. unfold put_number. rewrite itoa_into_ok by (apply i32_range || done).
  eapply mkeeps_bind; [apply mkeeps_lift with (P := any); by apply succeeds_ret|]. intros s _. apply keeps_text.
Qed.

Lemma fill_cols_ok n r entry : forall cc cells, 0 <= r < 25 -> 0 <= cc -> length cells = 2000%nat ->
  succeeds (fill_cols n r cc entry cells) (fun l => length l = 2000%nat).
Proof.
  induction n as [|n IH]; intros cc cells Hr Hc Hl; cbn [fill_cols]; [by apply succeeds_ret|].
  unfold VGA_WIDTH. destruct (Z.ltb_spec cc 80); [|by apply succeeds_ret].
  rewrite blit_one by lia. cbn [mbind outcome_bind]. apply IH; [lia|lia|]. by rewrite length_insert.
Qed.

Lemma fill_rows_ok h col w entry : forall r cells, 0 <= r -> 0 <= col -> length cells = 2000%nat ->
  succeeds (fill_rows h r col w entry cells) (fun l => length l = 2000%nat).
Proof.
  induction h as [|h IH]; intros r cells Hr Hc Hl; cbn [fill_rows]; [by apply succeeds_ret|].
  unfold VGA_HEIGHT. destruct (Z.ltb_spec r 25); [|by apply succeeds_ret].
  eapply succeeds_bind; [by apply fill_cols_ok|]. intros l Hl'. apply IH; [lia|done|done].
Qed.

Lemma fill_rect_ok row col h w c attr v : 0 <= row -> 0 <= col -> vga_ok v ->
  succeeds (vga_fill_rect row col h w c attr v) vga_ok.
Proof.
  intros Hr Hc Hv. unfold vga_fill_rect. eapply succeeds_bind; [by apply fill_rows_ok|].
  intros l Hl. by apply succeeds_ret.
Qed.

Lemma keeps_fill row col h w c attr : 0 <= row -> 0 <= col ->
  mkeeps play_ok (draw (vga_fill_rect row col h w c attr)) any.
Proof. intros Hr Hc. apply keeps_draw. intros v Hv. by apply fill_rect_ok. Qed.

Lemma keeps_fill_row row c attr : 0 <= row -> mkeeps play_ok (draw (vga_fill_row row c attr)) any.
Proof. intros Hr. by apply keeps_fill. Qed.

Lemma keeps_each n f : (forall i, mkeeps play_ok (f i) any) -> forall i, mkeeps play_ok (each n i f) any.
Proof.
  intros Hf. induction n as [|n IH]; intros i; cbn [each]; [apply mkeeps_skip|].
  eapply mkeeps_bind; [apply Hf|]. by intros _ _.
Qed.

(** The same when only the indices from the first on matter. *)
Lemma keeps_each_from n f : forall i, (forall k, i <= k -> mkeeps play_ok (f k) any) -> mkeeps play_ok (each n i f) any.
Proof.
  induction n as [|n IH]; intros i Hf; cbn [each]; [apply mkeeps_skip|].
  eapply mkeeps_bind; [by apply Hf|]. intros _ _. apply IH. intros k Hk. apply Hf. lia.
Qed.

Lemma keeps_input {A} (m : M input A) (P : A -> Prop) :
  mkeeps (fun i => mouse_ok (the_mouse i)) m P -> mkeeps play_ok (with_input m) P.
Proof.
  intros Hm [p tr] Hp. pose proof (Hm (p_input p, tr) (po_mouse _ Hp)) as Hwp. unfold wp, with_input in *.
  destruct (m (p_input p, tr)) as [[a [i tr']]|[]]; cbn; try done. destruct Hwp as [Hi Ha].
  split; [|done]. by destruct Hp.
Qed.

Lemma keeps_own : mkeeps play_ok own I.
Proof. apply mkeeps_gets. by intros p []. Qed.

Lemma keeps_own_any : mkeeps play_ok own any.
Proof. by apply mkeeps_gets. Qed.

Lemma keeps_change f : (forall x, I x -> I (f x)) -> mkeeps play_ok (change f) any.
Proof. intros Hf. apply mkeeps_modify. intros p []. split; cbn; auto. Qed.
End safety.

(** * The drivers, against any hardware *)

Section drivers.
Context `{Hardware}.

Definition mouse_kept (i : input) : Prop := mouse_ok (the_mouse i).
Abbreviation ikeeps := (mkeeps mouse_kept).

Lemma keeps_status bit : ikeeps (status_bit bit) any.
Proof. unfold status_bit. eapply mkeeps_bind; [apply mkeeps_in|]. intros v _. by apply mkeeps_ret. Qed.

Lemma keeps_feed d : ikeeps (mouse_feed d) any.
Proof.
  intros [i tr] Hi. unfold mouse_feed, wp, mbind, M_bind, gets, lift, modify. cbn [fst snd].
  by destruct (handle_ok d (the_mouse i) Hi) as (m & -> & Hm).
Qed.

Lemma keeps_poll_turn {R} (empty : R) (other : M input (option R)) : ikeeps other any ->
  ikeeps (poll_turn empty other) any.
Proof.
  intros Ho. unfold poll_turn. eapply mkeeps_bind; [apply mkeeps_in|]. intros status _.
  destruct (_ =? 0); [by apply mkeeps_ret|]. destruct (negb _); [|done].
  eapply mkeeps_bind; [apply mkeeps_in|]. intros d _.
  eapply mkeeps_bind; [apply keeps_feed|]. intros _ _. by apply mkeeps_ret.
Qed.

Lemma keeps_read_key : ikeeps read_key any.
Proof.
  unfold read_key. eapply mkeeps_bind; [apply mkeeps_in|]. intros sc Hsc.
  intros [i tr] Hi. unfold wp, mbind, M_bind, gets, lift, modify, mret, M_ret. cbn [fst snd] in *.
  destruct (keyboard_byte_ok (keyboard i) sc Hsc) as [E _]. rewrite E. by destruct (kbyte (keyboard i) sc).
Qed.

Lemma some_any {R} (m : M input (option R)) :
  ikeeps m any -> ikeeps m (fun r => match r with Some x => any x | None => True end).
Proof. intros Hm. eapply mkeeps_mono; [exact Hm|]. by intros []. Qed.

Lemma keeps_poll_key fuel : ikeeps (keyboard_poll fuel) any.
Proof. apply mkeeps_mloop, some_any, keeps_poll_turn, keeps_read_key. Qed.

Lemma keeps_wait_key fuel : ikeeps (keyboard_wait fuel) any.
Proof.
  apply mkeeps_mloop, some_any. eapply mkeeps_bind; [apply keeps_poll_key|]. intros k _. by apply mkeeps_ret.
Qed.

Lemma keeps_mouse_poll fuel : ikeeps (mouse_poll fuel) any.
Proof.
  apply mkeeps_mloop, some_any. eapply mkeeps_bind; [apply keeps_status|]. intros full _.
  destruct (negb full); [by apply mkeeps_ret|]. eapply mkeeps_bind; [apply keeps_status|]. intros aux _.
  destruct (negb aux); [by apply mkeeps_ret|]. eapply mkeeps_bind; [apply mkeeps_in|]. intros d _.
  eapply mkeeps_bind; [apply keeps_feed|]. intros _ _. by apply mkeeps_ret.
Qed.

Lemma keeps_wait_status guard c : ikeeps c any -> ikeeps (wait_status guard c) any.
Proof.
  intros Hc. unfold wait_status. eapply mkeeps_bind.
  { apply mkeeps_mrepeat with (P := any), some_any. eapply mkeeps_bind; [exact Hc|]. intros b _. by apply mkeeps_ret. }
  intros r _. by apply mkeeps_ret.
Qed.

Lemma keeps_input_clear guard : ikeeps (ps2_wait_input_clear guard) any.
Proof.
  apply keeps_wait_status. eapply mkeeps_bind; [apply keeps_status|]. intros b _. by apply mkeeps_ret.
Qed.

Lemma keeps_read_data : ikeeps mouse_read_data any.
Proof.
  unfold mouse_read_data. eapply mkeeps_bind; [apply keeps_wait_status, keeps_status|].
  intros [] _; [|by apply mkeeps_ret]. eapply mkeeps_bind; [apply mkeeps_in|]. intros v _. by apply mkeeps_ret.
Qed.

Lemma keeps_send port v : ikeeps (ps2_send port v) any.
Proof.
  unfold ps2_send. eapply mkeeps_bind; [apply keeps_input_clear|].
  intros [] _; [|by apply mkeeps_ret]. eapply mkeeps_bind; [apply mkeeps_out|]. intros _ _. by apply mkeeps_ret.
Qed.

Lemma keeps_write_device v : ikeeps (mouse_write_device v) any.
Proof.
  unfold mouse_write_device. eapply mkeeps_bind; [apply keeps_send|]. intros a _.
  destruct (negb a); [by apply mkeeps_ret|]. eapply mkeeps_bind; [apply keeps_send|]. intros b _.
  destruct (negb b); [by apply mkeeps_ret|]. eapply mkeeps_bind; [apply keeps_read_data|]. intros c _.
  by apply mkeeps_ret.
Qed.

Lemma reset_ok m : mouse_ok m -> mouse_ok (mouse_reset m).
Proof. by intros (Hl & _). Qed.
Lemma enable_ok m : mouse_ok m -> mouse_ok (mouse_enable m).
Proof. done. Qed.

Lemma keeps_mouse_init : ikeeps mouse_init any.
Proof.
  unfold mouse_init. eapply mkeeps_bind; [apply mkeeps_modify; intros i; apply reset_ok|]. intros _ _.
  eapply mkeeps_bind; [apply keeps_send|]. intros a _. destruct (negb a); [by apply mkeeps_ret|].
  eapply mkeeps_bind; [apply keeps_send|]. intros b _. destruct (negb b); [by apply mkeeps_ret|].
  eapply mkeeps_bind; [apply keeps_read_data|]. intros [cmd|] _; [|by apply mkeeps_ret].
  eapply mkeeps_bind; [apply keeps_send|]. intros c _. destruct (negb c); [by apply mkeeps_ret|].
  eapply mkeeps_bind; [apply keeps_send|]. intros d _. destruct (negb d); [by apply mkeeps_ret|].
  eapply mkeeps_bind; [apply keeps_write_device|]. intros e _. destruct (negb e); [by apply mkeeps_ret|].
  eapply mkeeps_bind; [apply keeps_write_device|]. intros f _. destruct (negb f); [by apply mkeeps_ret|].
  eapply mkeeps_bind; [apply mkeeps_modify; intros i; apply enable_ok|]. intros _ _. by apply mkeeps_ret.
Qed.
End drivers.

(** Steps through the drawing of a program. *)
Create HintDb play discriminated.
#[export] Hint Resolve keeps_cell keeps_text keeps_clear mkeeps_skip keeps_own keeps_own_any : play.
#[export] Hint Extern 1 (mkeeps _ (put_number _ _ _ _ _) _) => apply keeps_number; lia : play.
#[export] Hint Extern 1 (mkeeps _ (draw (vga_fill_rect _ _ _ _ _ _)) _) => apply keeps_fill : play.
#[export] Hint Extern 1 (mkeeps _ (draw (vga_fill_row _ _ _)) _) => apply keeps_fill_row : play.
#[export] Hint Extern 1 (mkeeps _ (mret _) _) => apply mkeeps_ret : play.
#[export] Hint Extern 1 (any _) => exact I : play.
#[export] Hint Extern 1 (Z.le 0 _) => first [lia | (vm_compute; discriminate)] : play.

Ltac play_step :=
  match goal with
  | |- mkeeps _ (_ ≫= _) _ => eapply mkeeps_bind with (P := any); [|intros ? _]
  | |- mkeeps _ (if ?b then _ else _) _ => destruct b eqn:?
  | |- mkeeps _ (each _ _ _) _ => apply keeps_each; intros ?
  | |- mkeeps _ _ _ => solve [auto with play; try lia]
  end.
Ltac play := repeat play_step.
