(* ===== verification/Catnake.v ===== *)
(** The snake game, src/src/apps/catnake.c.

    [body] is the list of the first [len] entries of the array; the rest is
    never read. *)
From Stdlib Require Import ZArith Lia Ascii String.
From stdpp Require Import base tactics option numbers list.
From S2P Require Import Prelude CString Ports Vga Terminal Input Play.
#[local] Open Scope Z_scope.

Definition CATNAKE_WIDTH : Z := 40.
Definition CATNAKE_HEIGHT : Z := 18.
Definition CATNAKE_X : Z := 20.
Definition CATNAKE_Y : Z := 3.
Definition CATNAKE_MAX : Z := CATNAKE_WIDTH * CATNAKE_HEIGHT.

Abbreviation pt := (Z * Z)%type.

(** The globals of the file. *)
Record catnake := Catnake { catnake_rng : Z; pending_input : Z; high_score : Z }.

Definition catnake_boot : catnake := Catnake 3237998097 0 0.
Definition set_rng (r : Z) (s : catnake) : catnake := Catnake r (pending_input s) (high_score s).
Definition set_pending_input (k : Z) (s : catnake) : catnake := Catnake (catnake_rng s) k (high_score s).

(** The variables of a round. *)
Record game := Game {
  body : list pt; dirx : Z; diry : Z; pending_dirx : Z; pending_diry : Z;
  score : Z; food : pt; dead : bool; old_tail : pt }.

Definition set_pending_dir (x y : Z) (g : game) : game :=
  Game (body g) (dirx g) (diry g) x y (score g) (food g) (dead g) (old_tail g).
(** [dirx = pending_dirx; diry = pending_diry;] *)
Definition take_dir (g : game) : game :=
  Game (body g) (pending_dirx g) (pending_diry g) (pending_dirx g) (pending_diry g) (score g) (food g) (dead g) (old_tail g).
Definition set_dead (g : game) : game :=
  Game (body g) (dirx g) (diry g) (pending_dirx g) (pending_diry g) (score g) (food g) true (old_tail g).
(** [old_tail.x = -1] *)
Definition forget_tail (g : game) : game :=
  Game (body g) (dirx g) (diry g) (pending_dirx g) (pending_diry g) (score g) (food g) (dead g) (-1, (old_tail g).2).

Definition rng_next (r : Z) : Z := u32 (r * 1664525 + 1013904223).

(** [body[i]] *)
Definition seg (b : list pt) (i : Z) : outcome pt :=
  match b !! Z.to_nat i with Some p => Ok p | None => Stuck OutOfBounds end.
(** [body[len] = p; len++;] *)
Definition append (b : list pt) (p : pt) : outcome (list pt) :=
  if Z.of_nat (length b) <? CATNAKE_MAX then Ok (b ++ [p]) else Stuck OutOfBounds.

Definition catnake_occupied (b : list pt) (x y : Z) : bool :=
  existsb (fun p => (p.1 =? x) && (p.2 =? y)) b.

(** [n] attempts. *)
Fixpoint place_food (n : nat) (b : list pt) (r : Z) : pt * Z :=
  match n with
  | O => ((-1, -1), r)
  | S n =>
    let r := rng_next r in
    let x := r mod CATNAKE_WIDTH in
    let r := rng_next r in
    let y := r mod CATNAKE_HEIGHT in
    if catnake_occupied b x y then place_food n b r else ((x, y), r)
  end.

Definition catnake_place_food (b : list pt) (s : catnake) : pt * catnake :=
  let '(f, r) := place_food 1000 b (catnake_rng s) in (f, set_rng r s).

(** * One step of the snake *)

Definition is_key (k key : Z) (lower upper : Z) : bool := (k =? key) || (k =? lower) || (k =? upper).

Definition steer (k : Z) (g : game) : game :=
  let g := if is_key k KEY_UP (ch "w") (ch "W") && (diry g =? 0) then set_pending_dir 0 (-1) g else g in
  let g := if is_key k KEY_DOWN (ch "s") (ch "S") && (diry g =? 0) then set_pending_dir 0 1 g else g in
  let g := if is_key k KEY_LEFT (ch "a") (ch "A") && (dirx g =? 0) then set_pending_dir (-1) 0 g else g in
  if is_key k KEY_RIGHT (ch "d") (ch "D") && (dirx g =? 0) then set_pending_dir 1 0 g else g.

Definition in_field (p : pt) : bool :=
  (0 <=? p.1) && (p.1 <? CATNAKE_WIDTH) && (0 <=? p.2) && (p.2 <? CATNAKE_HEIGHT).

Definition advance (g : game) (s : catnake) : outcome (game * catnake) :=
  head ← seg (body g) 0;
  let next := (head.1 + dirx g, head.2 + diry g) in
  let len := Z.of_nat (length (body g)) in
  if negb (in_field next) then Ok (set_dead g, s)
  else if catnake_occupied (body g) next.1 next.2 then Ok (set_dead g, s)
  else
    tail ← seg (body g) (len - 1);
    let b := next :: take (Z.to_nat (len - 1)) (body g) in
    if (next.1 =? (food g).1) && (next.2 =? (food g).2) then
      b ← (if len <? CATNAKE_MAX then append b tail else Ok b);
      let sc := i32 (score g + 1) in
      let s := if sc >? high_score s then Catnake (catnake_rng s) (pending_input s) sc else s in
      let '(f, s) := catnake_place_food b s in
      Ok (Game b (dirx g) (diry g) (pending_dirx g) (pending_diry g) sc f false (-1, tail.2), s)
    else
      Ok (Game b (dirx g) (diry g) (pending_dirx g) (pending_diry g) (score g) (food g) false tail, s).

(** * Drawing and the loops *)

Section io.
Context `{Hardware} (fuel : nat).
Abbreviation catM := (M (play catnake)).

Definition catnake_draw_border : catM unit :=
  let border := VGA_ATTR 7 0 in
  each (Z.to_nat (CATNAKE_WIDTH + 2)) 0 (fun x =>
    put_cell (CATNAKE_Y - 1) (CATNAKE_X - 1 + x) (ch "=") border;;
    put_cell (CATNAKE_Y + CATNAKE_HEIGHT) (CATNAKE_X - 1 + x) (ch "=") border);;
  each (Z.to_nat CATNAKE_HEIGHT) 0 (fun y =>
    put_cell (CATNAKE_Y + y) (CATNAKE_X - 1) (ch "|") border;;
    put_cell (CATNAKE_Y + y) (CATNAKE_X + CATNAKE_WIDTH) (ch "|") border);;
  put_cell (CATNAKE_Y - 1) (CATNAKE_X - 1) (ch "+") border;;
  put_cell (CATNAKE_Y - 1) (CATNAKE_X + CATNAKE_WIDTH) (ch "+") border;;
  put_cell (CATNAKE_Y + CATNAKE_HEIGHT) (CATNAKE_X - 1) (ch "+") border;;
  put_cell (CATNAKE_Y + CATNAKE_HEIGHT) (CATNAKE_X + CATNAKE_WIDTH) (ch "+") border;;
  put_text (CATNAKE_Y - 1) (CATNAKE_X + CATNAKE_WIDTH / 2 - 4) (bs " CATNAKE ") (VGA_ATTR 14 0).

Definition catnake_draw_cell (x y c attr : Z) : catM unit :=
  put_cell (CATNAKE_Y + y) (CATNAKE_X + x) c attr.

(** The segments from the last, [i] being the index of the first of [l]. *)
Fixpoint draw_body (l : list pt) (i : Z) (is_dead : bool) : catM unit :=
  match l with
  | [] => skip
  | p :: l =>
    let '(c, color) := if i =? 0 then (ch "C", 11) else if i =? 1 then (ch "~", 10) else (ch "o", 2) in
    catnake_draw_cell p.1 p.2 c (VGA_ATTR (if is_dead then 8 else color) 0);;
    draw_body l (i - 1) is_dead
  end.

Definition catnake_render_all (g : game) : catM unit :=
  (if negb ((old_tail g).1 =? -1) then catnake_draw_cell (old_tail g).1 (old_tail g).2 (ch " ") (VGA_ATTR 15 0)
   else skip);;
  put_text 1 2 (bs "Catnake Deluxe  (WASD/Arrows)  Esc=Quit") (VGA_ATTR 15 0);;
  put_text 1 45 (bs "Score:") (VGA_ATTR 15 0);;
  put_number 12 1 52 (score g) (VGA_ATTR 11 0);;
  put_text 1 60 (bs "Best:") (VGA_ATTR 15 0);;
  s ← own;
  put_number 12 1 66 (high_score s) (VGA_ATTR 14 0);;
  catnake_draw_cell (food g).1 (food g).2 (ch "*") (VGA_ATTR 12 0);;
  draw_body (rev (body g)) (Z.of_nat (length (body g)) - 1) (dead g);;
  if dead g then
    put_text (CATNAKE_Y + CATNAKE_HEIGHT / 2 - 1) (CATNAKE_X + CATNAKE_WIDTH / 2 - 9) (bs "  GAME OVER!  ") (VGA_ATTR 15 4);;
    put_text (CATNAKE_Y + CATNAKE_HEIGHT / 2 + 1) (CATNAKE_X + CATNAKE_WIDTH / 2 - 14) (bs " Press ENTER to Restart ")
      (VGA_ATTR 7 0)
  else skip.

(** The number of waits of a frame, an unsigned number in the code. *)
Definition delay_loops (g : game) : Z :=
  if dead g then 50
  else let d := u32 (60 - score g / 2) in if d <? 15 then 15 else d.

Definition read_keys : catM unit := drain_keys fuel (fun k => change (set_pending_input k)).

(** A frame: the next one, or the end of the round: [true] to quit, [false] to
    start again. *)
Definition frame (g : game) : catM (game + bool) :=
  read_keys;;
  s ← own;
  if pending_input s =? KEY_ESCAPE then mret (inr true)
  else if dead g && (pending_input s =? KEY_ENTER) then mret (inr false)
  else
    g ← (if negb (dead g) then
           g ← (if negb (pending_input s =? 0) then
                  change (set_pending_input 0);; mret (steer (pending_input s) g)
                else mret g);
           s ← own;
           '(g, s) ← lift (advance (take_dir g) s);
           change (fun _ => s);;
           mret g
         else mret g);
    catnake_render_all g;;
    let g := forget_tail g in
    r ← mrepeat (Z.to_nat (delay_loops g)) (
      read_keys;;
      s ← own;
      mret (if pending_input s =? KEY_ESCAPE then Some true
            else if dead g && (pending_input s =? KEY_ENTER) then Some false else None));
    match r with
    | Some true => mret (inr true)
    | _ =>
      s ← own;
      mret (if dead g && (pending_input s =? KEY_ENTER) then inr false else inl g)
    end.

(** The first four segments. *)
Definition start_body : list pt :=
  map (fun i => (CATNAKE_WIDTH / 4 - Z.of_nat i, CATNAKE_HEIGHT / 2)) (seq 0 4).

Definition catnake_round : catM (option unit) :=
  k ← poll fuel;
  change (set_rng (u32 (3237998097 + u32 k)));;
  s ← own;
  let '(f, s) := catnake_place_food start_body s in
  change (fun _ => s);;
  paint (vga_clear (VGA_ATTR 15 0));;
  catnake_draw_border;;
  change (set_pending_input 0);;
  quit ← sloop fuel frame (Game start_body 1 0 1 0 0 f false (-1, -1));
  mret (if (quit : bool) then Some tt else None).

Definition catnake_run : catM unit := mloop fuel catnake_round.
End io.

(** * The snake stays in its field and never crosses itself *)

Record game_ok (g : game) : Prop := {
  go_len : (4 <= length (body g))%nat;
  go_field : Forall (fun p => in_field p = true) (body g);
  go_nodup : NoDup (body g);
  go_food : food g ∉ body g;
}.

Lemma in_field_spec p : in_field p = true <-> 0 <= p.1 < 40 /\ 0 <= p.2 < 18.
Proof. unfold in_field, CATNAKE_WIDTH, CATNAKE_HEIGHT. rewrite !andb_true_iff. lia. Qed.

Lemma occupied_spec b p : catnake_occupied b p.1 p.2 = true <-> p ∈ b.
Proof.
  unfold catnake_occupied. rewrite existsb_exists. split.
  - intros (q & Hq & E). rewrite andb_true_iff in E. destruct p, q. cbn in E.
    apply list_elem_of_In. replace z with z1 by lia. by replace z0 with z2 by lia.
  - intros Hp. exists p. split; [by apply list_elem_of_In|]. by rewrite !Z.eqb_refl.
Qed.

(** The cells of the field. *)
Definition field : list pt :=
  flat_map (fun x => map (fun y => (Z.of_nat x, Z.of_nat y)) (seq 0 18)) (seq 0 40).

Lemma in_field_cells p : in_field p = true -> p ∈ field.
Proof.
  rewrite in_field_spec. destruct p as [x y]. cbn [fst snd]. intros [Hx Hy]. rewrite list_elem_of_In.
  unfold field. rewrite in_flat_map. exists (Z.to_nat x). rewrite in_seq. split; [lia|]. apply in_map_iff. exists (Z.to_nat y).
  rewrite in_seq. split; [|lia]. f_equal; lia.
Qed.

Lemma field_bound b : NoDup b -> Forall (fun p => in_field p = true) b -> (length b <= 720)%nat.
Proof.
  intros Hb Hf. change 720%nat with (length field). apply NoDup_incl_length; [by apply NoDup_ListNoDup|].
  intros p Hp. apply list_elem_of_In, in_field_cells. rewrite Forall_forall in Hf. apply Hf. by apply list_elem_of_In.
Qed.

(** Food is never put on the snake. *)
Lemma place_food_free n b : Forall (fun p => in_field p = true) b -> forall r, (place_food n b r).1 ∉ b.
Proof.
  intros Hf. induction n as [|n IH]; intros r; cbn [place_food].
  - cbn. intros Hin. rewrite Forall_forall in Hf. by apply Hf in Hin.
  - match goal with |- context [catnake_occupied b ?x ?y] => pose proof (occupied_spec b (x, y)) as Ho end.
    cbn [fst snd] in Ho. destruct (catnake_occupied b _ _); [apply IH|]. cbn. intros Hin. by apply Ho in Hin.
Qed.

Lemma start_ok f : f ∉ start_body -> game_ok (Game start_body 1 0 1 0 0 f false (-1, -1)).
Proof.
  intros Hf. split; cbn [body food]; [by vm_compute; lia| | |done].
  - repeat constructor.
  - apply (bool_decide_unpack _). by vm_compute.
Qed.

Lemma steer_same k g : body (steer k g) = body g /\ food (steer k g) = food g /\ dead (steer k g) = dead g /\
  score (steer k g) = score g /\ dirx (steer k g) = dirx g /\ diry (steer k g) = diry g.
Proof. unfold steer. repeat case_match; done. Qed.

(** What a step does to the snake. *)
Definition stepped (g g' : game) (s s' : catnake) : Prop :=
  exists head rest, body g = head :: rest /\
  let next := (head.1 + dirx g, head.2 + diry g) in
  if in_field next && negb (bool_decide (next ∈ body g)) then
    dead g' = false /\
    if bool_decide (next = food g)
    then body g' = next :: body g /\ score g' = i32 (score g + 1) /\ high_score s' = Z.max (high_score s) (score g')
    else body g' = next :: take (length rest) (body g) /\ food g' = food g /\ score g' = score g /\ high_score s' = high_score s
  else g' = set_dead g /\ s' = s.

Lemma take_snoc (b : list pt) t : b !! (length b - 1)%nat = Some t -> take (length b - 1) b ++ [t] = b.
Proof.
  intros Ht. apply lookup_lt_Some in Ht as Hl. rewrite <- (take_S_r _ _ _ Ht).
  apply take_ge. lia.
Qed.

Lemma occupied_decide b p : catnake_occupied b p.1 p.2 = bool_decide (p ∈ b).
Proof.
  pose proof (occupied_spec b p) as Ho. destruct (catnake_occupied b p.1 p.2); symmetry.
  - by apply bool_decide_eq_true, Ho.
  - apply bool_decide_eq_false. intros Hp. by apply Ho in Hp.
Qed.

Lemma same_point (p q : pt) : ((p.1 =? q.1) && (p.2 =? q.2)) = bool_decide (p = q).
Proof.
  destruct p, q. cbn. symmetry. destruct ((_ =? _) && _) eqn:E.
  - apply andb_true_iff in E as [?%Z.eqb_eq ?%Z.eqb_eq]. subst. by apply bool_decide_eq_true.
  - apply bool_decide_eq_false. intros [= -> ->]. by rewrite !Z.eqb_refl in E.
Qed.

Lemma nodup_move (next : pt) b : NoDup b -> next ∉ b -> NoDup (next :: take (length b - 1) b).
Proof.
  intros Hb Hn. constructor; [|by eapply sublist_NoDup, sublist_take].
  intros Hin. apply Hn. by eapply elem_of_take in Hin as (i & Hi & _); eapply list_elem_of_lookup_2.
Qed.

Lemma advance_spec g s : game_ok g ->
  succeeds (advance g s) (fun r => stepped g r.1 s r.2 /\ game_ok r.1).
Proof.
  intros Hok. pose proof Hok as [Hl Hf Hnd Hfood]. unfold advance, seg. destruct (body g) as [|head rest] eqn:Eb; [cbn in Hl; lia|].
  change ((head :: rest) !! Z.to_nat 0) with (Some head). cbn [mbind outcome_bind]. rewrite <- Eb in *.
  set (next := (head.1 + dirx g, head.2 + diry g)). change (head.1 + dirx g) with next.1. change (head.2 + diry g) with next.2.
  assert (Hdead : in_field next && negb (bool_decide (next ∈ body g)) = false ->
    stepped g (set_dead g) s s /\ game_ok (set_dead g)).
  { intros E. split; [|by destruct Hok]. exists head, rest. split; [done|]. cbn zeta. fold next. by rewrite E. }
  destruct (in_field next) eqn:Efld; cbn [negb]; [|by apply succeeds_ret, Hdead].
  rewrite occupied_decide. destruct (bool_decide (next ∈ body g)) eqn:Eocc; [by apply succeeds_ret, Hdead|].
  clear Hdead. apply bool_decide_eq_false in Eocc as Hno.
  destruct (lookup_lt_is_Some_2 (body g) (length (body g) - 1)) as [tail Htail]; [lia|].
  replace (Z.to_nat (Z.of_nat (length (body g)) - 1)) with (length (body g) - 1)%nat by lia.
  rewrite Htail. cbn [mbind outcome_bind]. rewrite same_point.
  assert (Hrest : length rest = (length (body g) - 1)%nat) by (rewrite Eb; cbn; lia).
  assert (Hgrown : NoDup (next :: body g) /\ Forall (fun p => in_field p = true) (next :: body g)).
  { split; [by constructor|by constructor]. }
  destruct (bool_decide (next = food g)) eqn:Efood.
  - pose proof (field_bound _ (proj1 Hgrown) (proj2 Hgrown)) as Hb. cbn in Hb.
    unfold append. cbn [length]. rewrite length_take, Nat.min_l by lia. change CATNAKE_MAX with 720.
    rewrite !(proj2 (Z.ltb_lt _ 720)) by lia. cbn [mbind outcome_bind app]. rewrite (take_snoc _ _ Htail).
    unfold catnake_place_food. pose proof (place_food_free 1000 _ (proj2 Hgrown)) as Hfree.
    match goal with |- context [place_food 1000 ?l ?r] => specialize (Hfree r); destruct (place_food 1000 l r) as [f r'] end.
    apply succeeds_ret. split.
    + exists head, rest. split; [done|]. cbn zeta. fold next. rewrite Efld, Eocc, Efood. cbn. split_and!; try done.
      rewrite Z.gtb_ltb. destruct (Z.ltb_spec (high_score s) (i32 (score g + 1))); cbn; lia.
    + split; cbn [body food fst]; [cbn; lia|by apply Hgrown|by apply Hgrown|done].
  - apply succeeds_ret. split.
    + exists head, rest. split; [done|]. cbn zeta. fold next. rewrite Efld, Eocc, Efood. cbn. rewrite Hrest. done.
    + split; cbn [body food fst].
      * cbn. rewrite length_take. lia.
      * constructor; [done|by apply Forall_take].
      * by apply nodup_move.
      * apply bool_decide_eq_false in Efood. intros [E|Hin]%elem_of_cons; [by apply Efood|].
        apply Hfood. by eapply elem_of_take in Hin as (i & Hi & _); eapply list_elem_of_lookup_2.
Qed.

(** * The program keeps the screen *)

Section safety.
Context `{Hardware} (fuel : nat).
Abbreviation ckept := (mkeeps (play_ok (S := catnake) any)).

Lemma keeps_read_keys : ckept (read_keys fuel) any.
Proof.
  apply mkeeps_mloop. eapply mkeeps_bind; [apply keeps_input, keeps_poll_key|]. intros k _.
  destruct (k =? 0); [by apply mkeeps_ret|]. eapply mkeeps_bind; [by apply keeps_change|]. intros _ _. by apply mkeeps_ret.
Qed.

Lemma keeps_border : ckept catnake_draw_border any.
Proof. unfold catnake_draw_border. play. Qed.

Lemma keeps_body l is_dead : forall i, ckept (draw_body l i is_dead) any.
Proof.
  induction l as [|p l IH]; intros i; cbn [draw_body]; [apply mkeeps_skip|].
  destruct (if i =? 0 then _ else _) as [c color]. eapply mkeeps_bind; [apply keeps_cell|]. by intros _ _.
Qed.

Lemma keeps_render g : ckept (catnake_render_all g) any.
Proof.
  unfold catnake_render_all, catnake_draw_cell. repeat (play_step || apply keeps_body).
Qed.

Lemma forget_ok g : game_ok g -> game_ok (forget_tail g).
Proof. by intros []. Qed.

Lemma moved_ok k g : game_ok g -> game_ok (take_dir (steer k g)).
Proof. intros []. destruct (steer_same k g) as (Eb & Ef & _). split; cbn; by rewrite ?Eb, ?Ef. Qed.
Lemma straight_ok g : game_ok g -> game_ok (take_dir g).
Proof. by intros []. Qed.

Lemma keeps_frame g : game_ok g ->
  ckept (frame fuel g) (fun x => match x with inl g' => game_ok g' | inr _ => True end).
Proof.
  intros Hg. unfold frame. eapply mkeeps_bind; [apply keeps_read_keys|]. intros _ _.
  eapply mkeeps_bind; [apply keeps_own|]. intros s _. destruct (pending_input s =? KEY_ESCAPE); [by apply mkeeps_ret|].
  destruct (_ && _); [by apply mkeeps_ret|]. apply mkeeps_bind with (P := game_ok).
  { destruct (negb (dead g)); [|by apply mkeeps_ret].
    apply mkeeps_bind with (P := fun g' => game_ok (take_dir g')).
    { destruct (negb _); [|by apply mkeeps_ret, straight_ok].
      eapply mkeeps_bind; [by apply keeps_change|]. intros _ _. by apply mkeeps_ret, moved_ok. }
    intros g1 Hg1. eapply mkeeps_bind; [apply keeps_own|]. intros s1 _.
    eapply mkeeps_bind; [apply mkeeps_lift, advance_spec, Hg1|]. intros [g2 s2] [_ Hg2].
    eapply mkeeps_bind; [by apply keeps_change|]. intros _ _. by apply mkeeps_ret. }
  intros g1 Hg1. eapply mkeeps_bind; [apply keeps_render|]. intros _ _.
  eapply mkeeps_bind with (P := any).
  { eapply mkeeps_mono; [apply mkeeps_mrepeat with (P := any)|done].
    eapply mkeeps_bind; [apply keeps_read_keys|]. intros _ _. eapply mkeeps_bind; [apply keeps_own|]. intros s1 _.
    apply mkeeps_ret. by repeat case_match. }
  apply forget_ok in Hg1. intros [[]|] _; [by apply mkeeps_ret| |];
    (eapply mkeeps_bind; [apply keeps_own|]; intros s1 _; apply mkeeps_ret; by destruct (_ && _)).
Qed.

Lemma catnake_run_ok : ckept (catnake_run fuel) any.
Proof.
  apply mkeeps_mloop. unfold catnake_round. eapply mkeeps_bind; [apply keeps_input, keeps_poll_key|]. intros k _.
  eapply mkeeps_bind; [by apply keeps_change|]. intros _ _. eapply mkeeps_bind; [apply keeps_own|]. intros s _.
  unfold catnake_place_food. pose proof (place_food_free 1000 start_body ltac:(repeat constructor) (catnake_rng s)) as Hf.
  destruct (place_food 1000 start_body (catnake_rng s)) as [f r]. cbn [fst] in Hf.
  eapply mkeeps_bind; [by apply keeps_change|]. intros _ _. eapply mkeeps_bind; [apply keeps_clear|]. intros _ _.
  eapply mkeeps_bind; [apply keeps_border|]. intros _ _. eapply mkeeps_bind; [by apply keeps_change|]. intros _ _.
  eapply mkeeps_bind with (P := any); [|intros quit _; apply mkeeps_ret; by destruct quit].
  apply mkeeps_sloop with (J := game_ok); [|by apply start_ok]. intros g Hg.
  eapply mkeeps_mono; [by apply keeps_frame|]. by intros [].
Qed.
End safety.

(** From a score of 122 on, the unsigned number of waits wraps. *)
Example long_game_stalls b f t :
  delay_loops (Game b 1 0 1 0 121 f false t) = 15 /\ delay_loops (Game b 1 0 1 0 122 f false t) = 4294967295.
Proof. done. Qed.

(** * The property *)

(** The keys of a heading, and the cells one step of it goes right and down. *)
Inductive heading := North | South | West | East.

#[export] Instance heading_eq_dec : EqDecision heading.
Proof. solve_decision. Defined.

Definition keys_of (d : heading) : list Z :=
  match d with
  | North => [KEY_UP; ch "w"; ch "W"]
  | South => [KEY_DOWN; ch "s"; ch "S"]
  | West => [KEY_LEFT; ch "a"; ch "A"]
  | East => [KEY_RIGHT; ch "d"; ch "D"]
  end.

Definition vec (d : heading) : pt :=
  match d with North => (0, -1) | South => (0, 1) | West => (-1, 0) | East => (1, 0) end.

Definition upright (d : heading) : bool := bool_decide (d = North \/ d = South).

(** The heading after a key: a key of the other axis turns the snake, one of
    its own axis, the way back included, and any other key do not. *)
Definition turned (d : heading) (k : Z) : heading :=
  match List.find (fun e => bool_decide (k ∈ keys_of e)) [North; South; West; East] with
  | Some e => if eqb (upright e) (upright d) then d else e
  | None => d
  end.

Definition going (d : heading) (g : game) : Prop :=
  (dirx g, diry g) = vec d /\ (pending_dirx g, pending_diry g) = vec d.

Lemma steer_other k g : k ∉ flat_map keys_of [North; South; West; East] -> steer k g = g.
Proof.
  intros Hk. cbn [flat_map keys_of app] in Hk. rewrite !not_elem_of_cons in Hk.
  unfold steer, is_key. by rewrite !(proj2 (Z.eqb_neq k _)) by tauto.
Qed.

Lemma turned_other k d : k ∉ flat_map keys_of [North; South; West; East] -> turned d k = d.
Proof.
  intros Hk. cbn [flat_map keys_of app] in Hk. rewrite !not_elem_of_cons in Hk. unfold turned, keys_of.
  cbn [List.find]. by rewrite !bool_decide_eq_false_2 by (rewrite !not_elem_of_cons; tauto).
Qed.

Lemma steer_turns k d g : going d g -> going (turned d k) (take_dir (steer k g)).
Proof.
  intros [Hd Hp]. destruct (decide (k ∈ flat_map keys_of [North; South; West; East])) as [Hk|Hk].
  - destruct g as [b dx dy px py sc f de ot]. unfold going in *. cbn [dirx diry pending_dirx pending_diry] in *.
    cbn [flat_map keys_of app] in Hk.
    repeat (apply elem_of_cons in Hk as [->|Hk]; [destruct d; cbn [vec] in *; simplify_eq; by vm_compute|]).
    by apply elem_of_nil in Hk.
  - rewrite steer_other, turned_other by done. by split.
Qed.

(** One step with the heading [d]: off the field or onto the snake it dies where
    it is; onto the food it grows and scores; elsewhere the tail follows. *)
Definition moves (d : heading) (g g' : game) (s s' : catnake) : Prop :=
  exists head rest, body g = head :: rest /\
  let next := (head.1 + (vec d).1, head.2 + (vec d).2) in
  if in_field next && negb (bool_decide (next ∈ body g)) then
    dead g' = false /\
    if bool_decide (next = food g)
    then body g' = next :: body g /\ score g' = i32 (score g + 1) /\ high_score s' = Z.max (high_score s) (score g')
    else body g' = next :: take (length rest) (body g) /\ food g' = food g /\ score g' = score g /\ high_score s' = high_score s
  else dead g' = true /\ body g' = body g /\ food g' = food g /\ score g' = score g /\ s' = s.

Lemma stepped_moves d k g g' s s' : going d g -> stepped (take_dir (steer k g)) g' s s' -> moves (turned d k) g g' s s'.
Proof.
  intros Hd (head & rest & Eb & Hs). destruct (steer_turns k d g Hd) as [Hdir _].
  destruct (steer_same k g) as (E1 & E2 & E3 & E4 & _). cbn [take_dir body food score dirx diry] in *.
  unfold moves. rewrite <- Hdir, <- E1, <- E2, <- E4. exists head, rest. split; [done|]. cbn zeta in *. cbn [fst snd].
  destruct (in_field _ && _); [|destruct Hs as [-> ->]; by rewrite E1]. destruct Hs as [Hl Hs]. split; [done|].
  by case_bool_decide.
Qed.

Lemma going_advance d g s : going d g -> succeeds (advance g s) (fun _ => True) ->
  succeeds (advance g s) (fun r => going d r.1).
Proof.
  intros [H1 H2] (r & E & _). rewrite E. apply succeeds_ret. revert E. unfold advance.
  destruct (seg (body g) 0) as [h|]; [|discriminate]. cbn [mbind outcome_bind].
  destruct (negb _); [intros [= <-]; by split|]. destruct (catnake_occupied _ _ _); [intros [= <-]; by split|].
  destruct (seg _ _) as [t|]; [|discriminate]. cbn [mbind outcome_bind]. destruct (_ && _); [|intros [= <-]; by split].
  destruct (if _ <? _ then append _ _ else _) as [b|]; [|discriminate]. cbn [mbind outcome_bind].
  destruct (catnake_place_food _ _) as [f s1]. intros [= <-]. by split.
Qed.

(** C25: A move of the snake: on a sound round (the segments are distinct
    cells of the field and the food is none of them), with any last key: a key of
    the other axis turns it, a key of its own axis, so a reversal too, and any
    other key leave its heading; the head goes one cell that way; off the
    field or onto its body the snake dies where it is; onto the food it grows
    by that cell, keeping all its segments (the array never overflows), and
    scores; otherwise the tail follows.  The round stays sound, and the snake
    goes on with that heading. *)
Theorem catnake_moves k d g s (Hg : game_ok g) (Hd : going d g) :
  succeeds (advance (take_dir (steer k g)) s) (fun r =>
    moves (turned d k) g r.1 s r.2 /\ going (turned d k) r.1 /\
    game_ok r.1 /\ (length (body r.1) <= 720)%nat).
Proof.
  pose proof (steer_turns k d g Hd) as Ht.
  destruct (advance_spec (take_dir (steer k g)) s) as ([g' s'] & E & Hs & Hr); [by apply moved_ok|].
  destruct (going_advance _ _ s Ht) as (r & E' & Hgo); [by exists (g', s')|]. rewrite E in E'. injection E' as <-.
  exists (g', s'). split; [exact E|]. cbn [fst snd] in *.
  split; [by apply stepped_moves|]. split; [done|]. split; [done|]. by apply field_bound; destruct Hr.
Qed.

(** Straight ahead onto the food: the key of the way back does not turn. *)
Lemma catnake_moves_witness :
  let g := Game start_body 1 0 1 0 0 (11, 9) false (-1, -1) in
  exists g' s', advance (take_dir (steer (ch "a") g)) catnake_boot = Ok (g', s') /\
    body g' = (11, 9) :: start_body /\ score g' = 1 /\ high_score s' = 1 /\ going East g'.
Proof.
  cbv zeta. destruct (catnake_moves (ch "a") East (Game start_body 1 0 1 0 0 (11, 9) false (-1, -1)) catnake_boot)
    as ([g' s'] & E & (head & rest & Eb & Hs) & Hgo & _).
  - apply start_ok. apply (bool_decide_unpack _). by vm_compute.
  - done.
  - exists g', s'. split; [exact E|]. injection Eb as <- <-.
    change (turned East (ch "a")) with East in Hs. cbn in Hs. destruct Hs as (_ & E1 & E2 & E3).
    rewrite E2 in E3. split; [rewrite E1; by vm_compute|]. split; [rewrite E2; by vm_compute|].
    split; [rewrite E3; by vm_compute|]. exact Hgo.
Defined.
