(* ===== verification/Pong.v ===== *)
(** The Pong game, src/src/commands/pong.c.  [term_reset_screen], which both
    exits of [cmd_pong] call last, is left to the shell. *)
From Stdlib Require Import ZArith Lia Ascii String.
From stdpp Require Import base tactics option numbers list.
From S2P Require Import Prelude CString Ports Vga Terminal Input Play.
#[local] Open Scope Z_scope.

Definition PONG_LEFT : Z := 6.
Definition PONG_TOP : Z := 2.
Definition PONG_WIDTH : Z := 68.
Definition PONG_HEIGHT : Z := 20.
Definition PONG_PADDLE_H : Z := 4.
Definition PONG_WIN_SCORE : Z := 7.
Definition PONG_SPEEDUP_TICKS : Z := 220.
Definition PONG_MAX_SPEED_STAGE : Z := 20.
Definition PONG_BASE_MOVE_STRIDE : Z := 6.
Definition PONG_MIN_MOVE_STRIDE : Z := 2.

Definition pong_clamp_paddle (y : Z) : Z :=
  if y <? 0 then 0
  else if y >? PONG_HEIGHT - PONG_PADDLE_H then PONG_HEIGHT - PONG_PADDLE_H else y.

(** The variables of a rally. *)
Record rally := Rally {
  player_y : Z; ai_y : Z; ball_x : Z; ball_y : Z; ball_dx : Z; ball_dy : Z; rally_ticks : Z }.

Definition set_paddles (p a : Z) (r : rally) : rally :=
  Rally p a (ball_x r) (ball_y r) (ball_dx r) (ball_dy r) (rally_ticks r).
Definition set_ticks (n : Z) (r : rally) : rally :=
  Rally (player_y r) (ai_y r) (ball_x r) (ball_y r) (ball_dx r) (ball_dy r) n.
Definition set_ball (x y dx dy : Z) (r : rally) : rally :=
  Rally (player_y r) (ai_y r) x y dx dy (rally_ticks r).

Definition serve (player_score ai_score : Z) : rally :=
  let player_y := PONG_HEIGHT / 2 - PONG_PADDLE_H / 2 in
  Rally player_y player_y (PONG_WIDTH / 2) (PONG_HEIGHT / 2)
    (if negb (Z.land (player_score + ai_score) 1 =? 0) then 1 else -1)
    (if negb (Z.land (player_score + ai_score) 2 =? 0) then 1 else -1) 0.

(** The keys of the player, before [pong_clamp_paddle]. *)
Definition paddle_key (k y : Z) : Z :=
  let y := if (k =? KEY_UP) || (k =? ch "w") || (k =? ch "W") then i32 (y - 1) else y in
  if (k =? KEY_DOWN) || (k =? ch "s") || (k =? ch "S") then i32 (y + 1) else y.

Definition ai_move (r : rally) : Z :=
  let a := ai_y r in
  pong_clamp_paddle
    (if ball_y r <? a + PONG_PADDLE_H / 2 then a - 1
     else if ball_y r >? a + PONG_PADDLE_H / 2 then a + 1 else a).

Definition speed_stage (ticks : Z) : Z :=
  let s := Z.quot ticks PONG_SPEEDUP_TICKS in if s >? PONG_MAX_SPEED_STAGE then PONG_MAX_SPEED_STAGE else s.

Definition move_stride (ticks : Z) : Z :=
  let m := PONG_BASE_MOVE_STRIDE - Z.quot (speed_stage ticks) 4 in
  if m <? PONG_MIN_MOVE_STRIDE then PONG_MIN_MOVE_STRIDE else m.

(** The bounce off the two walls: row and vertical direction. *)
Definition wall_bounce (y dy : Z) : Z * Z :=
  let '(y, dy) := if y <=? 0 then (0, 1) else (y, dy) in
  if y >=? PONG_HEIGHT - 1 then (PONG_HEIGHT - 1, -1) else (y, dy).

(** The bounce off a paddle at row [paddle], towards [away]. *)
Definition paddle_bounce (away paddle y : Z) : Z * Z :=
  (away, if y <? paddle + PONG_PADDLE_H / 2 then -1 else 1).

Definition hits (paddle y : Z) : bool := (y >=? paddle) && (y <? paddle + PONG_PADDLE_H).

(** The directions of a ball at [x], [y], after the paddles. *)
Definition paddle_bounces (player ai x y dx dy : Z) : Z * Z :=
  let player_x := 2 in
  let ai_x := PONG_WIDTH - 3 in
  let '(dx, dy) := if (dx <? 0) && (x =? player_x + 1) && hits player y then paddle_bounce 1 player y else (dx, dy) in
  if (dx >? 0) && (x =? ai_x - 1) && hits ai y then paddle_bounce (-1) ai y else (dx, dy).

(** The ball after a move. *)
Definition move_ball (r : rally) : rally :=
  let x := ball_x r + ball_dx r in
  let '(y, dy) := wall_bounce (ball_y r + ball_dy r) (ball_dy r) in
  let '(dx, dy) := paddle_bounces (player_y r) (ai_y r) x y (ball_dx r) dy in
  set_ball x y dx dy r.

(** A tick of a rally after the keys: the next state and, when the ball is
    out, whether the player scores. *)
Definition rally_step (r : rally) : rally * option bool :=
  let r := set_paddles (pong_clamp_paddle (player_y r)) (ai_y r) r in
  let r := set_paddles (player_y r) (ai_move r) r in
  let r := set_ticks (i32 (rally_ticks r + 1)) r in
  if Z.rem (rally_ticks r) (move_stride (rally_ticks r)) =? 0 then
    let r := move_ball r in
    if ball_x r <? 0 then (r, Some false)
    else if ball_x r >=? PONG_WIDTH then (r, Some true) else (r, None)
  else (r, None).

Section io.
Context `{Hardware} (fuel : nat).
Abbreviation pongM := (M (play unit)).

Definition pong_draw_scene (player_y ai_y ball_x ball_y player_score ai_score : Z) : pongM unit :=
  let text := VGA_ATTR 15 0 in
  let gray := VGA_ATTR 7 0 in
  paint (vga_clear text);;
  put_text 0 2 (bs "PONG  (W/S or Arrows)  Esc=Quit") (VGA_ATTR 11 0);;
  put_text 0 44 (bs "You:") text;;
  put_number 16 0 49 player_score (VGA_ATTR 10 0);;
  put_text 0 55 (bs "CPU:") text;;
  put_number 16 0 60 ai_score (VGA_ATTR 12 0);;
  each (Z.to_nat (PONG_WIDTH + 2)) 0 (fun x =>
    put_cell (PONG_TOP - 1) (PONG_LEFT - 1 + x) (ch "=") gray;;
    put_cell (PONG_TOP + PONG_HEIGHT) (PONG_LEFT - 1 + x) (ch "=") gray);;
  each (Z.to_nat PONG_HEIGHT) 0 (fun y =>
    put_cell (PONG_TOP + y) (PONG_LEFT - 1) (ch "|") gray;;
    put_cell (PONG_TOP + y) (PONG_LEFT + PONG_WIDTH) (ch "|") gray;;
    if y mod 2 =? 0 then put_cell (PONG_TOP + y) (PONG_LEFT + PONG_WIDTH / 2) (ch ":") (VGA_ATTR 8 0) else skip);;
  each (Z.to_nat PONG_PADDLE_H) 0 (fun i =>
    put_cell (PONG_TOP + player_y + i) (PONG_LEFT + 2) (ch "#") (VGA_ATTR 10 0);;
    put_cell (PONG_TOP + ai_y + i) (PONG_LEFT + (PONG_WIDTH - 3)) (ch "#") (VGA_ATTR 12 0));;
  put_cell (PONG_TOP + ball_y) (PONG_LEFT + ball_x) (ch "O") (VGA_ATTR 14 0).

Definition pong_wait_serve (player_score ai_score : Z) : pongM unit :=
  pong_draw_scene (PONG_HEIGHT / 2 - 1) (PONG_HEIGHT / 2 - 1) (PONG_WIDTH / 2) (PONG_HEIGHT / 2) player_score ai_score;;
  put_text (PONG_TOP + PONG_HEIGHT / 2) (PONG_LEFT + PONG_WIDTH / 2 - 12) (bs "Next serve in 1 second...") (VGA_ATTR 7 0).

(** The keys of a tick: the player's row, [None] to quit. *)
Definition read_paddle (y : Z) : pongM (option Z) :=
  sloop fuel (fun y =>
    k ← poll fuel;
    mret (if k =? 0 then inr (Some y) else if k =? KEY_ESCAPE then inr None else inl (paddle_key k y))) y.

(** A turn of a rally; it ends with [None] to quit, or with who scores. *)
Definition rally_turn (player_score ai_score : Z) (r : rally) : pongM (rally + option bool) :=
  y ← read_paddle (player_y r);
  match y with
  | None => mret (inr None)
  | Some y =>
    let '(r, out) := rally_step (set_paddles y (ai_y r) r) in
    match out with
    | Some who => mret (inr (Some who))
    | None =>
      pong_draw_scene (player_y r) (ai_y r) (ball_x r) (ball_y r) player_score ai_score;;
      mret (inl r)
    end
  end.

(** The wait after a match: whether to play again. *)
Definition play_again : pongM bool :=
  mloop fuel (k ← wait_key fuel;
    mret (if k =? KEY_ESCAPE then Some false else if k =? KEY_ENTER then Some true else None)).

Definition match_over (player_score ai_score : Z) : pongM bool :=
  let row := PONG_HEIGHT / 2 - PONG_PADDLE_H / 2 in
  pong_draw_scene row row (PONG_WIDTH / 2) (PONG_HEIGHT / 2) player_score ai_score;;
  (if player_score >? ai_score then
     put_text (PONG_TOP + PONG_HEIGHT / 2 - 1) (PONG_LEFT + PONG_WIDTH / 2 - 6) (bs "YOU WIN!") (VGA_ATTR 15 2)
   else put_text (PONG_TOP + PONG_HEIGHT / 2 - 1) (PONG_LEFT + PONG_WIDTH / 2 - 7) (bs "CPU WINS!") (VGA_ATTR 15 4));;
  put_text (PONG_TOP + PONG_HEIGHT / 2 + 1) (PONG_LEFT + PONG_WIDTH / 2 - 16) (bs "Enter=Play Again  Esc=Quit")
    (VGA_ATTR 7 0);;
  play_again.

(** A rally and what follows it, over the two scores. *)
Definition pong_round (scores : Z * Z) : pongM (Z * Z + unit) :=
  let '(player_score, ai_score) := scores in
  pong_wait_serve player_score ai_score;;
  out ← sloop fuel (rally_turn player_score ai_score) (serve player_score ai_score);
  match out with
  | None => mret (inr tt)
  | Some who =>
    let '(player_score, ai_score) :=
      if (who : bool) then (player_score + 1, ai_score) else (player_score, ai_score + 1) in
    if (player_score >=? PONG_WIN_SCORE) || (ai_score >=? PONG_WIN_SCORE) then
      again ← match_over player_score ai_score;
      mret (if (again : bool) then inl (0, 0) else inr tt)
    else mret (inl (player_score, ai_score))
  end.

Definition cmd_pong : pongM unit := sloop fuel pong_round (0, 0).
End io.

(** * The ball and the paddles stay in the field *)

Record rally_ok (r : rally) : Prop := {
  ro_ai : 0 <= ai_y r <= 16;
  ro_x : 0 <= ball_x r < 68;
  ro_y : 0 <= ball_y r < 20;
  ro_dx : ball_dx r = 1 \/ ball_dx r = -1;
  ro_dy : ball_dy r = 1 \/ ball_dy r = -1 }.

Lemma clamp_paddle y : 0 <= pong_clamp_paddle y <= 16 /\ (0 <= y <= 16 -> pong_clamp_paddle y = y).
Proof.
  unfold pong_clamp_paddle, PONG_HEIGHT, PONG_PADDLE_H. rewrite Z.gtb_ltb.
  destruct (Z.ltb_spec y 0), (Z.ltb_spec (20 - 4) y); lia.
Qed.

Lemma serve_ok p a : rally_ok (serve p a).
Proof.
  unfold serve, PONG_HEIGHT, PONG_PADDLE_H, PONG_WIDTH.
  split; cbn; try (split; reflexivity || discriminate); destruct (negb _); auto.
Qed.

Lemma stride_range t : 0 <= t -> 2 <= move_stride t <= 6.
Proof.
  intros Ht. unfold move_stride, speed_stage, PONG_SPEEDUP_TICKS, PONG_MAX_SPEED_STAGE, PONG_BASE_MOVE_STRIDE, PONG_MIN_MOVE_STRIDE.
  rewrite Z.gtb_ltb. assert (0 <= Z.quot t 220) by (apply Z.quot_pos; lia).
  set (s := if 20 <? Z.quot t 220 then 20 else Z.quot t 220).
  assert (0 <= s) by (unfold s; destruct (_ <? _); lia).
  assert (0 <= Z.quot s 4) by (apply Z.quot_pos; lia).
  destruct (Z.ltb_spec (6 - Z.quot s 4) 2); lia.
Qed.

Definition unit_step (d : Z) : Prop := d = 1 \/ d = -1.

Lemma wall_bounce_ok y dy : -1 <= y <= 20 -> unit_step dy ->
  0 <= (wall_bounce y dy).1 < 20 /\ unit_step (wall_bounce y dy).2.
Proof.
  unfold wall_bounce, PONG_HEIGHT, unit_step. intros Hy Hd. destruct (Z.leb_spec y 0); cbn iota beta zeta.
  - change (0 >=? 20 - 1) with false. split; [cbn [fst]; lia|by left].
  - destruct (Z.geb_spec y (20 - 1)); (split; [cbn [fst]; lia|cbn [snd]; auto]).
Qed.

Lemma hits_spec p y : hits p y = true <-> p <= y < p + 4.
Proof. unfold hits, PONG_PADDLE_H. rewrite andb_true_iff, Z.geb_leb. lia. Qed.

(** Where a paddle stands when the ball reaches its column, the ball turns. *)
Lemma paddle_bounces_ok p a x y dx dy : unit_step dx -> unit_step dy ->
  let '(dx', dy') := paddle_bounces p a x y dx dy in
  unit_step dx' /\ unit_step dy' /\
  (dx = -1 -> x = 3 -> p <= y < p + 4 -> dx' = 1) /\ (dx = 1 -> x = 64 -> a <= y < a + 4 -> dx' = -1) /\
  (x <> 3 -> x <> 64 -> dx' = dx).
Proof.
  unfold unit_step. intros Hdx Hdy. unfold paddle_bounces, paddle_bounce, PONG_WIDTH.
  destruct ((dx <? 0) && (x =? 2 + 1) && hits p y) eqn:E1.
  - rewrite !andb_true_iff, hits_spec in E1. cbn [fst snd].
    destruct ((1 >? 0) && (x =? 68 - 3 - 1) && hits a y) eqn:E2; [rewrite !andb_true_iff in E2; lia|].
    destruct (y <? p + _); split_and!; (lia || auto).
  - destruct ((dx >? 0) && (x =? 68 - 3 - 1) && hits a y) eqn:E2.
    + rewrite !andb_true_iff, Z.gtb_ltb, hits_spec in E2. destruct (y <? a + _); split_and!; (lia || auto).
    + rewrite !andb_false_iff, <- !not_true_iff_false, hits_spec in E1.
      rewrite !andb_false_iff, <- !not_true_iff_false, Z.gtb_ltb, hits_spec in E2. split_and!; lia.
Qed.

(** A tick keeps the ball in the field or ends the rally at its side, and keeps
    both paddles in it. *)
Lemma rally_step_ok r : rally_ok r ->
  let '(r', out) := rally_step r in
  0 <= player_y r' <= 16 /\ 0 <= ai_y r' <= 16 /\ 0 <= ball_y r' < 20 /\
  match out with
  | None => rally_ok r'
  | Some who => ball_x r' = if (who : bool) then 68 else -1
  end.
Proof.
  intros [Ha Hx Hy Hdx Hdy]. unfold rally_step. cbn [set_paddles set_ticks rally_ticks player_y].
  destruct (clamp_paddle (player_y r)) as [Hp _].
  set (r1 := set_ticks _ _). assert (Hr1 : rally_ok r1 /\ 0 <= player_y r1 <= 16).
  { split; [|exact Hp]. split; cbn; try done. apply clamp_paddle. }
  clearbody r1. clear Ha Hx Hy Hdx Hdy Hp. destruct Hr1 as [Hr1 Hp]. pose proof Hr1 as [Ha Hx Hy Hdx Hdy].
  destruct (_ =? 0); [|done]. unfold move_ball.
  destruct (wall_bounce_ok (ball_y r1 + ball_dy r1) (ball_dy r1)) as [Hw1 Hw2]; [lia|done|].
  destruct (wall_bounce _ _) as [y dy]. cbn [fst snd] in *.
  pose proof (paddle_bounces_ok (player_y r1) (ai_y r1) (ball_x r1 + ball_dx r1) y (ball_dx r1) dy Hdx Hw2) as Hb.
  destruct (paddle_bounces _ _ _ _ _ _) as [dx' dy']. destruct Hb as (Hb1 & Hb2 & _).
  cbn [set_ball ball_x]. destruct (Z.ltb_spec (ball_x r1 + ball_dx r1) 0); [cbn; unfold unit_step in *; lia|].
  unfold PONG_WIDTH. destruct (Z.geb_spec (ball_x r1 + ball_dx r1) 68); [cbn; lia|].
  cbn. split_and!; try lia. by split.
Qed.

(** * The program keeps the screen *)

Section safety.
Context `{Hardware} (fuel : nat).
Abbreviation pkept := (mkeeps (play_ok (S := unit) any)).

Lemma keeps_scene a b c d e f : pkept (pong_draw_scene a b c d e f) any.
Proof. unfold pong_draw_scene. play. Qed.

Lemma keeps_paddle y : pkept (read_paddle fuel y) any.
Proof.
  apply mkeeps_sloop with (J := any); [|done]. intros s _.
  eapply mkeeps_bind; [apply keeps_input, keeps_poll_key|]. intros k _. apply mkeeps_ret. by repeat case_match.
Qed.

Lemma keeps_turn p a r : pkept (rally_turn fuel p a r) any.
Proof.
  unfold rally_turn. eapply mkeeps_bind; [apply keeps_paddle|]. intros [y|] _; [|by apply mkeeps_ret].
  destruct (rally_step _) as [r' [who|]]; [by apply mkeeps_ret|].
  eapply mkeeps_bind; [apply keeps_scene|]. intros _ _. by apply mkeeps_ret.
Qed.

Lemma keeps_over p a : pkept (match_over fuel p a) any.
Proof.
  unfold match_over. eapply mkeeps_bind; [apply keeps_scene|]. intros _ _.
  eapply mkeeps_bind; [destruct (_ >? _); apply keeps_text|]. intros _ _.
  eapply mkeeps_bind; [apply keeps_text|]. intros _ _. apply mkeeps_mloop.
  eapply mkeeps_bind; [apply keeps_input, keeps_wait_key|]. intros k _. apply mkeeps_ret. by repeat case_match.
Qed.

Lemma keeps_round scores : pkept (pong_round fuel scores) any.
Proof.
  destruct scores as [p a]. unfold pong_round. eapply mkeeps_bind with (P := any).
  { unfold pong_wait_serve. eapply mkeeps_bind; [apply keeps_scene|]. intros _ _. apply keeps_text. }
  intros _ _. eapply mkeeps_bind with (P := any).
  { apply mkeeps_sloop with (J := any); [|done]. intros r _. eapply mkeeps_mono; [apply keeps_turn|]. by intros []. }
  intros [who|] _; [|by apply mkeeps_ret]. destruct (if who then _ else _) as [p' a'].
  destruct (_ || _); [|by apply mkeeps_ret]. eapply mkeeps_bind; [apply keeps_over|]. intros again _. by apply mkeeps_ret.
Qed.

Lemma cmd_pong_ok : pkept (cmd_pong fuel) any.
Proof.
  apply mkeeps_sloop with (J := any); [|done]. intros s _. eapply mkeeps_mono; [apply keeps_round|]. by intros [].
Qed.
End safety.
