(* ===== verification/Plinko.v ===== *)
(** The Plinko game, src/src/apps/plinko.c: a ball falls past eight rows of
    pegs into one of nine buckets. *)
From Stdlib Require Import ZArith Lia Ascii String.
From stdpp Require Import base tactics option numbers list.
From S2P Require Import Prelude CString Ports Vga Terminal Input Play.
#[local] Open Scope Z_scope.

Definition GRID_ROWS : Z := 8.
Definition PEG_X_SPACING : Z := 4.
Definition PEG_Y_SPACING : Z := 2.
Definition START_X : Z := 40.
Definition START_Y : Z := 2.
Definition BOARD_L : Z := 15.
Definition BOARD_T : Z := 1.

(** The globals of the file. *)
Record plinko := Plinko { plinko_rng : Z; credits : Z; last_win : Z }.

Definition plinko_boot : plinko := Plinko 1410479190 250 0.

Definition rng_next (r : Z) : Z := u32 (r * 1664525 + 1013904223).
Definition spin (s : plinko) : plinko := Plinko (rng_next (plinko_rng s)) (credits s) (last_win s).

Definition multipliers : list Z := [500; 200; 100; 50; 10; 50; 100; 200; 500].
Definition labels : list (list Z) :=
  [bs "500"; bs "200"; bs "100"; bs "50"; bs "10"; bs "50"; bs "100"; bs "200"; bs "500"].

Definition first_bucket_x : Z := START_X - GRID_ROWS * (PEG_X_SPACING / 2).

Definition bucket_idx (cur_x : Z) : Z :=
  let i := Z.quot (cur_x - first_bucket_x) PEG_X_SPACING in
  let i := if i <? 0 then 0 else i in
  if i >=? GRID_ROWS + 1 then GRID_ROWS else i.

(** [last_win = multipliers[bucket_idx]; credits += last_win;] *)
Definition pay (cur_x : Z) (s : plinko) : outcome plinko :=
  match multipliers !! Z.to_nat (bucket_idx cur_x) with
  | Some win => Ok (Plinko (plinko_rng s) (i32 (credits s + win)) win)
  | None => Stuck OutOfBounds
  end.

(** The column after a row, and the generator. *)
Definition deflect (cur_x : Z) (s : plinko) : Z * plinko :=
  let s := spin s in
  (if Z.shiftr (plinko_rng s) 16 mod 2 =? 0 then cur_x - PEG_X_SPACING / 2 else cur_x + PEG_X_SPACING / 2, s).

Section io.
Context `{Hardware} (fuel : nat).
Abbreviation plinkoM := (M (play plinko)).

(** The bucket labels from the [i]th. *)
Fixpoint draw_buckets (l : list (list Z)) (i : Z) : plinkoM unit :=
  match l with
  | [] => skip
  | label :: l =>
    let bucket_y := START_Y + GRID_ROWS * PEG_Y_SPACING in
    let bx := first_bucket_x + i * PEG_X_SPACING - 1 in
    put_text bucket_y bx label (VGA_ATTR 14 8);;
    put_cell (bucket_y - 1) (bx + 1) (ch "|") THEME_BORDER;;
    draw_buckets l (i + 1)
  end.

Definition plinko_draw_layout : plinkoM unit :=
  paint (vga_clear THEME_APP_BG);;
  draw (vga_fill_rect BOARD_T BOARD_L 22 50 (ch " ") THEME_BORDER);;
  draw (vga_fill_rect (BOARD_T + 1) (BOARD_L + 1) 20 48 (ch " ") THEME_APP_BG);;
  put_text BOARD_T (BOARD_L + 18) (bs " PLINKO DELUXE ") THEME_TITLE;;
  each (Z.to_nat GRID_ROWS) 0 (fun r =>
    let row_x_start := START_X - r * (PEG_X_SPACING / 2) in
    each (Z.to_nat (r + 1)) 0 (fun p =>
      put_cell (START_Y + r * PEG_Y_SPACING) (row_x_start + p * PEG_X_SPACING) (ch ".") (VGA_ATTR 15 1)));;
  draw_buckets labels 0;;
  put_text (BOARD_T + 1) (BOARD_L + 52) (bs "Credits:   ") THEME_TOPBAR;;
  s ← own;
  put_text (BOARD_T + 2) (BOARD_L + 52) (bs "          ") (VGA_ATTR 0 0);;
  put_number 16 (BOARD_T + 2) (BOARD_L + 52) (credits s) (VGA_ATTR 10 0);;
  put_text (BOARD_T + 4) (BOARD_L + 52) (bs "Last Win:  ") THEME_TOPBAR;;
  put_text (BOARD_T + 5) (BOARD_L + 52) (bs "          ") (VGA_ATTR 0 0);;
  put_number 16 (BOARD_T + 5) (BOARD_L + 52) (last_win s) (VGA_ATTR 14 0);;
  put_text (BOARD_T + 8) (BOARD_L + 52) (bs "SPACE to Drop") THEME_TOPBAR;;
  put_text (BOARD_T + 9) (BOARD_L + 52) (bs "-10 Credits") (VGA_ATTR 12 0);;
  put_text (BOARD_T + 11) (BOARD_L + 52) (bs "ESC to Exit ") THEME_TOPBAR.

(** The fall past [n] more rows: the last column. *)
Fixpoint fall (n : nat) (cur_x cur_y : Z) : plinkoM Z :=
  match n with
  | O => mret cur_x
  | S n =>
    put_cell cur_y cur_x (ch " ") THEME_APP_BG;;
    let cur_y := cur_y + PEG_Y_SPACING in
    s ← own;
    let '(cur_x, s) := deflect cur_x s in
    change (fun _ => s);;
    put_cell cur_y cur_x (ch "O") (VGA_ATTR 12 1);;
    fall n cur_x cur_y
  end.

(** A ball that was paid for. *)
Definition drop_ball : plinkoM unit :=
  change (fun s => Plinko (plinko_rng s) (credits s - 10) (last_win s));;
  plinko_draw_layout;;
  put_cell (START_Y - 1) START_X (ch "O") (VGA_ATTR 12 1);;
  cur_x ← fall (Z.to_nat GRID_ROWS) START_X (START_Y - 1);
  s ← own;
  s ← lift (pay cur_x s);
  change (fun _ => s);;
  put_text (START_Y + GRID_ROWS * PEG_Y_SPACING) (first_bucket_x + bucket_idx cur_x * PEG_X_SPACING - 1) (bs "WIN!")
    (VGA_ATTR 15 4);;
  drain_keys fuel (fun _ => skip).

Definition plinko_turn : plinkoM (option unit) :=
  plinko_draw_layout;;
  k ← mloop fuel (k ← poll fuel; if k =? 0 then change spin;; mret None else mret (Some k));
  if k =? KEY_ESCAPE then mret (Some tt)
  else if (k =? ch " ") || (k =? KEY_ENTER) then
    s ← own;
    if credits s <? 10 then mret None else drop_ball;; mret None
  else mret None.

Definition plinko_run : plinkoM unit := mloop fuel plinko_turn.
End io.

(** * Every ball lands in a bucket *)

(** The moves to the right of the next [n] rows, and the generator after them. *)
Fixpoint path (n : nat) (s : plinko) : nat :=
  match n with
  | O => 0
  | S n =>
    let s := spin s in
    ((if (Z.shiftr (plinko_rng s) 16 mod 2 =? 0)%Z then 0 else 1) + path n s)%nat
  end.
Fixpoint spins (n : nat) (s : plinko) : plinko := match n with O => s | S n => spins n (spin s) end.

Lemma path_le n : forall s, (path n s <= n)%nat.
Proof. induction n as [|n IH]; intros s; cbn [path]; [lia|]. specialize (IH (spin s)). destruct (_ =? 0); lia. Qed.

Lemma bucket_at k : (k <= 8)%nat -> bucket_idx (24 + 4 * Z.of_nat k) = Z.of_nat k.
Proof.
  intros Hk. unfold bucket_idx. change first_bucket_x with 24. change PEG_X_SPACING with 4.
  replace (24 + 4 * Z.of_nat k - 24) with (Z.of_nat k * 4) by lia. rewrite Z.quot_mul by lia.
  rewrite (proj2 (Z.ltb_ge (Z.of_nat k) 0)) by lia. rewrite Z.geb_leb. change (GRID_ROWS + 1) with 9.
  by rewrite (proj2 (Z.leb_gt 9 (Z.of_nat k))) by lia.
Qed.

Lemma multiplier_at k : (k <= 8)%nat -> exists w, multipliers !! k = Some w /\ 10 <= w <= 500.
Proof. intros Hk. do 9 (destruct k as [|k]; [eexists; split; [reflexivity|lia]|]). lia. Qed.

Section safety.
Context `{Hardware} (fuel : nat).

Lemma keeps_buckets I l : forall i, mkeeps (play_ok I) (draw_buckets l i) any.
Proof.
  induction l as [|b l IH]; intros i; cbn [draw_buckets]; [apply mkeeps_skip|].
  do 2 (eapply mkeeps_bind; [auto with play|intros _ _]). apply IH.
Qed.

Lemma keeps_layout I : mkeeps (play_ok I) plinko_draw_layout any.
Proof. unfold plinko_draw_layout. play. apply keeps_buckets. Qed.

Lemma moved (s' s : plinko) v i (tr : list io_event) : play_ok (eq s) (fst (Play v i s, tr)) -> play_ok (eq s') (fst (Play v i s', tr)).
Proof. intros []. by split. Qed.

(** The column after a fall counts the moves to the right. *)
Lemma fall_spec n : forall s x y st, play_ok (eq s) (fst st) ->
  wp (fall n x y) (fun x' st' => play_ok (eq (spins n s)) (fst st') /\
    x' = x - 2 * Z.of_nat n + 4 * Z.of_nat (path n s)) st.
Proof.
  induction n as [|n IH]; intros s x y st Hst; cbn [fall spins path]; [split; [done|lia]|].
  eapply mkeeps_then; [apply (keeps_cell (eq s))|exact Hst|]. intros _ [p tr] Hp _. cbn [fst] in Hp.
  destruct p as [v i o]. pose proof (po_own _ _ Hp) as E. cbn in E. subst o. unfold deflect.
  apply wp_bind, wp_own. change (PEG_X_SPACING / 2) with 2. apply wp_bind, wp_change.
  set (x1 := if _ =? 0 then x - 2 else _).
  eapply mkeeps_then; [apply (keeps_cell (eq (spin s)))|apply (moved _ s); exact Hp|]. intros _ st' Hst' _.
  eapply wp_mono; [by apply IH|]. intros x' st2 [H1 ->]. split; [done|].
  unfold x1. destruct (_ =? 0); lia.
Qed.

Lemma keeps_drain (s : plinko) : mkeeps (play_ok (eq s)) (drain_keys fuel (fun _ => skip)) any.
Proof.
  apply mkeeps_mloop. eapply mkeeps_bind; [apply keeps_input, keeps_poll_key|]. intros c _.
  destruct (c =? 0); [by apply mkeeps_ret|]. eapply mkeeps_bind; [apply mkeeps_skip|]. intros _ _. by apply mkeeps_ret.
Qed.

(** What a ball pays: ten credits for the win of the bucket it falls into. *)
Lemma drop_spec s st : play_ok (eq s) (fst st) ->
  wp (drop_ball fuel) (fun _ st' => exists win, multipliers !! path 8 s = Some win /\
    play_ok (eq (Plinko (plinko_rng (spins 8 s)) (i32 (credits s - 10 + win)) win)) (fst st')) st.
Proof.
  intros Hst. destruct st as [[v i o] tr]. pose proof (po_own _ _ Hst) as E. cbn in E. subst o.
  set (s1 := Plinko (plinko_rng s) (credits s - 10) (last_win s)).
  assert (Hsp : forall n, path n s1 = path n s /\ plinko_rng (spins n s1) = plinko_rng (spins n s) /\
    credits (spins n s1) = credits s - 10).
  { assert (Hgen : forall n a b, plinko_rng a = plinko_rng b -> path n a = path n b /\
      plinko_rng (spins n a) = plinko_rng (spins n b) /\ credits (spins n a) = credits a).
    { induction n as [|n IH]; intros a b Eab; cbn [path spins]; [done|].
      destruct (IH (spin a) (spin b)) as (E1 & E2 & E3); [by unfold spin; cbn; rewrite Eab|].
      rewrite E1, E2, E3. unfold spin at 1 3. cbn. by rewrite Eab. }
    intros n. by apply (Hgen n s1 s). }
  unfold drop_ball. apply wp_bind, wp_change. fold s1.
  eapply mkeeps_then; [apply (keeps_layout (eq s1))|apply (moved _ s); exact Hst|]. intros _ st1 H1 _.
  eapply mkeeps_then; [apply (keeps_cell (eq s1))|exact H1|]. intros _ st2 H2 _.
  apply wp_bind. eapply wp_mono; [by apply (fall_spec _ s1)|]. intros x' [[v' i' o] tr'] [H3 ->].
  change (Z.to_nat GRID_ROWS) with 8%nat in *.
  pose proof (po_own _ _ H3) as E. cbn [fst p_own] in E. subst o. destruct (Hsp 8%nat) as (Ep & Er & Ec).
  rewrite Ep. pose proof (path_le 8 s) as Hk. destruct (multiplier_at _ Hk) as (win & Ew & _).
  replace (START_X - 2 * Z.of_nat 8 + 4 * Z.of_nat (path 8 s)) with (24 + 4 * Z.of_nat (path 8 s)) by (unfold START_X; lia).
  set (s2 := Plinko (plinko_rng (spins 8 s)) (i32 (credits s - 10 + win)) win).
  apply wp_bind, wp_own, wp_bind, (wp_lift _ (eq s2)).
  { unfold pay. rewrite bucket_at, Nat2Z.id, Ew by lia. apply succeeds_ret. unfold s2. by rewrite Er, Ec. }
  intros _ <-. apply wp_bind, wp_change.
  eapply mkeeps_then; [apply (keeps_text (eq s2))|apply (moved _ (spins 8 s1)); exact H3|]. intros _ st3 H4 _.
  eapply wp_mono; [by apply keeps_drain|]. intros _ st4 [H5 _]. by exists win.
Qed.

Lemma keeps_drop : mkeeps (play_ok (S := plinko) any) (drop_ball fuel) any.
Proof.
  intros [[v i s] tr] Hst. eapply wp_mono; [apply (drop_spec s); destruct Hst; by split|].
  intros u st' (win & _ & Hp). split; [|done]. by destruct Hp.
Qed.

Lemma plinko_run_ok : mkeeps (play_ok any) (plinko_run fuel) any.
Proof.
  unfold plinko_run. apply mkeeps_mloop with (P := any). unfold plinko_turn. eapply mkeeps_bind; [apply keeps_layout|intros _ _].
  eapply mkeeps_bind with (P := any).
  { apply mkeeps_mloop. eapply mkeeps_bind; [apply keeps_input, keeps_poll_key|]. intros k _.
    destruct (k =? 0); [|by apply mkeeps_ret]. eapply mkeeps_bind; [by apply keeps_change|intros _ _]. by apply mkeeps_ret. }
  intros k _. destruct (k =? KEY_ESCAPE); [by apply mkeeps_ret|]. destruct (_ || _); [|by apply mkeeps_ret].
  eapply mkeeps_bind; [apply keeps_own|intros s _]. destruct (credits s <? 10); [by apply mkeeps_ret|].
  eapply mkeeps_bind; [apply keeps_drop|intros _ _]. by apply mkeeps_ret.
Qed.
End safety.
