(* ===== verification/Mamu.v ===== *)
(** The text editor, src/src/apps/mamu.c.  The program's variables are the
    globals of the file and the file system. *)
From Stdlib Require Import ZArith Lia Ascii String.
From stdpp Require Import base tactics option numbers list.
From S2P Require Import Prelude Buffer CString Ports Vga Terminal Input Ramdisk Play.
#[local] Open Scope Z_scope.

Definition BUFFER_MAX : Z := 4096.

Record mamu := Mamu { text_buffer : list Z; text_len : Z; curr_file : list Z }.

Definition mamu_boot : mamu := Mamu (replicate (Z.to_nat BUFFER_MAX) 0) 0 (replicate 16 0).

(** What the editor works on. *)
Record editing := Editing { the_mamu : mamu; the_fs : fs }.

Definition set_mamu (m : mamu) (s : editing) : editing := Editing m (the_fs s).
Definition set_the_fs (st : fs) (s : editing) : editing := Editing (the_mamu s) st.

(** [text_buffer[text_len] = '\0';] and the new length. *)
Definition cut_text (len : Z) (m : mamu) : outcome mamu :=
  b ← blit (text_buffer m) len [0]; Ok (Mamu b len (curr_file m)).

(** [text_buffer[text_len++] = c; text_buffer[text_len] = '\0';] *)
Definition add_char (c : Z) (m : mamu) : outcome mamu :=
  b ← blit (text_buffer m) (text_len m) [c];
  let len := text_len m + 1 in
  b ← blit b len [0];
  Ok (Mamu b len (curr_file m)).

(** The keys that edit. *)
Definition edit_text (k : Z) (m : mamu) : outcome mamu :=
  if k =? KEY_BACKSPACE then
    if text_len m >? 0 then cut_text (text_len m - 1) m else Ok m
  else if k =? KEY_ENTER then
    if text_len m <? BUFFER_MAX - 1 then add_char 10 m else Ok m
  else if (k >=? 32) && (k <? 127) then
    if text_len m <? BUFFER_MAX - 1 then add_char (u8 k) m else Ok m
  else Ok m.

(** What [strncpy(curr_file, filename, 15)] leaves of the cleared 16 bytes. *)
Definition file_slot (filename : list Z) : list Z :=
  let t := take 15 filename in t ++ replicate (16 - length t) 0.

(** The file loaded, or an empty text. *)
Definition load_file (filename : list Z) (s : editing) : outcome mamu :=
  let m := Mamu (replicate (Z.to_nat BUFFER_MAX) 0) 0 (replicate 16 0) in
  if hd0 filename =? 0 then Ok m
  else
    file ← fill_array 16 (file_slot filename);
    let m := Mamu (text_buffer m) 0 file in
    node ← fs_resolve (the_fs s) (Some filename);
    if negb (node =? 0)%nat && fs_is_file (the_fs s) node then
      '(data, n) ← fs_read (the_fs s) node (BUFFER_MAX - 1);
      b ← blit (text_buffer m) 0 data;
      cut_text (if n <? 0 then 0 else n) (Mamu b 0 (curr_file m))
    else Ok m.

(** [save_file] as the changes of the file system and the message: [None] when
    it prints none. *)
Definition write_file (node : nat) (s : editing) : outcome (fs * option (list Z * Z)) :=
  if negb (node =? 0)%nat && fs_is_file (the_fs s) node then
    '(st, ok) ← fs_write (the_fs s) node (Some (text_buffer (the_mamu s))) (text_len (the_mamu s));
    Ok (st, Some (if (ok : bool) then (bs "Saved successfully!", VGA_ATTR 15 2) else (bs "Error writing file!", VGA_ATTR 15 4)))
  else Ok (the_fs s, None).

Definition save_file (s : editing) : outcome (fs * option (list Z * Z)) :=
  let name := buf_text (curr_file (the_mamu s)) in
  if hd0 name =? 0 then Ok (the_fs s, None)
  else
    node ← fs_resolve (the_fs s) (Some name);
    if (node =? 0)%nat then
      '(st, ok) ← fs_create_file (the_fs s) (fs_cwd_get (the_fs s)) (Some name);
      if negb ok then Ok (st, Some (bs "Error creating file!", VGA_ATTR 15 4))
      else
        node ← fs_resolve st (Some name);
        write_file node (set_the_fs st s)
    else write_file node s.

Section io.
Context `{Hardware} (fuel : nat).
Abbreviation mamuM := (M (play editing)).

(** The text from row [r], column [c]. *)
Fixpoint draw_text (l : list Z) (r c : Z) : mamuM unit :=
  match l with
  | [] => skip
  | x :: l =>
    if r <? VGA_HEIGHT - 1 then
      if x =? 10 then draw_text l (r + 1) 0
      else if c <? VGA_WIDTH then put_cell r c x THEME_APP_BG;; draw_text l r (c + 1)
      else draw_text l r c
    else draw_text l r c
  end.

Definition draw_ui : mamuM unit :=
  draw (vga_fill_row 0 (ch " ") THEME_TOPBAR);;
  put_text 0 2 (bs "Mamu Editor v0.1 - File: ") THEME_TOPBAR;;
  s ← own;
  let m := the_mamu s in
  put_text 0 27 (if negb (hd0 (curr_file m) =? 0) then buf_text (curr_file m) else bs "(untitled)") THEME_TOPBAR;;
  draw (vga_fill_rect 1 0 (VGA_HEIGHT - 2) VGA_WIDTH (ch " ") THEME_APP_BG);;
  text ← lift (slice (text_buffer m) 0 (text_len m));
  draw_text text 1 0;;
  draw (vga_fill_row (VGA_HEIGHT - 1) (ch " ") THEME_MENU_BG);;
  put_text (VGA_HEIGHT - 1) 2 (bs "F2: Save    F10: Exit    Arrows: Move") THEME_MENU_BG.

Definition save : mamuM unit :=
  s ← own;
  '(st, msg) ← lift (save_file s);
  change (set_the_fs st);;
  match msg with Some (text, attr) => put_text (VGA_HEIGHT - 1) 40 text attr | None => skip end.

Definition mamu_turn : mamuM (option unit) :=
  draw_ui;;
  k ← wait_key fuel;
  if k =? KEY_F10 then mret (Some tt)
  else if k =? KEY_F2 then save;; mret None
  else
    s ← own;
    m ← lift (edit_text k (the_mamu s));
    change (set_mamu m);;
    mret None.

Definition mamu_run (filename : list Z) : mamuM unit :=
  s ← own;
  m ← lift (load_file filename s);
  change (set_mamu m);;
  paint (vga_clear THEME_APP_BG);;
  mloop fuel mamu_turn.
End io.
