(* ===== verification/Desktop.v ===== *)
(** The desktop, src/src/apps/desktop.c: overlapping windows, a dock, a menu, and
    a mouse pointer.  The program's variables are the globals of the file and
    those of the display back end. *)
From Stdlib Require Import ZArith Lia Ascii String.
From stdpp Require Import base tactics option numbers list.
From S2P Require Import Prelude Buffer CString Ports Vga Terminal Input Devices Play.
#[local] Open Scope Z_scope.

Definition DESKTOP_TOP : Z := 1.
Definition DESKTOP_BOTTOM : Z := 21.
Definition DOCK_TOP : Z := 22.
Definition DOCK_HEIGHT : Z := 3.
Definition WINDOW_COUNT : Z := 4.
Definition MENU_X : Z := 1.
Definition MENU_Y : Z := 1.
Definition MENU_W : Z := 28.
Definition MENU_H : Z := 7.
Definition DOCK_SLOT_W : Z := 14.
Definition DOCK_START_X : Z := (VGA_WIDTH - WINDOW_COUNT * DOCK_SLOT_W) / 2.
Definition MOUSE_BTN_LEFT : Z := 1.

Record desk_window_t := Window {
  win_id : list Z; win_title : list Z; win_x : Z; win_y : Z; win_w : Z; win_h : Z; win_visible : bool }.

(** What [reset_layout] resets. *)
Record wm := Wm {
  g_windows : list desk_window_t; g_zorder : list Z; g_active_win : Z; g_dock_index : Z;
  g_menu_open : bool; g_drag_active : bool; g_drag_window : Z; g_left_prev : bool }.

(** The other globals; [ptr_x] and [ptr_y] are this file's [g_mouse_x] and
    [g_mouse_y]. *)
Record desk := Desk { the_wm : wm; g_mouse_ok : bool; ptr_x : Z; ptr_y : Z; g_frame_counter : Z }.

Definition set_windows (l : list desk_window_t) (d : wm) : wm :=
  Wm l (g_zorder d) (g_active_win d) (g_dock_index d) (g_menu_open d) (g_drag_active d) (g_drag_window d) (g_left_prev d).
Definition set_stack (z : list Z) (active : Z) (d : wm) : wm :=
  Wm (g_windows d) z active (g_dock_index d) (g_menu_open d) (g_drag_active d) (g_drag_window d) (g_left_prev d).
Definition set_dock (i : Z) (d : wm) : wm :=
  Wm (g_windows d) (g_zorder d) (g_active_win d) i (g_menu_open d) (g_drag_active d) (g_drag_window d) (g_left_prev d).
Definition set_menu (b : bool) (d : wm) : wm :=
  Wm (g_windows d) (g_zorder d) (g_active_win d) (g_dock_index d) b (g_drag_active d) (g_drag_window d) (g_left_prev d).
Definition set_drag (b : bool) (w : Z) (d : wm) : wm :=
  Wm (g_windows d) (g_zorder d) (g_active_win d) (g_dock_index d) (g_menu_open d) b w (g_left_prev d).
Definition set_left (b : bool) (d : wm) : wm :=
  Wm (g_windows d) (g_zorder d) (g_active_win d) (g_dock_index d) (g_menu_open d) (g_drag_active d) (g_drag_window d) b.

Definition place (x y : Z) (w : desk_window_t) : desk_window_t :=
  Window (win_id w) (win_title w) x y (win_w w) (win_h w) (win_visible w).
Definition show (b : bool) (w : desk_window_t) : desk_window_t :=
  Window (win_id w) (win_title w) (win_x w) (win_y w) (win_w w) (win_h w) b.

Definition windows_boot : list desk_window_t := [
  Window (bs "term") (bs "Terminal") 4 4 38 12 true; Window (bs "notes") (bs "Notes") 18 6 34 11 true;
  Window (bs "about") (bs "About HeatOS") 28 5 44 12 true; Window (bs "retro") (bs "Retro Board") 12 8 36 10 false ].
Definition wm_boot : wm := Wm windows_boot [0; 1; 3; 2] 2 0 false false (-1) false.
Definition desk_boot : desk := Desk wm_boot false (VGA_WIDTH / 2) (VGA_HEIGHT / 2) 0.

Definition g_dock_items : list (list Z) := [bs "Terminal"; bs "Notes"; bs "About"; bs "Retro"].

(** * Windows *)

(** [g_windows[i]], read and written. *)
Definition window (i : Z) (d : wm) : outcome desk_window_t := item (g_windows d) i.
Definition change_window (i : Z) (f : desk_window_t -> desk_window_t) (d : wm) : outcome wm :=
  w ← window i d; l ← store i (f w) (g_windows d); Ok (set_windows l d).

Definition dock_slot_x (idx : Z) : Z := DOCK_START_X + idx * DOCK_SLOT_W.

Definition clamp_window (w : desk_window_t) : desk_window_t :=
  let min_x := 1 in
  let max_x := VGA_WIDTH - win_w w - 1 in
  let min_y := DESKTOP_TOP + 1 in
  let max_y := DESKTOP_BOTTOM - win_h w in
  let max_x := if max_x <? min_x then min_x else max_x in
  let max_y := if max_y <? min_y then min_y else max_y in
  place (clampi (win_x w) min_x max_x) (clampi (win_y w) min_y max_y) w.

(** The first position of [v], [none] when there is none. *)
Fixpoint position (v : Z) (z : list Z) (i none : Z) : Z :=
  match z with
  | [] => none
  | x :: z => if x =? v then i else position v z (i + 1) none
  end.

(** [for (int i = pos; i < WINDOW_COUNT - 1; i++) g_zorder[i] = g_zorder[i + 1];] with [n] turns. *)
Fixpoint shift_down (n : nat) (i : Z) (z : list Z) : outcome (list Z) :=
  match n with
  | O => Ok z
  | S n => x ← read z (i + 1); z ← blit z i [x]; shift_down n (i + 1) z
  end.

Definition bring_to_front (win_idx : Z) (d : wm) : outcome wm :=
  if (win_idx <? 0) || (win_idx >=? WINDOW_COUNT) then Ok d
  else
    let pos := position win_idx (g_zorder d) 0 (-1) in
    if pos <? 0 then Ok d
    else
      z ← shift_down (Z.to_nat (WINDOW_COUNT - 1 - pos)) pos (g_zorder d);
      z ← blit z (WINDOW_COUNT - 1) [win_idx];
      Ok (set_stack z win_idx d).

Definition window_from_dock (idx : Z) : Z := if (idx <? 0) || (idx >=? WINDOW_COUNT) then 0 else idx.

Definition covers (x y : Z) (w : desk_window_t) : bool :=
  (x >=? win_x w) && (x <? win_x w + win_w w) && (y >=? win_y w) && (y <? win_y w + win_h w).

(** [n] positions of the stack from the [n - 1]st down. *)
Fixpoint hit_from (n : nat) (x y : Z) (d : wm) : outcome Z :=
  match n with
  | O => Ok (-1)
  | S n =>
    idx ← read (g_zorder d) (Z.of_nat n);
    w ← window idx d;
    if negb (win_visible w) then hit_from n x y d
    else if covers x y w then Ok idx
    else hit_from n x y d
  end.
Definition window_hit_test (x y : Z) (d : wm) : outcome Z := hit_from (Z.to_nat WINDOW_COUNT) x y d.

Fixpoint dock_slots (n : nat) (i x : Z) : Z :=
  match n with
  | O => -1
  | S n =>
    let sx := dock_slot_x i in
    let ex := sx + DOCK_SLOT_W - 1 in
    if (x >=? sx) && (x <? ex) then i else dock_slots n (i + 1) x
  end.
Definition dock_item_hit_test (x y : Z) : Z :=
  if negb (y =? DOCK_TOP + 1) then -1 else dock_slots (Z.to_nat WINDOW_COUNT) 0 x.

Definition menu_contains (x y : Z) : bool :=
  (x >=? MENU_X) && (x <? MENU_X + MENU_W) && (y >=? MENU_Y) && (y <? MENU_Y + MENU_H).

Definition menu_item_hit_test (x y : Z) : Z :=
  if negb (menu_contains x y) then -1
  else if y =? MENU_Y + 1 then 0
  else if y =? MENU_Y + 2 then 1
  else if y =? MENU_Y + 3 then 2
  else if y =? MENU_Y + 4 then 3
  else -1.

Definition reset_layout (d : wm) : outcome wm :=
  d ← change_window 0 (fun w => show true (place 4 4 w)) d;
  d ← change_window 1 (fun w => show true (place 18 6 w)) d;
  d ← change_window 2 (fun w => show true (place 28 5 w)) d;
  d ← change_window 3 (fun w => show false (place 12 8 w)) d;
  z ← blit (g_zorder d) 0 [0; 1; 3; 2];
  Ok (Wm (g_windows d) z 2 0 false false (-1) false).

(** * Events *)

(** [g_windows[i].visible = true; bring_to_front(i);] *)
Definition open_window (i : Z) (d : wm) : outcome wm :=
  d ← change_window i (show true) d; bring_to_front i d.

Definition handle_menu_action (item : Z) (d : wm) : outcome wm :=
  d ← (if item =? 0 then open_window 2 d
       else if item =? 1 then reset_layout d
       else if item =? 2 then change_window (g_active_win d) (show false) d
       else Ok d);
  Ok (set_menu false d).

(** The press of a window: the close button, and the title bar to drag by. *)
Definition press_window (win_idx x y : Z) (d : wm) : outcome wm :=
  w ← window win_idx d;
  d ← bring_to_front win_idx d;
  if (y =? win_y w) && (x >=? win_x w + 1) && (x <=? win_x w + 2) then change_window win_idx (show false) d
  else if y =? win_y w then Ok (set_drag true win_idx d)
  else Ok d.

Definition press_below_menu (x y : Z) (d : wm) : outcome wm :=
  let dock_idx := dock_item_hit_test x y in
  if dock_idx >=? 0 then open_window (window_from_dock dock_idx) (set_dock dock_idx d)
  else
    win_idx ← window_hit_test x y d;
    if win_idx >=? 0 then press_window win_idx x y d else Ok d.

Definition handle_mouse_press (x y : Z) (d : wm) : outcome wm :=
  if (y =? 0) && (x <=? 8) then Ok (set_menu (negb (g_menu_open d)) d)
  else if g_menu_open d then
    let item := menu_item_hit_test x y in
    if item >=? 0 then handle_menu_action item d
    else press_below_menu x y (if negb (menu_contains x y) then set_menu false d else d)
  else press_below_menu x y d.

(** [process_mouse] after the driver's answers. *)
Definition drag (dx dy : Z) (d : wm) : outcome wm :=
  change_window (g_drag_window d) (fun w =>
    clamp_window (place (i32 (win_x w + dx)) (i32 (win_y w + dy)) w)) d.

Definition mouse_event (x y dx dy : Z) (left : bool) (d : wm) : outcome wm :=
  d ← (if g_drag_active d && (g_drag_window d >=? 0) && left then drag dx dy d else Ok d);
  d ← (if left && negb (g_left_prev d) then handle_mouse_press x y d else Ok d);
  let d := if negb left && g_left_prev d then set_drag false (-1) d else d in
  Ok (set_left left d).

Definition handle_keyboard_fallback (key : Z) (d : wm) : outcome wm :=
  if key =? KEY_TAB then
    let pos := (position (g_active_win d) (g_zorder d) 0 WINDOW_COUNT + 1) mod WINDOW_COUNT in
    i ← read (g_zorder d) pos;
    d ← bring_to_front i d;
    Ok (set_dock (g_active_win d) d)
  else if key =? KEY_LEFT then
    let i := g_dock_index d - 1 in
    Ok (set_dock (if i <? 0 then WINDOW_COUNT - 1 else i) d)
  else if key =? KEY_RIGHT then
    let i := g_dock_index d + 1 in
    Ok (set_dock (if i >=? WINDOW_COUNT then 0 else i) d)
  else if key =? KEY_ENTER then open_window (window_from_dock (g_dock_index d)) d
  else if (key =? ch "m") || (key =? ch "M") then Ok (set_menu (negb (g_menu_open d)) d)
  else Ok d.

(** * Drawing *)

(** What the program works on. *)
Record desktop := Desktop { the_desk : desk; the_display : devices }.

Definition set_desk (d : desk) (s : desktop) : desktop := Desktop d (the_display s).
Definition set_wm (m : wm) (d : desk) : desk := Desk m (g_mouse_ok d) (ptr_x d) (ptr_y d) (g_frame_counter d).
Definition set_mouse_ok (b : bool) (d : desk) : desk := Desk (the_wm d) b (ptr_x d) (ptr_y d) (g_frame_counter d).
Definition set_ptr (x y : Z) (d : desk) : desk := Desk (the_wm d) (g_mouse_ok d) x y (g_frame_counter d).
Definition set_frame (n : Z) (d : desk) : desk := Desk (the_wm d) (g_mouse_ok d) (ptr_x d) (ptr_y d) n.

Section io.
Context `{Hardware} (fuel : nat).
Abbreviation deskM := (M (play desktop)).

Fixpoint put_lines (row col : Z) (l : list (list Z)) (attr : Z) : deskM unit :=
  match l with [] => skip | s :: l => put_text row col s attr;; put_lines (row + 1) col l attr end.

Definition draw_wallpaper : deskM unit :=
  each (Z.to_nat (DESKTOP_BOTTOM - DESKTOP_TOP + 1)) DESKTOP_TOP (fun r =>
    let attr := if negb (Z.land r 1 =? 0) then VGA_ATTR 3 1 else VGA_ATTR 11 1 in
    each (Z.to_nat VGA_WIDTH) 0 (fun c =>
      put_cell r c (if (c + r) mod 11 =? 0 then ch "." else ch " ") attr));;
  put_text 3 3 (bs "HeatOS Desktop") (VGA_ATTR 15 1);;
  put_text 4 3 (bs "Simple. Educational. Nostalgic.") (VGA_ATTR 7 1).

Definition draw_menu_panel (d : wm) : deskM unit :=
  if negb (g_menu_open d) then skip
  else
    let panel_attr := VGA_ATTR 0 7 in
    draw (gfx_fill_rect MENU_Y MENU_X MENU_H MENU_W (ch " ") panel_attr);;
    put_lines (MENU_Y + 1) (MENU_X + 2)
      [bs "About Desktop"; bs "Reset Layout"; bs "Hide Active Window"; bs "Close Menu"] panel_attr.

(** The two digits of the clock's parts. *)
Definition two_digits (n : Z) : list Z := [ch "0" + n / 10; ch "0" + n mod 10].
Definition clock_text (frame : Z) : list Z :=
  let mins := frame / 50 mod 60 in
  let hours := 9 + frame / (50 * 60) mod 9 in
  two_digits hours ++ [ch ":"] ++ two_digits mins.

Definition draw_menu_bar (s : desktop) : deskM unit :=
  let bar := VGA_ATTR 0 7 in
  draw (gfx_fill_row 0 (ch " ") bar);;
  put_text 0 2 (bs "HeatOS") bar;;
  put_text 0 10 (bs "File  Edit  View  Window  Help") bar;;
  match gfx_backend (the_display s) with
  | GFX_BACKEND_VIRTIO_TEXT => put_text 0 45 (bs "Backend: virtio API") bar
  | GFX_BACKEND_VGA_TEXT => put_text 0 48 (bs "Backend: VGA API") bar
  end;;
  clock_buf ← lift (end_text 6 (clock_text (g_frame_counter (the_desk s))));
  put_text 0 74 clock_buf bar;;
  draw_menu_panel (the_wm (the_desk s)).

Definition window_text (id : list Z) : list (list Z) :=
  if strcmp id (bs "term") =? 0 then
    [bs "$ HeatOS desktop terminal"; bs "$ Click title bar and drag windows"; bs "$ Press Esc to return to shell"]
  else if strcmp id (bs "notes") =? 0 then
    [bs "Notes"; bs "- Build from scratch"; bs "- Keep systems understandable"; bs "- Learn by reading code"]
  else if strcmp id (bs "about") =? 0 then
    [bs "Aesthetic: modern macOS-inspired"; bs "Philosophy: simple + educational";
     bs "Nostalgic desktop shell for learning"; bs "Not Linux, not production, just craft"]
  else
    [bs "+--------------------------+"; bs "| Retro Board             |"; bs "| o o o o o o             |";
     bs "| Keep hacking            |"; bs "+--------------------------+"].

Definition draw_window_content (w : desk_window_t) : deskM unit :=
  put_lines (win_y w + 2) (win_x w + 2) (window_text (win_id w)) (VGA_ATTR 0 15).

Definition draw_shadow (w : desk_window_t) : deskM unit :=
  let shadow_attr := VGA_ATTR 8 0 in
  let right := win_x w + win_w w in
  let bottom := win_y w + win_h w in
  each (Z.to_nat (Z.min bottom (VGA_HEIGHT - 1) - win_y w)) (win_y w + 1) (fun r =>
    if right <? VGA_WIDTH then put_cell r right (ch " ") shadow_attr else skip);;
  if bottom <? VGA_HEIGHT then
    each (Z.to_nat (Z.min right (VGA_WIDTH - 1) - win_x w)) (win_x w + 1) (fun c =>
      put_cell bottom c (ch " ") shadow_attr)
  else skip.

Definition draw_window_frame (w : desk_window_t) (active : bool) : deskM unit :=
  if negb (win_visible w) then skip
  else
    let title_bg := if active then 1 else 8 in
    let title_attr := if active then VGA_ATTR 15 1 else VGA_ATTR 7 8 in
    let frame_attr := VGA_ATTR 0 7 in
    let content_attr := VGA_ATTR 0 15 in
    draw_shadow w;;
    draw (gfx_fill_rect (win_y w) (win_x w) 1 (win_w w) (ch " ") title_attr);;
    put_cell (win_y w) (win_x w + 1) (ch "o") (VGA_ATTR 12 title_bg);;
    put_cell (win_y w) (win_x w + 3) (ch "o") (VGA_ATTR 14 title_bg);;
    put_cell (win_y w) (win_x w + 5) (ch "o") (VGA_ATTR 10 title_bg);;
    put_text (win_y w) (win_x w + 8) (win_title w) title_attr;;
    each (Z.to_nat (win_h w - 1)) (win_y w + 1) (fun r =>
      put_cell r (win_x w) (ch "|") frame_attr;;
      draw (gfx_fill_rect r (win_x w + 1) 1 (win_w w - 2) (ch " ") content_attr);;
      put_cell r (win_x w + win_w w - 1) (ch "|") frame_attr);;
    each (Z.to_nat (win_w w)) (win_x w) (fun c =>
      put_cell (win_y w + win_h w - 1) c (ch "-") frame_attr);;
    draw_window_content w.

Fixpoint draw_dock_items (items : list (list Z)) (i selected : Z) : deskM unit :=
  match items with
  | [] => skip
  | name :: items =>
    let x := dock_slot_x i in
    let attr := if i =? selected then VGA_ATTR 15 1 else VGA_ATTR 15 8 in
    draw (gfx_fill_rect (DOCK_TOP + 1) x 1 (DOCK_SLOT_W - 1) (ch " ") attr);;
    put_text (DOCK_TOP + 1) (x + 1) name attr;;
    draw_dock_items items (i + 1) selected
  end.

Definition draw_dock (d : wm) : deskM unit :=
  draw (gfx_fill_rect DOCK_TOP 0 DOCK_HEIGHT VGA_WIDTH (ch " ") (VGA_ATTR 0 1));;
  draw (gfx_fill_rect DOCK_TOP (DOCK_START_X - 2) 3 (WINDOW_COUNT * DOCK_SLOT_W + 4) (ch " ") (VGA_ATTR 0 7));;
  draw_dock_items g_dock_items 0 (g_dock_index d).

Definition draw_mouse_cursor (d : desk) : deskM unit :=
  v ← gets p_screen;
  cell ← lift (gfx_read_cell (ptr_y d) (ptr_x d) v);
  let c := Z.land cell 255 in
  let attr := u8 (Z.shiftr cell 8) in
  let fg := Z.land attr 15 in
  let bg := Z.land (Z.shiftr attr 4) 15 in
  put_cell (ptr_y d) (ptr_x d) (if c =? ch " " then ch "+" else c) (VGA_ATTR bg fg).

(** The windows of the stack, bottom first, without the active one. *)
Fixpoint draw_stack (z : list Z) (d : wm) : deskM unit :=
  match z with
  | [] => skip
  | idx :: z =>
    (if idx =? g_active_win d then skip else w ← lift (window idx d); draw_window_frame w false);;
    draw_stack z d
  end.

Definition render_desktop : deskM unit :=
  draw_wallpaper;;
  s ← own;
  let d := the_wm (the_desk s) in
  draw_stack (g_zorder d) d;;
  w ← lift (window (g_active_win d) d);
  draw_window_frame w true;;
  draw_menu_bar s;;
  draw_dock d;;
  put_text 21 2 (if g_mouse_ok (the_desk s)
    then bs "Mouse: click menu and dock, drag title bars, Esc exits"
    else bs "Mouse init failed. Use Tab focus + Enter dock fallback. Esc exits") (VGA_ATTR 15 1);;
  draw_mouse_cursor (the_desk s).

(** * The program *)

Definition on_desk (f : desk -> desk) : deskM unit := change (fun s => set_desk (f (the_desk s)) s).
Definition on_wm (f : wm -> outcome wm) : deskM unit :=
  s ← own; d ← lift (f (the_wm (the_desk s))); on_desk (set_wm d).

(** The driver of the display, and the mouse's globals. *)
Definition with_display {A} (m : M devices A) : deskM A := fun '(p, tr) =>
  '(a, (d, tr)) ← m (the_display (p_own p), tr);
  Ok (a, (set_own (Desktop (the_desk (p_own p)) d) p, tr)).
Definition ask_mouse {A} (f : mouse -> A) : deskM A := with_input (gets (fun i => f (the_mouse i))).
Definition tell_mouse (f : mouse -> mouse) : deskM unit := with_input (modify (fun i => set_mouse (f (the_mouse i)) i)).

Definition process_mouse : deskM unit :=
  with_input (mouse_poll fuel);;
  '(x, y) ← ask_mouse mouse_get_screen_pos;
  on_desk (set_ptr x y);;
  '(dx, dy) ← ask_mouse (fun m => (mouse_get_delta m).1);
  tell_mouse (fun m => (mouse_get_delta m).2);;
  buttons ← ask_mouse mouse_get_buttons;
  on_wm (mouse_event x y dx dy (negb (Z.land buttons MOUSE_BTN_LEFT =? 0))).

Definition desktop_turn : deskM (option unit) :=
  on_desk (fun d => set_frame (u32 (g_frame_counter d + 1)) d);;
  s ← own;
  (if g_mouse_ok (the_desk s) then process_mouse else skip);;
  key ← poll fuel;
  if key =? KEY_ESCAPE then mret (Some tt)
  else
    (if key =? 0 then skip else on_wm (handle_keyboard_fallback key));;
    render_desktop;;
    mret None.

Definition desktop_run : deskM unit :=
  with_display gfx_init;;
  ok ← with_input mouse_init;
  on_desk (set_mouse_ok ok);;
  on_wm reset_layout;;
  on_desk (set_frame 0);;
  tell_mouse (mouse_set_screen_pos (VGA_WIDTH / 2) (VGA_HEIGHT / 2));;
  mloop fuel desktop_turn.
End io.

(** * The stack of windows *)

Definition indexes : list Z := [0; 1; 2; 3].

(** [w] above all others, which keep their order. *)
Definition raised (w : Z) (z : list Z) : list Z := filter (fun v => v <> w) z ++ [w].

Lemma position_split v z : forall i none, v ∈ z ->
  exists pre post, z = pre ++ v :: post /\ v ∉ pre /\ position v z i none = i + Z.of_nat (length pre).
Proof.
  induction z as [|x z IH]; intros i none Hv; [by apply not_elem_of_nil in Hv|]. cbn [position].
  destruct (Z.eqb_spec x v) as [->|Hx].
  - exists [], z. split; [done|]. split; [apply not_elem_of_nil|cbn; lia].
  - apply elem_of_cons in Hv as [->|Hv]; [done|]. destruct (IH (i + 1) none Hv) as (pre & post & -> & Hn & ->).
    exists (x :: pre), post. split; [done|]. split; [by rewrite not_elem_of_cons|cbn; lia].
Qed.

Lemma shift_down_spec post : forall pre x,
  exists y, shift_down (length post) (Z.of_nat (length pre)) (pre ++ x :: post) = Ok (pre ++ post ++ [y]).
Proof.
  induction post as [|y post IH]; intros pre x; cbn [shift_down length]; [by exists x|].
  replace (pre ++ x :: y :: post) with ((pre ++ [x]) ++ y :: post) by by rewrite <- app_assoc.
  rewrite read_at by (rewrite length_app; cbn; lia). cbn [mbind outcome_bind].
  rewrite <- app_assoc. change ([x] ++ y :: post) with ([x] ++ (y :: post)).
  rewrite (blit_app pre [x] (y :: post)) by done. cbn [mbind outcome_bind].
  destruct (IH (pre ++ [y]) y) as (l & E). exists l.
  rewrite length_app in E. cbn in E. rewrite <- !app_assoc in E. cbn in E.
  replace (Z.of_nat (length pre) + 1) with (Z.of_nat (length pre + 1)) by lia. exact E.
Qed.

Lemma filter_out (pre : list Z) v post : NoDup (pre ++ v :: post) -> filter (fun u => u <> v) (pre ++ v :: post) = pre ++ post.
Proof.
  intros Hd. apply NoDup_app in Hd as (_ & Hpre & Hpost). apply NoDup_cons in Hpost as [Hv _].
  rewrite filter_app, filter_cons_False by (by intros []).
  assert (Hid : forall l : list Z, v ∉ l -> filter (fun u => u <> v) l = l).
  { induction l as [|u l IH]; intros Hn; [done|]. apply not_elem_of_cons in Hn as [Hu Hn].
    rewrite filter_cons_True by congruence. by rewrite IH. }
  rewrite !Hid; [done|done|]. intros Hin. apply (Hpre v Hin). apply elem_of_cons. by left.
Qed.

Lemma raised_perm w z : z ≡ₚ indexes -> w ∈ indexes -> raised w z ≡ₚ indexes.
Proof.
  intros Hz Hw. assert (Hin : w ∈ z) by by rewrite Hz.
  apply list_elem_of_split in Hin as (pre & post & E).
  assert (Hd : NoDup z) by (rewrite Hz; apply (bool_decide_unpack _); by vm_compute). subst z. unfold raised.
  rewrite filter_out by done. rewrite <- Hz, <- app_assoc. by rewrite <- Permutation_cons_append.
Qed.

Lemma index_in w : w ∈ indexes <-> 0 <= w < 4.
Proof. unfold indexes. rewrite !elem_of_cons, elem_of_nil. lia. Qed.

(** [bring_to_front] is [raised], and the window becomes the active one. *)
Lemma bring_to_front_spec w d : g_zorder d ≡ₚ indexes -> 0 <= w < 4 ->
  bring_to_front w d = Ok (set_stack (raised w (g_zorder d)) w d).
Proof.
  intros Hz Hw. unfold bring_to_front. change WINDOW_COUNT with 4. zdec. cbn [orb].
  assert (Hin : w ∈ g_zorder d) by (rewrite Hz; by apply index_in).
  destruct (position_split w (g_zorder d) 0 (-1) Hin) as (pre & post & E & _ & ->).
  assert (Hlen : length (pre ++ w :: post) = 4%nat) by (rewrite <- E, Hz; done).
  assert (Hd : NoDup (g_zorder d)) by (rewrite Hz; apply (bool_decide_unpack _); by vm_compute).
  zdec. rewrite E in *. rewrite length_app in Hlen. cbn in Hlen.
  replace (Z.to_nat (4 - 1 - (0 + Z.of_nat (length pre)))) with (length post) by lia.
  destruct (shift_down_spec post pre w) as (y & Ey). rewrite Z.add_0_l, Ey. cbn [mbind outcome_bind].
  replace (pre ++ post ++ [y]) with ((pre ++ post) ++ [y] ++ []) by by rewrite <- app_assoc.
  rewrite blit_app by (rewrite ?length_app; cbn; lia). cbn [mbind outcome_bind].
  unfold raised. by rewrite filter_out, app_nil_r.
Qed.

(** * Windows stay on the desktop *)

Definition size (w : desk_window_t) : Z * Z := (win_w w, win_h w).
Definition sizes : list (Z * Z) := [(38, 12); (34, 11); (44, 12); (36, 10)].

(** Between the menu bar and the dock, with a column free on both sides. *)
Definition inside (w : desk_window_t) : Prop :=
  1 <= win_x w /\ win_x w + win_w w <= 79 /\ 2 <= win_y w /\ win_y w + win_h w <= 21.

Record wm_ok (d : wm) : Prop := {
  wk_sizes : map size (g_windows d) = sizes;
  wk_inside : Forall inside (g_windows d);
  wk_stack : g_zorder d ≡ₚ indexes;
  wk_top : last (g_zorder d) = Some (g_active_win d);
  wk_active : 0 <= g_active_win d < 4;
  wk_dock : 0 <= g_dock_index d < 4;
  wk_drag : g_drag_window d < 4 }.

Lemma wm_boot_ok : wm_ok wm_boot.
Proof.
  split; try done; cbn.
  - repeat constructor; cbn; lia.
  - unfold indexes. do 2 constructor. by constructor.
Qed.

Lemma windows_length d : wm_ok d -> length (g_windows d) = 4%nat.
Proof. intros []. by rewrite <- (length_map size), wk_sizes0. Qed.

Lemma window_ok i d : wm_ok d -> 0 <= i < 4 ->
  succeeds (window i d) (fun w => g_windows d !! Z.to_nat i = Some w /\ inside w /\ sizes !! Z.to_nat i = Some (size w)).
Proof.
  intros Hd Hi. eapply succeeds_mono; [apply item_ok; by rewrite windows_length|]. intros w E.
  split; [done|]. split; [apply (Forall_lookup_1 _ _ _ _ (wk_inside _ Hd) E)|].
  by rewrite <- (wk_sizes _ Hd), list_lookup_fmap, E.
Qed.

Lemma list_map_insert_same {A B} (f : A -> B) (l : list A) i x : f <$> l !! i = Some (f x) -> map f (<[i := x]> l) = map f l.
Proof. intros E. rewrite list_fmap_insert. apply list_insert_id. by rewrite list_lookup_fmap. Qed.

Lemma change_window_ok i f d : wm_ok d -> 0 <= i < 4 -> (forall w, size (f w) = size w) ->
  (forall w, sizes !! Z.to_nat i = Some (size w) -> inside w -> inside (f w)) ->
  succeeds (change_window i f d) (fun d' => wm_ok d' /\
    exists w, g_windows d !! Z.to_nat i = Some w /\ d' = set_windows (<[Z.to_nat i := f w]> (g_windows d)) d).
Proof.
  intros Hd Hi Hs Hf. unfold change_window. eapply succeeds_bind; [by apply window_ok|]. intros w (E & Hin & Ez).
  rewrite store_ok by by rewrite windows_length. apply succeeds_ret. split; [|by exists w]. destruct Hd. split; try done; cbn.
  - rewrite list_map_insert_same; [done|]. by rewrite E, Hs.
  - apply Forall_insert; [done|]. by apply Hf.
Qed.

Lemma size_cases i w : 0 <= i < 4 -> sizes !! Z.to_nat i = Some (size w) ->
  i = 0 /\ win_w w = 38 /\ win_h w = 12 \/ i = 1 /\ win_w w = 34 /\ win_h w = 11 \/
  i = 2 /\ win_w w = 44 /\ win_h w = 12 \/ i = 3 /\ win_w w = 36 /\ win_h w = 10.
Proof.
  intros Hi E. assert (C : i = 0 \/ i = 1 \/ i = 2 \/ i = 3) by lia.
  unfold size in E. destruct C as [->|[->|[->| ->]]]; injection E as E1 E2; lia.
Qed.

Lemma clamp_inside i x y w : 0 <= i < 4 -> sizes !! Z.to_nat i = Some (size w) -> inside (clamp_window (place x y w)).
Proof.
  intros Hi E. unfold clamp_window, place, inside, clampi, VGA_WIDTH, DESKTOP_TOP, DESKTOP_BOTTOM. cbn.
  destruct (size_cases _ _ Hi E) as [(-> & -> & ->)|[(-> & -> & ->)|[(-> & -> & ->)|(-> & -> & ->)]]]; cbn;
    rewrite !Z.gtb_ltb; repeat case_match; cbn; lia.
Qed.

Lemma show_ok b i d : wm_ok d -> 0 <= i < 4 -> succeeds (change_window i (show b) d) (fun d' => wm_ok d' /\
  exists w, g_windows d !! Z.to_nat i = Some w /\ d' = set_windows (<[Z.to_nat i := show b w]> (g_windows d)) d).
Proof. intros. by apply change_window_ok. Qed.

Lemma move_ok i x y b d : wm_ok d -> 0 <= i < 4 ->
  (forall w, sizes !! Z.to_nat i = Some (size w) -> inside (place x y w)) ->
  succeeds (change_window i (fun w => show b (place x y w)) d) wm_ok.
Proof.
  intros Hd Hi Hp. eapply succeeds_mono; [apply change_window_ok; [done|done|done|]|by intros d' []].
  intros w E _. by apply Hp.
Qed.

Lemma raise_ok w d : wm_ok d -> 0 <= w < 4 -> wm_ok (set_stack (raised w (g_zorder d)) w d).
Proof. intros [] Hw. split; try done; cbn; [apply raised_perm; [done|by apply index_in]|]. unfold raised. by rewrite last_snoc. Qed.

Lemma bring_ok w d : wm_ok d -> 0 <= w < 4 -> succeeds (bring_to_front w d) wm_ok.
Proof. intros Hd Hw. rewrite bring_to_front_spec by (try apply Hd; lia). by apply succeeds_ret, raise_ok. Qed.

Lemma reset_layout_ok d : wm_ok d -> succeeds (reset_layout d) wm_ok.
Proof.
  intros Hd. unfold reset_layout.
  do 4 (eapply succeeds_bind;
    [apply move_ok; [eassumption|lia|]; intros w [= E1 E2]; unfold inside; cbn; lia|clear dependent d; intros d Hd]).
  rewrite blit_ok by (rewrite ?(wk_stack _ Hd); cbn; lia). apply succeeds_ret. destruct Hd. split; try done; cbn; try lia.
  all: rewrite drop_ge by (rewrite wk_stack0; done); apply wm_boot_ok.
Qed.

Lemma open_window_ok i d : wm_ok d -> 0 <= i < 4 -> succeeds (open_window i d) wm_ok.
Proof. intros Hd Hi. unfold open_window. eapply succeeds_bind; [by apply show_ok|]. intros d' [Hd' _]. by apply bring_ok. Qed.

Lemma set_menu_ok b d : wm_ok d -> wm_ok (set_menu b d).
Proof. by intros []. Qed.
Lemma set_drag_ok b i d : wm_ok d -> i < 4 -> wm_ok (set_drag b i d).
Proof. by intros []. Qed.
Lemma set_left_ok b d : wm_ok d -> wm_ok (set_left b d).
Proof. by intros []. Qed.
Lemma set_dock_ok i d : wm_ok d -> 0 <= i < 4 -> wm_ok (set_dock i d).
Proof. by intros []. Qed.

Lemma menu_action_ok item d : wm_ok d -> succeeds (handle_menu_action item d) wm_ok.
Proof.
  intros Hd. unfold handle_menu_action. eapply succeeds_bind with (P := wm_ok).
  - destruct (item =? 0); [by apply open_window_ok|]. destruct (item =? 1); [by apply reset_layout_ok|].
    destruct (item =? 2); [|by apply succeeds_ret].
    eapply succeeds_mono; [apply show_ok; [done|apply Hd]|]. by intros d' [].
  - intros d' Hd'. by apply succeeds_ret, set_menu_ok.
Qed.

(** * The window under the pointer *)

(** The topmost of the windows [z] that the point touches. *)
Definition touches (x y : Z) (d : wm) (idx : Z) : Prop :=
  exists w, g_windows d !! Z.to_nat idx = Some w /\ win_visible w = true /\ covers x y w = true.

Definition topmost (x y : Z) (d : wm) (z : list Z) (r : Z) : Prop :=
  (r = -1 /\ Forall (fun i => ~ touches x y d i) z) \/
  exists below above, z = below ++ r :: above /\ touches x y d r /\ Forall (fun i => ~ touches x y d i) above.

Lemma stack_range d : wm_ok d -> Forall (fun i => 0 <= i < 4) (g_zorder d).
Proof. intros Hd. rewrite (wk_stack _ Hd). repeat constructor; lia. Qed.

Lemma hit_from_spec x y d : wm_ok d -> forall n, (n <= 4)%nat ->
  succeeds (hit_from n x y d) (topmost x y d (take n (g_zorder d))).
Proof.
  intros Hd. induction n as [|n IH]; intros Hn; cbn [hit_from]; [apply succeeds_ret; by left|].
  assert (Hl : length (g_zorder d) = 4%nat) by by rewrite (wk_stack _ Hd).
  destruct (lookup_lt_is_Some_2 (g_zorder d) n ltac:(lia)) as [idx E].
  rewrite read_ok, Nat2Z.id, (byte_at_lookup _ _ _ E) by lia. cbn [mbind outcome_bind].
  pose proof (Forall_lookup_1 _ _ _ _ (stack_range _ Hd) E) as Hr. cbn beta in Hr.
  eapply succeeds_bind; [by apply window_ok|]. intros w (Ew & _). rewrite (take_S_r _ _ _ E).
  assert (Hmiss : ~ touches x y d idx -> succeeds (hit_from n x y d) (topmost x y d (take n (g_zorder d) ++ [idx]))).
  { intros Hno. eapply succeeds_mono; [apply IH; lia|]. intros r [[-> Hall]|(below & above & -> & Ht & Hall)].
    - left. split; [done|]. apply Forall_app. by split; [|apply Forall_singleton].
    - right. exists below, (above ++ [idx]). rewrite <- app_assoc. split; [done|]. split; [done|].
      apply Forall_app. by split; [|apply Forall_singleton]. }
  destruct (win_visible w) eqn:Ev; cbn [negb]; [destruct (covers x y w) eqn:Ec|].
  - apply succeeds_ret. right. exists (take n (g_zorder d)), []. split; [done|]. split; [by exists w|constructor].
  - apply Hmiss. intros (w' & Ew' & _ & Hc). simplify_eq. congruence.
  - apply Hmiss. intros (w' & Ew' & Hv & _). simplify_eq. congruence.
Qed.

Lemma hit_test_spec x y d : wm_ok d -> succeeds (window_hit_test x y d) (topmost x y d (g_zorder d)).
Proof.
  intros Hd. eapply succeeds_mono; [by apply (hit_from_spec x y d Hd 4)|]. intros r Hr.
  by rewrite take_ge in Hr by by rewrite (wk_stack _ Hd).
Qed.

Lemma topmost_range x y d r : wm_ok d -> topmost x y d (g_zorder d) r -> r = -1 \/ 0 <= r < 4.
Proof.
  intros Hd [[-> _]|(below & above & E & _)]; [by left|right].
  pose proof (stack_range _ Hd) as Hf. rewrite E in Hf. apply Forall_app in Hf as [_ Hf]. by apply Forall_cons in Hf as [? _].
Qed.

(** * Events *)

Lemma press_window_spec r x y w d : wm_ok d -> 0 <= r < 4 -> g_windows d !! Z.to_nat r = Some w ->
  let d1 := set_stack (raised r (g_zorder d)) r d in
  succeeds (press_window r x y d) (fun d' => wm_ok d' /\
    d' = if y =? win_y w then
           if (x =? win_x w + 1) || (x =? win_x w + 2) then set_windows (<[Z.to_nat r := show false w]> (g_windows d)) d1
           else set_drag true r d1
         else d1).
Proof.
  intros Hd Hr Ew d1. unfold press_window.
  destruct (window_ok r d Hd Hr) as (w' & -> & Ew' & _ & _). cbn [mbind outcome_bind]. simplify_eq.
  rewrite bring_to_front_spec by (try apply Hd; lia). cbn [mbind outcome_bind]. fold d1.
  pose proof (raise_ok r d Hd Hr) as Hd1. fold d1 in Hd1.
  replace ((y =? win_y w) && (x >=? win_x w + 1) && (x <=? win_x w + 2))
    with ((y =? win_y w) && ((x =? win_x w + 1) || (x =? win_x w + 2))) by lia.
  destruct (y =? win_y w); cbn [andb]; [|by apply succeeds_ret].
  destruct (_ || _); [|apply succeeds_ret; split; [apply set_drag_ok; [done|lia]|done]].
  eapply succeeds_mono; [by apply (show_ok false r d1)|]. intros d' (Hd' & w' & Ew2 & ->).
  change (g_windows d1) with (g_windows d) in Ew2. by simplify_eq.
Qed.

Lemma dock_slots_range n : forall i x, 0 <= i -> dock_slots n i x = -1 \/ 0 <= dock_slots n i x < i + Z.of_nat n.
Proof.
  induction n as [|n IH]; intros i x Hi; cbn [dock_slots]; [by left|]. destruct (_ && _); [right; lia|].
  destruct (IH (i + 1) x ltac:(lia)) as [->|]; [by left|right; lia].
Qed.

Lemma dock_range x y : dock_item_hit_test x y = -1 \/ 0 <= dock_item_hit_test x y < 4.
Proof. unfold dock_item_hit_test. destruct (negb _); [by left|]. by apply (dock_slots_range 4). Qed.

Lemma below_menu_ok x y d : wm_ok d -> succeeds (press_below_menu x y d) wm_ok.
Proof.
  intros Hd. unfold press_below_menu. destruct (Z.geb_spec (dock_item_hit_test x y) 0) as [Hi|_].
  - destruct (dock_range x y) as [E|Hr]; [lia|]. unfold window_from_dock. change WINDOW_COUNT with 4.
    rewrite Z.geb_leb. zdec. cbn [orb]. by apply open_window_ok; [apply set_dock_ok|].
  - eapply succeeds_bind; [by apply hit_test_spec|]. intros r Hr.
    destruct (topmost_range _ _ _ _ Hd Hr) as [->|Hr4]; [by apply succeeds_ret|].
    rewrite Z.geb_leb. zdec. destruct (window_ok r d Hd Hr4) as (w & _ & Ew & _).
    eapply succeeds_mono; [by apply press_window_spec|]. by intros d' [].
Qed.

Lemma mouse_press_ok x y d : wm_ok d -> succeeds (handle_mouse_press x y d) wm_ok.
Proof.
  intros Hd. unfold handle_mouse_press. destruct (_ && _); [by apply succeeds_ret, set_menu_ok|].
  destruct (g_menu_open d); [|by apply below_menu_ok].
  destruct (_ >=? 0); [by apply menu_action_ok|]. apply below_menu_ok. destruct (negb _); [by apply set_menu_ok|done].
Qed.

Lemma drag_ok dx dy d : wm_ok d -> 0 <= g_drag_window d -> succeeds (drag dx dy d) wm_ok.
Proof.
  intros Hd Hr. assert (Hi : 0 <= g_drag_window d < 4) by (split; [done|apply Hd]). unfold drag.
  eapply succeeds_mono; [apply change_window_ok; [done|exact Hi|done|]|by intros d' []].
  intros w E _. by apply (clamp_inside (g_drag_window d)).
Qed.

Lemma mouse_event_ok x y dx dy left d : wm_ok d -> succeeds (mouse_event x y dx dy left d) wm_ok.
Proof.
  intros Hd. unfold mouse_event. eapply succeeds_bind with (P := wm_ok).
  { destruct (_ && left) eqn:E; [|by apply succeeds_ret]. apply drag_ok; [done|lia]. }
  clear dependent d. intros d Hd. eapply succeeds_bind with (P := wm_ok).
  { destruct (left && _); [by apply mouse_press_ok|by apply succeeds_ret]. }
  clear dependent d. intros d Hd. apply succeeds_ret, set_left_ok.
  destruct (_ && _); [by apply set_drag_ok|done].
Qed.

Lemma keyboard_ok key d : wm_ok d -> succeeds (handle_keyboard_fallback key d) wm_ok.
Proof.
  intros Hd. unfold handle_keyboard_fallback. change WINDOW_COUNT with 4.
  destruct (key =? KEY_TAB).
  { set (pos := _ mod 4). assert (Hp : 0 <= pos < 4) by (apply Z.mod_pos_bound; lia).
    assert (Hl : length (g_zorder d) = 4%nat) by by rewrite (wk_stack _ Hd).
    destruct (lookup_lt_is_Some_2 (g_zorder d) (Z.to_nat pos) ltac:(lia)) as [i E].
    rewrite read_ok, (byte_at_lookup _ _ _ E) by lia. cbn [mbind outcome_bind].
    pose proof (Forall_lookup_1 _ _ _ _ (stack_range _ Hd) E) as Hi. cbn beta in Hi.
    eapply succeeds_bind; [by apply bring_ok|]. intros d' Hd'. apply succeeds_ret, set_dock_ok; [done|apply Hd']. }
  pose proof (wk_dock _ Hd) as Hdk.
  destruct (key =? KEY_LEFT); [apply succeeds_ret, set_dock_ok; [done|]; case_match; lia|].
  destruct (key =? KEY_RIGHT); [apply succeeds_ret, set_dock_ok; [done|]; rewrite Z.geb_leb; zcases; lia|].
  destruct (key =? KEY_ENTER).
  { unfold window_from_dock. change WINDOW_COUNT with 4. rewrite Z.geb_leb. zdec. cbn [orb]. by apply open_window_ok. }
  destruct (_ || _); apply succeeds_ret; [by apply set_menu_ok|done].
Qed.

(** The events of the program's loop. *)
Inductive event :=
| Pointer (x y dx dy : Z) (held : bool)
| Key (k : Z)
| Reset.

Definition handle (e : event) (d : wm) : outcome wm :=
  match e with
  | Pointer x y dx dy held => mouse_event x y dx dy held d
  | Key k => handle_keyboard_fallback k d
  | Reset => reset_layout d
  end.

Fixpoint handle_all (l : list event) (d : wm) : outcome wm :=
  match l with [] => Ok d | e :: l => d ← handle e d; handle_all l d end.

Lemma handle_ok_wm e d : wm_ok d -> succeeds (handle e d) wm_ok.
Proof. destruct e; [apply mouse_event_ok|apply keyboard_ok|apply reset_layout_ok]. Qed.

(** C24: The desktop's windows stay on it: after any sequence of pointer
    movements, clicks, drags, keys and restarts, no table was accessed outside
    its bounds, every window lies between menu bar and dock with a free column
    on each side and has kept its size, the stacking order is a permutation of
    the four windows with the active one on top (so the order in which they are
    drawn is the order in which clicks find them), and the dock selection and
    the dragged window are windows. *)
Theorem desktop_windows_stay l : succeeds (handle_all l wm_boot) wm_ok.
Proof.
  generalize wm_boot wm_boot_ok. induction l as [|e l IH]; intros d Hd; [by apply succeeds_ret|].
  cbn [handle_all]. eapply succeeds_bind; [by apply handle_ok_wm|]. exact IH.
Qed.

(** The columns of the four entries of the dock, on row 23. *)
Definition on_dock (x y : Z) : Prop := y = 23 /\ exists i, 0 <= i < 4 /\ 12 + 14 * i <= x < 12 + 14 * i + 13.

Lemma off_dock x y : ~ on_dock x y -> dock_item_hit_test x y = -1.
Proof.
  intros H. unfold dock_item_hit_test. change (DOCK_TOP + 1) with 23. destruct (Z.eqb_spec y 23) as [->|]; [|done].
  cbn [negb]. assert (Hs : forall n i, 0 <= i -> i + Z.of_nat n <= 4 -> dock_slots n i x = -1).
  { induction n as [|n IH]; intros i H0 H4; [done|]. cbn [dock_slots]. unfold dock_slot_x.
    change DOCK_START_X with 12. change DOCK_SLOT_W with 14.
    replace (_ && _) with false; [apply IH; lia|]. symmetry. apply not_true_iff_false. intros E.
    apply H. split; [done|]. exists i. lia. }
  by apply (Hs 4%nat 0).
Qed.

(** The menu's panel, and its four lines. *)
Definition on_panel (x y : Z) : Prop := 1 <= x < 29 /\ 1 <= y < 8.
Definition on_item (x y : Z) : Prop := 1 <= x < 29 /\ 2 <= y <= 5.

#[global] Instance on_panel_dec x y : Decision (on_panel x y).
Proof. unfold on_panel. apply _. Defined.

Lemma menu_contains_panel x y : menu_contains x y = bool_decide (on_panel x y).
Proof.
  unfold menu_contains, MENU_X, MENU_Y, MENU_W, MENU_H. case_bool_decide as H; unfold on_panel in H; lia.
Qed.

Lemma off_items x y : ~ on_item x y -> menu_item_hit_test x y = -1.
Proof.
  intros H. unfold menu_item_hit_test. rewrite menu_contains_panel.
  case_bool_decide as Hp; [|done]. unfold on_item in H. unfold on_panel in Hp. unfold MENU_Y. cbn [negb]. zcases; lia.
Qed.

Lemma press_windows x y d (Hd : wm_ok d) (Hdock : ~ on_dock x y) :
  succeeds (press_below_menu x y d) (fun d' => exists r, topmost x y d (g_zorder d) r /\
    (r = -1 /\ d' = d \/ 0 <= r < 4 /\ exists w, g_windows d !! Z.to_nat r = Some w /\
      d' = let d1 := set_stack (raised r (g_zorder d)) r d in
           if y =? win_y w then
             if (x =? win_x w + 1) || (x =? win_x w + 2) then set_windows (<[Z.to_nat r := show false w]> (g_windows d)) d1
             else set_drag true r d1
           else d1)).
Proof.
  unfold press_below_menu. rewrite off_dock by done. cbn [Z.geb Z.compare].
  eapply succeeds_bind; [by apply hit_test_spec|]. intros r Hr.
  destruct (topmost_range _ _ _ _ Hd Hr) as [->|Hr4].
  - apply succeeds_ret. exists (-1). split; [done|by left].
  - rewrite Z.geb_leb. zdec. destruct (window_ok r d Hd Hr4) as (w & _ & Ew & _).
    eapply succeeds_mono; [by apply press_window_spec|]. intros d' [_ ->]. exists r. split; [done|]. right.
    split; [done|]. by exists w.
Qed.

(** C23: A click that is not on the menu's button (the first nine columns of the
    top row), on one of the lines of the open menu or on an entry of the dock
    goes to the topmost visible window under the pointer, whether the menu is
    open or closed: the window is raised above the others, which keep their
    order, and becomes active; a click on its close button hides it, elsewhere
    in its title bar starts dragging it.  Without a window under the pointer
    no window changes.  An open menu is closed by a click outside its panel, and
    stays open on a click on the panel's border, which goes through to the window
    behind it; nothing else changes. *)
Theorem desktop_click_correct x y d (Hd : wm_ok d) : ~ (y = 0 /\ x <= 8) ->
  ~ (g_menu_open d = true /\ on_item x y) -> ~ on_dock x y ->
  let d0 := if g_menu_open d then if decide (on_panel x y) then d else set_menu false d else d in
  succeeds (handle_mouse_press x y d) (fun d' => exists r, topmost x y d (g_zorder d) r /\
    (r = -1 /\ d' = d0 \/ 0 <= r < 4 /\ exists w, g_windows d !! Z.to_nat r = Some w /\
      d' = let d1 := set_stack (raised r (g_zorder d)) r d0 in
           if y =? win_y w then
             if (x =? win_x w + 1) || (x =? win_x w + 2) then set_windows (<[Z.to_nat r := show false w]> (g_windows d)) d1
             else set_drag true r d1
           else d1)).
Proof.
  intros Hxy Hmenu Hdock. unfold handle_mouse_press. replace (_ && _) with false by lia.
  destruct (g_menu_open d) eqn:Em; [|by apply press_windows].
  rewrite off_items by naive_solver. cbn [Z.geb Z.compare]. rewrite menu_contains_panel, bool_decide_decide.
  destruct (decide _); cbn [negb]; [by apply press_windows|].
  apply (press_windows x y (set_menu false d)); [by apply set_menu_ok|done].
Qed.

(** The close button of "Terminal" at boot: the window goes to the top of the
    stack and disappears.  With the menu open, a click on the panel's border goes
    to "Terminal" behind it, and a click on "About HeatOS" outside the panel
    closes the menu. *)
Lemma desktop_click_correct_witness :
  (exists d', handle_mouse_press 5 4 wm_boot = Ok d' /\ g_zorder d' = [1; 3; 2; 0] /\
    win_visible <$> g_windows d' !! 0%nat = Some false) /\
  (exists d', handle_mouse_press 5 6 (set_menu true wm_boot) = Ok d' /\ g_zorder d' = [1; 3; 2; 0] /\
    g_menu_open d' = true) /\
  (exists d', handle_mouse_press 40 10 (set_menu true wm_boot) = Ok d' /\ g_zorder d' = [0; 1; 3; 2] /\
    g_menu_open d' = false).
Proof.
  assert (Ho : wm_ok (set_menu true wm_boot)) by apply set_menu_ok, wm_boot_ok.
  assert (Hdk : forall x y, y < 23 -> ~ on_dock x y) by (intros x y Hy [-> _]; lia).
  repeat split.
  - destruct (desktop_click_correct 5 4 wm_boot wm_boot_ok) as (d' & E & _); [lia|by intros []|by apply Hdk|].
    exists d'. split; [exact E|]. vm_compute in E. by injection E as <-.
  - destruct (desktop_click_correct 5 6 _ Ho) as (d' & E & _); [lia|unfold on_item; lia|by apply Hdk|].
    exists d'. split; [exact E|]. vm_compute in E. by injection E as <-.
  - destruct (desktop_click_correct 40 10 _ Ho) as (d' & E & _); [lia|unfold on_item; lia|by apply Hdk|].
    exists d'. split; [exact E|]. vm_compute in E. by injection E as <-.
Defined.
