(* ===== verification/World.v ===== *)
(** The state the shell's commands share: the file system, the scheduler with
    its allocators and log, the network driver, the PS/2 input, the devices,
    the variables of the full-screen programs, and the history of port accesses. *)
From Stdlib Require Import ZArith Lia Ascii String.
From stdpp Require Import base tactics option numbers list.
From S2P Require Import Prelude CString Ports Command Ramdisk Klog Scheduler Network Terminal Input Devices.
From S2P Require Import Catnake Plinko Mamu Desktop.
#[local] Open Scope Z_scope.

(** The globals of the programs, which outlive a run. *)
Record apps := Apps { app_catnake : catnake; app_plinko : plinko; app_mamu : mamu; app_desk : desk }.

Definition apps_boot : apps := Apps catnake_boot plinko_boot mamu_boot desk_boot.

Record world := World {
  w_fs : fs; w_sched : sched; w_net : net; w_input : input; w_devices : devices; w_apps : apps; w_io : list io_event }.

Definition set_fs (s : fs) (w : world) : world :=
  World s (w_sched w) (w_net w) (w_input w) (w_devices w) (w_apps w) (w_io w).
Definition set_sched (s : sched) (w : world) : world :=
  World (w_fs w) s (w_net w) (w_input w) (w_devices w) (w_apps w) (w_io w).
Definition set_net (s : net) (tr : list io_event) (w : world) : world :=
  World (w_fs w) (w_sched w) s (w_input w) (w_devices w) (w_apps w) tr.
Definition set_input (i : input) (tr : list io_event) (w : world) : world :=
  World (w_fs w) (w_sched w) (w_net w) i (w_devices w) (w_apps w) tr.
Definition set_devices (d : devices) (tr : list io_event) (w : world) : world :=
  World (w_fs w) (w_sched w) (w_net w) (w_input w) d (w_apps w) tr.
Definition set_apps (a : apps) (w : world) : world :=
  World (w_fs w) (w_sched w) (w_net w) (w_input w) (w_devices w) a (w_io w).

Definition log_of (w : world) : klog := log (w_sched w).
Definition set_klog (l : klog) (w : world) : world := set_sched (set_log (w_sched w) l) w.

(** A driver's computation as part of a command. *)
Definition on_net {A} (m : M net A) : cmd world A := fun w =>
  match m (w_net w, w_io w) with
  | Ok (a, (s, tr)) => Ok ([], set_net s tr w, Some a)
  | Stuck e => Stuck e
  end.

Definition on_device {A} (m : M devices A) : cmd world A := fun w =>
  match m (w_devices w, w_io w) with
  | Ok (a, (s, tr)) => Ok ([], set_devices s tr w, Some a)
  | Stuck e => Stuck e
  end.

(** A command of the file system. *)
Definition on_fs {A} (m : cmd fs A) : cmd world A := within w_fs set_fs m.

(** [char nbuf[16]; itoa(n, nbuf, 10); term_puts(nbuf);], and with [utoa]. *)
Definition put_int (n : Z) : cmd world unit := put_itoa 16 (i32 n).
Definition put_uint (n : Z) : cmd world unit := put_utoa 16 (u32 n) 10.
