(* ===== verification/SysCmd.v ===== *)
(** The system commands of src/src/commands: processes, statistics, the log,
    time, sound and power.

    [fuel] bounds the waits for the timer; [serial] is whether the serial port
    is up, for the log lines the scheduler writes. *)
From Stdlib Require Import ZArith Lia Ascii String.
From stdpp Require Import base tactics option numbers list.
From S2P Require Import Prelude Buffer CString PhysMem Klog Scheduler Ports Console Command FsCmd Calc Devices World.
#[local] Open Scope Z_scope.

(** The loop that reads a number as long as there are digits: the value,
    modulo 2^32, and the rest. *)
Fixpoint digits_u32 (v : Z) (s : list Z) : Z * list Z :=
  match s with
  | c :: s' => if is_digit c then digits_u32 (u32 (v * 10 + (c - ch "0"))) s' else (v, s)
  | [] => (v, s)
  end.

(** * Log *)

Definition DMESG_PRINT_BUFFER : Z := 4096.

Definition cmd_dmesg (args : option (list Z)) : cmd world unit :=
  let clear_after := match args with
                     | Some a => strcmp (skip_spaces a) (bs "-c") =? 0
                     | None => false
                     end in
  '(dump, n) ← look (fun w => klog_read (log_of w) DMESG_PRINT_BUFFER);
  dump ← Command.eval (end_text 4096 dump);
  (if n <=? 0 then puts (bs "dmesg: log buffer is empty" ++ [10])
   else
     puts dump;;
     used ← look (fun w => klog_bytes_used (log_of w));
     if used >=? DMESG_PRINT_BUFFER - 1
     then puts (bs "dmesg: output truncated, use a larger buffer in kernel build" ++ [10]) else mret tt);;
  if clear_after then
    update (fun w => set_klog (klog_clear (log_of w)) w);;
    puts (bs "dmesg: buffer cleared" ++ [10])
  else mret tt.

(** * Processes *)

(** All digits, to the end. *)
Fixpoint pid_digits (v : Z) (s : list Z) : option Z :=
  match s with
  | [] => Some v
  | c :: s => if is_digit c then pid_digits (u32 (v * 10 + (c - ch "0"))) s else None
  end.

Definition parse_pid (s : option (list Z)) : option Z :=
  match s with
  | None => None
  | Some s => match skip_spaces s with [] => None | s => pid_digits 0 s end
  end.

Definition cmd_kill (serial : bool) (fuel : nat) (args : option (list Z)) : cmd world unit :=
  match parse_pid args with
  | None => puts (bs "Usage: kill <pid>" ++ [10])
  | Some pid =>
    if pid =? 0 then puts (bs "kill: cannot kill kernel process" ++ [10])
    else
      if_fails
        (call (fun w => '(st, ok) ← scheduler_kill serial fuel (w_sched w) pid; Ok (set_sched st w, ok)))
        (quit_with (bs "kill: pid not found" ++ [10]));;
      puts (bs "OK" ++ [10])
  end.

Definition state_name (state : Z) : list Z :=
  if state =? 1 then bs "running" else if state =? 0 then bs "stopped" else bs "unknown".

(** The blanks after a pid; [procs[i].id < 10] compares unsigned. *)
Definition pid_gap (pid : Z) : list Z :=
  if pid <? 10 then bs "    " else if pid <? 100 then bs "   " else bs "  ".

Fixpoint ps_rows (l : list (Z * Z * bool)) : cmd world unit :=
  match l with
  | [] => mret tt
  | (pid, st, current) :: l =>
    put_itoa 16 (i32 pid);;
    puts (pid_gap pid);;
    puts (state_name st);;
    puts (if st =? 1 then bs "  " else bs " ");;
    puts (if (current : bool) then bs "*" else bs "-");;
    puts [10];;
    ps_rows l
  end.

(** [scheduler_proc_info_t procs[32]]. *)
Definition proc_table : cmd world (list (Z * Z * bool)) :=
  rows ← query (fun w => scheduler_snapshot (w_sched w) 32); Command.eval (fill_array 32 rows).

Definition cmd_ps (args : option (list Z)) : cmd world unit :=
  procs ← proc_table;
  puts (bs "PID  STATE    CURRENT" ++ [10]);;
  ps_rows procs.

Fixpoint top_rows (l : list (Z * Z * bool)) : cmd world unit :=
  match l with
  | [] => mret tt
  | (pid, st, current) :: l =>
    put_itoa 16 (i32 pid);;
    puts (pid_gap pid);;
    puts (state_name st);;
    puts (if (current : bool) then bs " *" else []);;
    puts [10];;
    top_rows l
  end.

(** * Statistics *)

Section io.
Context `{Hardware}.

(** [12h 3m 4s] *)
Definition put_hms (room secs : Z) : cmd world unit :=
  put_itoa room (i32 (secs / 3600));; puts (bs "h ");;
  put_itoa room (i32 (secs mod 3600 / 60));; puts (bs "m ");;
  put_itoa room (i32 (secs mod 60));; puts (bs "s").

Definition cmd_top (args : option (list Z)) : cmd world unit :=
  procs ← proc_table;
  puts (bs "HeatOS top" ++ [10]);;
  secs ← on_device uptime_seconds;
  puts (bs "Uptime:  ");;
  put_hms 16 secs;;
  puts (bs "  (ticks: ");;
  ticks ← on_device pit_ticks;
  put_itoa 16 (i32 ticks);; puts (bs ")" ++ [10]);;
  used ← look (fun w => kheap_used_bytes (kheap (w_sched w)) / 1024);
  free ← look (fun w => kheap_free_bytes (kheap (w_sched w)) / 1024);
  pmm_free ← look (fun w => pmm_free_blocks_count (pages (w_sched w)));
  puts (bs "Heap:    ");;
  put_itoa 16 (i32 used);; puts (bs " KB used  /  ");;
  put_itoa 16 (i32 free);; puts (bs " KB free" ++ [10]);;
  puts (bs "Pages:   ");;
  put_itoa 16 (i32 pmm_free);; puts (bs " free (4 KB each)" ++ [10]);;
  puts (bs "Procs:   ");;
  n ← query (fun w => scheduler_process_count (w_sched w));
  put_itoa 16 (i32 n);;
  puts (bs "  current PID: ");;
  pid ← query (fun w => scheduler_current_pid (w_sched w));
  put_itoa 16 (i32 pid);;
  puts [10; 10];;
  puts (bs "PID  STATE" ++ [10]);;
  top_rows procs.

Definition cmd_uptime (args : option (list Z)) : cmd world unit :=
  secs ← on_device uptime_seconds;
  puts (bs "Uptime: ");;
  put_hms 8 secs;;
  puts (bs "  (");;
  ms ← on_device pit_ms_since_boot;
  put_itoa 8 (i32 ms);;
  puts (bs " ms since boot)" ++ [10]).

Definition print_u32_line (label : list Z) (value : Z) : cmd world unit :=
  puts label;; put_uint value;; puts [10].

Definition cmd_kstats (args : option (list Z)) : cmd world unit :=
  puts (bs "Kernel Stats" ++ [10]);;
  puts (bs "------------" ++ [10]);;
  a ← look (fun w => pmm_total_blocks (pages (w_sched w)));
  print_u32_line (bs "PMM pages total: ") a;;
  b ← look (fun w => pmm_used_blocks_count (pages (w_sched w)));
  print_u32_line (bs "PMM pages used:  ") b;;
  c ← look (fun w => pmm_free_blocks_count (pages (w_sched w)));
  print_u32_line (bs "PMM pages free:  ") c;;
  d ← look (fun w => kheap_used_bytes (kheap (w_sched w)));
  print_u32_line (bs "Heap bytes used: ") d;;
  e ← look (fun w => kheap_free_bytes (kheap (w_sched w)));
  print_u32_line (bs "Heap bytes free: ") e;;
  f ← query (fun w => scheduler_process_count (w_sched w));
  print_u32_line (bs "Scheduler procs: ") f;;
  g ← look (fun w => scheduler_tick_count (w_sched w));
  print_u32_line (bs "Scheduler ticks: ") g;;
  puts (bs "Graphics backend: ");;
  name ← look (fun w => gfx_backend_name (w_devices w));
  puts name;;
  puts [10];;
  puts (bs "Virtio display:  ");;
  v ← look (fun w => gfx_virtio_present (w_devices w));
  puts (if (v : bool) then bs "detected" else bs "not detected");;
  puts [10];;
  h ← look (fun w => klog_line_count (log_of w));
  print_u32_line (bs "klog lines:      ") h;;
  i ← look (fun w => klog_bytes_used (log_of w));
  print_u32_line (bs "klog bytes:      ") i.

(** * Time and sound *)

Definition cmd_sleep (fuel : nat) (args : option (list Z)) : cmd world unit :=
  match nonempty args with
  | None => puts (bs "Usage: sleep <milliseconds>" ++ [10])
  | Some a =>
    let '(ms, _) := digits_u32 0 a in
    if ms =? 0 then puts (bs "sleep: invalid duration" ++ [10]) else on_device (sleep_ms fuel ms)
  end.

Definition cmd_beep (fuel : nat) (args : option (list Z)) : cmd world unit :=
  let '(freq, dur) :=
    match nonempty args with
    | None => (440, 200)
    | Some a =>
      let '(v, p) := digits_u32 0 a in
      let '(w, _) := digits_u32 0 (skip_spaces p) in
      (if v >? 0 then v else 440, if w >? 0 then w else 200)
    end in
  on_device (speaker_beep fuel freq dur).

Definition cmos_read (reg : Z) : M devices Z := outb 112 reg;; inb 113.

Definition bcd_to_bin (v : Z) : Z := u8 (Z.shiftr v 4 * 10 + Z.land v 15).

Definition rtc_wait_ready : M devices bool :=
  r ← mrepeat (Z.to_nat 100000) (v ← cmos_read 10; mret (if Z.land v 128 =? 0 then Some tt else None));
  mret (bool_decide (is_Some r)).

Definition print2 (v : Z) : cmd world unit := puts [ch "0" + v / 10; ch "0" + v mod 10].

(** The hour in 24-hour form when the clock counts 12. *)
Definition hour_24 (hour : Z) : Z :=
  let pm := negb (Z.land hour 128 =? 0) in
  let hour := Z.land hour 127 in
  if pm && (hour <? 12) then u8 (hour + 12) else if negb pm && (hour =? 12) then 0 else hour.

Definition cmd_date (args : option (list Z)) : cmd world unit :=
  ready ← on_device rtc_wait_ready;
  if negb ready then puts (bs "date: RTC busy" ++ [10])
  else
    sec ← on_device (cmos_read 0);
    min ← on_device (cmos_read 2);
    hour ← on_device (cmos_read 4);
    day ← on_device (cmos_read 7);
    month ← on_device (cmos_read 8);
    year ← on_device (cmos_read 9);
    reg_b ← on_device (cmos_read 11);
    let bcd := Z.land reg_b 4 =? 0 in
    let conv v := if bcd then bcd_to_bin v else v in
    let hour := if bcd then bcd_to_bin (Z.land hour 127) else hour in
    let hour := if Z.land reg_b 2 =? 0 then hour_24 hour else hour in
    put_itoa 8 (2000 + conv year);;
    puts (bs "-");; print2 (conv month);;
    puts (bs "-");; print2 (conv day);;
    puts (bs " ");; print2 hour;;
    puts (bs ":");; print2 (conv min);;
    puts (bs ":");; print2 (conv sec);;
    puts [10].

Definition cmd_reboot (args : option (list Z)) : cmd world unit :=
  puts (bs "Rebooting..." ++ [10]);; on_device (power_ports 2 6).
Definition cmd_shutdown (args : option (list Z)) : cmd world unit :=
  puts (bs "Shutting down..." ++ [10]);; on_device (power_ports 0 14).
End io.

(** The calculator of Calc.v as a command. *)
Definition run_calc (args : option (list Z)) : cmd world unit := s ← Command.eval (Calc.cmd_calc args); puts s.
