(* ===== verification/NetCmd.v ===== *)
(** The network commands of src/src/commands.

    [fuel] bounds the turns of one drain of the adapter's receive ring. *)
From Stdlib Require Import ZArith Lia Ascii String.
From stdpp Require Import base tactics option numbers list.
From S2P Require Import Prelude Buffer CString Ports Console Command Ramdisk FsCmd NetBytes Network World.
#[local] Open Scope Z_scope.

(** * Printing *)

Definition hex_digit (v : Z) : Z :=
  let v := Z.land v 15 in if v <? 10 then ch "0" + v else ch "A" + (v - 10).

Definition print_hex_byte (b : Z) : cmd world unit := puts [hex_digit (Z.shiftr b 4); hex_digit b].

(** The four numbers separated by dots. *)
Definition print_ipv4 (ip : list Z) : cmd world unit :=
  a ← eval (read ip 0); put_int a;; puts (bs ".");;
  b ← eval (read ip 1); put_int b;; puts (bs ".");;
  c ← eval (read ip 2); put_int c;; puts (bs ".");;
  d ← eval (read ip 3); put_int d.

Fixpoint print_mac (i : nat) (mac : list Z) : cmd world unit :=
  match mac with
  | [] => mret tt
  | b :: mac => (if (0 <? i)%nat then puts (bs ":") else mret tt);; print_hex_byte b;; print_mac (S i) mac
  end.

(** * Arguments *)

(** The argument after blanks, when there is one. *)
Definition argument (args : option (list Z)) : option (list Z) :=
  match args with
  | None => None
  | Some a => match FsCmd.skip_spaces a with [] => None | a => Some a end
  end.

(** [char host[128]] up to a blank, and [char buf[16]] with what follows. *)
Definition host_and (args : list Z) : outcome (list Z * list Z) :=
  '(host, rest) ← copy_word 128 args;
  '(buf, _) ← copy_rest 16 (FsCmd.skip_spaces rest);
  Ok (host, buf).

Fixpoint all_digits (value : Z) (s : list Z) : option Z :=
  match s with
  | [] => Some value
  | c :: s => if (ch "0" <=? c) && (c <=? ch "9") then all_digits (i32 (value * 10 + (c - ch "0"))) s else None
  end.

Definition parse_count (s : list Z) (fallback : Z) : Z :=
  match s with
  | [] => fallback
  | _ => match all_digits 0 s with None => fallback | Some v => if v <=? 0 then fallback else v end
  end.

Fixpoint port_digits (port : Z) (s : list Z) : Z :=
  match s with
  | [] => if port =? 0 then -1 else port
  | c :: s =>
    if (ch "0" <=? c) && (c <=? ch "9") then
      let port := port * 10 + (c - ch "0") in if port >? 65535 then -1 else port_digits port s
    else -1
  end.

Definition parse_port (s : list Z) : Z := match s with [] => 23 | _ => port_digits 0 s end.

Definition extract_host_path (target : list Z) (host_size path_size : nat) : outcome (list Z * list Z) :=
  let target := FsCmd.skip_spaces target in
  let target := if strncmp target (bs "http://") 7 =? 0 then drop 7 target
                else if strncmp target (bs "https://") 8 =? 0 then drop 8 target else target in
  '(host, rest) ← copy_text (fun c => (c =? ch "/") || (c =? ch " ")) host_size target;
  '(path, _) ← (if hd0 rest =? ch "/" then copy_until (fun c => c =? ch " ") path_size [] rest else Ok ([], rest));
  path ← (if (length path =? 0)%nat
          then if (1 <? path_size)%nat then p ← put_char path_size [] (ch "/"); end_text path_size p else Ok []
          else end_text path_size path);
  Ok (host, path).

(** * Commands *)

Section io.
Context `{Hardware} (fuel : nat).

(** The address of [host], written or looked up. *)
Definition host_address (host : list Z) (failed : list Z) : cmd world (list Z) :=
  let '(ok, ip) := network_parse_ipv4 host (replicate 4 0) in
  if (ok : bool) then mret ip
  else
    r ← on_net (network_dns_resolve_a fuel (Some host) 800000);
    match r with Some (ip, _) => mret ip | None => quit_with failed end.

Definition ping_once (ip : list Z) : cmd world (option (Z * Z * Z)) :=
  on_net (network_ping_ipv4 fuel (Some ip) 600000).

Definition cmd_ifconfig (args : option (list Z)) : cmd world unit :=
  info ← on_net network_get_info;
  if negb (ni_present info) then puts (bs "No network adapter found" ++ [10])
  else
    puts (bs "iface0: ");;
    puts (if ni_ready info then bs "UP" ++ [10] else bs "DOWN" ++ [10]);;
    puts (bs "MAC: ");;
    mac ← eval (slice (ni_mac info) 0 6);
    print_mac 0 mac;;
    puts ([10] ++ bs "IP: ");; print_ipv4 (ni_ip info);;
    puts ([10] ++ bs "Mask: ");; print_ipv4 (ni_netmask info);;
    puts ([10] ++ bs "Gateway: ");; print_ipv4 (ni_gateway info);;
    puts ([10] ++ bs "IO Base: 0x");; put_utoa 16 (u32 (ni_io_base info)) 16;;
    puts ([10] ++ bs "PCI Slot: ");; put_int (ni_pci_slot info);;
    puts [10].

Definition cmd_netstat (args : option (list Z)) : cmd world unit :=
  info ← on_net network_get_info;
  puts (bs "Network status" ++ [10]);;
  puts (bs "  Adapter: ");;
  puts (if ni_present info then bs "present" ++ [10] else bs "missing" ++ [10]);;
  (if ni_present info then
     puts (bs "  Link: ");;
     puts (if ni_ready info then bs "ready" ++ [10] else bs "not ready" ++ [10]);;
     puts (bs "  Local IP: ");;
     print_ipv4 (ni_ip info);;
     puts [10]
   else mret tt);;
  puts ([10] ++ bs "Active sockets" ++ [10]);;
  puts (bs "  unavailable (TCP/UDP socket table API not exposed yet)" ++ [10]).

Definition cmd_nslookup (args : option (list Z)) : cmd world unit :=
  match argument args with
  | None => puts (bs "Usage: nslookup <hostname>" ++ [10])
  | Some a =>
    '(host, _) ← eval (copy_word 128 a);
    puts (bs "Resolving ");; puts host;; puts (bs "..." ++ [10]);;
    ip ← host_address host (bs "Name resolution failed" ++ [10]);
    puts (bs "Address: ");; print_ipv4 ip;; puts [10]
  end.

(** The echo requests of [ping], [n] left; the number of replies. *)
Fixpoint ping_rounds (ip : list Z) (n : nat) (success : Z) : cmd world Z :=
  match n with
  | O => mret success
  | S n =>
    res ← ping_once ip;
    match res with
    | Some (nbytes, ttl, time_ms) =>
      puts (bs "reply from ");;
      print_ipv4 ip;;
      puts (bs ": bytes=");; put_int nbytes;;
      puts (bs " ttl=");; put_int ttl;;
      puts (bs " time=");; put_int (i32 time_ms);;
      puts (bs "ms" ++ [10]);;
      ping_rounds ip n (success + 1)
    | None => puts (bs "request timed out" ++ [10]);; ping_rounds ip n success
    end
  end.

Definition cmd_ping (args : option (list Z)) : cmd world unit :=
  match argument args with
  | None => puts (bs "Usage: ping <ip|host> [count]" ++ [10])
  | Some a =>
    '(host, count_buf) ← eval (host_and a);
    let count := parse_count count_buf 4 in
    let count := if count >? 10 then 10 else count in
    ip ← host_address host (bs "ping: cannot resolve host" ++ [10]);
    puts (bs "Pinging ");; print_ipv4 ip;; puts (bs " with 32 bytes of data:" ++ [10]);;
    success ← ping_rounds ip (Z.to_nat count) 0;
    puts (bs "Ping statistics: sent=");; put_int count;;
    puts (bs " received=");; put_int success;;
    puts (bs " lost=");; put_int (count - success);;
    puts [10]
  end.

Definition put_reachability (ip : list Z) : cmd world unit :=
  res ← ping_once ip;
  puts (match res with
        | Some _ => bs "  reachability: ok" ++ [10]
        | None => bs "  reachability: timeout" ++ [10]
        end).

Definition cmd_curl (args : option (list Z)) : cmd world unit :=
  match argument args with
  | None => puts (bs "Usage: curl <url>" ++ [10])
  | Some a =>
    '(host, path) ← eval (extract_host_path a 128 128);
    if hd0 host =? 0 then puts (bs "curl: invalid URL/host" ++ [10])
    else
      ip ← host_address host (bs "curl: DNS resolution failed" ++ [10]);
      puts (bs "curl preflight" ++ [10]);;
      puts (bs "  host: ");; puts host;; puts [10];;
      puts (bs "  path: ");; puts path;; puts [10];;
      puts (bs "  ip:   ");; print_ipv4 ip;; puts [10];;
      put_reachability ip;;
      puts (bs "curl: HTTP transfer is not implemented in this kernel build." ++ [10])
  end.

Definition cmd_telnet (args : option (list Z)) : cmd world unit :=
  match argument args with
  | None => puts (bs "Usage: telnet <host> [port]" ++ [10])
  | Some a =>
    '(host, port_buf) ← eval (host_and a);
    let port := parse_port port_buf in
    if port <? 0 then puts (bs "telnet: invalid port" ++ [10])
    else
      ip ← host_address host (bs "telnet: DNS resolution failed" ++ [10]);
      puts (bs "telnet preflight" ++ [10]);;
      puts (bs "  remote: ");; print_ipv4 ip;; puts (bs ":");; put_int port;; puts [10];;
      put_reachability ip;;
      puts (bs "telnet: interactive TCP is not implemented in this kernel build." ++ [10])
  end.

Fixpoint traceroute_probes (ip : list Z) (n : nat) (got : Z) : cmd world Z :=
  match n with
  | O => mret got
  | S n =>
    res ← ping_once ip;
    match res with
    | Some (_, _, time_ms) => put_int (i32 time_ms);; puts (bs "ms ");; traceroute_probes ip n (got + 1)
    | None => puts (bs "* ");; traceroute_probes ip n got
    end
  end.

Definition cmd_traceroute (args : option (list Z)) : cmd world unit :=
  match argument args with
  | None => puts (bs "Usage: traceroute <ip|host>" ++ [10])
  | Some a =>
    '(host, _) ← eval (copy_word 128 a);
    ip ← host_address host (bs "traceroute: cannot resolve host" ++ [10]);
    puts (bs "traceroute to ");; puts host;; puts (bs " (");; print_ipv4 ip;; puts (bs ")" ++ [10]);;
    puts (bs " 1  ");; print_ipv4 ip;; puts (bs "  ");;
    got ← traceroute_probes ip 3 0;
    puts [10];;
    (if got =? 0 then puts (bs "Destination unreachable" ++ [10]) else mret tt);;
    puts (bs "Note: hop-by-hop TTL probing is not available in this network stack yet." ++ [10])
  end.

Definition append_text (cap : nat) (dst src : list Z) : outcome (list Z) :=
  '(dst, _) ← copy_until (fun _ => false) cap dst src; end_text cap dst.

Fixpoint append_texts (cap : nat) (dst : list Z) (l : list (list Z)) : outcome (list Z) :=
  match l with [] => Ok dst | s :: l => dst ← append_text cap dst s; append_texts cap dst l end.

(** The calls of [append_text] on [char report[256]]; [nbuf] has 16 characters. *)
Definition wget_report (target host path ip : list Z) (reachable : bool) : outcome (list Z) :=
  a ← read ip 0; a ← itoa_into 16 (i32 a);
  b ← read ip 1; b ← itoa_into 16 (i32 b);
  c ← read ip 2; c ← itoa_into 16 (i32 c);
  d ← read ip 3; d ← itoa_into 16 (i32 d);
  append_texts 256 [] [
    bs "WGET REPORT" ++ [10]; bs "target: "; target; [10] ++ bs "host: "; host; [10] ++ bs "path: "; path;
    [10] ++ bs "ip: "; a; bs "."; b; bs "."; c; bs "."; d;
    [10] ++ bs "reachable: "; if reachable then bs "yes" else bs "no";
    [10] ++ bs "http-transfer: not implemented" ++ [10] ].

Definition cmd_wget (args : option (list Z)) : cmd world unit :=
  match argument args with
  | None => puts (bs "Usage: wget <url|host> [outfile]" ++ [10])
  | Some a =>
    '(target, rest) ← eval (copy_word 160 a);
    outfile ← eval (match FsCmd.skip_spaces rest with
                    | [] => strncpy_text RAMDISK_NAME_LEN (RAMDISK_NAME_LEN - 1) (bs "wget.txt")
                    | r => '(name, _) ← copy_rest RAMDISK_NAME_LEN r; Ok name
                    end);
    '(host, path) ← eval (extract_host_path target 128 128);
    if hd0 host =? 0 then puts (bs "wget: invalid URL/host" ++ [10])
    else
      ip ← host_address host (bs "wget: DNS resolution failed" ++ [10]);
      ping ← ping_once ip;
      cwd ← look (fun w => fs_cwd_get (w_fs w));
      created ← try_ (on_fs (create_file cwd outfile));
      out_node ← if_fails (on_fs (resolve_file outfile))
        (quit_with (match created with
                    | None => bs "wget: cannot create output file" ++ [10]
                    | Some _ => bs "wget: output file resolution failed" ++ [10]
                    end));
      report ← eval (wget_report target host path ip (bool_decide (is_Some ping)));
      if_fails (on_fs (write out_node report (Z.of_nat (length report))))
        (quit_with (bs "wget: failed to write report" ++ [10]));;
      puts (bs "Saved report to ");; puts outfile;; puts (bs " (host ");; print_ipv4 ip;;
      puts (bs ")" ++ [10])
  end.
End io.
