(* ===== verification/Shell.v ===== *)
(** The shell: src/src/commands/commands.c, src/src/terminal/shell_stubs.c and
    the loop of [terminal_run], composing the terminal, the keyboard and the
    commands; src/src/commands/app_commands.c, which runs the full-screen
    programs.  [fuel] bounds every loop that waits for hardware or runs a program,
    [calls] the depth of the interpreter's calls. *)
From Stdlib Require Import ZArith Lia Ascii String.
From stdpp Require Import base tactics option numbers list.
From S2P Require Import Prelude CString Ports Console Command Ramdisk Vga Terminal Input Devices FsCmd.
From S2P Require Import JavaCmd World SysCmd NetCmd Play Catnake Pong Plinko Mamu Desktop.
#[local] Open Scope Z_scope.

(** A command prints text, or takes over the screen. *)
Inductive handler :=
| Text (h : option (list Z) -> cmd world unit)
| App (h : option (list Z) -> term * world -> outcome (term * world)).

(** [term_puts] of what a command printed; it holds no NUL. *)
Fixpoint term_print (s : list Z) (t : term) : outcome term :=
  match s with [] => Ok t | c :: s => t ← term_putc c 7 t; term_print s t end.

Section shell.
Context `{Hardware}.
Variables (calls fuel : nat).

Definition fs_command (h : option (list Z) -> cmd fs unit) : handler := Text (fun args => on_fs (h args)).

Definition java_command : handler :=
  Text (fun args w => console (cmd_java calls fuel (w_fs w) args) w).
Definition jarinfo_command : handler :=
  Text (fun args w => console (cmd_jarinfo fuel (w_fs w) args) w).

(** [/java]: the listing is [cmd_ls(NULL)]. *)
Definition java_dir_command : handler := Text (fun _ w =>
  '(o, st) ← cmd_java_dir (w_fs w) (fun st => '(o, _, _) ← cmd_ls None st; Ok o);
  Ok (o, set_fs st w, Some tt)).

Definition kill_command : handler := Text (fun args w =>
  cmd_kill (g_serial_ready (w_devices w)) fuel args w).

(** A full-screen program, on the screen and the input, with its variables in
    the world, and the reset of the screen when it has ended. *)
Definition run_app {S} (get : world -> S) (put : S -> world -> world) (m : M (play S) unit)
    (st : term * world) : outcome (term * world) :=
  let '(t, w) := st in
  '(_, (p, tr)) ← m (Play (screen t) (w_input w) (get w), w_io w);
  let t := set_screen t (p_screen p) (cursor_x t) (cursor_y t) in
  Ok (term_reset_screen t, put (p_own p) (set_input (p_input p) tr w)).

Definition catnake_command : handler := App (fun _ =>
  run_app (fun w => app_catnake (w_apps w))
    (fun s w => let a := w_apps w in set_apps (Apps s (app_plinko a) (app_mamu a) (app_desk a)) w) (catnake_run fuel)).

Definition plinko_command : handler := App (fun _ =>
  run_app (fun w => app_plinko (w_apps w))
    (fun s w => let a := w_apps w in set_apps (Apps (app_catnake a) s (app_mamu a) (app_desk a)) w) (plinko_run fuel)).

Definition mamu_command : handler := App (fun args =>
  run_app (fun w => Editing (app_mamu (w_apps w)) (w_fs w))
    (fun s w => let a := w_apps w in
      set_fs (the_fs s) (set_apps (Apps (app_catnake a) (app_plinko a) (the_mamu s) (app_desk a)) w))
    (mamu_run fuel (default [] args))).

Definition desktop_command : handler := App (fun _ =>
  run_app (fun w => Desktop (app_desk (w_apps w)) (w_devices w))
    (fun s w => let a := w_apps w in
      set_devices (the_display s) (w_io w) (set_apps (Apps (app_catnake a) (app_plinko a) (app_mamu a) (the_desk s)) w))
    (desktop_run fuel)).

(** [cmd_pong] resets the screen itself, as the last step of each exit. *)
Definition pong_command : handler := App (fun _ => run_app (fun _ => tt) (fun _ w => w) (cmd_pong fuel)).

Definition g_commands : list (list Z * handler) := [
  (bs "cd", fs_command cmd_cd); (bs "pwd", fs_command cmd_pwd); (bs "tree", fs_command cmd_tree);
  (bs "cp", fs_command cmd_cp); (bs "mv", fs_command cmd_mv); (bs "rmdir", fs_command cmd_rmdir);
  (bs "find", fs_command cmd_find); (bs "grep", fs_command cmd_grep); (bs "echo", fs_command cmd_echo);
  (bs "cat", fs_command cmd_cat); (bs "uname", Text cmd_uname); (bs "whoami", Text cmd_whoami);
  (bs "date", Text cmd_date); (bs "reboot", Text cmd_reboot); (bs "shutdown", Text cmd_shutdown);
  (bs "ifconfig", Text cmd_ifconfig); (bs "netstat", Text cmd_netstat);
  (bs "nslookup", Text (cmd_nslookup fuel)); (bs "traceroute", Text (cmd_traceroute fuel));
  (bs "curl", Text (cmd_curl fuel)); (bs "telnet", Text (cmd_telnet fuel));
  (bs "ps", Text cmd_ps); (bs "kill", kill_command); (bs "top", Text cmd_top);
  (bs "dmesg", Text cmd_dmesg); (bs "kstats", Text cmd_kstats);
  (bs "catnake", catnake_command); (bs "pong", pong_command);
  (bs "ls", fs_command cmd_ls); (bs "mkdir", fs_command cmd_mkdir); (bs "rm", fs_command cmd_rm);
  (bs "touch", fs_command cmd_touch); (bs "ping", Text (cmd_ping fuel)); (bs "wget", Text (cmd_wget fuel));
  (bs "mamu", mamu_command); (bs "desktop", desktop_command);
  (bs "kat", fs_command cmd_kat); (bs "uptime", Text cmd_uptime); (bs "sleep", Text (cmd_sleep fuel));
  (bs "calc", Text run_calc); (bs "beep", Text (cmd_beep fuel));
  (bs "java", java_command); (bs "jarinfo", jarinfo_command); (bs "plinko", plinko_command);
  (bs "/java", java_dir_command) ].

Definition run_handler (h : handler) (args : option (list Z)) (st : term * world) : outcome (term * world) :=
  match h with
  | Text h =>
    '(o, w, _) ← h args (snd st);
    t ← term_print o (fst st);
    Ok (t, w)
  | App h => h args st
  end.

Fixpoint find_command (cmd : list Z) (l : list (list Z * handler)) : option handler :=
  match l with
  | [] => None
  | (name, h) :: l => if strcmp cmd name =? 0 then Some h else find_command cmd l
  end.

(** [cmd_dispatch] over a command table. *)
Definition dispatch_in (table : list (list Z * handler)) (cmd : list Z) (args : option (list Z))
    (st : term * world) : outcome (bool * (term * world)) :=
  if hd0 cmd =? 0 then Ok (false, st)
  else
    match find_command cmd table with
    | Some h => st ← run_handler h args st; Ok (true, st)
    | None => Ok (false, st)
    end.

Definition cmd_dispatch := dispatch_in g_commands.

(** One turn of the loop of [terminal_run]; the [hlt] of an idle turn changes
    nothing but the time. *)
Definition terminal_turn (table : list (list Z * handler)) (st : term * world) : outcome (term * world) :=
  let '(t, w) := st in
  '(key, (i, tr)) ← keyboard_poll fuel (w_input w, w_io w);
  let w := set_input i tr w in
  if key =? 0 then Ok (t, w) else on_key (dispatch_in table) key (t, w).

Fixpoint terminal_loop (table : list (list Z * handler)) (n : nat) (st : term * world) : outcome (term * world) :=
  match n with O => Ok st | S n => st ← terminal_turn table st; terminal_loop table n st end.

(** [terminal_run], with [n] turns of its loop. *)
Definition terminal_run (table : list (list Z * handler)) (n : nat) (st : term * world) : outcome (term * world) :=
  t ← terminal_start (fst st); terminal_loop table n (t, snd st).
End shell.

(** * The stub table, which nothing calls *)

Definition g_stub_commands : list (list Z * list Z) := [
  (bs "cd", bs "change working directory"); (bs "pwd", bs "print working directory");
  (bs "tree", bs "print directory tree"); (bs "cp", bs "copy file"); (bs "mv", bs "move or rename file");
  (bs "rmdir", bs "remove empty directory"); (bs "find", bs "search files by name");
  (bs "grep", bs "search file content"); (bs "echo", bs "print text"); (bs "uname", bs "print kernel info");
  (bs "whoami", bs "print active user"); (bs "date", bs "print RTC date and time");
  (bs "reboot", bs "restart the system"); (bs "shutdown", bs "halt the system");
  (bs "ifconfig", bs "show network interfaces"); (bs "netstat", bs "show network sockets");
  (bs "nslookup", bs "resolve DNS names"); (bs "traceroute", bs "trace route hops");
  (bs "curl", bs "download URL"); (bs "telnet", bs "open TCP connection");
  (bs "ps", bs "list running tasks"); (bs "kill", bs "terminate task");
  (bs "top", bs "live task monitor"); (bs "pong", bs "launch Pong game") ].

Fixpoint find_stub (cmd : list Z) (l : list (list Z * list Z)) : option (list Z) :=
  match l with
  | [] => None
  | (name, note) :: l => if strcmp cmd name =? 0 then Some note else find_stub cmd l
  end.

Definition shell_try_stub_command (cmd : list Z) (args : option (list Z)) (t : term) : outcome (bool * term) :=
  if hd0 cmd =? 0 then Ok (false, t)
  else
    match find_stub cmd g_stub_commands with
    | None => Ok (false, t)
    | Some note =>
      t ← term_puts (bs "Command found: ") t;
      t ← term_puts cmd t;
      t ← term_puts [10] t;
      t ← term_puts (bs "This command is a stub and does nothing yet." ++ [10]) t;
      t ← term_puts (bs "Planned behavior: ") t;
      t ← term_puts note t;
      t ← term_puts [10] t;
      Ok (true, t)
    end.
