(* ===== verification/Kernel.v ===== *)
(** Boot and panic: src/src/kernel/main.c, src/src/kernel/panic.c and the entry points
    of fat32.c, tcp_stack.c and web_stack.c.

    The addresses the linker and the loader choose are the record [layout];
    [cli], the final [hlt] loops and the assembly that loads the descriptor
    tables are left out. *)
From Stdlib Require Import ZArith Lia Ascii String.
From stdpp Require Import base tactics option numbers list.
From S2P Require Import Prelude CString PhysMem Klog Printf Scheduler Ports Ramdisk RamdiskInit Network.
From S2P Require Import Vga Cpu Terminal Input Devices World.
#[local] Open Scope Z_scope.

Record layout := Layout { gdt_addr : Z; idt_addr : Z; irq0_addr : Z }.

(** The globals of all parts. *)
Record kernel := Kernel {
  k_screen : vga; k_gdt : gdt; k_idt : idt; k_devices : devices; k_sched : sched; k_fs : fs; k_input : input; k_net : net }.

Definition set_k_screen (v : vga) (k : kernel) : kernel :=
  Kernel v (k_gdt k) (k_idt k) (k_devices k) (k_sched k) (k_fs k) (k_input k) (k_net k).
Definition set_k_gdt (g : gdt) (k : kernel) : kernel :=
  Kernel (k_screen k) g (k_idt k) (k_devices k) (k_sched k) (k_fs k) (k_input k) (k_net k).
Definition set_k_idt (t : idt) (k : kernel) : kernel :=
  Kernel (k_screen k) (k_gdt k) t (k_devices k) (k_sched k) (k_fs k) (k_input k) (k_net k).
Definition set_k_devices (d : devices) (k : kernel) : kernel :=
  Kernel (k_screen k) (k_gdt k) (k_idt k) d (k_sched k) (k_fs k) (k_input k) (k_net k).
Definition set_k_sched (s : sched) (k : kernel) : kernel :=
  Kernel (k_screen k) (k_gdt k) (k_idt k) (k_devices k) s (k_fs k) (k_input k) (k_net k).
Definition set_k_fs (s : fs) (k : kernel) : kernel :=
  Kernel (k_screen k) (k_gdt k) (k_idt k) (k_devices k) (k_sched k) s (k_input k) (k_net k).
Definition set_k_input (i : input) (k : kernel) : kernel :=
  Kernel (k_screen k) (k_gdt k) (k_idt k) (k_devices k) (k_sched k) (k_fs k) i (k_net k).

(** The loaded image: the screen holds what the loader left. *)
Definition image (screen : vga) (future : list nat) : kernel :=
  Kernel screen gdt_boot idt_boot (devices_boot future) (boot (Pmm [] 0 0 0) (MkHeap false []) klog_init)
    ramdisk_clear input_boot net_boot.

Definition KERNEL_BOOT_MEM_BYTES : Z := 67108864.

(** * Panic *)

Definition panic_at (row col : Z) (s : list Z) (fg : Z) (v : vga) : outcome vga :=
  vga_write_at row col s (VGA_ATTR fg 4) v.

(** The log with its output for the serial port, and the screen, that
    [kernel_panic] leaves before it halts; [None] is NULL. *)
Definition kernel_panic (serial : bool) (msg file : option (list Z)) (line : Z) (l : klog) (v : vga)
    : outcome (klog * list Z * vga) :=
  let msg := default (bs "fatal kernel error") msg in
  let file := default (bs "unknown") file in
  let '(l, out) := klog_log serial l KLOG_CRIT (Some (bs "panic")) (Some msg) in
  let v := vga_clear (VGA_ATTR 15 4) v in
  v ← panic_at 1 2 (bs "KERNEL PANIC") 14 v;
  v ← panic_at 3 2 (bs "Reason:") 15 v;
  v ← panic_at 3 10 msg 15 v;
  v ← panic_at 5 2 (bs "Location:") 15 v;
  v ← panic_at 5 12 file 15 v;
  v ← panic_at 5 (12 + Z.of_nat (strlen file)) (bs ":") 15 v;
  number ← itoa_into 16 line;
  v ← panic_at 5 (13 + Z.of_nat (strlen file)) number 15 v;
  v ← panic_at 7 2 (bs "System halted. Restart required.") 15 v;
  Ok (l, out, v).

(** * Boot *)

Section boot.
Context `{Hardware} (where_ : layout) (fuel : nat).
Abbreviation kernelM := (M kernel).

Definition on_devices {A} (m : M devices A) : kernelM A := fun '(k, tr) =>
  '(a, (d, tr)) ← m (k_devices k, tr); Ok (a, (set_k_devices d k, tr)).
Definition on_input {A} (m : M input A) : kernelM A := fun '(k, tr) =>
  '(a, (i, tr)) ← m (k_input k, tr); Ok (a, (set_k_input i k, tr)).

(** A call of the log: the ring, and the bytes for the serial port. *)
Definition logging (f : bool -> klog -> outcome (klog * list Z)) : kernelM unit :=
  ready ← on_devices serial_is_ready;
  k ← Ports.get;
  '(l, out) ← lift (f ready (log (k_sched k)));
  modify (set_k_sched (set_log (k_sched k) l));;
  on_devices (serial_write out).

Definition klog_say (level : klog_level_t) (subsys msg : list Z) : kernelM unit :=
  logging (fun serial l => Ok (klog_log serial l level (Some subsys) (Some msg))).

Definition print (fmt : list Z) (ap : list va_value) : kernelM unit :=
  '(out, _) ← lift (kprintf (Some fmt) ap); on_devices (serial_write out).

(** [kernel_panic] never returns. *)
Definition BUG_ON (cond : bool) : kernelM unit := if cond then lift (Stuck Trap) else skip.

Definition fat32_init : kernelM unit := s ← lift ramdisk_init; modify (set_k_fs s).

Definition free_pages : kernelM Z := gets (fun k => pmm_free_blocks_count (pages (k_sched k))).

(** [pit_init] of pit.c. *)
Definition pit_init : kernelM unit :=
  on_devices pit_program;;
  t ← gets k_idt; t ← lift (idt_register_handler 32 (irq0_addr where_) t); modify (set_k_idt t);;
  on_devices pit_unmask.

Definition boot_cpu : kernelM unit :=
  g ← gets k_gdt; g ← lift (gdt_init (gdt_addr where_) g); modify (set_k_gdt g);;
  klog_say KLOG_INFO (bs "boot") (bs "gdt initialized");;
  t ← gets k_idt; t ← lift (idt_init (idt_addr where_) t); modify (set_k_idt t);;
  klog_say KLOG_INFO (bs "boot") (bs "idt initialized");;
  pit_init;;
  klog_say KLOG_INFO (bs "boot") (bs "pit timer initialized @100Hz").

Definition boot_memory : kernelM unit :=
  modify (fun k => set_k_sched (set_heap (set_pages (k_sched k) (pmm_init KERNEL_BOOT_MEM_BYTES)) heap_init) k);;
  n ← free_pages;
  logging (fun serial l => klog_log_u32 serial l KLOG_INFO (Some (bs "mm")) (Some (bs "pmm free pages")) (u32 n) 10);;
  print (bs "[mm] free pages=%u" ++ [10]) [VInt n];;
  BUG_ON (n =? 0);;
  k ← Ports.get; s ← lift (scheduler_init (k_sched k)); modify (set_k_sched s);;
  klog_say KLOG_INFO (bs "boot") (bs "scheduler initialized").

Definition boot_services : kernelM unit :=
  fat32_init;;
  klog_say KLOG_INFO (bs "boot") (bs "fat32 initialized");;
  klog_say KLOG_INFO (bs "boot") (bs "network stack initialized");;
  klog_say KLOG_INFO (bs "boot") (bs "web stack initialized").

Definition boot_screen : kernelM unit :=
  modify (fun k => set_k_screen (vga_init (k_screen k)) k);;
  on_devices gfx_init;;
  v ← on_devices (gets gfx_virtio_present);
  (if (v : bool) then klog_say KLOG_INFO (bs "gfx") (bs "virtio display detected (graphics API active)")
   else klog_say KLOG_WARN (bs "gfx") (bs "virtio display not detected, using VGA backend"));;
  on_input (keyboard_init fuel);;
  klog_say KLOG_INFO (bs "boot") (bs "terminal start").

(** [kernel_main] up to the call of [terminal_run]. *)
Definition kernel_main : kernelM unit :=
  on_devices serial_init;;
  on_devices (serial_write (bs "HeatOS: kernel entry" ++ [10]));;
  print (bs "[boot] serial console online" ++ [10]) [];;
  modify (fun k => set_k_sched (set_log (k_sched k) klog_init) k);;
  klog_say KLOG_INFO (bs "boot") (bs "kernel entry");;
  boot_cpu;;
  boot_memory;;
  boot_services;;
  boot_screen.
End boot.

(** What [terminal_run] starts from. *)
Definition world_of (k : kernel) (tr : list io_event) : world :=
  World (k_fs k) (k_sched k) (k_net k) (k_input k) (k_devices k) apps_boot tr.
