(* ===== verification/FsSafe.v ===== *)
(** The file commands stay inside the file system's tables.

    [fs_ok] is weaker than the tree invariant of RamdiskInv.v: deleting a child
    of the root can leave a cycle, after which walks may not end, but every
    link still stays in the tables and every file in the pool.  [E] is the
    faults a caller accepts; running out of fuel is one. *)
From Stdlib Require Import ZArith Lia Ascii String.
From stdpp Require Import base tactics option numbers list.
From S2P Require Import Prelude Buffer CString Console Command Ramdisk RamdiskInv RamdiskPath RamdiskInit FsCmd.
#[local] Open Scope Z_scope.

Definition link_ok (n : nat) : Prop := (n < RAMDISK_MAX_NODES)%nat.

Definition stored_ok (st : fs) : Prop := forall n sz off,
  fs_node_size st !! n = Some sz -> fs_node_data_off st !! n = Some off ->
  0 <= off /\ 0 <= sz /\ off + sz <= RAMDISK_DATA_CAP.

Record fs_ok (st : fs) : Prop := {
  fs_lengths : table_lengths st;
  fs_cwd_ok : link_ok (fs_cwd st);
  fs_parents : Forall link_ok (fs_node_parent st);
  fs_firsts : Forall link_ok (fs_node_first_child st);
  fs_nexts : Forall link_ok (fs_node_next_sibling st);
  fs_stored : stored_ok st;
  fs_free_ok : 0 <= fs_data_free st <= RAMDISK_DATA_CAP;
}.

Lemma zero_link : link_ok 0.
Proof. unfold link_ok, RAMDISK_MAX_NODES. lia. Qed.

Ltac inbounds := unfold link_ok in *; rewrite ?length_insert; lia.

Section safe.
Context (E : fault -> Prop) (HE : E NoFuel).

Lemma goes_get {A} (l : list A) i (P : A -> Prop) :
  (i < length l)%nat -> (forall v, l !! i = Some v -> P v) -> goes E (get l i) P.
Proof. intros Hi HP. destruct (lookup_lt_is_Some_2 l i Hi) as [v Hv]. rewrite (get_ok _ _ _ Hv). by apply HP. Qed.

Lemma goes_put {A} (l : list A) i v (P : list A -> Prop) :
  (i < length l)%nat -> P (<[i := v]> l) -> goes E (put l i v) P.
Proof. intros Hi HP. by rewrite put_ok. Qed.

Lemma goes_link (l : list nat) i : length l = RAMDISK_MAX_NODES -> link_ok i -> Forall link_ok l ->
  goes E (get l i) link_ok.
Proof. intros Hl Hi Hf. apply goes_get; [by rewrite Hl|]. intros v Hv. by apply (Forall_lookup_1 _ _ _ _ Hf Hv). Qed.

Lemma find_child_safe st parent token : fs_ok st -> link_ok parent -> goes E (fs_find_child st parent token) link_ok.
Proof.
  intros [[] ? ? ? ? ? ?] Hp. unfold fs_find_child, fs_find_child_fuel.
  eapply goes_bind; [by apply goes_link|]. intros n Hn. eapply (goes_cloop _ E link_ok); [done| |done].
  intros k Hk. unfold find_child_body. destruct (k =? 0)%nat; [by apply zero_link|].
  eapply goes_bind with (P := fun _ => True); [apply goes_get; [inbounds|done]|]. intros t _.
  eapply goes_bind with (P := fun _ => True); [apply goes_get; [inbounds|done]|]. intros nm _.
  destruct (_ && _); [done|]. eapply goes_bind; [by apply goes_link|]. by intros nx Hnx.
Qed.

Lemma resolve_safe st path : fs_ok st -> goes E (fs_resolve_checked st path) (holds_if link_ok).
Proof.
  intros Hst. pose proof Hst as [[] Hcwd ? ? ? ? ?]. unfold fs_resolve_checked.
  destruct path as [path|]; [|done]. destruct (hd0 path =? 0); [done|].
  set (start := if hd0 path =? ch "/" then _ else _).
  assert (Hs : link_ok start.1) by (unfold start; destruct (_ =? _); [apply zero_link|done]).
  destruct start as [cur p]. cbn in Hs.
  apply (goes_cloop _ E (fun s => link_ok s.1)); [done| |done].
  clear cur p Hs. intros [cur p] Hs. cbn in Hs. unfold resolve_body.
  destruct (fs_next_token p) as [[more token] p'] eqn:Et. destruct (next_token_spec _ _ _ _ Et) as (_ & _ & Htl & _).
  rewrite end_text_ok by (unfold RAMDISK_NAME_LEN; lia). cbn [mbind outcome_bind]. destruct (negb more); [done|].
  destruct (hd0 token =? 0); [done|].
  eapply goes_bind with (P := holds_if link_ok).
  - destruct (_ =? 0); [done|]. destruct (_ =? 0).
    + destruct (negb _); [|done]. pose proof (goes_link (fs_node_parent st) cur len_parent Hs ltac:(done)) as H.
      by destruct (get _ _).
    + eapply goes_bind; [by apply find_child_safe|]. intros c Hc. by destruct (c =? 0)%nat.
  - intros [next|] Hn; [|done]. cbn. by destruct (hd0 _ =? 0).
Qed.

Lemma fs_resolve_safe st path : fs_ok st -> goes E (fs_resolve st path) link_ok.
Proof.
  intros Hst. unfold fs_resolve. eapply goes_bind; [by apply resolve_safe|]. intros [n|] Hn; [done|apply zero_link].
Qed.

Lemma alloc_link st : link_ok (fs_alloc_node st).
Proof.
  unfold fs_alloc_node. destruct (List.find _ _) as [i|] eqn:Hf; [|apply zero_link].
  apply List.find_some in Hf as [Hi _]. apply List.in_seq in Hi. unfold link_ok, RAMDISK_MAX_NODES in *. lia.
Qed.

Lemma Forall_update {A} (P : A -> Prop) (l : list A) i x : Forall P l -> P x -> Forall P (<[i := x]> l).
Proof. intros. by apply Forall_insert. Qed.

Lemma stored_insert st types parents firsts nexts names n sz off : stored_ok st ->
  0 <= off /\ 0 <= sz /\ off + sz <= RAMDISK_DATA_CAP ->
  length (fs_node_size st) = RAMDISK_MAX_NODES -> length (fs_node_data_off st) = RAMDISK_MAX_NODES ->
  forall cwd free pool,
  stored_ok (Fs cwd free types parents firsts nexts (<[n := sz]> (fs_node_size st))
    (<[n := off]> (fs_node_data_off st)) names pool).
Proof.
  intros Hs Hx H1 H2 cwd free pool m sz' off' Hsz Hoff. cbn in *.
  destruct (decide (n = m)) as [->|Hne].
  - apply list_lookup_insert_Some in Hsz as [(_ & <- & _)|[? _]]; [|done].
    by apply list_lookup_insert_Some in Hoff as [(_ & <- & _)|[? _]].
  - rewrite list_lookup_insert_ne in Hsz, Hoff by done. by eapply Hs.
Qed.

Lemma add_node_safe st ty parent name : fs_ok st -> goes E (add_node st ty parent name) (fun r => fs_ok r.1).
Proof.
  intros Hst. pose proof Hst as [[] ? ? ? ? ? ?]. unfold add_node.
  destruct name as [name|]; [|done]. destruct (_ || _) eqn:Eg; [done|].
  apply orb_false_elim in Eg as [Hp%negb_false_iff _]. apply Nat.ltb_lt in Hp.
  rewrite copy_name_fits. cbn [mbind outcome_bind]. destruct (hd0 _ =? 0); [done|].
  eapply goes_bind; [by apply find_child_safe|]. intros c _. destruct (negb _); [done|].
  pose proof (alloc_link st) as Hn. set (n := fs_alloc_node st) in *. destruct (n =? 0)%nat; [done|].
  repeat (eapply goes_bind with (P := fun l => _ = l); [apply goes_put; [inbounds|reflexivity]|];
          intros ? <-).
  eapply goes_bind; [apply goes_link; [by rewrite length_insert| |apply Forall_update; [done|apply zero_link]]; done|].
  intros f Hf.
  repeat (eapply goes_bind with (P := fun l => _ = l);
          [apply goes_put; [inbounds|reflexivity]|]; intros ? <-).
  rewrite copy_name_fits. cbn [mbind outcome_bind].
  eapply goes_bind with (P := fun l => _ = l); [apply goes_put; [inbounds|reflexivity]|]. intros ? <-.
  apply goes_ok. cbn. split; cbn; auto using Forall_update, zero_link.
  - split; cbn; by rewrite ?length_insert.
  - apply stored_insert; done || (unfold RAMDISK_DATA_CAP; lia).
Qed.

Lemma delete_safe st node : fs_ok st -> goes E (fs_delete st node) (fun r => fs_ok r.1).
Proof.
  intros Hst. pose proof Hst as [[] ? ? ? ? ? ?]. unfold fs_delete, fs_delete_fuel.
  destruct (_ || _) eqn:Eg; [done|]. apply orb_false_elim in Eg as [_ Hn%Nat.leb_gt].
  eapply goes_bind with (P := fun _ => True); [apply goes_get; [inbounds|done]|]. intros t _.
  destruct (is_free t); [done|].
  eapply goes_bind; [by apply goes_link|]. intros first _. destruct (_ && _); [done|].
  eapply goes_bind; [by apply goes_link|]. intros parent Hpar.
  eapply goes_bind with (P := fun r => Forall link_ok r.1 /\ Forall link_ok r.2 /\
    length r.1 = RAMDISK_MAX_NODES /\ length r.2 = RAMDISK_MAX_NODES).
  - destruct (negb _); [|done].
    eapply goes_bind; [by apply goes_link|]. intros cur Hcur.
    eapply goes_bind; [by apply goes_link|]. intros nx Hnx. destruct (cur =? node)%nat.
    + eapply goes_bind with (P := fun l => _ = l); [apply goes_put; [inbounds|reflexivity]|].
      intros ? <-. cbn. rewrite length_insert. auto using Forall_update.
    + eapply goes_bind with (P := link_ok).
      * apply (goes_cloop _ E link_ok); [done| |done]. intros k Hk.
        destruct (k =? 0)%nat; [by apply zero_link|]. eapply goes_bind; [by apply goes_link|].
        intros m Hm. by destruct (m =? node)%nat.
      * intros prev Hprev. destruct (negb _); [|done].
        eapply goes_bind with (P := fun l => _ = l); [apply goes_put; [inbounds|reflexivity]|].
        intros ? <-. cbn. rewrite length_insert. auto using Forall_update.
  - intros [firsts nexts] (? & ? & ? & ?). cbn in *.
    eapply goes_bind with (P := fun l => _ = l); [apply goes_put; [inbounds|reflexivity]|].
    intros ? <-. cbn. split; cbn; try done. split; cbn; by rewrite ?length_insert.
Qed.

(** The bytes read are as many as the return value says, [size] at most. *)
Lemma read_safe_fs st node size : fs_ok st -> 0 <= size ->
  goes E (fs_read st node size) (fun r => r.2 <= size /\ Z.of_nat (length r.1) = Z.max 0 r.2).
Proof.
  intros [[] ? ? ? ? Hst ?] Hs. unfold fs_read. destruct (_ || _) eqn:Eg; [cbn; lia|].
  apply orb_false_elim in Eg as [Hn%Nat.leb_gt _].
  eapply goes_bind with (P := fun v => fs_node_size st !! node = Some v); [apply goes_get; [inbounds|done]|].
  intros sz Hsz.
  eapply goes_bind with (P := fun v => fs_node_data_off st !! node = Some v); [apply goes_get; [inbounds|done]|].
  intros off Hoff. destruct (Hst _ _ _ Hsz Hoff) as (? & ? & ?).
  rewrite len_pool. set (actual := if size <? sz then size else sz).
  assert (0 <= actual <= sz /\ actual <= size) by (unfold actual; zcases; lia).
  destruct (Z.ltb_spec 0 actual); [|cbn; lia].
  rewrite (proj2 (Z.leb_le _ _)) by lia. cbn. rewrite length_take, length_drop. lia.
Qed.

Lemma write_safe st node buf size : fs_ok st -> size <= Z.of_nat (length (default [] buf)) -> size < 1073741824 ->
  goes E (fs_write st node buf size) (fun r => fs_ok r.1).
Proof.
  intros Hst Hsize Hbig. pose proof Hst as [[] ? ? ? ? Hs Hfree]. unfold fs_write.
  destruct (_ || _) eqn:Eg; [done|]. apply orb_false_elim in Eg as [[Hn%Nat.leb_gt _]%orb_false_elim Hneg%Z.ltb_ge].
  destruct (_ && _); [done|]. rewrite i32_small by (unfold is_i32, RAMDISK_DATA_CAP in *; lia).
  destruct (Z.ltb_spec RAMDISK_DATA_CAP (fs_data_free st + size)); [done|].
  rewrite (u16_small size) by (unfold is_u16, RAMDISK_DATA_CAP in *; lia).
  do 2 (eapply goes_bind with (P := fun l => _ = l); [apply goes_put; [inbounds|reflexivity]|]; intros ? <-).
  eapply goes_bind with (P := fun r => Z.of_nat (length r.1) = RAMDISK_DATA_CAP /\ 0 <= r.2 <= RAMDISK_DATA_CAP).
  - destruct (Z.ltb_spec 0 size); [|done]. rewrite (proj2 (Z.leb_le _ _)) by done.
    unfold pool_write. rewrite length_take, len_pool, (proj2 (Z.leb_le _ _)) by lia. cbn.
    rewrite !length_app, !length_take, length_drop. split; [lia|].
    rewrite u16_small by (unfold is_u16, RAMDISK_DATA_CAP in *; lia). lia.
  - intros [pool free] [Hpool Hfr]. apply goes_ok. cbn. split; cbn; try done.
    + split; cbn; by rewrite ?length_insert.
    + apply stored_insert; done || lia.
Qed.

Lemma build_path_safe st node size : fs_ok st -> goes E (fs_build_path st node size) (fun _ => True).
Proof.
  intros [[] ? Hpar ? ? ? ?]. unfold fs_build_path. destruct (size =? 0)%nat; [done|].
  destruct (RAMDISK_MAX_NODES <=? node)%nat eqn:En; [done|]. apply Nat.leb_gt in En.
  assert (Ha : forall room cur, link_ok cur -> goes E (ancestors st room cur) (fun l => Forall link_ok l /\ (length l <= room)%nat)).
  { induction room as [|k IH]; intros cur Hc; cbn [ancestors]; [by split; [constructor|]|].
    destruct (cur =? 0)%nat; [split; [by repeat constructor; apply zero_link|cbn; lia]|].
    eapply goes_bind; [by apply goes_link|]. intros p Hp.
    eapply goes_bind; [by apply IH|]. intros l [Hl Hk]. split; [by constructor|cbn; lia]. }
  assert (Hc : forall buf s, exists r, push_chars size buf s = Ok r).
  { intros buf s. destruct (push_chars_spec size s buf) as [->|[_ ->]]; by eexists. }
  assert (Hp : forall l, Forall link_ok l -> forall buf, goes E (push_nodes st size buf l) (fun _ => True)).
  { induction 1 as [|n l Hn _ IH]; intros buf; cbn [push_nodes]; [done|].
    destruct (n =? 0)%nat; [apply IH|].
    eapply goes_bind with (P := fun _ => True); [apply goes_get; [inbounds|done]|]. intros nm _.
    destruct (Hc buf (take RAMDISK_NAME_LEN (buf_text nm))) as [[b|b] ->]; [|done]. cbn [mbind outcome_bind].
    destruct l; [apply IH|]. destruct (Hc b [ch "/"]) as [[b'|b'] ->]; [apply IH|done]. }
  eapply goes_bind; [by apply Ha|]. intros l [Hl Hk]. rewrite fill_array_ok by done. cbn [mbind outcome_bind].
  eapply goes_bind; [by apply Hp, Forall_rev|]. done.
Qed.

(** * The commands *)

Lemma keeps_resolve_path path : ckeeps E fs_ok (resolve path) link_ok.
Proof. apply ckeeps_ask. intros. by apply resolve_safe. Qed.
Lemma keeps_is_dir n : ckeeps E fs_ok (is_dir n) (fun _ => True).
Proof. by apply ckeeps_look. Qed.
Lemma keeps_is_file n : ckeeps E fs_ok (is_file n) (fun _ => True).
Proof. by apply ckeeps_look. Qed.
Lemma keeps_name n : ckeeps E fs_ok (look (fun st => fs_get_name st n)) (fun _ => True).
Proof. by apply ckeeps_look. Qed.
Lemma keeps_cwd : ckeeps E fs_ok (look fs_cwd_get) link_ok.
Proof. apply ckeeps_look. by intros st []. Qed.
Lemma keeps_set_cwd n : ckeeps E fs_ok (update (fun st => fs_cwd_set st n)) (fun _ => True).
Proof.
  apply ckeeps_update. intros st Hst. unfold fs_cwd_set. destruct (_ && _) eqn:En; [|done].
  apply andb_prop in En as [Hn%Nat.ltb_lt _]. destruct Hst as [[] ? ? ? ? ? ?]. by split.
Qed.
Lemma keeps_create parent name : ckeeps E fs_ok (create_file parent name) (fun _ => True).
Proof. apply ckeeps_call. intros. by apply add_node_safe. Qed.
Lemma keeps_mkdir parent name :
  ckeeps E fs_ok (call (fun st => fs_mkdir_child st (parent st) name)) (fun _ => True).
Proof. apply ckeeps_call. intros. by apply add_node_safe. Qed.
Lemma keeps_touch parent name :
  ckeeps E fs_ok (call (fun st => fs_create_file st (parent st) name)) (fun _ => True).
Proof. apply ckeeps_call. intros. by apply add_node_safe. Qed.
Lemma keeps_delete n : ckeeps E fs_ok (delete n) (fun _ => True).
Proof. apply ckeeps_call. intros. by apply delete_safe. Qed.
Lemma keeps_write n buf size : size <= Z.of_nat (length buf) -> size < 1073741824 ->
  ckeeps E fs_ok (write n buf size) (fun _ => True).
Proof. intros. apply ckeeps_call. intros. by apply write_safe. Qed.
Lemma keeps_read n size : 0 <= size -> ckeeps E fs_ok (query (fun st => fs_read st n size))
  (fun r => r.2 <= size /\ (0 <= r.2 -> Z.of_nat (length r.1) = r.2)).
Proof.
  intros. apply ckeeps_query. intros. eapply goes_mono; [by apply read_safe_fs|]. intros r []. lia.
Qed.
Lemma keeps_path n size : ckeeps E fs_ok (query (fun st => fs_build_path st n size)) (fun _ => True).
Proof. apply ckeeps_query. intros. by apply build_path_safe. Qed.
Lemma keeps_cwd_path size : ckeeps E fs_ok (query (fun st => fs_build_path st (fs_cwd_get st) size)) (fun _ => True).
Proof. apply ckeeps_query. intros. by apply build_path_safe. Qed.
Lemma keeps_fs_resolve p : ckeeps E fs_ok (query (fun st => fs_resolve st p)) link_ok.
Proof.
  apply ckeeps_query. intros. by apply fs_resolve_safe.
Qed.

Lemma keeps_list_begin dir : link_ok dir -> ckeeps E fs_ok (list_begin dir) link_ok.
Proof.
  intros Hd. apply ckeeps_ask. intros st [[] ? ? ? ? ? ?]. unfold fs_list_begin.
  destruct (negb _); [done|].
  pose proof (goes_link (fs_node_first_child st) dir len_first Hd ltac:(done)) as H.
  destruct (get _ _) as [n|e]; [|done]. cbn in *. by destruct (n =? 0)%nat.
Qed.

Lemma keeps_list_next it : link_ok it -> ckeeps E fs_ok (query (fun st => fs_list_next st it))
  (fun r => link_ok r.1 /\ holds_if link_ok r.2).
Proof.
  intros Hi. apply ckeeps_query. intros st [[] ? ? ? ? ? ?]. unfold fs_list_next.
  destruct (it =? 0)%nat; [done|].
  pose proof (goes_link (fs_node_next_sibling st) it len_next Hi ltac:(done)) as H. by destruct (get _ _).
Qed.

Lemma keeps_each_child n f : (forall c, link_ok c -> ckeeps E fs_ok (f c) (fun _ => True)) ->
  forall it, link_ok it -> ckeeps E fs_ok (each_child n it f) (fun _ => True).
Proof.
  intros Hf. induction n as [|n IH]; intros it Hi; [by intros st Hst|]. cbn [each_child].
  eapply ckeeps_bind; [by apply keeps_list_next|]. intros [it' [c|]] [Hit Hc]; [|by apply ckeeps_ret].
  eapply ckeeps_bind; [by apply Hf|]. intros _ _. by apply IH.
Qed.
End safe.

#[export] Hint Resolve keeps_resolve_path keeps_is_dir keeps_is_file keeps_name keeps_cwd keeps_set_cwd keeps_create
  keeps_mkdir keeps_touch keeps_delete keeps_path keeps_cwd_path keeps_fs_resolve keeps_list_begin
  keeps_list_next : keeps.

Section commands.
Context (E : fault -> Prop) (HE : E NoFuel).
Abbreviation safe m := (ckeeps E fs_ok m (fun _ => True)).

Lemma keeps_quiet {A} (m : cmd fs A) : (forall st, m st = Stuck NoFuel) -> forall P, ckeeps E fs_ok m P.
Proof. intros Hm P st _. by rewrite Hm. Qed.

Lemma cmd_ls_safe args : safe (cmd_ls args).
Proof. unfold cmd_ls. keeps. apply keeps_each_child; [done| |done]. intros c Hc. unfold ls_entry. keeps. Qed.
Lemma cmd_cd_safe args : safe (cmd_cd args).
Proof. unfold cmd_cd. keeps. Qed.
Lemma cmd_pwd_safe args : safe (cmd_pwd args).
Proof. unfold cmd_pwd. keeps. Qed.
Lemma cmd_mkdir_safe args : safe (cmd_mkdir args).
Proof. unfold cmd_mkdir. keeps. Qed.
Lemma cmd_touch_safe args : safe (cmd_touch args).
Proof. unfold cmd_touch. keeps. Qed.
Lemma cmd_rm_safe args : safe (cmd_rm args).
Proof. unfold cmd_rm. keeps. Qed.
Lemma cmd_rmdir_safe args : safe (cmd_rmdir args).
Proof. unfold cmd_rmdir, has_child. keeps. Qed.

Lemma indent_safe depth : safe (indent depth).
Proof. induction depth; cbn [indent]; keeps. Qed.
Hint Resolve indent_safe : keeps.

Lemma tree_safe levels : forall node depth, link_ok node -> safe (tree_recursive levels node depth).
Proof.
  induction levels as [|levels IH]; intros node depth Hn; [by intros st _|]. cbn [tree_recursive]. keeps.
  apply keeps_each_child; [done| |done]. intros c Hc. keeps.
Qed.
Lemma cmd_tree_safe args : safe (cmd_tree args).
Proof. unfold cmd_tree. keeps. by apply tree_safe. Qed.

Lemma find_safe levels pattern : forall node, link_ok node -> safe (find_recursive levels node pattern).
Proof.
  induction levels as [|levels IH]; intros node Hn; [by intros st _|]. cbn [find_recursive]. keeps.
  apply keeps_each_child; [done| |done]. intros c Hc. keeps.
Qed.
Lemma cmd_find_safe args : safe (cmd_find args).
Proof. unfold cmd_find. keeps. by apply find_safe. Qed.

Lemma keeps_resolve_file path : ckeeps E fs_ok (resolve_file path) link_ok.
Proof. unfold resolve_file. keeps. Qed.
Lemma keeps_resolve_dir path : ckeeps E fs_ok (resolve_dir path) link_ok.
Proof. unfold resolve_dir. keeps. Qed.
Hint Resolve keeps_resolve_file keeps_resolve_dir : keeps.

(** ** The arrays of the commands *)

Lemma split_parent_ok path psz nsz : (0 < psz)%nat -> (0 < nsz)%nat ->
  succeeds (split_parent_and_name path psz nsz) (fun _ => True).
Proof.
  intros Hp Hn. unfold split_parent_and_name, copy_rest.
  eapply succeeds_bind; [apply copy_text_ok; lia|]. intros [tmp rest] _. set (t := trim_right_spaces tmp).
  assert (Hname : forall p s, succeeds (nm ← strncpy_text nsz (nsz - 1) s;
    Ok (if (length nm =? 0)%nat then None else Some (p : list Z, nm))) (fun _ => True)).
  { intros p s. rewrite strncpy_text_ok by lia. by apply succeeds_ret. }
  assert (Hone : forall c s, (2 <= psz)%nat -> succeeds (p ← put_char psz [] c; p ← end_text psz p; nm ← strncpy_text nsz (nsz - 1) s;
    Ok (if (length nm =? 0)%nat then None else Some (p : list Z, nm))) (fun _ => True)).
  { intros c s H. rewrite put_char_ok by (cbn; lia). cbn [mbind outcome_bind app]. rewrite end_text_ok by (cbn; lia). apply Hname. }
  destruct (_ =? 0)%nat; [by apply succeeds_ret|]. destruct (Nat.eqb_spec (split_at 0 0 t) 0) as [H0|H0].
  - destruct (Nat.ltb_spec psz 2); [by apply succeeds_ret|by apply Hone].
  - destruct (_ =? length t)%nat; [by apply succeeds_ret|]. destruct (Nat.eqb_spec (split_at 0 0 t) 1) as [H1|H1].
    + destruct (Nat.ltb_spec psz 2); [by apply succeeds_ret|by apply Hone].
    + destruct (Nat.ltb_spec psz (split_at 0 0 t - 1 + 1)); [by apply succeeds_ret|].
      rewrite end_text_ok by (rewrite length_take; lia). apply Hname.
Qed.

Lemma split_two_ok args asz bsz : (0 < asz)%nat -> (0 < bsz)%nat -> succeeds (split_two_args args asz bsz) (fun _ => True).
Proof.
  intros Ha Hb. unfold split_two_args. destruct args as [args|]; [|by apply succeeds_ret]. destruct (_ =? 0); [by apply succeeds_ret|].
  eapply succeeds_bind; [by apply copy_text_ok|]. intros [a rest] _. eapply succeeds_bind; [by apply copy_text_ok|]. intros [b r] _. by apply succeeds_ret.
Qed.

Lemma split_pattern_ok args asz bsz : (0 < asz)%nat -> (0 < bsz)%nat -> succeeds (split_pattern_file args asz bsz) (fun _ => True).
Proof.
  intros Ha Hb. unfold split_pattern_file. destruct (nonempty args) as [a|]; [|by apply succeeds_ret].
  eapply succeeds_bind; [by apply copy_text_ok|]. intros [p rest] _. eapply succeeds_bind; [by apply copy_text_ok|]. intros [f r] _. by apply succeeds_ret.
Qed.

Lemma keeps_array {A} (m : outcome A) (P : A -> Prop) : succeeds m P -> ckeeps E fs_ok (eval m) P.
Proof. intros H. by apply ckeeps_eval, succeeds_goes. Qed.

Lemma keeps_split_parent path : ckeeps E fs_ok (eval (split_parent_and_name path 256 RAMDISK_NAME_LEN)) (fun _ => True).
Proof. apply keeps_array, split_parent_ok; unfold RAMDISK_NAME_LEN; lia. Qed.
Lemma keeps_split_two args : ckeeps E fs_ok (eval (split_two_args args 256 256)) (fun _ => True).
Proof. apply keeps_array, split_two_ok; lia. Qed.
Lemma keeps_split_pattern args : ckeeps E fs_ok (eval (split_pattern_file args 64 256)) (fun _ => True).
Proof. apply keeps_array, split_pattern_ok; lia. Qed.
Lemma keeps_itoa_text n : ckeeps E fs_ok (eval (itoa_into 16 (i32 n))) (fun _ => True).
Proof. apply keeps_array. rewrite itoa_into_ok by (apply i32_range || lia). by apply succeeds_ret. Qed.
Lemma keeps_put_itoa n : ckeeps E fs_ok (put_itoa 16 (i32 n)) (fun _ => True).
Proof. unfold put_itoa. eapply ckeeps_bind; [apply keeps_itoa_text|]. intros. apply ckeeps_puts. Qed.
Hint Resolve keeps_split_parent keeps_split_two keeps_split_pattern keeps_itoa_text keeps_put_itoa : keeps.

Lemma keeps_read_into room n size : 0 <= size <= room -> ckeeps E fs_ok (read_into room n size)
  (fun r => r.2 <= size /\ (0 <= r.2 -> Z.of_nat (length r.1) = r.2)).
Proof.
  intros Hs. unfold read_into. eapply ckeeps_bind with (P := fun r => r.2 <= size /\ Z.of_nat (length r.1) = Z.max 0 r.2).
  - apply ckeeps_query. intros st Hst. apply read_safe_fs; [done|lia].
  - intros [buf k] [Hk Hl]. cbn [fst snd] in *. rewrite (proj2 (Z.leb_le _ _)) by lia. apply ckeeps_eval. cbn. lia.
Qed.
Lemma keeps_nul_at room n : 0 <= n < room -> ckeeps E fs_ok (nul_at room n) (fun _ => True).
Proof. intros H. unfold nul_at. apply ckeeps_eval. by rewrite (proj2 (andb_true_iff _ _)) by lia. Qed.

Lemma copy_safe src dst : ckeeps E fs_ok (cmd_copy_file_path src dst) (fun n => n <= RAMDISK_DATA_CAP).
Proof.
  unfold cmd_copy_file_path.
  eapply ckeeps_bind; [keeps|]. intros src_node Hsrc.
  eapply ckeeps_bind; [keeps|]. intros r Hr.
  eapply ckeeps_bind with (P := fun _ => True); [keeps|]. intros dst_node _.
  eapply ckeeps_bind; [by apply keeps_read_into|]. intros [buf n] [Hn Hlen]. cbn in Hn, Hlen.
  destruct (Z.ltb_spec n 0) as [Hneg|Hneg].
  - eapply ckeeps_bind with (P := fun _ => False); [by keeps|done].
  - eapply ckeeps_bind with (P := fun _ => True); [keeps|]. intros _ _.
    eapply ckeeps_bind with (P := fun _ => True); [|intros; by apply ckeeps_ret].
    apply ckeeps_if_fails; [|keeps]. apply keeps_write; [lia|unfold RAMDISK_DATA_CAP in Hn; lia].
Qed.
Lemma cmd_cp_safe args : safe (cmd_cp args).
Proof. unfold cmd_cp. keeps. apply copy_safe. Qed.
Lemma cmd_mv_safe args : safe (cmd_mv args).
Proof. unfold cmd_mv. keeps. apply copy_safe. Qed.

Lemma keeps_resolve_or_create path : ckeeps E fs_ok (resolve_or_create_file path) (fun _ => True).
Proof. unfold resolve_or_create_file. keeps. Qed.
Hint Resolve keeps_resolve_or_create : keeps.

Lemma split_redir_length s : (length (split_redir s).1 <= length s)%nat.
Proof.
  induction s as [|c s IH]; cbn; [done|]. destruct (c =? ch ">"); cbn; [lia|].
  revert IH. destruct (split_redir s). cbn. lia.
Qed.

Lemma drop_spaces_length r : (length (drop_spaces_rev r) <= length r)%nat.
Proof. induction r as [|c r IH]; cbn; [done|]. destruct (c =? ch " "); cbn; lia. Qed.

Lemma cmd_echo_safe args : safe (cmd_echo args).
Proof.
  unfold cmd_echo. destruct (nonempty args) as [a|]; [|keeps]. rewrite strncpy_text_ok by lia.
  eapply ckeeps_bind with (P := eq (take 255 (buf_text a))); [by apply ckeeps_eval|]. intros ? <-.
  pose proof (split_redir_length (take 255 (buf_text a))) as Hl. rewrite length_take in Hl.
  destruct (split_redir _) as [work [redir|]]; [|keeps]. cbn zeta. cbn [fst] in Hl. keeps.
  apply keeps_write; [done|]. unfold trim_right_spaces. rewrite length_rev.
  pose proof (drop_spaces_length (rev work)) as Hd. rewrite length_rev in Hd. lia.
Qed.

Lemma grep_lines_safe pattern content : forall line num matches,
  safe (grep_lines pattern content line num matches).
Proof.
  assert (Hline : forall line num matches, safe (grep_line pattern line num matches)) by (intros; unfold grep_line; keeps).
  induction content as [|c content IH]; intros line num matches; cbn [grep_lines]; [done|]. keeps; done.
Qed.
Lemma cmd_grep_safe args : safe (cmd_grep args).
Proof.
  unfold cmd_grep. eapply ckeeps_bind; [keeps|]. intros [[pattern file]|] _; [|keeps].
  eapply ckeeps_bind; [keeps|]. intros n Hn. eapply ckeeps_bind; [by apply keeps_read_into|]. intros [buf k] [Hk _]. cbn [fst snd] in Hk.
  rewrite Z.gtb_ltb. destruct (Z.ltb_spec 0 k); [|keeps].
  eapply ckeeps_bind; [apply keeps_nul_at; lia|]. intros _ _. keeps. apply grep_lines_safe.
Qed.

Lemma kat_safe args : safe (kat_run args).
Proof.
  unfold kat_run. destruct (nonempty args) as [f|]; [|keeps]. cbv zeta. eapply ckeeps_bind; [keeps|]. intros n Hn.
  destruct (n =? 0)%nat; [keeps|]. eapply ckeeps_bind; [keeps|]. intros b _. destruct (negb b); [keeps|].
  eapply ckeeps_bind; [apply keeps_read_into; unfold KAT_BUFFER_SIZE; lia|]. intros [buf k] [Hk _]. cbn [fst snd] in Hk.
  destruct (Z.ltb_spec k 0); [keeps|]. eapply ckeeps_bind; [apply keeps_nul_at; unfold KAT_BUFFER_SIZE in *; lia|]. keeps.
Qed.
End commands.

(** * The file system at boot *)

Definition links_ok (l : list nat) : bool := forallb (fun n => (n <? RAMDISK_MAX_NODES)%nat) l.

Definition fs_check (st : fs) : bool :=
  forallb (fun n => (n =? RAMDISK_MAX_NODES)%nat) [length (fs_node_type st); length (fs_node_parent st);
    length (fs_node_first_child st); length (fs_node_next_sibling st); length (fs_node_size st);
    length (fs_node_data_off st); length (fs_node_name st)] &&
  (Z.of_nat (length (fs_data_pool st)) =? RAMDISK_DATA_CAP) &&
  (fs_cwd st <? RAMDISK_MAX_NODES)%nat && links_ok (fs_node_parent st) && links_ok (fs_node_first_child st) &&
  links_ok (fs_node_next_sibling st) &&
  forallb (fun p => (0 <=? p.2) && (0 <=? p.1) && (p.2 + p.1 <=? RAMDISK_DATA_CAP))
    (zip (fs_node_size st) (fs_node_data_off st)) &&
  (0 <=? fs_data_free st) && (fs_data_free st <=? RAMDISK_DATA_CAP).

Lemma links_ok_Forall l : links_ok l = true -> Forall link_ok l.
Proof.
  unfold links_ok. rewrite forallb_forall. intros Hl. apply Forall_forall. intros n Hn.
  apply Nat.ltb_lt, Hl, list_elem_of_In, Hn.
Qed.

Lemma fs_check_ok st : fs_check st = true -> fs_ok st.
Proof.
  unfold fs_check. rewrite !andb_true_iff.
  intros ((((((((Hlen & Hpool) & Hcwd) & Hpar) & Hfirst) & Hnext) & Hst) & Hf1) & Hf2).
  cbn [forallb] in Hlen. rewrite !andb_true_iff, !Nat.eqb_eq in Hlen. destruct Hlen as (? & ? & ? & ? & ? & ? & ? & _).
  split; try by apply links_ok_Forall.
  - split; try done. by apply Z.eqb_eq.
  - by apply Nat.ltb_lt.
  - intros n sz off Hsz Hoff. rewrite forallb_forall in Hst.
    assert (Hin : (sz, off) ∈ zip (fs_node_size st) (fs_node_data_off st)).
    { apply list_elem_of_lookup. exists n. by rewrite lookup_zip_with, Hsz, Hoff. }
    apply list_elem_of_In, Hst in Hin. cbn in Hin. lia.
  - lia.
Qed.

Lemma ramdisk_init_safe E : goes E ramdisk_init fs_ok.
Proof.
  assert (H : (match ramdisk_init with Ok st => fs_check st | Stuck _ => false end) = true) by (vm_compute; reflexivity).
  destruct ramdisk_init as [st|]; [by apply fs_check_ok|done].
Qed.
