(* ===== verification/DeviceSafe.v ===== *)
(** The timer and the system commands over it: when the time up is below
    [max_ticks], nothing overflows. *)
From Stdlib Require Import ZArith Lia Ascii String.
From stdpp Require Import base tactics option numbers list.
From S2P Require Import Prelude CString Ports Devices.
#[local] Open Scope Z_scope.

(** 9,999,990 milliseconds, in ticks of 10. *)
Definition max_ticks : Z := 999999.

(** The ticks counted and to come. *)
Definition ticks_total (d : devices) : Z := g_ticks d + Z.of_nat (sum_list (interrupts d)).

Definition devices_ok (d : devices) : Prop := 0 <= g_ticks d /\ ticks_total d <= max_ticks.

(** The rules of [mkeeps] for this invariant. *)
Abbreviation dkeeps := (mkeeps devices_ok).
Abbreviation dkeeps_ret := (mkeeps_ret devices_ok).
Abbreviation dkeeps_bind := (mkeeps_bind devices_ok).
Abbreviation dkeeps_mono := (mkeeps_mono devices_ok).
Abbreviation dkeeps_in := (mkeeps_in devices_ok).
Abbreviation dkeeps_out := (mkeeps_out devices_ok).
Abbreviation dkeeps_gets := (mkeeps_gets devices_ok).
Abbreviation dkeeps_modify := (mkeeps_modify devices_ok).
Abbreviation dkeeps_mloop := (mkeeps_mloop devices_ok).
Abbreviation dkeeps_mrepeat := (mkeeps_mrepeat devices_ok).

Section dkeeps.
Context `{Hardware}.

(** Interrupts to come become ticks. *)
Lemma run_irqs_ok n : forall st, 0 <= g_ticks (fst st) -> g_ticks (fst st) + Z.of_nat n <= max_ticks ->
  wp (run_irqs n) (fun _ st' => g_ticks (fst st') = g_ticks (fst st) + Z.of_nat n /\
    interrupts (fst st') = interrupts (fst st)) st.
Proof.
  induction n as [|n IH]; intros [d tr] H0 Hn; [by split; cbn; [lia|]|]. cbn [run_irqs].
  apply wp_bind. unfold pit_irq0. apply wp_bind. cbn [fst] in *.
  change (wp (outb 32 32) (fun _ st' => wp (run_irqs n) (fun _ st2 => g_ticks (fst st2) = g_ticks d + Z.of_nat (S n) /\
    interrupts (fst st2) = interrupts d) st') (set_ticks (u32 (g_ticks d + 1)) d, tr)).
  apply wp_out. intros tr'. cbn [fst]. unfold max_ticks in *. rewrite u32_small by (unfold is_u32; lia).
  eapply wp_mono; [apply IH; cbn; lia|]. cbn. intros _ st' [-> ->]. split; [lia|done].
Qed.

Lemma dkeeps_ticks : dkeeps pit_ticks (fun t => 0 <= t <= max_ticks).
Proof.
  intros [d tr] [H0 Ht]. unfold ticks_total in Ht. cbn [fst] in *. unfold pit_ticks. apply wp_bind.
  change (wp (match interrupts d with
              | [] => gets g_ticks
              | n :: l => modify (set_interrupts l);; run_irqs n;; gets g_ticks
              end) (fun t st' => devices_ok (fst st') /\ 0 <= t <= max_ticks) (d, tr)).
  destruct (interrupts d) as [|n l] eqn:E; cbn in Ht.
  - split; [|cbn; lia]. unfold devices_ok, ticks_total. cbn. rewrite E. cbn. lia.
  - apply wp_bind. change (wp (run_irqs n;; gets g_ticks) (fun t st' => devices_ok (fst st') /\ 0 <= t <= max_ticks)
      (set_interrupts l d, tr)).
    apply wp_bind. eapply wp_mono; [apply run_irqs_ok; cbn; lia|]. cbn. intros _ [d' tr'] [E1 E2].
    cbn in *. unfold devices_ok, ticks_total. cbn. rewrite E1, E2. split; [|lia]. lia.
Qed.

Lemma dkeeps_ms : dkeeps pit_ms_since_boot (fun t => 0 <= t < 10 ^ 7).
Proof.
  unfold pit_ms_since_boot. eapply dkeeps_bind; [apply dkeeps_ticks|]. intros t Ht. apply dkeeps_ret.
  unfold max_ticks in Ht. change MS_PER_TICK with 10. rewrite u32_small by (unfold is_u32; lia). lia.
Qed.

Lemma dkeeps_seconds : dkeeps uptime_seconds (fun t => 0 <= t < 10 ^ 4).
Proof.
  unfold uptime_seconds. eapply dkeeps_bind; [apply dkeeps_ticks|]. intros t Ht. apply dkeeps_ret.
  unfold max_ticks in Ht. change PIT_HZ with 100. Z.to_euclidean_division_equations; lia.
Qed.

Lemma dkeeps_hlt : dkeeps hlt (fun _ => True).
Proof.
  intros [d tr] Hd. unfold hlt. apply wp_bind. change (wp (match interrupts d with [] => lift (Stuck NoFuel) | _ => skip end)
    (fun _ st' => devices_ok (fst st') /\ True) (d, tr)).
  by destruct (interrupts d).
Qed.

Lemma dkeeps_sleep fuel ms : dkeeps (sleep_ms fuel ms) (fun _ => True).
Proof.
  unfold sleep_ms. eapply dkeeps_bind; [apply dkeeps_ticks|]. intros t _. apply dkeeps_mloop.
  eapply dkeeps_bind; [apply dkeeps_ticks|]. intros t' _. destruct (t' <? _); [|by apply dkeeps_ret].
  eapply dkeeps_bind; [apply dkeeps_hlt|]. intros. by apply dkeeps_ret.
Qed.

Lemma dkeeps_speaker_off : dkeeps speaker_off (fun _ => True).
Proof. unfold speaker_off. eapply dkeeps_bind; [apply dkeeps_in|]. intros v _. apply dkeeps_out. Qed.

Lemma dkeeps_beep fuel f ms : dkeeps (speaker_beep fuel f ms) (fun _ => True).
Proof.
  unfold speaker_beep. destruct (_ || _); [apply dkeeps_speaker_off|].
  do 3 (eapply dkeeps_bind; [apply dkeeps_out|intros _ _]).
  eapply dkeeps_bind; [apply dkeeps_in|intros v _].
  eapply dkeeps_bind; [apply dkeeps_out|intros _ _].
  eapply dkeeps_bind; [apply dkeeps_sleep|intros _ _]. apply dkeeps_speaker_off.
Qed.

Lemma dkeeps_power a b : dkeeps (power_ports a b) (fun _ => True).
Proof. unfold power_ports. do 2 (eapply dkeeps_bind; [apply dkeeps_out|intros _ _]). apply dkeeps_hlt. Qed.

(** ** The serial port *)

Lemma dkeeps_send c : dkeeps (serial_send c) (fun _ => True).
Proof.
  unfold serial_send. eapply dkeeps_bind with (P := fun _ => True).
  - eapply dkeeps_mono; [apply dkeeps_mrepeat with (P := fun _ => True)|done].
    eapply dkeeps_bind with (P := fun _ => True).
    + unfold serial_tx_ready. eapply dkeeps_bind; [apply dkeeps_in|]. intros v _. by apply dkeeps_ret.
    + intros b _. apply dkeeps_ret. by destruct b.
  - intros [x|] _; [apply dkeeps_out|by apply dkeeps_ret].
Qed.

Lemma dkeeps_putc c : dkeeps (serial_putc c) (fun _ => True).
Proof.
  unfold serial_putc, serial_is_ready. eapply dkeeps_bind with (P := fun _ => True); [by apply dkeeps_gets|].
  intros b _. destruct (negb b); [by apply dkeeps_ret|].
  eapply dkeeps_bind with (P := fun _ => True); [|intros _ _; apply dkeeps_send].
  destruct (c =? 10); [apply dkeeps_send|by apply dkeeps_ret].
Qed.

Lemma dkeeps_write s : dkeeps (serial_write s) (fun _ => True).
Proof.
  induction s as [|c s IH]; cbn [serial_write]; [by apply dkeeps_ret|]. destruct (c =? 0); [by apply dkeeps_ret|].
  eapply dkeeps_bind; [apply dkeeps_putc|]. by intros _ _.
Qed.

Lemma dkeeps_serial_init : dkeeps serial_init (fun _ => True).
Proof.
  unfold serial_init. do 7 (eapply dkeeps_bind; [apply dkeeps_out|intros _ _]). by apply dkeeps_modify.
Qed.

Lemma dkeeps_gfx : dkeeps gfx_init (fun _ => True).
Proof.
  unfold gfx_init. eapply dkeeps_bind with (P := fun _ => True); [|intros v _; by apply dkeeps_modify].
  unfold detect_virtio_gpu. assert (Hr : forall s r, dkeeps (gfx_pci_read32 s r) (fun _ => True)).
  { intros s r. unfold gfx_pci_read32. eapply dkeeps_bind; [apply dkeeps_out|intros _ _].
    eapply dkeeps_mono; [apply dkeeps_in|done]. }
  generalize 0. set (k := 32%nat). clearbody k. induction k as [|n IH]; intros s; cbn [virtio_slots]; [by apply dkeeps_ret|].
  eapply dkeeps_bind; [apply Hr|intros id _]. destruct (_ =? 65535); [apply IH|].
  eapply dkeeps_bind; [apply Hr|intros c _]. destruct (_ && _); [by apply dkeeps_ret|apply IH].
Qed.
End dkeeps.
