(* ===== verification/Settles.v ===== *)
(** Drivers that wait for nothing: a bounded wait ends whatever the hardware
    answers, so sending on the serial port and starting the drivers do. *)
From Stdlib Require Import ZArith Lia.
From stdpp Require Import base tactics option numbers list.
From S2P Require Import Prelude CString Ports Devices.
#[local] Open Scope Z_scope.

(** [m] has a result whatever the hardware answers. *)
Definition settles {G A} (m : M G A) : Prop := forall st, m st <> Stuck NoFuel.

Section settles.
Context `{Hardware} {G : Type}.

Lemma settles_bind {A B} (m : M G A) (f : A -> M G B) : settles m -> (forall a, settles (f a)) -> settles (m ≫= f).
Proof.
  intros Hm Hf st. unfold mbind, M_bind. specialize (Hm st). destruct (m st) as [[a st']|e]; [apply Hf|]. intros [= ->]. by apply Hm.
Qed.
Lemma settles_ret {A} (a : A) : settles (G := G) (mret a).
Proof. done. Qed.
Lemma settles_in w p : settles (G := G) (port_in w p).
Proof. done. Qed.
Lemma settles_out w p v : settles (G := G) (port_out w p v).
Proof. done. Qed.
Lemma settles_gets {A} (f : G -> A) : settles (gets f).
Proof. done. Qed.
Lemma settles_modify (f : G -> G) : settles (modify f).
Proof. done. Qed.
Lemma settles_mrepeat {R} (body : M G (option R)) n : settles body -> settles (mrepeat n body).
Proof. intros Hb. induction n; cbn [mrepeat]; [done|]. apply settles_bind; [done|]. by intros []. Qed.
End settles.

Create HintDb settles discriminated.
#[export] Hint Resolve settles_ret settles_in settles_out settles_gets settles_modify settles_mrepeat : settles.
#[export] Hint Extern 1 (settles (_ ≫= _)) => apply settles_bind; [|intros ?] : settles.
#[export] Hint Extern 1 (settles (outb _ _)) => apply settles_out : settles.
#[export] Hint Extern 1 (settles (outl _ _)) => apply settles_out : settles.
#[export] Hint Extern 1 (settles (inb _)) => apply settles_in : settles.
#[export] Hint Extern 1 (settles (inl32 _)) => apply settles_in : settles.
#[export] Hint Extern 1 (settles skip) => apply settles_ret : settles.

Section drivers.
Context `{Hardware}.

Lemma settles_send c : settles (serial_send c).
Proof.
  unfold serial_send, serial_tx_ready. apply settles_bind; [apply settles_mrepeat; auto 8 with settles|]. intros []; auto with settles.
Qed.

Lemma settles_putc c : settles (serial_putc c).
Proof.
  unfold serial_putc, serial_is_ready. apply settles_bind; [auto with settles|]. intros b.
  destruct (negb b); [auto with settles|]. apply settles_bind; [destruct (c =? 10)|intros _]; auto using settles_send with settles.
Qed.

Lemma settles_write s : settles (serial_write s).
Proof.
  induction s as [|c s IH]; cbn [serial_write]; [auto with settles|]. destruct (c =? 0); [auto with settles|].
  apply settles_bind; [apply settles_putc|done].
Qed.

Lemma settles_serial_init : settles serial_init.
Proof. unfold serial_init. auto 20 with settles. Qed.

Lemma settles_virtio n : forall slot, settles (virtio_slots n slot).
Proof.
  assert (Hr : forall s r, settles (gfx_pci_read32 s r)) by (intros; unfold gfx_pci_read32; auto with settles).
  induction n as [|n IH]; intros slot; cbn [virtio_slots]; [auto with settles|].
  apply settles_bind; [done|]. intros id. destruct (_ =? 65535); [done|]. apply settles_bind; [done|]. intros c.
  destruct (_ && _); auto with settles.
Qed.

Lemma settles_gfx : settles gfx_init.
Proof. unfold gfx_init, detect_virtio_gpu. auto using settles_virtio with settles. Qed.
End drivers.
