(* ===== verification/AppSafe.v ===== *)
(** The editor and the desktop: the editor edits the text it shows, saves it and
    loads it back; both stay in their objects and keep the file system and the
    drivers they use. *)
From Stdlib Require Import ZArith Lia Ascii String.
From stdpp Require Import base tactics option numbers list.
From S2P Require Import Prelude Buffer CString Ports Vga Terminal Input InputProps Devices DeviceSafe.
From S2P Require Import Ramdisk RamdiskInv RamdiskPath FsSafe Play Mamu Desktop.
#[local] Open Scope Z_scope.

(** * The text of the editor *)

Definition text_of (m : mamu) : list Z := take (Z.to_nat (text_len m)) (text_buffer m).

Record mamu_ok (m : mamu) : Prop := {
  mo_buffer : length (text_buffer m) = 4096%nat;
  mo_len : 0 <= text_len m <= 4095;
  mo_end : text_buffer m !! Z.to_nat (text_len m) = Some 0;
  mo_file : length (curr_file m) = 16%nat /\ 0 ∈ curr_file m }.

Lemma mamu_boot_ok : mamu_ok mamu_boot.
Proof.
  split; [done|cbn; lia|done|]. split; [done|]. by apply elem_of_cons; left.
Qed.

Lemma cut_text_spec m n : mamu_ok m -> 0 <= n <= text_len m -> succeeds (cut_text n m) (fun m' =>
  mamu_ok m' /\ text_of m' = take (Z.to_nat n) (text_of m) /\ curr_file m' = curr_file m).
Proof.
  intros [] Hn. unfold cut_text. rewrite blit_one by lia. apply succeeds_ret. split; [|split; [|done]].
  - split; cbn; [by rewrite length_insert|lia| |done]. apply list_lookup_insert_eq. lia.
  - unfold text_of. cbn. rewrite take_insert_ge by lia. rewrite take_take. f_equal. lia.
Qed.

Lemma add_char_spec m c : mamu_ok m -> text_len m < 4095 -> succeeds (add_char c m) (fun m' =>
  mamu_ok m' /\ text_of m' = text_of m ++ [c] /\ curr_file m' = curr_file m).
Proof.
  intros [] Hn. unfold add_char. rewrite blit_one by lia. cbn [mbind outcome_bind].
  rewrite blit_one by (rewrite length_insert; lia). apply succeeds_ret. split; [|split; [|done]].
  - split; cbn; [by rewrite !length_insert|lia| |done]. apply list_lookup_insert_eq. rewrite length_insert. lia.
  - unfold text_of. cbn. rewrite take_insert_ge by lia.
    replace (Z.to_nat (text_len m + 1)) with (S (Z.to_nat (text_len m))) by lia.
    rewrite (take_S_r _ _ c) by (apply list_lookup_insert_eq; lia). by rewrite take_insert_ge.
Qed.

(** What a key does to a text. *)
Definition edited (k : Z) (t : list Z) : list Z :=
  if k =? KEY_BACKSPACE then removelast t
  else if Z.of_nat (length t) <? 4095 then
    if k =? KEY_ENTER then t ++ [10] else if (32 <=? k) && (k <? 127) then t ++ [k] else t
  else t.

Lemma text_length m : mamu_ok m -> Z.of_nat (length (text_of m)) = text_len m.
Proof. intros []. unfold text_of. rewrite length_take. lia. Qed.

Lemma edit_text_spec k m : mamu_ok m -> succeeds (edit_text k m) (fun m' =>
  mamu_ok m' /\ text_of m' = edited k (text_of m) /\ curr_file m' = curr_file m).
Proof.
  intros Hm. pose proof (text_length m Hm) as Hl. pose proof (mo_len _ Hm) as Hr. unfold edit_text, edited.
  change (BUFFER_MAX - 1) with 4095. rewrite Hl, Z.geb_leb, Z.gtb_ltb. destruct (k =? KEY_BACKSPACE).
  { destruct (Z.ltb_spec 0 (text_len m)) as [Hp|Hp].
    - eapply succeeds_mono; [apply cut_text_spec; [done|lia]|]. intros m' (H1 & -> & H2). split; [done|]. split; [|done].
      rewrite removelast_firstn_len. f_equal. lia.
    - apply succeeds_ret. split; [done|]. split; [|done]. unfold text_of. by replace (text_len m) with 0 by lia. }
  destruct (Z.ltb_spec (text_len m) 4095) as [Hlt|Hge].
  - destruct (k =? KEY_ENTER); [by apply add_char_spec|]. destruct (_ && _) eqn:Ek; [|by apply succeeds_ret].
    replace (u8 k) with k by (symmetry; apply u8_small; words). by apply add_char_spec.
  - destruct (k =? KEY_ENTER); [by apply succeeds_ret|]. by destruct (_ && _); apply succeeds_ret.
Qed.

(** * Loading and saving *)

Lemma file_slot_ok name : length (file_slot name) = 16%nat /\ 0 ∈ file_slot name.
Proof.
  unfold file_slot. pose proof (length_take name 15) as Hl. split; [rewrite length_app, length_replicate; lia|].
  apply elem_of_app. right. apply elem_of_replicate. split; [done|lia].
Qed.

Lemma file_slot_fits name : fill_array 16 (file_slot name) = Ok (file_slot name).
Proof. apply fill_array_ok. by rewrite (proj1 (file_slot_ok name)). Qed.

Definition editing_ok (s : editing) : Prop := mamu_ok (the_mamu s) /\ fs_ok (the_fs s).

Lemma blank_ok file : length file = 16%nat /\ 0 ∈ file ->
  mamu_ok (Mamu (replicate (Z.to_nat BUFFER_MAX) 0) 0 file).
Proof. intros Hf. by split. Qed.

Lemma load_safe name s : editing_ok s -> goes (eq NoFuel) (load_file name s) mamu_ok.
Proof.
  intros [_ Hfs]. unfold load_file. destruct (hd0 name =? 0); [by apply blank_ok, mamu_boot_ok|]. cbn [text_buffer curr_file].
  rewrite file_slot_fits. cbn [mbind outcome_bind text_buffer curr_file].
  eapply goes_bind; [by apply fs_resolve_safe|]. intros n Hn. destruct (_ && _); [|apply blank_ok, file_slot_ok].
  eapply goes_bind; [by apply read_safe_fs|]. intros [data len] [H1 H2]. cbn [fst snd] in *.
  rewrite blit_ok by (rewrite ?length_replicate; unfold BUFFER_MAX in *; lia). cbn [mbind outcome_bind].
  rewrite drop_replicate. change (take (Z.to_nat 0) _) with (@nil Z). cbn [app].
  set (n' := if len <? 0 then 0 else len). assert (0 <= n' <= 4095) by (unfold n', BUFFER_MAX in *; case_match; lia).
  unfold cut_text. cbn [text_buffer curr_file].
  assert (Hl : length (data ++ replicate (Z.to_nat BUFFER_MAX - (Z.to_nat 0 + length data)) 0) = 4096%nat)
    by (rewrite length_app, length_replicate; unfold BUFFER_MAX in *; lia).
  rewrite blit_one by lia. apply goes_ok. split; cbn; [by rewrite length_insert|lia| |apply file_slot_ok].
  apply list_lookup_insert_eq. lia.
Qed.

Lemma write_file_safe n s : editing_ok s -> goes (eq NoFuel) (write_file n s) (fun r => fs_ok r.1).
Proof.
  intros [[] Hfs]. unfold write_file. destruct (_ && _); [|done].
  eapply goes_bind; [apply write_safe; [done|cbn; lia|lia]|]. by intros [st ok] Hst.
Qed.

Lemma save_safe s : editing_ok s -> goes (eq NoFuel) (save_file s) (fun r => fs_ok r.1).
Proof.
  intros [Hm Hfs]. unfold save_file. destruct (_ =? 0); [done|].
  eapply goes_bind; [by apply fs_resolve_safe|]. intros n Hn. destruct (_ =? 0)%nat; [|by apply write_file_safe].
  eapply goes_bind; [by apply add_node_safe|]. intros [st ok] Hst. cbn in Hst. destruct (negb ok); [done|].
  eapply goes_bind; [by apply fs_resolve_safe|]. intros n2 _. by apply write_file_safe.
Qed.

Section mamu.
Context `{Hardware} (fuel : nat).
Abbreviation mkept := (mkeeps (play_ok editing_ok)).

Lemma keeps_draw_text l : forall r c, mkept (draw_text l r c) any.
Proof.
  induction l as [|x l IH]; intros r c; cbn [draw_text]; [apply mkeeps_skip|].
  destruct (r <? _); [|done]. destruct (x =? 10); [done|]. destruct (c <? _); [|done].
  eapply mkeeps_bind; [apply keeps_cell|]. by intros _ _.
Qed.

Lemma keeps_mamu_ui : mkept draw_ui any.
Proof.
  unfold draw_ui. eapply mkeeps_bind; [by apply keeps_fill_row|intros _ _].
  eapply mkeeps_bind; [apply keeps_text|intros _ _]. eapply mkeeps_bind; [apply keeps_own|intros s [Hm _]].
  eapply mkeeps_bind; [apply keeps_text|intros _ _]. eapply mkeeps_bind; [by apply keeps_fill|intros _ _].
  eapply mkeeps_bind with (P := any).
  { apply mkeeps_lift. destruct Hm. unfold slice. replace (_ && _ && _) with true by lia. by apply succeeds_ret. }
  intros text _. eapply mkeeps_bind; [apply keeps_draw_text|intros _ _].
  eapply mkeeps_bind; [by apply keeps_fill_row|intros _ _]. apply keeps_text.
Qed.

Lemma keeps_save : mkept save any.
Proof.
  unfold save. eapply mkeeps_bind; [apply keeps_own|intros s Hs].
  eapply mkeeps_bind; [by apply mkeeps_goes, save_safe|]. intros [st msg] Hst.
  eapply mkeeps_bind; [apply keeps_change; by intros e []|intros _ _].
  destruct msg as [[text attr]|]; [apply keeps_text|apply mkeeps_skip].
Qed.

Lemma keeps_set_mamu m : mamu_ok m -> mkept (change (set_mamu m)) any.
Proof. intros Hm. apply keeps_change. by intros e []. Qed.

Lemma mamu_run_ok name : mkept (mamu_run fuel name) any.
Proof.
  unfold mamu_run. eapply mkeeps_bind; [apply keeps_own|intros s Hs].
  eapply mkeeps_bind; [by apply mkeeps_goes, load_safe|intros m Hm].
  eapply mkeeps_bind; [by apply keeps_set_mamu|intros _ _]. eapply mkeeps_bind; [apply keeps_clear|intros _ _].
  apply mkeeps_mloop with (P := any). unfold mamu_turn. eapply mkeeps_bind; [apply keeps_mamu_ui|intros _ _].
  eapply mkeeps_bind; [apply keeps_input, keeps_wait_key|intros k _].
  destruct (k =? KEY_F10); [by apply mkeeps_ret|]. destruct (k =? KEY_F2).
  { eapply mkeeps_bind; [apply keeps_save|intros _ _]. by apply mkeeps_ret. }
  eapply mkeeps_bind; [apply keeps_own|intros e [He _]].
  eapply mkeeps_bind with (P := mamu_ok).
  { apply mkeeps_lift. eapply succeeds_mono; [by apply edit_text_spec|]. by intros m' []. }
  intros m' Hm'. eapply mkeeps_bind; [by apply keeps_set_mamu|intros _ _]. by apply mkeeps_ret.
Qed.
End mamu.

(** * Editing a file *)

(** The keys of a session between two function keys. *)
Fixpoint type_keys (keys : list Z) (m : mamu) : outcome mamu :=
  match keys with [] => Ok m | k :: keys => m ← edit_text k m; type_keys keys m end.

Definition edited_all (keys : list Z) (t : list Z) : list Z := fold_left (fun t k => edited k t) keys t.

Lemma type_keys_spec keys : forall m, mamu_ok m -> succeeds (type_keys keys m) (fun m' =>
  mamu_ok m' /\ text_of m' = edited_all keys (text_of m) /\ curr_file m' = curr_file m).
Proof.
  induction keys as [|k keys IH]; intros m Hm; cbn [type_keys]; [by apply succeeds_ret|].
  eapply succeeds_bind; [by apply edit_text_spec|]. intros m1 (H1 & E1 & F1).
  eapply succeeds_mono; [by apply IH|]. intros m2 (H2 & E2 & F2). split; [done|]. rewrite F2, E2, E1. done.
Qed.

(** A file name the editor can keep. *)
Definition short_name (name : list Z) : Prop := nul_free name /\ name <> [] /\ (length name <= 15)%nat.

Lemma slot_text name : short_name name -> buf_text (file_slot name) = name.
Proof.
  intros (Hn & _ & Hl). unfold file_slot. rewrite take_ge by done.
  replace (16 - length name)%nat with (S (15 - length name)) by lia. cbn [replicate]. by apply buf_text_app.
Qed.

Lemma short_nonempty name : short_name name -> (hd0 name =? 0) = false.
Proof. intros (Hn & Hne & _). destruct Hn as [|c l Hc _]; [done|]. by apply Z.eqb_neq. Qed.

Section file.
Context (st : fs) (kids : nat -> list nat) (rank : nat -> nat) (Hwf : wf st kids rank).
Context (name : list Z) (n : nat) (Hname : short_name name) (Hres : fs_resolve st (Some name) = Ok n).
Context (Hn : n <> 0%nat) (Hfile : file st n).

Lemma load_spec m : succeeds (load_file name (Editing m st)) (fun m' =>
  mamu_ok m' /\ text_of m' = take 4095 (contents_of st n) /\ curr_file m' = file_slot name).
Proof using Hwf Hname Hres Hn Hfile.
  unfold load_file. rewrite short_nonempty, file_slot_fits by done. cbn [mbind outcome_bind the_fs text_buffer curr_file]. rewrite Hres. cbn [mbind outcome_bind].
  rewrite (proj2 (Nat.eqb_neq n 0) Hn), (proj2 (fs_is_file_spec st n) Hfile). cbn [negb andb].
  change (BUFFER_MAX - 1) with 4095. rewrite (fs_read_spec st kids rank) by done.
  rewrite (proj2 (fs_is_file_spec st n) Hfile). cbn [mbind outcome_bind].
  change (Z.to_nat 4095) with 4095%nat. set (data := take 4095 (contents_of st n)).
  assert (Hd : (length data <= 4095)%nat) by (unfold data; rewrite length_take; lia).
  rewrite blit_ok by (rewrite ?length_replicate; unfold BUFFER_MAX; lia). cbn [mbind outcome_bind].
  rewrite drop_replicate. change (take (Z.to_nat 0) _) with (@nil Z). cbn [app].
  rewrite (proj2 (Z.ltb_ge _ 0)) by lia. unfold cut_text. cbn [text_buffer curr_file].
  set (k := (Z.to_nat BUFFER_MAX - (Z.to_nat 0 + length data))%nat).
  assert (Hk : (k = 4096 - length data)%nat) by (unfold k, BUFFER_MAX; lia). clearbody k.
  rewrite blit_one by (rewrite length_app, length_replicate; lia). apply succeeds_ret. rewrite Nat2Z.id. split; [|split; [|done]].
  - split; cbn; [rewrite length_insert, length_app, length_replicate; lia|lia| |apply file_slot_ok].
    rewrite Nat2Z.id. apply list_lookup_insert_eq. rewrite length_app, length_replicate. lia.
  - unfold text_of. cbn. rewrite Nat2Z.id, take_insert_ge by done. by rewrite take_app_length.
Qed.

Lemma save_spec m : mamu_ok m -> curr_file m = file_slot name -> fs_data_free st + text_len m <= RAMDISK_DATA_CAP ->
  save_file (Editing m st) = Ok (written st n (text_of m), Some (bs "Saved successfully!", VGA_ATTR 15 2)).
Proof using Hwf Hname Hres Hn Hfile.
  intros [] Ef Hroom. unfold save_file. cbn [the_mamu the_fs]. rewrite Ef, slot_text, short_nonempty, Hres by done.
  cbn [mbind outcome_bind]. rewrite (proj2 (Nat.eqb_neq n 0) Hn). unfold write_file. cbn [the_mamu the_fs].
  rewrite (proj2 (Nat.eqb_neq n 0) Hn), (proj2 (fs_is_file_spec st n) Hfile). cbn [negb andb].
  rewrite (fs_write_spec st kids rank) by (done || lia).
  rewrite (proj2 (fs_is_file_spec st n) Hfile), (proj2 (Z.leb_le _ _)) by lia. reflexivity.
Qed.
End file.

(** C22: Editing a file: opened on a file with a name of at most 15 characters,
    the editor shows the file's first 4095 bytes; typing edits that text at its
    end (Backspace removes the last character, Enter and the printable keys append
    while there is room, other keys do nothing); F2 then succeeds when the data
    pool has room, the file holds exactly the edited text, every other file is
    unchanged, and the file system stays well formed. *)
Theorem mamu_edits_file st kids rank name n keys m0 (Hwf : wf st kids rank) (Hname : short_name name)
    (Hres : fs_resolve st (Some name) = Ok n) (Hn : n <> 0%nat) (Hfile : file st n) :
  let text := edited_all keys (take 4095 (contents_of st n)) in
  fs_data_free st + Z.of_nat (length text) <= RAMDISK_DATA_CAP ->
  succeeds (m ← load_file name (Editing m0 st); m ← type_keys keys m; save_file (Editing m st)) (fun '(st', msg) =>
    msg = Some (bs "Saved successfully!", VGA_ATTR 15 2) /\ wf st' kids rank /\ contents_of st' n = text /\
    forall k, file st k -> k <> n -> contents_of st' k = contents_of st k).
Proof.
  intros text Hroom. eapply succeeds_bind; [by apply (load_spec st kids rank Hwf name n)|]. intros m1 (H1 & E1 & F1).
  eapply succeeds_bind; [by apply type_keys_spec|]. intros m2 (H2 & E2 & F2). rewrite E1 in E2. fold text in E2.
  pose proof (text_length m2 H2) as Hl. rewrite E2 in Hl.
  rewrite (save_spec st kids rank Hwf name n Hname Hres Hn Hfile m2 H2) by (rewrite ?F2, ?F1; done || lia).
  apply succeeds_ret. split; [done|]. rewrite E2. split; [by apply written_wf|].
  split; [by apply (written_contents_same st kids rank)|]. intros k Hk Hne. by apply (written_contents_other st kids rank).
Qed.

Lemma mamu_edits_file_witness : exists st st' msg, demo_fs = Ok st /\
  (m ← load_file (bs "/docs/a.txt") (Editing mamu_boot st);
   m ← type_keys (bs "hello" ++ [KEY_BACKSPACE; KEY_UP; ch "!"; KEY_ENTER]) m; save_file (Editing m st)) = Ok (st', msg) /\
  contents_of st' 2 = bs "hell!" ++ [10].
Proof.
  destruct demo_wf as (st & kids & rank & E & Hwf & _ & Hf & _ & Hfree).
  assert (H : (s ← demo_fs; n ← fs_resolve s (Some (bs "/docs/a.txt")); Ok (n, contents_of s 2)) = Ok (2%nat, []))
    by (vm_compute; reflexivity).
  rewrite E in H. cbn [mbind outcome_bind] in H.
  destruct (fs_resolve st (Some (bs "/docs/a.txt"))) as [n|] eqn:Hres; [|discriminate H]. cbn [mbind outcome_bind] in H.
  assert (Hc : contents_of st 2 = []) by congruence. assert (n = 2%nat) as -> by congruence.
  destruct (mamu_edits_file st kids rank (bs "/docs/a.txt") 2
    (bs "hello" ++ [KEY_BACKSPACE; KEY_UP; ch "!"; KEY_ENTER]) mamu_boot Hwf) as ([st' msg] & Es & _ & _ & Ht & _).
  - split; [|split; [done|cbn; lia]]. apply (bool_decide_unpack _). by vm_compute.
  - exact Hres.
  - lia.
  - exact Hf.
  - rewrite Hc, Hfree. vm_compute. discriminate.
  - exists st, st', msg. split; [exact E|]. split; [exact Es|]. rewrite Ht, Hc. vm_compute. reflexivity.
Defined.

(** Saving under a path that does not exist creates a node with that whole text
    as its name, which no path finds again: nothing is written and no message is
    shown. *)
Example mamu_lost_save : exists st, let m := Mamu (text_buffer mamu_boot) 0 (file_slot (bs "docs/x")) in
  save_file (Editing m ramdisk_clear) = Ok (st, None) /\ fs_get_name st 1 = bs "docs/x" /\
  fs_resolve st (Some (bs "docs/x")) = Ok 0%nat.
Proof.
  assert (H : (let m := Mamu (text_buffer mamu_boot) 0 (file_slot (bs "docs/x")) in
    '(st, msg) ← save_file (Editing m ramdisk_clear); n ← fs_resolve st (Some (bs "docs/x"));
    Ok (msg, fs_get_name st 1, n)) = Ok (None, bs "docs/x", 0%nat)) by (vm_compute; reflexivity).
  cbv zeta in *. destruct (save_file _) as [[st msg]|]; [|discriminate H]. cbn [mbind outcome_bind] in H.
  exists st. destruct (fs_resolve st _) as [n|]; [|discriminate H]. cbn [mbind outcome_bind] in H.
  injection H as -> -> ->. done.
Qed.

(** * The desktop *)

Definition desktop_ok (s : desktop) : Prop := wm_ok (the_wm (the_desk s)) /\ devices_ok (the_display s).

Lemma read_cell_ok row col v : vga_ok v -> succeeds (gfx_read_cell row col v) any.
Proof.
  intros Hv. unfold gfx_read_cell, vga_read_at. destruct (in_screen row col) eqn:E; [|by apply succeeds_ret].
  apply in_screen_spec in E. unfold vga_ok in Hv. rewrite read_ok by (unfold VGA_WIDTH; lia). by apply succeeds_ret.
Qed.

Section desktop.
Context `{Hardware} (fuel : nat).
Abbreviation desk_kept := (mkeeps (play_ok desktop_ok)).

Lemma keeps_lines row col l attr : desk_kept (put_lines row col l attr) any.
Proof.
  revert row. induction l as [|s l IH]; intros row; cbn [put_lines]; [apply mkeeps_skip|].
  eapply mkeeps_bind; [apply keeps_text|]. by intros _ _.
Qed.
Hint Resolve keeps_lines : play.

Lemma keeps_gfx_fill row col h w c attr : 0 <= row -> 0 <= col -> desk_kept (draw (gfx_fill_rect row col h w c attr)) any.
Proof. apply keeps_fill. Qed.
Lemma keeps_gfx_row row c attr : 0 <= row -> desk_kept (draw (gfx_fill_row row c attr)) any.
Proof. apply keeps_fill_row. Qed.

Lemma keeps_wallpaper : desk_kept draw_wallpaper any.
Proof. unfold draw_wallpaper. play. Qed.

Lemma keeps_menu_bar s : desk_kept (draw_menu_bar s) any.
Proof.
  unfold draw_menu_bar, draw_menu_panel. eapply mkeeps_bind; [by apply keeps_gfx_row|intros _ _].
  do 2 (eapply mkeeps_bind; [apply keeps_text|intros _ _]).
  eapply mkeeps_bind with (P := any); [destruct (gfx_backend _); apply keeps_text|intros _ _].
  eapply mkeeps_bind with (P := any); [apply mkeeps_lift; by apply succeeds_ret|intros clock _].
  eapply mkeeps_bind; [apply keeps_text|intros _ _]. destruct (negb _); [apply mkeeps_skip|].
  eapply mkeeps_bind; [by apply keeps_gfx_fill|intros _ _]. apply keeps_lines.
Qed.

Lemma keeps_window_frame w active : inside w -> desk_kept (draw_window_frame w active) any.
Proof.
  intros (Hx & _ & Hy & _). unfold draw_window_frame, draw_shadow, draw_window_content.
  destruct (negb _); [apply mkeeps_skip|]. eapply mkeeps_bind with (P := any).
  { eapply mkeeps_bind with (P := any); [apply keeps_each; intros r; play|intros _ _]. play. }
  intros _ _. eapply mkeeps_bind; [apply keeps_gfx_fill; lia|intros _ _].
  do 3 (eapply mkeeps_bind; [apply keeps_cell|intros _ _]). eapply mkeeps_bind; [apply keeps_text|intros _ _].
  eapply mkeeps_bind with (P := any).
  - apply keeps_each_from; intros r Hr. eapply mkeeps_bind; [apply keeps_cell|intros _ _].
    eapply mkeeps_bind; [apply keeps_gfx_fill; lia|intros _ _]. apply keeps_cell.
  - intros _ _. play.
Qed.

Lemma keeps_dock_items items : forall i selected, 0 <= i -> desk_kept (draw_dock_items items i selected) any.
Proof.
  induction items as [|s items IH]; intros i k Hi; cbn [draw_dock_items]; [apply mkeeps_skip|].
  eapply mkeeps_bind; [apply keeps_gfx_fill; [done|unfold dock_slot_x; change DOCK_START_X with 12; unfold DOCK_SLOT_W; lia]|intros _ _].
  eapply mkeeps_bind; [apply keeps_text|intros _ _]. apply IH. lia.
Qed.

Lemma keeps_dock d : desk_kept (draw_dock d) any.
Proof.
  unfold draw_dock. do 2 (eapply mkeeps_bind; [by apply keeps_gfx_fill|intros _ _]). by apply keeps_dock_items.
Qed.

Lemma keeps_pointer d : desk_kept (draw_mouse_cursor d) any.
Proof.
  unfold draw_mouse_cursor. eapply mkeeps_bind with (P := vga_ok); [apply mkeeps_gets; by intros p []|intros v Hv].
  eapply mkeeps_bind; [by apply mkeeps_lift, read_cell_ok|intros c _]. apply keeps_cell.
Qed.

Lemma keeps_window i d : wm_ok d -> 0 <= i < 4 -> desk_kept (lift (window i d)) inside.
Proof. intros Hd Hi. apply mkeeps_lift. eapply succeeds_mono; [by apply window_ok|]. by intros w (_ & ? & _). Qed.

Lemma keeps_stack d z : wm_ok d -> Forall (fun i => 0 <= i < 4) z -> desk_kept (draw_stack z d) any.
Proof.
  intros Hd. induction 1 as [|i z Hi _ IH]; cbn [draw_stack]; [apply mkeeps_skip|].
  eapply mkeeps_bind with (P := any); [|by intros _ _]. destruct (_ =? _); [apply mkeeps_skip|].
  eapply mkeeps_bind; [by apply keeps_window|]. intros w Hw. by apply keeps_window_frame.
Qed.

Lemma keeps_desktop : desk_kept render_desktop any.
Proof.
  unfold render_desktop. eapply mkeeps_bind; [apply keeps_wallpaper|intros _ _].
  eapply mkeeps_bind; [apply keeps_own|intros s [Hd _]].
  eapply mkeeps_bind; [by apply keeps_stack, stack_range|intros _ _].
  eapply mkeeps_bind; [apply keeps_window; [done|apply Hd]|intros w Hw].
  eapply mkeeps_bind; [by apply keeps_window_frame|intros _ _]. eapply mkeeps_bind; [apply keeps_menu_bar|intros _ _].
  eapply mkeeps_bind; [apply keeps_dock|intros _ _]. eapply mkeeps_bind; [apply keeps_text|intros _ _]. apply keeps_pointer.
Qed.

Lemma keeps_on_desk f : (forall d, the_wm (f d) = the_wm d) -> desk_kept (on_desk f) any.
Proof. intros Hf. apply keeps_change. intros s []. split; [cbn; by rewrite Hf|done]. Qed.

Lemma keeps_on_wm f : (forall d, wm_ok d -> succeeds (f d) wm_ok) -> desk_kept (on_wm f) any.
Proof.
  intros Hf. unfold on_wm. eapply mkeeps_bind; [apply keeps_own|intros s [Hd Hv]].
  eapply mkeeps_bind; [by apply mkeeps_lift, Hf|intros d Hd']. apply keeps_change. by intros s' [].
Qed.

Lemma keeps_display {A} (m : M devices A) P : mkeeps devices_ok m P -> desk_kept (with_display m) P.
Proof.
  intros Hm [p tr] Hp. pose proof (po_own _ _ Hp) as [Hd Hv].
  pose proof (Hm (the_display (p_own p), tr) Hv) as Hwp. unfold wp, with_display in *.
  destruct (m (the_display (p_own p), tr)) as [[a [d tr']]|[]]; cbn; try done. destruct Hwp as [H1 H2].
  split; [|done]. destruct Hp. by split.
Qed.

Lemma keeps_ask {A} (f : mouse -> A) : desk_kept (ask_mouse f) any.
Proof. apply keeps_input. by apply mkeeps_gets. Qed.

Lemma keeps_tell f : (forall m, mouse_ok m -> mouse_ok (f m)) -> desk_kept (tell_mouse f) any.
Proof. intros Hf. apply keeps_input, mkeeps_modify. intros i. apply Hf. Qed.

Lemma keeps_process_mouse : desk_kept (process_mouse fuel) any.
Proof.
  unfold process_mouse. eapply mkeeps_bind; [apply keeps_input, keeps_mouse_poll|intros _ _].
  eapply mkeeps_bind; [apply keeps_ask|intros [x y] _]. eapply mkeeps_bind; [by apply keeps_on_desk|intros _ _].
  eapply mkeeps_bind; [apply keeps_ask|intros [dx dy] _]. eapply mkeeps_bind; [by apply keeps_tell|intros _ _].
  eapply mkeeps_bind; [apply keeps_ask|intros b _]. apply keeps_on_wm. intros d. apply mouse_event_ok.
Qed.

Lemma pointer_ok x y m : mouse_ok m -> mouse_ok (mouse_set_screen_pos x y m).
Proof. intros (H1 & H2 & _). split; [done|]. split; [done|]. by split; apply clampi_range. Qed.

Lemma desktop_run_ok : desk_kept (desktop_run fuel) any.
Proof.
  unfold desktop_run. eapply mkeeps_bind; [apply keeps_display, dkeeps_gfx|intros _ _].
  eapply mkeeps_bind; [apply keeps_input, keeps_mouse_init|intros ok _].
  eapply mkeeps_bind; [by apply keeps_on_desk|intros _ _].
  eapply mkeeps_bind; [apply keeps_on_wm; intros d; apply reset_layout_ok|intros _ _].
  eapply mkeeps_bind; [by apply keeps_on_desk|intros _ _]. eapply mkeeps_bind; [apply keeps_tell, pointer_ok|intros _ _].
  apply mkeeps_mloop with (P := any). unfold desktop_turn. eapply mkeeps_bind; [by apply keeps_on_desk|intros _ _].
  eapply mkeeps_bind; [apply keeps_own|intros s _].
  eapply mkeeps_bind with (P := any); [destruct (g_mouse_ok _); [apply keeps_process_mouse|apply mkeeps_skip]|intros _ _].
  eapply mkeeps_bind; [apply keeps_input, keeps_poll_key|intros key _].
  destruct (key =? KEY_ESCAPE); [by apply mkeeps_ret|]. eapply mkeeps_bind with (P := any).
  { destruct (key =? 0); [apply mkeeps_skip|]. apply keeps_on_wm. intros d. apply keyboard_ok. }
  intros _ _. eapply mkeeps_bind; [apply keeps_desktop|intros _ _]. by apply mkeeps_ret.
Qed.
End desktop.
