(* ===== verification/ShellSafe.v ===== *)
(** The whole system stays in its memory: the invariants of the parts, kept by
    every command and by the loop of the shell. *)
From Stdlib Require Import ZArith Lia Ascii String.
From stdpp Require Import base tactics option numbers list.
From S2P Require Import Prelude Buffer CString PhysMem Klog Scheduler Console Command Ramdisk RamdiskInv.
From S2P Require Import RamdiskInit Ports NetBytes Network NetworkSafe Vga Terminal TerminalProps Input.
From S2P Require Import InputProps Devices DeviceSafe FsCmd FsSafe JavaCmd World SysCmd NetCmd Shell.
From S2P Require Import Play Catnake Pong Plinko Mamu Desktop AppSafe.
#[local] Open Scope Z_scope.

(** The faults other than leaving an object: an endless wait or walk, and the
    trap of a division. *)
Definition tolerated (e : fault) : Prop := e <> OutOfBounds.

Definition sched_ok (s : sched) : Prop := exists l, ring_ok s l /\ (length l <= 4096)%nat.

Record world_ok (w : world) : Prop := {
  wo_fs : fs_ok (w_fs w);
  wo_sched : sched_ok (w_sched w);
  wo_net : net_ok (w_net w);
  wo_mouse : mouse_ok (the_mouse (w_input w));
  wo_devices : devices_ok (w_devices w);
  wo_mamu : mamu_ok (app_mamu (w_apps w));
  wo_desk : wm_ok (the_wm (app_desk (w_apps w)));
}.

Lemma tolerated_fuel : tolerated NoFuel.
Proof. done. Qed.
#[export] Hint Resolve tolerated_fuel : core.

(** [safe m]: the command [m] keeps the invariant of the world. *)
Notation safe m := (ckeeps tolerated world_ok m (fun _ => True)).

(** * Lifting the parts *)

Lemma keeps_on_fs {A} (m : cmd fs A) P : ckeeps tolerated fs_ok m P -> ckeeps tolerated world_ok (on_fs m) P.
Proof. apply ckeeps_within; [by intros w []|]. intros w s [] Hs. by split. Qed.

Section io.
Context `{Hardware}.

Lemma keeps_on_net {A} (m : M net A) P : keeps m P -> ckeeps tolerated world_ok (on_net m) P.
Proof.
  intros Hm w Hw. pose proof (Hm (w_net w, w_io w) (wo_net _ Hw)) as Hwp. unfold wp, on_net in *.
  destruct (m (w_net w, w_io w)) as [[a [s tr]]|[]]; cbn; try done. destruct Hwp as [Hs Ha]. cbn in Hs.
  split; [|done]. destruct Hw. by split.
Qed.

Lemma keeps_on_device {A} (m : M devices A) P : dkeeps m P -> ckeeps tolerated world_ok (on_device m) P.
Proof.
  intros Hm w Hw. pose proof (Hm (w_devices w, w_io w) (wo_devices _ Hw)) as Hwp. unfold wp, on_device in *.
  destruct (m (w_devices w, w_io w)) as [[a [s tr]]|[]]; cbn; try done. destruct Hwp as [Hs Ha]. cbn in Hs.
  split; [|done]. destruct Hw. by split.
Qed.

(** * Numbers fit their buffers *)

Lemma itoa_room size v : is_i32 v -> 12 <= size -> goes tolerated (itoa_into size v) (fun _ => True).
Proof. intros. by rewrite itoa_into_ok. Qed.

Lemma keeps_itoa z : safe (put_itoa 16 (i32 z)).
Proof. unfold put_itoa. eapply ckeeps_bind; [apply ckeeps_eval, itoa_room; [apply i32_range|lia]|]. keeps. Qed.

Lemma keeps_itoa_small v : 0 <= v < 10 ^ 7 -> safe (put_itoa 8 v).
Proof. intros. unfold put_itoa. eapply ckeeps_bind with (P := any); [apply ckeeps_eval; by rewrite itoa_into_small|]. keeps. Qed.

Lemma keeps_utoa z base : base = 10 \/ base = 16 -> safe (put_utoa 16 (u32 z) base).
Proof.
  intros Hb. unfold put_utoa. eapply ckeeps_bind with (P := any); [|intros s _; keeps].
  apply ckeeps_eval. by rewrite utoa_into_ok by (apply u32_range || done || lia).
Qed.
Lemma put_int_safe n : safe (put_int n).
Proof. apply keeps_itoa. Qed.
Lemma put_uint_safe n : safe (put_uint n).
Proof. apply keeps_utoa. by left. Qed.

#[local] Opaque put_itoa put_utoa.

(** * Queries of the scheduler *)

Lemma keeps_table : safe proc_table.
Proof.
  unfold proc_table. eapply ckeeps_bind with (P := fun rows => (length rows <= 32)%nat).
  - apply ckeeps_query. intros w [_ (l & Hl & _) _ _ _]. rewrite (snapshot_spec _ l) by done.
    apply goes_ok. rewrite length_take. lia.
  - intros rows Hr. apply ckeeps_eval. by rewrite fill_array_ok.
Qed.

Lemma keeps_count : safe (query (fun w => scheduler_process_count (w_sched w))).
Proof. apply ckeeps_query. intros w [_ (l & Hl & Hn) _ _ _]. by rewrite (count_spec _ l). Qed.

Lemma keeps_pid : safe (query (fun w => scheduler_current_pid (w_sched w))).
Proof.
  apply ckeeps_query. intros w [_ (l & Hl & _) _ _ _]. unfold scheduler_current_pid.
  destruct (_ =? 0); [done|]. pose proof (ok_current _ _ Hl) as Hc.
  apply list_elem_of_fmap in Hc as (n & -> & Hn). by rewrite (ring_deref _ _ Hl n Hn).
Qed.

Lemma kill_keeps serial fuel s pid : sched_ok s ->
  goes tolerated (scheduler_kill serial fuel s pid) (fun r => sched_ok r.1).
Proof.
  intros (l & Hl & Hn). destruct (decide (pid = 0)) as [->|Hpid].
  { unfold scheduler_kill. rewrite Z.eqb_refl. by case_match; exists l. }
  destruct (kill_spec serial s l pid (fuel + length l) Hl Hpid ltac:(lia))
    as ([s' r] & E & _ & _ & Hsame & l' & Hl' & Hp).
  assert (Hlen : (length l' <= length l)%nat).
  { rewrite <- (length_map (fun n => id (snd n)) l'), <- (length_map (fun n => id (snd n)) l).
    change (length (pids l') <= length (pids l))%nat. rewrite Hp. apply filter_le_length. }
  unfold scheduler_kill in *. destruct (process_list s =? 0); [by exists l|]. destruct (pid =? 0); [by exists l|].
  destruct (deref s (process_list s)) as [head|e]; [|done]. cbn [mbind outcome_bind] in *.
  match goal with |- goes _ (cloop _ ?b ?s0) _ =>
    destruct (cloop_less b fuel (fuel + length l) s0) as [->| ->]; [lia|done|] end.
  rewrite E. exists l'. split; [done|]. cbn. lia.
Qed.

Lemma ring_set_log s l k : ring_ok s l -> klog_ok k -> ring_ok (set_log s k) l.
Proof. intros [] Hk. by split. Qed.

Lemma klog_clear_ok k : klog_ok (klog_clear k).
Proof. by split. Qed.

(** * The system commands *)

Lemma keeps_look {A} (f : world -> A) : safe (look f).
Proof. by apply ckeeps_look. Qed.
Hint Resolve keeps_table keeps_count keeps_pid keeps_itoa put_int_safe put_uint_safe keeps_look : keeps.

Lemma klog_read_room st : (length (klog_read st DMESG_PRINT_BUFFER).1 < 4096)%nat.
Proof.
  unfold klog_read. change (DMESG_PRINT_BUFFER <=? 0) with false. cbn iota.
  destruct (_ =? 0); [cbn; lia|]. cbn [fst]. rewrite length_map, length_seq.
  change (DMESG_PRINT_BUFFER - 1) with 4095. case_match; lia.
Qed.

Lemma dmesg_safe args : safe (cmd_dmesg args).
Proof.
  unfold cmd_dmesg. eapply ckeeps_bind with (P := fun r => (length r.1 < 4096)%nat).
  { apply ckeeps_look. intros w _. apply klog_read_room. }
  intros [dump n] Hd. cbn [fst] in Hd. eapply ckeeps_bind with (P := any).
  { apply ckeeps_eval. by rewrite end_text_ok. }
  intros d _. keeps. apply ckeeps_update. intros w [? (ring & Hl & Hn) ? ? ?]. split; try done.
  exists ring. split; [|done]. apply ring_set_log; [done|apply klog_clear_ok].
Qed.

Lemma kill_safe args : forall fuel, safe (fun w => cmd_kill (g_serial_ready (w_devices w)) fuel args w).
Proof.
  intros fuel w. generalize (g_serial_ready (w_devices w)). intros serial. revert w.
  change (safe (cmd_kill serial fuel args)). unfold cmd_kill. keeps.
  apply ckeeps_call. intros w [? Hs ? ? ?].
  eapply goes_bind; [by apply kill_keeps|]. intros [s r] Hs'. cbn in *. by split.
Qed.

Lemma ps_rows_safe l : safe (ps_rows l).
Proof. induction l as [|[[pid st] cur] l IH]; cbn [ps_rows]; keeps. Qed.
Lemma top_rows_safe l : safe (top_rows l).
Proof. induction l as [|[[pid st] cur] l IH]; cbn [top_rows]; keeps. Qed.
Hint Resolve ps_rows_safe top_rows_safe : keeps.

Lemma ps_safe args : safe (cmd_ps args).
Proof. unfold cmd_ps. keeps. Qed.

Lemma keeps_seconds : ckeeps tolerated world_ok (on_device uptime_seconds) (fun t => 0 <= t < 10 ^ 4).
Proof. apply keeps_on_device, dkeeps_seconds. Qed.
Lemma keeps_ticks : safe (on_device pit_ticks).
Proof. eapply ckeeps_any, keeps_on_device, dkeeps_ticks. Qed.
Lemma keeps_ms : ckeeps tolerated world_ok (on_device pit_ms_since_boot) (fun t => 0 <= t < 10 ^ 7).
Proof. apply keeps_on_device, dkeeps_ms. Qed.
Hint Resolve keeps_seconds keeps_ticks keeps_ms : keeps.

Lemma top_safe args : safe (cmd_top args).
Proof. unfold cmd_top, put_hms. keeps. Qed.

Lemma kstats_safe args : safe (cmd_kstats args).
Proof. unfold cmd_kstats, print_u32_line. keeps. Qed.

Lemma uptime_safe args : safe (cmd_uptime args).
Proof.
  unfold cmd_uptime, put_hms. eapply ckeeps_bind; [apply keeps_seconds|]. intros secs Hs. cbn beta in Hs.
  assert (Hi : forall z, 0 <= z <= secs -> safe (put_itoa 8 (i32 z))).
  { intros z Hz. rewrite i32_small by words. apply keeps_itoa_small. lia. }
  assert (H3 : 0 <= secs / 3600 <= secs /\ 0 <= secs mod 3600 / 60 <= secs /\ 0 <= secs mod 60 <= secs)
    by (Z.to_euclidean_division_equations; lia).
  destruct H3 as (H1 & H2 & H3). keeps; [by apply Hi..|].
  cbn beta in *. rewrite i32_small by words. by apply keeps_itoa_small.
Qed.

Lemma sleep_safe fuel args : safe (cmd_sleep fuel args).
Proof. unfold cmd_sleep. keeps. apply keeps_on_device, dkeeps_sleep. Qed.

Lemma beep_safe fuel args : safe (cmd_beep fuel args).
Proof. unfold cmd_beep. destruct (match nonempty args with None => _ | Some _ => _ end). apply keeps_on_device, dkeeps_beep. Qed.

Lemma dkeeps_cmos r : dkeeps (cmos_read r) is_u8.
Proof. unfold cmos_read. eapply dkeeps_bind; [apply dkeeps_out|intros _ _]. apply dkeeps_in. Qed.
Lemma keeps_cmos r : ckeeps tolerated world_ok (on_device (cmos_read r)) is_u8.
Proof. apply keeps_on_device, dkeeps_cmos. Qed.
Hint Resolve keeps_cmos : keeps.

Lemma keeps_rtc : safe (on_device rtc_wait_ready).
Proof.
  apply keeps_on_device. unfold rtc_wait_ready. eapply dkeeps_bind with (P := fun _ => True).
  - eapply dkeeps_mono; [apply dkeeps_mrepeat with (P := fun _ => True)|done].
    eapply dkeeps_bind; [apply dkeeps_cmos|]. intros v _. apply dkeeps_ret. by destruct (_ =? 0).
  - intros r _. by apply dkeeps_ret.
Qed.
Hint Resolve keeps_rtc : keeps.

Lemma date_safe args : safe (cmd_date args).
Proof.
  unfold cmd_date, print2. keeps. apply keeps_itoa_small.
  match goal with |- 0 <= 2000 + ?y < _ => assert (is_u8 y) by (case_match; [apply u8_range|done]) end.
  unfold is_u8 in *. lia.
Qed.

Lemma power_safe a b : safe (on_device (power_ports a b)).
Proof. apply keeps_on_device, dkeeps_power. Qed.
Hint Resolve power_safe : keeps.
Lemma reboot_safe args : safe (cmd_reboot args).
Proof. unfold cmd_reboot. keeps. Qed.
Lemma shutdown_safe args : safe (cmd_shutdown args).
Proof. unfold cmd_shutdown. keeps. Qed.

(** The calculator may trap (INT_MIN / -1) but reads only its argument. *)
Lemma calc_safe args : safe (run_calc args).
Proof.
  unfold run_calc. eapply ckeeps_bind with (P := fun _ => True); [|keeps]. apply ckeeps_eval.
  destruct (Calc.cmd_calc_ends args) as [->|[out ->]]; done.
Qed.

(** * The network commands *)

Lemma keeps_array_read p i : bytes p -> 0 <= i < Z.of_nat (length p) -> safe (eval (read p i)).
Proof. intros. apply ckeeps_eval. by rewrite read_ok. Qed.
Lemma ipv4_safe ip : addr_ok ip -> safe (print_ipv4 ip).
Proof.
  intros [Hl Hb]. assert (Hr : forall i, 0 <= i < 4 -> safe (eval (read ip i))) by (intros; apply keeps_array_read; [done|lia]).
  unfold print_ipv4. keeps; apply Hr; lia.
Qed.
Lemma keeps_texts {A} (m : outcome A) (P : A -> Prop) : succeeds m P -> ckeeps tolerated world_ok (eval m) P.
Proof. intros Hm. by apply ckeeps_eval, succeeds_goes. Qed.

Lemma keeps_word cap a : (0 < cap)%nat -> safe (eval (copy_word cap a)).
Proof. intros Hc. eapply ckeeps_any, keeps_texts. by apply copy_text_ok. Qed.
Lemma host_and_ok a : succeeds (host_and a) any.
Proof.
  unfold host_and. eapply succeeds_bind; [apply copy_text_ok; lia|]. intros [h r] _.
  eapply succeeds_bind; [apply copy_text_ok; lia|]. intros [b r'] _. by apply succeeds_ret.
Qed.
Lemma keeps_host_and a : safe (eval (host_and a)).
Proof. apply keeps_texts, host_and_ok. Qed.

Lemma host_path_ok target hs ps : (0 < hs)%nat -> (0 < ps)%nat -> succeeds (extract_host_path target hs ps) any.
Proof.
  intros Hh Hp. unfold extract_host_path. eapply succeeds_bind; [by apply copy_text_ok|]. intros [host rest] _.
  eapply (succeeds_bind _ _ (fun r => (length r.1 < ps)%nat)).
  { destruct (_ =? ch "/"); [by apply copy_until_ok|]. apply succeeds_ret. cbn. lia. }
  intros [path r] Hr. cbn [fst] in Hr. eapply succeeds_bind with (P := any); [|intros p _; by apply succeeds_ret].
  destruct (length path =? 0)%nat; [|rewrite end_text_ok by done; by apply succeeds_ret].
  destruct (Nat.ltb_spec 1 ps); [|by apply succeeds_ret].
  rewrite put_char_ok by (cbn; lia). cbn [mbind outcome_bind]. rewrite end_text_ok by (cbn; lia). by apply succeeds_ret.
Qed.
Lemma keeps_host_path target : safe (eval (extract_host_path target 128 128)).
Proof. apply keeps_texts, host_path_ok; lia. Qed.
Lemma keeps_host_word a : safe (eval (copy_word 128 a)).
Proof. apply keeps_word. lia. Qed.
Hint Resolve keeps_host_word keeps_host_and keeps_host_path : keeps.

Lemma mac_safe mac : forall i, safe (print_mac i mac).
Proof. induction mac as [|b mac IH]; intros i; cbn [print_mac]; unfold print_hex_byte; keeps. Qed.
Hint Resolve ipv4_safe mac_safe : keeps.

Lemma address_safe fuel host msg : ckeeps tolerated world_ok (host_address fuel host msg) addr_ok.
Proof.
  unfold host_address.
  assert (H0 : addr_ok (replicate 4 0)) by (split; [done|apply Forall_replicate, u8_zero]).
  pose proof (parse_ipv4_addr host _ H0) as Hip. destruct (network_parse_ipv4 _ _) as [ok ip].
  destruct ok; [by apply ckeeps_ret|].
  eapply ckeeps_bind; [apply keeps_on_net, keeps_resolve|]. intros [[ip' t]|] Ha; [by apply ckeeps_ret|keeps].
Qed.
Lemma ping_once_safe fuel ip : addr_ok ip -> safe (ping_once fuel ip).
Proof. intros Hip. apply keeps_on_net, (keeps_ping fuel (Some ip)), Hip. Qed.
Lemma info_safe : ckeeps tolerated world_ok (on_net network_get_info) info_ok.
Proof. apply keeps_on_net, keeps_info. Qed.
Hint Resolve address_safe ping_once_safe info_safe : keeps.

Lemma keeps_mac_bytes mac : length mac = 6%nat -> safe (eval (slice mac 0 6)).
Proof. intros Hm. apply ckeeps_eval. unfold slice. by rewrite Hm. Qed.
Lemma ifconfig_safe args : safe (cmd_ifconfig args).
Proof.
  unfold cmd_ifconfig. eapply ckeeps_bind; [apply info_safe|]. intros info (Hm & Hip & Hmask & Hgw). keeps.
  - apply keeps_mac_bytes, Hm.
  - apply keeps_utoa. by right.
Qed.
Lemma netstat_safe args : safe (cmd_netstat args).
Proof. unfold cmd_netstat. eapply ckeeps_bind; [apply info_safe|]. intros info (Hm & Hip & Hmask & Hgw). keeps. Qed.
Lemma nslookup_safe fuel args : safe (cmd_nslookup fuel args).
Proof. unfold cmd_nslookup. keeps. Qed.

Lemma ping_rounds_safe fuel ip n : addr_ok ip -> forall k, safe (ping_rounds fuel ip n k).
Proof. intros Hip. induction n as [|n IH]; intros k; cbn [ping_rounds]; keeps. Qed.
Lemma probes_safe fuel ip n : addr_ok ip -> forall k, safe (traceroute_probes fuel ip n k).
Proof. intros Hip. induction n as [|n IH]; intros k; cbn [traceroute_probes]; keeps. Qed.
Lemma reach_safe fuel ip : addr_ok ip -> safe (put_reachability fuel ip).
Proof. intros Hip. unfold put_reachability. keeps. Qed.
Hint Resolve ping_rounds_safe probes_safe reach_safe : keeps.

Lemma ping_safe fuel args : safe (cmd_ping fuel args).
Proof. unfold cmd_ping. keeps. Qed.
Lemma curl_safe fuel args : safe (cmd_curl fuel args).
Proof. unfold cmd_curl. keeps. Qed.
Lemma telnet_safe fuel args : safe (cmd_telnet fuel args).
Proof. unfold cmd_telnet. keeps. Qed.
Lemma traceroute_safe fuel args : safe (cmd_traceroute fuel args).
Proof. unfold cmd_traceroute. keeps. Qed.

Lemma fs_resolve_file path : ckeeps tolerated world_ok (on_fs (resolve_file path)) link_ok.
Proof. by apply keeps_on_fs, keeps_resolve_file. Qed.
Lemma fs_create parent name : safe (on_fs (create_file parent name)).
Proof. by apply keeps_on_fs, keeps_create. Qed.
Hint Resolve fs_resolve_file fs_create : keeps.

Lemma append_texts_ok cap l : forall dst, (length dst < cap)%nat ->
  succeeds (append_texts cap dst l) (fun r => (length r < cap)%nat).
Proof.
  induction l as [|s l IH]; intros dst Hd; cbn [append_texts]; [by apply succeeds_ret|].
  eapply succeeds_bind; [|apply IH]. unfold append_text. eapply succeeds_bind; [by apply copy_until_ok|].
  intros [d r] Hr. cbn [fst] in Hr. rewrite end_text_ok by done. by apply succeeds_ret.
Qed.

Lemma report_ok target host path ip up : addr_ok ip ->
  succeeds (wget_report target host path ip up) (fun r => (length r < 256)%nat).
Proof.
  intros [Hl Hb]. unfold wget_report. rewrite !read_ok by lia. cbn [mbind outcome_bind].
  rewrite !itoa_into_ok by (apply i32_range || lia). cbn [mbind outcome_bind]. apply append_texts_ok. cbn. lia.
Qed.

Lemma outfile_ok rest : succeeds (match FsCmd.skip_spaces rest with
  | [] => strncpy_text RAMDISK_NAME_LEN (RAMDISK_NAME_LEN - 1) (bs "wget.txt")
  | r => '(name, _) ← copy_rest RAMDISK_NAME_LEN r; Ok name
  end) any.
Proof.
  destruct (FsCmd.skip_spaces rest); [by apply succeeds_ret|].
  eapply succeeds_bind; [apply copy_text_ok; unfold RAMDISK_NAME_LEN; lia|]. intros [n r] _. by apply succeeds_ret.
Qed.

Lemma wget_safe fuel args : safe (cmd_wget fuel args).
Proof.
  unfold cmd_wget. destruct (argument args) as [a|]; [|keeps].
  eapply ckeeps_bind; [apply keeps_word; lia|]. intros [target rest] _.
  eapply ckeeps_bind; [apply keeps_texts, outfile_ok|]. intros outfile _.
  eapply ckeeps_bind; [apply keeps_host_path|]. intros [host path] _. keeps.
  - by apply keeps_texts, report_ok.
  - apply keeps_on_fs, keeps_write; [done|]. cbn beta in *. lia.
Qed.

(** * The shell *)

Lemma on_fs_safe (h : option (list Z) -> cmd fs unit) args :
  (forall E : fault -> Prop, E NoFuel -> ckeeps E fs_ok (h args) (fun _ => True)) -> safe (on_fs (h args)).
Proof. intros Hh. by apply keeps_on_fs, Hh. Qed.

Definition handler_ok (h : handler) : Prop :=
  match h with
  | Text h => forall args, safe (h args)
  | App h => forall args st, shell_ok world_ok st -> goes tolerated (h args st) (shell_ok world_ok)
  end.

Lemma fs_command_ok (h : option (list Z) -> cmd fs unit) :
  (forall E : fault -> Prop, E NoFuel -> forall args, ckeeps E fs_ok (h args) (fun _ => True)) ->
  handler_ok (fs_command h).
Proof. intros Hh args. apply on_fs_safe. intros E HE. by apply Hh. Qed.

Ltac fs_entry lem := apply fs_command_ok; intros E HE args; first [exact (lem E HE args) | exact (lem E args)].

Lemma java_dir_safe : handler_ok java_dir_command.
Proof.
  intros args w Hw. cbn beta. pose proof Hw as [Hfs ? ? ? ?]. unfold cmd_java_dir.
  eapply goes_bind with (P := fun r => fs_ok r.2); [|intros [o st] Hst; split; [by split|done]].
  eapply goes_bind; [by apply (resolve_safe tolerated)|]. intros [n|] Hn; [|done].
  destruct (fs_is_dir (w_fs w) n); [|done].
  destruct (keeps_set_cwd tolerated n (w_fs w) Hfs) as [Hst _]. cbn in Hst.
  pose proof (cmd_ls_safe tolerated tolerated_fuel None _ Hst) as Hls.
  destruct (cmd_ls None _) as [[[o st] r]|e]; done.
Qed.

Section run.
Variables (calls fuel : nat).

(** A program that keeps its part of the world keeps the whole. *)
Lemma run_app_ok {S} (I : S -> Prop) get put (m : M (play S) unit) st :
  (forall w, world_ok w -> I (get w)) -> (forall s w, I s -> world_ok w -> world_ok (put s w)) ->
  mkeeps (play_ok I) m any -> shell_ok world_ok st -> goes tolerated (run_app get put m st) (shell_ok world_ok).
Proof.
  intros Hget Hput Hm. destruct st as [t w]. intros [Ht Hw]. cbn [fst snd] in *. unfold run_app.
  assert (Hp : play_ok I (Play (screen t) (w_input w) (get w))).
  { split; cbn; [by destruct Ht as ([] & _)|apply Hw|by apply Hget]. }
  specialize (Hm (_, w_io w) Hp). unfold wp in Hm. destruct (m _) as [[u [p tr]]|[]]; try done.
  destruct Hm as [[Hv Hi Hs] _]. cbn [mbind outcome_bind fst] in *. split.
  - destruct Ht as ([Hsc Hx Hy] & He & Hh). apply reset_screen_ok. split; [by split|done].
  - apply Hput; [done|]. destruct Hw. by split.
Qed.

Lemma catnake_safe : handler_ok (catnake_command fuel).
Proof.
  intros args st Hst. apply (run_app_ok any); [done| |apply catnake_run_ok|done]. intros s w _ []. by split.
Qed.
Lemma plinko_safe : handler_ok (plinko_command fuel).
Proof.
  intros args st Hst. apply (run_app_ok any); [done| |apply plinko_run_ok|done]. intros s w _ []. by split.
Qed.
Lemma pong_safe : handler_ok (pong_command fuel).
Proof. intros args st Hst. by apply (run_app_ok any); [| |apply cmd_pong_ok|]. Qed.
Lemma mamu_safe : handler_ok (mamu_command fuel).
Proof.
  intros args st Hst. apply (run_app_ok editing_ok); [by intros w []| |apply mamu_run_ok|done].
  intros s w [] []. by split.
Qed.
Lemma desktop_safe : handler_ok (desktop_command fuel).
Proof.
  intros args st Hst. apply (run_app_ok desktop_ok); [by intros w []| |apply desktop_run_ok|done].
  intros s w [] []. by split.
Qed.

(** The table without the two commands that run files as programs. *)
Definition runs_files (name : list Z) : bool := bool_decide (name = bs "java" \/ name = bs "jarinfo").
Definition checked_commands : list (list Z * handler) :=
  List.filter (fun c => negb (runs_files c.1)) (g_commands calls fuel).

Lemma checked_commands_ok : Forall (fun c => handler_ok c.2) checked_commands.
Proof.
  assert (Hsub : Forall (fun c => negb (runs_files c.1) = true -> handler_ok c.2) (g_commands calls fuel)).
  { unfold g_commands.
    apply Forall_cons_2; [intros _; fs_entry (cmd_cd_safe)|].
    apply Forall_cons_2; [intros _; fs_entry (cmd_pwd_safe)|].
    apply Forall_cons_2; [intros _; fs_entry (cmd_tree_safe)|].
    apply Forall_cons_2; [intros _; fs_entry (cmd_cp_safe)|].
    apply Forall_cons_2; [intros _; fs_entry (cmd_mv_safe)|].
    apply Forall_cons_2; [intros _; fs_entry (cmd_rmdir_safe)|].
    apply Forall_cons_2; [intros _; fs_entry (cmd_find_safe)|].
    apply Forall_cons_2; [intros _; fs_entry (cmd_grep_safe)|].
    apply Forall_cons_2; [intros _; fs_entry (cmd_echo_safe)|].
    apply Forall_cons_2; [intros _; fs_entry kat_safe|].
    apply Forall_cons_2; [intros _ args; apply ckeeps_puts|].
    apply Forall_cons_2; [intros _ args; apply ckeeps_puts|].
    apply Forall_cons_2; [intros _ args; apply date_safe|].
    apply Forall_cons_2; [intros _ args; apply reboot_safe|].
    apply Forall_cons_2; [intros _ args; apply shutdown_safe|].
    apply Forall_cons_2; [intros _ args; apply ifconfig_safe|].
    apply Forall_cons_2; [intros _ args; apply netstat_safe|].
    apply Forall_cons_2; [intros _ args; apply nslookup_safe|].
    apply Forall_cons_2; [intros _ args; apply traceroute_safe|].
    apply Forall_cons_2; [intros _ args; apply curl_safe|].
    apply Forall_cons_2; [intros _ args; apply telnet_safe|].
    apply Forall_cons_2; [intros _ args; apply ps_safe|].
    apply Forall_cons_2; [intros _ args; apply kill_safe|].
    apply Forall_cons_2; [intros _ args; apply top_safe|].
    apply Forall_cons_2; [intros _ args; apply dmesg_safe|].
    apply Forall_cons_2; [intros _ args; apply kstats_safe|].
    apply Forall_cons_2; [intros _; apply catnake_safe|].
    apply Forall_cons_2; [intros _; apply pong_safe|].
    apply Forall_cons_2; [intros _; fs_entry (cmd_ls_safe)|].
    apply Forall_cons_2; [intros _; fs_entry (cmd_mkdir_safe)|].
    apply Forall_cons_2; [intros _; fs_entry (cmd_rm_safe)|].
    apply Forall_cons_2; [intros _; fs_entry (cmd_touch_safe)|].
    apply Forall_cons_2; [intros _ args; apply ping_safe|].
    apply Forall_cons_2; [intros _ args; apply wget_safe|].
    apply Forall_cons_2; [intros _; apply mamu_safe|].
    apply Forall_cons_2; [intros _; apply desktop_safe|].
    apply Forall_cons_2; [intros _; fs_entry kat_safe|].
    apply Forall_cons_2; [intros _ args; apply uptime_safe|].
    apply Forall_cons_2; [intros _ args; apply sleep_safe|].
    apply Forall_cons_2; [intros _ args; apply calc_safe|].
    apply Forall_cons_2; [intros _ args; apply beep_safe|].
    apply Forall_cons_2; [by intros Hno|].
    apply Forall_cons_2; [by intros Hno|].
    apply Forall_cons_2; [intros _; apply plinko_safe|].
    apply Forall_cons_2; [intros _; apply java_dir_safe|].
    apply Forall_nil_2. }
  unfold checked_commands. apply Forall_forall. intros c Hc. apply list_elem_of_In, List.filter_In in Hc as [Hc Hno].
  rewrite Forall_forall in Hsub. apply Hsub; [by apply list_elem_of_In|done].
Qed.

Lemma term_print_ok s : forall t, term_ok t -> succeeds (term_print s t) term_ok.
Proof.
  induction s as [|c s IH]; intros t Ht; [by apply succeeds_ret|]. cbn [term_print].
  eapply succeeds_bind; [by apply term_putc_keeps|]. apply IH.
Qed.

Lemma run_handler_ok h args st : handler_ok h -> shell_ok world_ok st ->
  goes tolerated (run_handler h args st) (shell_ok world_ok).
Proof.
  intros Hh [Ht Hw]. destruct h as [h|h]; cbn [run_handler]; [|by apply Hh].
  eapply goes_bind; [by apply (Hh args (snd st))|]. intros [[o w] r] [Hw' _].
  apply then_goes; [by apply term_print_ok|]. by intros t' Ht'.
Qed.

Lemma dispatch_in_ok table cmd args st : Forall (fun c => handler_ok c.2) table -> shell_ok world_ok st ->
  goes tolerated (dispatch_in table cmd args st) (fun r => shell_ok world_ok r.2).
Proof.
  intros Htab Hst. unfold dispatch_in. destruct (hd0 cmd =? 0); [done|].
  assert (Hf : match find_command cmd table with Some h => handler_ok h | None => True end).
  { induction Htab as [|[name h] l Hh _ IH]; cbn [find_command]; [done|]. by destruct (strcmp cmd name =? 0). }
  destruct (find_command cmd table) as [h|]; [|done].
  eapply goes_bind; [by apply run_handler_ok|]. done.
Qed.

Lemma terminal_turn_ok table st : Forall (fun c => handler_ok c.2) table -> shell_ok world_ok st ->
  goes tolerated (terminal_turn fuel table st) (shell_ok world_ok).
Proof.
  intros Htab. destruct st as [t w]. intros [Ht Hw]. cbn [fst snd] in *. unfold terminal_turn.
  pose proof (keeps_poll_key fuel (w_input w, w_io w) (wo_mouse _ Hw)) as Hp. unfold wp in Hp.
  destruct (keyboard_poll fuel (w_input w, w_io w)) as [[key [i tr]]|[]]; try done. destruct Hp as [Hp _]. cbn in Hp.
  assert (Hw' : world_ok (set_input i tr w)) by (destruct Hw; by split).
  cbn [mbind outcome_bind]. destruct (key =? 0); [by split|].
  apply (on_key_ok tolerated world_ok); [|by split]. intros cmd args st' Hst'. by apply dispatch_in_ok.
Qed.

Lemma terminal_loop_ok table n : Forall (fun c => handler_ok c.2) table -> forall st, shell_ok world_ok st ->
  goes tolerated (terminal_loop fuel table n st) (shell_ok world_ok).
Proof.
  intros Htab. induction n as [|n IH]; intros st Hst; [done|]. cbn [terminal_loop].
  eapply goes_bind; [by apply terminal_turn_ok|]. intros st' Hst'. by apply IH.
Qed.
End run.
End io.
