(* ===== verification/SystemSafe.v ===== *)
(** From power-on to the prompt: booting establishes the invariants of
    ShellSafe.v, and the shell keeps them. *)
From Stdlib Require Import ZArith Lia Ascii String.
From stdpp Require Import base tactics option numbers list.
From S2P Require Import Prelude Buffer CString PhysMem Klog Printf Scheduler Command Ramdisk RamdiskInv.
From S2P Require Import RamdiskInit Ports Network NetworkSafe Vga Terminal TerminalProps Input.
From S2P Require Import InputProps Cpu Devices DeviceSafe Settles Mamu Desktop AppSafe FsSafe World Shell ShellSafe Kernel.
#[local] Open Scope Z_scope.

(** * Booting *)

(** The status register shows a byte at each of [n] tests, one byte being read
    and thrown away after each. *)
Fixpoint full_for `{Hardware} (n : nat) (tr : list io_event) : Prop :=
  match n with
  | O => True
  | S n =>
    let s := u8 (answer tr W8 KB_STATUS_PORT) in
    let tr := In W8 KB_STATUS_PORT s :: tr in
    Z.land s KB_STATUS_OBF <> 0 /\ full_for n (In W8 KB_DATA_PORT (u8 (answer tr W8 KB_DATA_PORT)) :: tr)
  end.

(** The only fault of booting: [keyboard_init] waits for ever, since the
    keyboard controller keeps offering bytes. *)
Definition flooded `{Hardware} (fuel : nat) (e : fault) : Prop := e = NoFuel /\ exists tr, full_for fuel tr.

Lemma keyboard_init_ends `{Hardware} fuel st :
  goes (flooded fuel) (keyboard_init fuel st) (fun r => fst r.2 = set_kbd kbd_boot (fst st)).
Proof.
  destruct st as [i tr]. unfold keyboard_init. set (i' := set_kbd kbd_boot i). set (body := status_bit KB_STATUS_OBF ≫= _).
  change (goes (flooded fuel) (mloop fuel body (i', tr)) (fun r => fst r.2 = i')).
  assert (Hl : forall n tr, (exists x tr', mloop n body (i', tr) = Ok (x, (i', tr'))) \/
    (mloop n body (i', tr) = Stuck NoFuel /\ full_for n tr)).
  { clear tr. induction n as [|n IH]; intros tr; [by right|]. cbn [mloop full_for].
    set (s := u8 (answer tr W8 KB_STATUS_PORT)). unfold mbind, M_bind.
    assert (Hb : body (i', tr) = if negb (negb (Z.land s KB_STATUS_OBF =? 0)) then Ok (Some tt, (i', In W8 KB_STATUS_PORT s :: tr))
      else Ok (None, (i', In W8 KB_DATA_PORT (u8 (answer (In W8 KB_STATUS_PORT s :: tr) W8 KB_DATA_PORT)) ::
        In W8 KB_STATUS_PORT s :: tr))) by
      (unfold body, status_bit, inb, port_in, mbind, M_bind, mret, M_ret; cbn [fst snd trunc]; fold s; by destruct (negb _)).
    rewrite !Hb. destruct (Z.eqb_spec (Z.land s KB_STATUS_OBF) 0) as [_|Hs]; cbn [negb]; [by left; do 2 eexists|].
    destruct (IH (In W8 KB_DATA_PORT (u8 (answer (In W8 KB_STATUS_PORT s :: tr) W8 KB_DATA_PORT)) ::
      In W8 KB_STATUS_PORT s :: tr)) as [?|[? ?]]; [by left|by right]. }
  destruct (Hl fuel tr) as [(x & tr' & ->)|[-> Hf]]; [done|]. split; [done|by exists tr].
Qed.

Section boot.
Context `{Hardware} (fuel : nat).
Abbreviation waits := (flooded fuel).

(** The invariant of the boot sequence, with what holds of the scheduler's part
    and of the file system at a stage. *)
Record stage (Rs : sched -> Prop) (Rf : fs -> Prop) (k : kernel) : Prop := {
  st_screen : vga_ok (k_screen k);
  st_gdt : length (gdt_entries (k_gdt k)) = 3%nat;
  st_idt : length (idt_entries (k_idt k)) = 256%nat;
  st_devices : devices_ok (k_devices k);
  st_mouse : mouse_ok (the_mouse (k_input k));
  st_net : net_ok (k_net k);
  st_log : klog_ok (log (k_sched k));
  st_sched : Rs (k_sched k);
  st_fs : Rf (k_fs k);
}.

(** A step from one stage to the next, with a value satisfying [P]. *)
Definition step {A} (S : kernel -> Prop) (m : M kernel A) (S' : kernel -> Prop) (P : A -> Prop) : Prop :=
  forall st, S (fst st) -> goes waits (m st) (fun r => S' (fst r.2) /\ P r.1).

Lemma step_bind {A B} (S S' S'' : kernel -> Prop) (m : M kernel A) (f : A -> M kernel B) P Q :
  step S m S' P -> (forall a, P a -> step S' (f a) S'' Q) -> step S (m ≫= f) S'' Q.
Proof.
  intros Hm Hf st Hst. unfold mbind, M_bind. specialize (Hm st Hst). destruct (m st) as [[a st']|e]; [|done].
  destruct Hm as [Hst' Ha]. by apply (Hf a Ha st').
Qed.

Lemma step_skip S : step S skip S (fun _ => True).
Proof. by intros st Hst. Qed.

Lemma step_gets {A} S (f : kernel -> A) (P : A -> Prop) : (forall k, S k -> P (f k)) -> step S (gets f) S P.
Proof. intros HP st Hst. split; [done|]. by apply HP. Qed.

Lemma step_modify (S S' : kernel -> Prop) f : (forall k, S k -> S' (f k)) -> step S (modify f) S' (fun _ => True).
Proof. intros Hf st Hst. split; [by apply Hf|done]. Qed.

Lemma step_lift {A} S (o : outcome A) (P : A -> Prop) : goes waits o P -> step S (lift o) S P.
Proof. intros Ho st Hst. unfold lift. by destruct o. Qed.

Section stages.
Context (Rs : sched -> Prop) (Rf : fs -> Prop).
Hypothesis Rs_log : forall s l, Rs s -> klog_ok l -> Rs (set_log s l).
Notation now := (stage Rs Rf).

Lemma step_devices {A} (m : M devices A) P : settles m -> dkeeps m P -> step now (on_devices m) now P.
Proof.
  intros He Hm [k tr] Hk. cbn [fst] in Hk. pose proof (Hm (k_devices k, tr) (st_devices _ _ _ Hk)) as Hwp.
  unfold wp, on_devices in *. specialize (He (k_devices k, tr)).
  destruct (m (k_devices k, tr)) as [[a [d tr']]|[]]; cbn; try done.
  destruct Hwp as [Hd Ha]. split; [|done]. destruct Hk. by split.
Qed.

Lemma step_logging f : (forall b l, klog_ok l -> succeeds (f b l) (fun r => klog_ok r.1)) -> step now (logging f) now (fun _ => True).
Proof.
  intros Hf. unfold logging. eapply step_bind with (P := fun _ => True).
  { apply step_devices; unfold serial_is_ready; [auto with settles|]. by apply dkeeps_gets. }
  intros ready _ [k tr] Hk. cbn [fst] in Hk. unfold mbind at 1, M_bind at 1, Ports.get. cbn [fst snd].
  destruct (Hf ready _ (st_log _ _ _ Hk)) as ([l out] & E & Hl). cbn [fst] in Hl.
  unfold mbind at 1, M_bind at 1, lift. rewrite E. cbn [mbind outcome_bind].
  apply (step_bind now now now _ _ (fun _ => True) (fun _ => True)); [|intros _ _; apply step_devices; [apply settles_write|apply dkeeps_write]|exact Hk].
  apply step_modify. intros k' []. destruct Hk. split; try done. by apply Rs_log.
Qed.

Lemma step_say level subsys msg : step now (klog_say level subsys msg) now (fun _ => True).
Proof. apply step_logging. intros b l Hl. apply succeeds_ret. by apply klog_log_ok. Qed.

Lemma step_print fmt ap t : format_text fmt ap = Ok t -> step now (print fmt ap) now (fun _ => True).
Proof.
  intros Ht. unfold print. eapply step_bind with (P := fun _ => True).
  - apply step_lift. unfold kprintf. by rewrite kvprintf_spec, Ht.
  - intros [out n] _. apply step_devices; [apply settles_write|apply dkeeps_write].
Qed.

(** ** The processor tables *)

Lemma gdt_set_gate_length num base limit acc gran g : 0 <= num < 3 -> length (gdt_entries g) = 3%nat ->
  goes waits (gdt_set_gate num base limit acc gran g) (fun g' => length (gdt_entries g') = 3%nat).
Proof. intros Hn Hg. unfold gdt_set_gate. rewrite store_ok by lia. cbn. by rewrite length_insert. Qed.

Lemma gdt_init_length addr g : length (gdt_entries g) = 3%nat ->
  goes waits (gdt_init addr g) (fun g' => length (gdt_entries g') = 3%nat).
Proof.
  intros Hg. unfold gdt_init. eapply goes_bind; [by apply gdt_set_gate_length|]. intros g1 H1.
  eapply goes_bind; [by apply gdt_set_gate_length|]. intros g2 H2. by apply gdt_set_gate_length.
Qed.

Lemma step_cpu where_ : step now (boot_cpu where_) now (fun _ => True).
Proof.
  unfold boot_cpu, pit_init.
  eapply step_bind; [apply step_gets with (P := fun g => length (gdt_entries g) = 3%nat); by intros k []|]. intros g Hg.
  eapply step_bind; [by apply step_lift, gdt_init_length|]. intros g' Hg'.
  eapply step_bind; [apply step_modify with (S' := now); intros k []; by split|intros _ _].
  eapply step_bind; [apply step_say|intros _ _].
  eapply step_bind; [apply step_gets with (P := fun t => length (idt_entries t) = 256%nat); by intros k []|]. intros t Ht.
  eapply step_bind with (P := fun t => length (idt_entries t) = 256%nat).
  { apply step_lift, succeeds_goes. unfold idt_init. eapply succeeds_mono; [apply idt_zero_ok; [done|lia..]|]. by intros t' []. }
  intros t' Ht'. eapply step_bind; [apply step_modify with (S' := now); intros k []; by split|intros _ _].
  eapply step_bind; [apply step_say|intros _ _].
  eapply step_bind with (P := fun _ => True); [|intros _ _; apply step_say].
  eapply step_bind.
  { apply step_devices; unfold pit_program; [auto with settles|]. do 2 (eapply dkeeps_bind; [apply dkeeps_out|intros _ _]). apply dkeeps_out. }
  intros _ _.
  eapply step_bind; [apply step_gets with (P := fun t => length (idt_entries t) = 256%nat); by intros k []|]. intros u Hu. cbn beta in Hu.
  eapply step_bind with (P := fun t => length (idt_entries t) = 256%nat).
  { apply step_lift. unfold idt_register_handler, idt_set_gate. rewrite store_ok by lia. cbn. by rewrite length_insert. }
  intros u' Hu'. eapply step_bind; [apply step_modify with (S' := now); intros k []; by split|intros _ _].
  apply step_devices; unfold pit_unmask; [auto with settles|]. eapply dkeeps_bind; [apply dkeeps_in|]. intros m _. apply dkeeps_out.
Qed.

(** ** The screen and the keyboard *)

Lemma step_keyboard : step now (on_input (keyboard_init fuel)) now (fun _ => True).
Proof.
  intros [k tr] Hk. cbn [fst] in Hk. pose proof (keyboard_init_ends fuel (k_input k, tr)) as Hi.
  unfold on_input. destruct (keyboard_init fuel (k_input k, tr)) as [[a [i tr']]|e]; cbn in Hi; [|exact Hi].
  subst i. destruct Hk. by split.
Qed.

Lemma step_screen : step now (boot_screen fuel) now (fun _ => True).
Proof.
  unfold boot_screen.
  eapply step_bind; [apply step_modify with (S' := now); intros k []; split; try done; apply length_replicate|intros _ _].
  eapply step_bind; [apply step_devices; [apply settles_gfx|apply dkeeps_gfx]|intros _ _].
  eapply step_bind with (P := fun _ => True); [apply step_devices; [auto with settles|by apply dkeeps_gets]|intros v _].
  eapply step_bind with (P := fun _ => True); [destruct v; apply step_say|intros _ _].
  eapply step_bind; [apply step_keyboard|intros _ _]. apply step_say.
Qed.
End stages.

(** * The stages in order *)

(** The memory the kernel manages: 64 MiB, 32 MiB of it free pages. *)
Definition fresh (s : sched) : Prop :=
  pages s = pmm_init KERNEL_BOOT_MEM_BYTES /\ kheap s = heap_init /\ next_pid s = 1.
Definition unready (s : sched) : Prop := next_pid s = 1.
Definition any_fs (_ : fs) : Prop := True.

Lemma unready_log s l : unready s -> klog_ok l -> unready (set_log s l).
Proof. done. Qed.
Lemma fresh_log s l : fresh s -> klog_ok l -> fresh (set_log s l).
Proof. done. Qed.
Lemma sched_log s l : sched_ok s -> klog_ok l -> sched_ok (set_log s l).
Proof. intros (ring & Hr & Hn) Hl. exists ring. split; [by apply ring_set_log|done]. Qed.

Lemma boot_pages : pmm_free_blocks_count (pmm_init KERNEL_BOOT_MEM_BYTES) = 8192.
Proof. vm_compute. reflexivity. Qed.

Lemma boot_process : (kmalloc heap_init sizeof_process).1 <> 0.
Proof. vm_compute. discriminate. Qed.

Lemma step_memory : step (stage unready any_fs) boot_memory (stage sched_ok any_fs) (fun _ => True).
Proof.
  unfold boot_memory.
  eapply step_bind; [apply step_modify with (S' := stage fresh any_fs); intros k []; by split|intros _ _].
  eapply step_bind; [apply step_gets with (P := fun n => n = 8192); intros k [? ? ? ? ? ? ? (Hp & _) ?];
    rewrite Hp; apply boot_pages|]. intros n Hn.
  cbn beta in Hn. subst n.
  eapply step_bind; [apply step_logging; [exact fresh_log|]; intros; apply klog_log_u32_ok; [done|apply u32_range]|intros _ _].
  eapply step_bind; [eapply step_print; vm_compute; reflexivity|intros _ _].
  eapply step_bind; [apply step_skip|intros _ _].
  intros [k tr] Hk. cbn [fst] in Hk. pose proof Hk as [? ? ? ? ? ? Hl (Hp & Hh & Hn) ?].
  destruct (init_spec (k_sched k)) as (s & E & n & Hr & _); [rewrite Hh; apply heap_init_ok| |done|done| |].
  - rewrite Hp. by apply pmm_init_ok.
  - rewrite Hh. apply boot_process.
  - unfold mbind at 1 2, M_bind, Ports.get, lift. cbn [fst snd]. rewrite E.
    apply (step_bind (eq k) (stage sched_ok any_fs) (stage sched_ok any_fs) (modify (set_k_sched s))
      (fun _ => klog_say KLOG_INFO (bs "boot") (bs "scheduler initialized")) (fun _ => True) (fun _ => True));
      [|intros _ _; apply step_say; exact sched_log|done].
    apply step_modify. intros k' <-. split; try done; [apply (ok_log _ _ Hr)|].
    exists [n]. split; [done|]. cbn. lia.
Qed.

Lemma step_services : step (stage sched_ok any_fs) boot_services (stage sched_ok fs_ok) (fun _ => True).
Proof.
  unfold boot_services. eapply step_bind with (S' := stage sched_ok fs_ok) (P := fun _ => True).
  - intros [k tr] Hk. unfold fat32_init, mbind, M_bind, lift. pose proof (ramdisk_init_safe waits) as Hi.
    destruct ramdisk_init as [s|e]; [|done]. destruct Hk. split; [by split|done].
  - intros _ _. do 2 (eapply step_bind; [apply step_say; exact sched_log|intros _ _]). apply step_say; exact sched_log.
Qed.

Lemma image_stage screen future : vga_ok screen -> Z.of_nat (sum_list future) <= max_ticks ->
  stage unready any_fs (image screen future).
Proof.
  intros Hv Hf. split; try done.
  apply net_boot_ok.
Qed.

Lemma step_main where_ : step (stage unready any_fs) (kernel_main where_ fuel) (stage sched_ok fs_ok) (fun _ => True).
Proof.
  unfold kernel_main.
  eapply step_bind; [apply step_devices; [apply settles_serial_init|apply dkeeps_serial_init]|intros _ _].
  eapply step_bind; [apply step_devices; [apply settles_write|apply dkeeps_write]|intros _ _].
  eapply step_bind; [eapply step_print; vm_compute; reflexivity|intros _ _].
  eapply step_bind; [apply step_modify with (S' := stage unready any_fs); intros k []; by split|intros _ _].
  eapply step_bind; [apply step_say; exact unready_log|intros _ _].
  eapply step_bind; [apply step_cpu; exact unready_log|intros _ _].
  eapply step_bind; [apply step_memory|intros _ _].
  eapply step_bind; [apply step_services|intros _ _].
  apply step_screen; exact sched_log.
Qed.

Lemma stage_world k tr : stage sched_ok fs_ok k -> world_ok (world_of k tr).
Proof. intros []. split; try done; [apply mamu_boot_ok|apply wm_boot_ok]. Qed.

(** Power-on to the [n]th turn of the shell's loop, over a command table. *)
Definition run_system (where_ : layout)
    (table : list (list Z * handler)) (screen : vga) (future : list nat) (n : nat) : outcome (term * world) :=
  '(_, (k, tr)) ← kernel_main where_ fuel (image screen future, []);
  terminal_run fuel table n (term_boot (k_screen k), world_of k tr).
End boot.

(** * The theorems *)

(** C2: Booting succeeds: from any screen contents, with any hardware, at any
    addresses, and the timer counting at most 999999 ticks, [kernel_main] reaches
    [terminal_run] without a fault or a panic (unless the keyboard controller
    still offers a byte at each of the [fuel] tests of [keyboard_init]), and hands over the file system, the process ring
    with the kernel process, the network globals, the mouse, the devices, the
    screen and the descriptor tables in states that satisfy their invariants. *)
Theorem kernel_boots (hw : Hardware) where_ fuel screen future :
  vga_ok screen -> Z.of_nat (sum_list future) <= max_ticks ->
  goes (flooded fuel) (kernel_main where_ fuel (image screen future, []))
    (fun '(_, (k, tr)) => stage sched_ok fs_ok k /\ world_ok (world_of k tr)).
Proof.
  intros Hv Hf. pose proof (step_main fuel where_ (image screen future, []) (image_stage screen future Hv Hf)) as Hk.
  eapply goes_mono; [exact Hk|]. intros [u [k tr]] [Hst _]. split; [exact Hst|by apply stage_world].
Qed.

Definition idle_hardware : Hardware := fun _ _ _ => 0.

Lemma kernel_boots_witness :
  goes (@flooded idle_hardware 1) (@kernel_main idle_hardware (Layout 4096 8192 12288) 1 (image (Vga (replicate 2000 0) 0 0) [1; 0; 2]%nat, []))
    (fun '(_, (k, tr)) => stage sched_ok fs_ok k /\ world_ok (world_of k tr)).
Proof.
  apply (kernel_boots idle_hardware (Layout 4096 8192 12288) 1 (Vga (replicate 2000 0) 0 0) [1; 0; 2]%nat).
  - reflexivity.
  - vm_compute. discriminate.
Defined.

(** C1: The system stays inside its memory: from power-on, with any answers of
    the hardware (so any keys, mouse movements, packets and times), any number
    of turns of the shell's loop, running any of the commands other than java
    and jarinfo, accesses no object outside its bounds, and the invariants of
    terminal, file system, scheduler, log, network and devices hold after every
    turn.  Each access to the screen, the line and the history, the tables of
    the file system, the process structures, the network buffers and packets, the
    arrays of the programs and the buffers that commands and log copy words,
    names, hosts, paths and numbers into is checked against the object's size
    where it happens, the terminating NULs included; of the page bitmap and the
    ring of the log the invariants bound the index instead.  The commands include
    the games, the editor and the desktop with any number of turns of their
    loops.  The timer counts at most 999999 ticks (2 h 46 min), beyond which the
    8-byte buffer of [uptime] overflows. *)
Theorem system_safe (hw : Hardware) where_ calls fuel screen future n :
  vga_ok screen -> Z.of_nat (sum_list future) <= max_ticks ->
  goes tolerated (run_system fuel where_ (checked_commands calls fuel) screen future n) (shell_ok world_ok).
Proof.
  intros Hv Hf. unfold run_system.
  pose proof (step_main fuel where_ (image screen future, []) (image_stage screen future Hv Hf)) as Hk.
  eapply goes_bind with (P := fun r => stage sched_ok fs_ok (fst r.2)).
  - eapply goes_impl; [|eapply goes_mono; [exact Hk|by intros r []]]. by intros e [-> _].
  - intros [u [k tr]] Hst. cbn [fst snd] in Hst. unfold terminal_run. cbn [fst snd].
    apply then_goes; [apply terminal_start_ok, (st_screen _ _ _ Hst)|]. intros t Ht.
    apply terminal_loop_ok; [apply checked_commands_ok|]. split; [done|by apply stage_world].
Qed.

(** A keyboard that types "ls" and Enter, on a machine with no other device. *)
Definition typing_ls : Hardware := fun tr w p =>
  ps2 [(false, 38); (false, 31); (false, 28)] tr w p.

Lemma system_safe_witness :
  goes tolerated (@run_system typing_ls 9 (Layout 4096 8192 12288) (@checked_commands typing_ls 5 9)
    (Vga (replicate 2000 0) 0 0) [] 20) (shell_ok world_ok).
Proof.
  apply (system_safe typing_ls (Layout 4096 8192 12288) 5 9 (Vga (replicate 2000 0) 0 0) [] 20).
  - reflexivity.
  - vm_compute. discriminate.
Defined.
