(* ===== verification/Main64.v ===== *)
(** The 64-bit kernel, src/src/kernel/main64.c: a monitor with its own screen and
    keyboard code over the RAM disk, the string functions and the serial driver
    of the 32-bit kernel.

    [cpuid] is the processor's instruction.  The start-up code leaves interrupts
    off, so a [hlt] returns only after a non-maskable one: [wakes] says whether
    it does, given the port accesses so far; else the program stops there. *)
From Stdlib Require Import ZArith Lia Ascii String.
From stdpp Require Import base tactics option numbers list.
From S2P Require Import Prelude Buffer CString Console Command Ports Vga Terminal Input Devices.
From S2P Require Import Ramdisk RamdiskInit FsCmd JavaClass Hjar.
#[local] Open Scope Z_scope.

(** * State *)

Record cpu_info64_t := CpuInfo {
  vendor : list Z; family : Z; model : Z; stepping : Z; has_apic : bool; has_sse2 : bool; has_long_mode : bool }.

(** The globals, with those of serial.c and ramdisk.c, and the line that
    [kernel_main64] reads. *)
Record monitor := Monitor {
  g_vga : list Z; g_row : Z; g_col : Z; g_cpu : cpu_info64_t; m_kbd : kbd; m_devices : devices; m_fs : fs;
  line : list Z; len : Z }.

Definition cpu_zero : cpu_info64_t := CpuInfo (replicate 13 0) 0 0 0 false false false.

(** The state the loader leaves: [screen] is what the screen shows, [stack] the
    bytes where [line] will be. *)
Definition monitor_image (screen stack : list Z) : monitor :=
  Monitor screen 0 0 cpu_zero kbd_boot (devices_boot []) ramdisk_clear stack 0.

Definition set_screen (v : list Z) (row col : Z) (m : monitor) : monitor :=
  Monitor v row col (g_cpu m) (m_kbd m) (m_devices m) (m_fs m) (line m) (len m).
Definition set_cpu (c : cpu_info64_t) (m : monitor) : monitor :=
  Monitor (g_vga m) (g_row m) (g_col m) c (m_kbd m) (m_devices m) (m_fs m) (line m) (len m).
Definition set_m_kbd (k : kbd) (m : monitor) : monitor :=
  Monitor (g_vga m) (g_row m) (g_col m) (g_cpu m) k (m_devices m) (m_fs m) (line m) (len m).
Definition set_m_devices (d : devices) (m : monitor) : monitor :=
  Monitor (g_vga m) (g_row m) (g_col m) (g_cpu m) (m_kbd m) d (m_fs m) (line m) (len m).
Definition set_m_fs (s : fs) (m : monitor) : monitor :=
  Monitor (g_vga m) (g_row m) (g_col m) (g_cpu m) (m_kbd m) (m_devices m) s (line m) (len m).
Definition set_m_line (b : list Z) (n : Z) (m : monitor) : monitor :=
  Monitor (g_vga m) (g_row m) (g_col m) (g_cpu m) (m_kbd m) (m_devices m) (m_fs m) b n.

(** * Keyboard *)

(** This file's own tables: 135 and 113 entries. *)
Definition scancode_ascii : list Z :=
  [0; 27] ++ bs "1234567890-=" ++ [8; 9] ++ bs "qwertyuiop[]" ++ [13; 0] ++ bs "asdfghjkl;'`" ++
  [0] ++ bs "\zxcvbnm,./" ++ [0; ch "*"; 0; ch " "; 0] ++ replicate 76 0.
Definition scancode_shift : list Z :=
  [0; 27] ++ bs "!@#$%^&*()_+" ++ [8; 9] ++ bs "QWERTYUIOP{}" ++ [13; 0] ++ bs "ASDFGHJKL:" ++
  [34] ++ bs "~" ++ [0] ++ bs "|ZXCVBNM<>?" ++ [0; ch "*"; 0; ch " "; 0] ++ replicate 54 0.

Definition extended_keys64 : list (Z * Z) :=
  [(72, KEY_UP); (80, KEY_DOWN); (75, KEY_LEFT); (77, KEY_RIGHT); (71, KEY_HOME); (79, KEY_END); (83, KEY_DELETE)].
Definition plain_keys64 : list (Z * Z) := [(14, KEY_BACKSPACE); (28, KEY_ENTER); (1, KEY_ESCAPE)].

(** What [keyboard_poll_ps2] does with a byte: the key it returns, 0 for none. *)
Definition ps2_byte (sc : Z) (k : kbd) : outcome (Z * kbd) :=
  let extended e := Kbd (g_shift_left k) (g_shift_right k) e in
  if sc =? 224 then Ok (0, extended true)
  else
    let released := negb (Z.land sc 128 =? 0) in
    let code := Z.land sc 127 in
    if code =? 42 then Ok (0, Kbd (negb released) (g_shift_right k) (g_extended k))
    else if code =? 54 then Ok (0, Kbd (g_shift_left k) (negb released) (g_extended k))
    else if released then Ok (0, extended false)
    else if g_extended k then Ok (default 0 (key_switch extended_keys64 code), extended false)
    else
      match key_switch plain_keys64 code with
      | Some key => Ok (key, k)
      | None =>
        c ← (if code <? 128 then read (if shift_held k then scancode_shift else scancode_ascii) code else Ok 0);
        Ok (c, k)
      end.

(** * Processor information *)

Section cpu.
(** [cpuid leaf subleaf] is eax, ebx, ecx, edx. *)
Variable cpuid : Z -> Z -> Z * Z * Z * Z.

(** The four bytes of a register, the lowest first. *)
Definition register_bytes (r : Z) : list Z :=
  [Z.land r 255; Z.land (Z.shiftr r 8) 255; Z.land (Z.shiftr r 16) 255; Z.land (Z.shiftr r 24) 255].

Definition cpu_collect : cpu_info64_t :=
  let '(max_leaf, b, c, d) := cpuid 0 0 in
  let v := register_bytes b ++ register_bytes d ++ register_bytes c ++ [0] in
  let info :=
    if max_leaf >=? 1 then
      let '(a, _, _, d) := cpuid 1 0 in
      let model := Z.land (Z.shiftr a 4) 15 in
      let family := Z.land (Z.shiftr a 8) 15 in
      let ext_model := Z.land (Z.shiftr a 16) 15 in
      let ext_family := Z.land (Z.shiftr a 20) 255 in
      let model := if (family =? 6) || (family =? 15) then Z.lor model (Z.shiftl ext_model 4) else model in
      let family := if family =? 15 then family + ext_family else family in
      CpuInfo v family model (Z.land a 15) (Z.testbit d 9) (Z.testbit d 26) false
    else CpuInfo v 0 0 0 false false false in
  let '(max_ext_leaf, _, _, _) := cpuid 2147483648 0 in
  if max_ext_leaf >=? 2147483649 then
    let '(_, _, _, d) := cpuid 2147483649 0 in
    CpuInfo (vendor info) (family info) (model info) (stepping info) (has_apic info) (has_sse2 info) (Z.testbit d 29)
  else info.
End cpu.

(** * Commands *)

Definition yes_no (b : bool) : list Z := if b then bs "yes" else bs "no".

Definition cmd_info (c : cpu_info64_t) : cmd fs unit :=
  puts (bs "CPU vendor: ");; puts (vendor c);; puts [10];;
  puts (bs "Family/Model/Stepping: ");;
  console (term_print_u32 (family c) 10);; puts (bs "/");;
  console (term_print_u32 (model c) 10);; puts (bs "/");;
  console (term_print_u32 (stepping c) 10);; puts [10];;
  puts (bs "Features: APIC=");; puts (yes_no (has_apic c));;
  puts (bs " SSE2=");; puts (yes_no (has_sse2 c));;
  puts (bs " LongMode=");; puts (yes_no (has_long_mode c));; puts [10].

(** The commands' own versions, [args] being NULL or the text after the name. *)
Definition resolve_node (path : option (list Z)) : cmd fs nat :=
  match nonempty path with None => look fs_cwd_get | Some p => resolve p end.

Definition cmd_pwd : cmd fs unit :=
  path ← query (fun st => fs_build_path st (fs_cwd_get st) 64);
  puts (default [] path);; puts [10].

Definition cmd_cd (args : option (list Z)) : cmd fs unit :=
  match nonempty args with
  | None => update (fun st => fs_cwd_set st 0)
  | Some a =>
    node ← if_fails (resolve_node (Some a)) (quit_with (bs "cd: directory not found" ++ [10]));
    d ← is_dir node;
    if negb d then quit_with (bs "cd: directory not found" ++ [10])
    else update (fun st => fs_cwd_set st node)
  end.

Definition ls_line (child : nat) : cmd fs unit :=
  d ← is_dir child;
  puts (if (d : bool) then bs "[D] " else bs "[F] ");;
  name ← look (fun st => fs_get_name st child);
  puts name;; puts [10].

Definition cmd_ls (args : option (list Z)) : cmd fs unit :=
  node ← if_fails (resolve_node args) (quit_with (bs "ls: path not found" ++ [10]));
  f ← is_file node;
  if (f : bool) then name ← look (fun st => fs_get_name st node); puts name;; puts [10]
  else
    iter ← if_fails (list_begin node) (quit_with (bs "(empty)" ++ [10]));
    each_child 64 iter ls_line.

Definition cmd_cat (args : option (list Z)) : cmd fs unit :=
  match nonempty args with
  | None => quit_with (bs "cat: missing file path" ++ [10])
  | Some a =>
    node ← if_fails (resolve_node (Some a)) (quit_with (bs "cat: file not found" ++ [10]));
    f ← is_file node;
    if negb f then quit_with (bs "cat: file not found" ++ [10])
    else
      '(buf, n) ← query (fun st => fs_read st node 1023);
      if n <? 0 then quit_with (bs "cat: read failed" ++ [10])
      else
        puts buf;;
        c ← eval (if n >? 0 then read buf (n - 1) else Ok 10);
        if c =? 10 then mret tt else puts [10]
  end.

(** Both functions have the text of java.c. *)
Definition java_detect_format (data : list Z) (size : Z) : outcome Z := Hjar.java_detect_format data size.
Definition java_hjar_exec (data : list Z) (size : Z) : prog unit := Hjar.java_hjar_exec data size.

(** A turn of the loop over the local file headers, from offset [off]. *)
Definition zip_list_turn (data : list Z) (size : Z) (st : Z * Z) : prog (Z * Z + Z) :=
  let '(off, entries) := st in
  if off + 30 <=? size then
    sig ← Console.lift (rd_le32 data off);
    if negb (sig =? 67324752) then mret (inr entries)
    else
      flags ← Console.lift (rd_le16 data (off + 6));
      method ← Console.lift (rd_le16 data (off + 8));
      comp_size ← Console.lift (rd_le32 data (off + 18));
      name_len ← Console.lift (rd_le16 data (off + 26));
      extra_len ← Console.lift (rd_le16 data (off + 28));
      let name_off := off + 30 in
      let data_off := name_off + name_len + extra_len in
      if (name_off + name_len >? size) || (data_off >? size) then die (bs "jarinfo: truncated header" ++ [10])
      else if negb (Z.land flags 8 =? 0) then
        die (bs "jarinfo: data-descriptor jars not supported yet" ++ [10])
      else if i32 (data_off + i32 comp_size) >? size then die (bs "jarinfo: entry size out of range" ++ [10])
      else
        name ← Console.lift (slice data name_off (Z.min name_len 63));
        say (bs "  - ");; say (buf_text name);;
        say (bs "  method=");; term_print_u32 method 10;;
        say (bs "  bytes=");; term_print_u32 comp_size 10;; say [10];;
        mret (inl (i32 (data_off + i32 comp_size), entries + 1))
  else mret (inr entries).

(** A walk that ends visits no offset twice, so [size] turns and two are enough. *)
Definition java_zip_list_entries (data : list Z) (size : Z) : prog unit :=
  entries ← ploop (Z.to_nat size + 2) (zip_list_turn data size) (0, 0);
  if entries =? 0 then die (bs "jarinfo: no local file headers found" ++ [10])
  else
    say (bs "jarinfo: entries parsed=");; term_print_u32 (u32 entries) 10;; say [10].

Definition java_class_info (data : list Z) (size : Z) : prog unit :=
  magic ← (if size <? 10 then mret 0 else Console.lift (rd_be32 data 0));
  if negb (magic =? 3405691582) then die (bs "java: invalid class file" ++ [10])
  else
    minor ← Console.lift (rd_be16 data 4);
    major ← Console.lift (rd_be16 data 6);
    cp_count ← Console.lift (rd_be16 data 8);
    say (bs "ClassFile version: ");; term_print_u32 major 10;; say (bs ".");; term_print_u32 minor 10;;
    say (bs "  cp_count=");; term_print_u32 cp_count 10;; say [10];;
    say (bs "Execution: full JVM class execution is not implemented yet." ++ [10]).

Definition load_file_to_buf (path : option (list Z)) (cap : Z) : cmd fs (list Z * Z * Z) :=
  match nonempty path with
  | None => quit_with (bs "java: missing file path" ++ [10])
  | Some p =>
    node ← if_fails (resolve_node (Some p)) (quit_with (bs "java: file not found" ++ [10]));
    f ← is_file node;
    if negb f then quit_with (bs "java: file not found" ++ [10])
    else
      '(buf, n) ← query (fun st => fs_read st node cap);
      if n <=? 0 then quit_with (bs "java: failed to read file" ++ [10])
      else fmt ← eval (java_detect_format buf n); mret (buf, n, fmt)
  end.

Definition jarinfo_of (buf : list Z) (n fmt : Z) : prog unit :=
  if fmt =? 1 then
    v ← Console.lift (read buf 4);
    say (bs "jarinfo: HJAR (HeatOS mini format), version=");; term_print_u32 v 10;;
    say (bs " size=");; term_print_u32 (u32 n) 10;; say [10]
  else if fmt =? 2 then
    say (bs "jarinfo: ZIP/JAR detected" ++ [10]);; attempt (java_zip_list_entries buf n);; mret tt
  else if fmt =? 3 then
    say (bs "jarinfo: ClassFile detected" ++ [10]);; java_class_info buf n
  else say (bs "jarinfo: unknown file format" ++ [10]).

Definition java_of (buf : list Z) (n fmt : Z) : prog unit :=
  if fmt =? 1 then
    say (bs "java: running HJAR app" ++ [10]);; attempt (java_hjar_exec buf n);; mret tt
  else if fmt =? 2 then
    say (bs "java: ZIP/JAR detected. Entry listing:" ++ [10]);;
    attempt (java_zip_list_entries buf n);;
    say (bs "java: full JVM .jar execution is in progress (class loader + verifier pending)." ++ [10])
  else if fmt =? 3 then
    say (bs "java: direct .class input detected" ++ [10]);; java_class_info buf n
  else say (bs "java: unsupported file format" ++ [10]).

Definition cmd_jarinfo (args : option (list Z)) : cmd fs unit :=
  '(buf, n, fmt) ← load_file_to_buf args 4096; console (jarinfo_of buf n fmt).
Definition cmd_java (args : option (list Z)) : cmd fs unit :=
  '(buf, n, fmt) ← load_file_to_buf args 4096; console (java_of buf n fmt).

Definition cmd_help : list (list Z) := [
  bs "x64 monitor commands:";
  bs "  help               - show this list";
  bs "  clear              - clear screen";
  bs "  info               - CPU + feature info";
  bs "  pwd                - print working directory";
  bs "  cd <path>          - change directory";
  bs "  ls [path]          - list files";
  bs "  cat <path>         - print file";
  bs "  jarinfo <path>     - inspect HJAR/ZIP/Class file";
  bs "  java <path>        - run HJAR or inspect ZIP/Class";
  bs "  reboot             - keyboard-controller reset";
  bs "  halt               - halt CPU" ].

(** The line cut at its first space, the name in lower case, and the arguments.
    [buffer] is the array, which changes in place. *)
Fixpoint lower_text (s : list Z) : list Z :=
  match s with
  | [] => []
  | c :: s' => if c =? 0 then s else (if (ch "A" <=? c) && (c <=? ch "Z") then c - ch "A" + ch "a" else c) :: lower_text s'
  end.

Definition split_line (buffer : list Z) : outcome (list Z * option (list Z)) :=
  match strchr (buf_text buffer) (ch " ") with
  | None => Ok (lower_text buffer, None)
  | Some i =>
    b ← blit buffer (Z.of_nat i) [0];
    let args := FsCmd.skip_spaces (buf_text (drop (S i) b)) in
    Ok (lower_text b, if hd0 args =? 0 then None else Some args)
  end.

(** The commands that print; [None] when there is none of the name. *)
Definition text_command (c : cpu_info64_t) (name : list Z) (args : option (list Z)) : option (cmd fs unit) :=
  if strcmp name (bs "info") =? 0 then Some (cmd_info c)
  else if strcmp name (bs "pwd") =? 0 then Some cmd_pwd
  else if strcmp name (bs "cd") =? 0 then Some (cmd_cd args)
  else if strcmp name (bs "ls") =? 0 then Some (cmd_ls args)
  else if strcmp name (bs "cat") =? 0 then Some (cmd_cat args)
  else if strcmp name (bs "jarinfo") =? 0 then Some (cmd_jarinfo args)
  else if strcmp name (bs "java") =? 0 then Some (cmd_java args)
  else None.

(** * The machine *)

Definition TERM_ATTR : Z := 7.
Definition entry64 (c : Z) : Z := Z.lor (u16 (Z.shiftl TERM_ATTR 8)) (u8 c).
Definition blank64 : Z := entry64 (ch " ").

Section io.
Context `{Hardware}.
Variable cpuid : Z -> Z -> Z * Z * Z * Z.
Variable wakes : list io_event -> bool.
Abbreviation monM := (M monitor).
Abbreviation lift := Ports.lift.

Definition on_serial {A} (m : M devices A) : monM A := fun '(s, tr) =>
  '(a, (d, tr)) ← m (m_devices s, tr); Ok (a, (set_m_devices d s, tr)).

Definition vga_sync_cursor : monM unit :=
  s ← Ports.get;
  let pos := u16 (g_row s * VGA_WIDTH + g_col s) in
  outb 980 15;; outb 981 (Z.land pos 255);; outb 980 14;; outb 981 (Z.land (Z.shiftr pos 8) 255).

Definition vga_scroll_up : monM unit :=
  s ← Ports.get;
  v ← lift (scroll_rows (Z.to_nat (VGA_HEIGHT - 1)) 0 (g_vga s));
  v ← lift (blit v ((VGA_HEIGHT - 1) * VGA_WIDTH) (replicate (Z.to_nat VGA_WIDTH) blank64));
  modify (set_screen v (VGA_HEIGHT - 1) 0).

(** [g_col = 0; g_row++;] and the scroll at the bottom. *)
Definition next_row : monM unit :=
  s ← Ports.get;
  modify (set_screen (g_vga s) (g_row s + 1) 0);;
  if g_row s + 1 >=? VGA_HEIGHT then vga_scroll_up else skip.

(** [g_vga[row * VGA_WIDTH + col] = entry] with the new column. *)
Definition put_entry (row col c new_col : Z) : monM unit :=
  s ← Ports.get;
  v ← lift (blit (g_vga s) (row * VGA_WIDTH + col) [entry64 c]);
  modify (set_screen v row new_col).

Definition term_putc (c : Z) : monM unit :=
  if c =? 10 then on_serial (serial_putc 10);; next_row;; vga_sync_cursor
  else if c =? 8 then
    s ← Ports.get;
    if g_col s >? 0 then
      put_entry (g_row s) (g_col s - 1) (ch " ") (g_col s - 1);; vga_sync_cursor
    else skip
  else
    on_serial (serial_putc c);;
    s ← Ports.get;
    put_entry (g_row s) (g_col s) c (g_col s + 1);;
    (if g_col s + 1 >=? VGA_WIDTH then next_row else skip);;
    vga_sync_cursor.

Fixpoint print_all (s : list Z) : monM unit :=
  match s with [] => skip | c :: s => term_putc c;; print_all s end.
Definition term_puts (s : list Z) : monM unit := print_all (buf_text s).

Definition term_clear : monM unit :=
  modify (set_screen (replicate (Z.to_nat (VGA_WIDTH * VGA_HEIGHT)) blank64) 0 0);; vga_sync_cursor.

Definition keyboard_poll_ps2 : monM Z :=
  status ← inb KB_STATUS_PORT;
  if Z.land status KB_STATUS_OBF =? 0 then mret 0
  else
    sc ← inb KB_DATA_PORT;
    s ← Ports.get;
    '(key, k) ← lift (ps2_byte sc (m_kbd s));
    modify (set_m_kbd k);;
    mret key.

(** A printing command: what it does to the file system, and its output. *)
Definition run_text (c : cmd fs unit) : monM unit :=
  s ← Ports.get;
  '(out, st, _) ← lift (c (m_fs s));
  modify (set_m_fs st);;
  print_all out.

Definition hlt64 : monM unit := fun st => if wakes (snd st) then Ok (tt, st) else Stuck NoFuel.
(** [for (;;) hlt] *)
Definition halt_forever : monM unit := lift (Stuck NoFuel).

Definition shell_exec_line : monM unit :=
  s ← Ports.get;
  if hd0 (line s) =? 0 then skip
  else
    '(b, args) ← lift (split_line (line s));
    modify (set_m_line b (len s));;
    let name := buf_text b in
    if strcmp name (bs "help") =? 0 then print_all (concat (map (fun l => l ++ [10]) cmd_help))
    else if strcmp name (bs "clear") =? 0 then term_clear
    else
      match text_command (g_cpu s) name args with
      | Some c => run_text c
      | None =>
        if strcmp name (bs "reboot") =? 0 then outb 100 254;; halt_forever
        else if strcmp name (bs "halt") =? 0 then term_puts (bs "System halted." ++ [10]);; halt_forever
        else term_puts (bs "Unknown command: ");; term_puts name;; term_puts [10]
      end.

(** The key [key] at the prompt. *)
Definition monitor_key (key : Z) : monM unit :=
  s ← Ports.get;
  if (key =? KEY_ENTER) || (key =? 10) then
    b ← lift (blit (line s) (len s) [0]);
    modify (set_m_line b (len s));;
    term_putc 10;;
    (if len s >? 0 then shell_exec_line else skip);;
    s ← Ports.get;
    b ← lift (blit (line s) 0 [0]);
    modify (set_m_line b 0);;
    term_puts (bs "x64> ")
  else if (key =? KEY_BACKSPACE) || (key =? 8) then
    if len s >? 0 then
      b ← lift (blit (line s) (len s - 1) [0]);
      modify (set_m_line b (len s - 1));;
      term_putc 8
    else skip
  else if (key >=? 32) && (key <=? 126) && (len s <? 256 - 1) then
    b ← lift (blit (line s) (len s) [u8 key]);
    b ← lift (blit b (len s + 1) [0]);
    modify (set_m_line b (len s + 1));;
    term_putc (u8 key)
  else skip.

(** A turn of the loop. *)
Definition monitor_turn : monM unit :=
  key ← keyboard_poll_ps2;
  if key =? 0 then hlt64 else monitor_key key.

Definition monitor_start : monM unit :=
  on_serial serial_init;;
  let cpu := cpu_collect cpuid in
  modify (set_cpu cpu);;
  term_clear;;
  term_puts (bs "HeatOS x64 kernel (phase 2)" ++ [10]);;
  term_puts (bs "Long mode active. Interactive monitor enabled." ++ [10]);;
  term_puts ([10] ++ bs "CPU: ");;
  term_puts (vendor cpu);;
  term_puts (bs "  LM=");;
  term_puts (yes_no (has_long_mode cpu));;
  term_puts [10];;
  st ← lift ramdisk_init;
  modify (set_m_fs (fs_cwd_set st 0));;
  term_puts (bs "Ramdisk online (/home, /java, /docs...)." ++ [10]);;
  term_puts (bs "Java phase 1: HJAR execution + ZIP/JAR inspection." ++ [10]);;
  term_puts (bs "Type 'help'." ++ [10; 10]);;
  term_puts (bs "x64> ");;
  s ← Ports.get;
  b ← lift (blit (line s) 0 [0]);
  modify (set_m_line b 0).

Fixpoint monitor_loop (n : nat) : monM unit :=
  match n with O => skip | S n => monitor_turn;; monitor_loop n end.

(** [kernel_main64] with [n] turns of its loop. *)
Definition kernel_main64 (n : nat) : monM unit := monitor_start;; monitor_loop n.
End io.
