(* ===== verification/Main64Props.v ===== *)
(** The 64-bit monitor: its screen is a window on the text printed so far, a key
    does what the abstract monitor says, and the loop stays in its objects. *)
From Stdlib Require Import ZArith Lia Ascii String.
From stdpp Require Import base tactics option numbers list.
From S2P Require Import Prelude Buffer CString Console Command Ports Vga Terminal Input InputProps Devices.
From S2P Require Import DeviceSafe Settles.
From S2P Require Import Ramdisk RamdiskInv RamdiskPath RamdiskInit FsCmd FsSafe JavaClass Hjar Main64.
#[local] Open Scope Z_scope.

(** * The screen as a window on a tape *)

(** Everything printed, as cells: a new line fills the row with blanks; a
    backspace takes the last cell back, within its row. *)
Definition tape_putc (t : list Z) (c : Z) : list Z :=
  if c =? 10 then t ++ replicate (80 - length t mod 80) blank64
  else if c =? 8 then if (length t mod 80 =? 0)%nat then t else removelast t
  else t ++ [entry64 c].

Definition tape_puts (s t : list Z) : list Z := fold_left tape_putc s t.

(** The rows that have left the screen, and the 25 rows from there. *)
Definition gone (t : list Z) : nat := length t / 80 - 24.
Definition shown (k : nat) (t : list Z) : list Z :=
  drop (80 * k) t ++ replicate (2000 + 80 * k - length t) blank64.

Record screen_is (t : list Z) (s : monitor) : Prop := {
  si_cells : g_vga s = shown (gone t) t;
  si_row : g_row s = Z.of_nat (length t / 80 - gone t);
  si_col : g_col s = Z.of_nat (length t mod 80);
  si_devices : devices_ok (m_devices s) }.

(** The fields that printing leaves alone. *)
Definition frame (s : monitor) := (g_cpu s, m_kbd s, m_fs s, line s, len s).

(** [length t] by rows and columns. *)
Lemma tape_split (t : list Z) : exists r c, length t = (80 * r + c)%nat /\ (c < 80)%nat /\ (length t / 80 = r)%nat /\ (length t mod 80 = c)%nat.
Proof.
  exists (length t / 80)%nat, (length t mod 80)%nat. pose proof (Nat.div_mod_eq (length t) 80).
  pose proof (Nat.mod_upper_bound (length t) 80). lia.
Qed.

Lemma rows_of r c n : n = (80 * r + c)%nat -> (c < 80)%nat -> (n / 80 = r)%nat /\ (n mod 80 = c)%nat.
Proof.
  intros Hn Hc. split; [by rewrite (Nat.div_unique n 80 r c)|by rewrite (Nat.mod_unique n 80 r c)].
Qed.

Lemma shown_length k t : (80 * k <= length t <= 2000 + 80 * k)%nat -> length (shown k t) = 2000%nat.
Proof. intros H. unfold shown. rewrite length_app, length_drop, length_replicate. lia. Qed.

Lemma shown_put k t c : (80 * k <= length t < 2000 + 80 * k)%nat ->
  <[(length t - 80 * k)%nat := c]> (shown k t) = shown k (t ++ [c]).
Proof.
  intros H. unfold shown. rewrite insert_app_r_alt by (rewrite length_drop; lia). rewrite length_drop, length_app.
  replace (length t - 80 * k - (length t - 80 * k))%nat with 0%nat by lia. cbn [length].
  replace (2000 + 80 * k - length t)%nat with (S (2000 + 80 * k - (length t + 1)))%nat by lia. cbn [replicate insert list_insert].
  rewrite drop_app_le by lia. by rewrite <- app_assoc.
Qed.

Lemma shown_blanks k t n : (80 * k <= length t)%nat -> (length t + n <= 2000 + 80 * k)%nat ->
  shown k (t ++ replicate n blank64) = shown k t.
Proof.
  intros H Hn. unfold shown. rewrite drop_app_le, <- app_assoc, <- replicate_add, length_app, length_replicate by lia.
  do 2 f_equal. lia.
Qed.

Lemma shown_back k t : (80 * k < length t <= 2000 + 80 * k)%nat ->
  <[(length t - 1 - 80 * k)%nat := blank64]> (shown k t) = shown k (removelast t).
Proof.
  intros H. destruct (exists_last (l := t)) as (t' & x & ->); [by intros ->; cbn in H; lia|].
  rewrite removelast_last. rewrite length_app in *. cbn [length] in *.
  rewrite <- (shown_put k t' x) by lia. replace (length t' + 1 - 1 - 80 * k)%nat with (length t' - 80 * k)%nat by lia.
  rewrite list_insert_insert_eq, shown_put by lia. change [blank64] with (replicate 1 blank64). rewrite shown_blanks by lia. done.
Qed.

(** Scrolling a full screen moves the window down a row. *)
Lemma shown_scroll k t : length t = (2000 + 80 * k)%nat ->
  drop 80 (shown k t) ++ replicate 80 blank64 = shown (S k) t.
Proof.
  intros H. unfold shown. rewrite H. replace (2000 + 80 * k - (2000 + 80 * k))%nat with 0%nat by lia.
  rewrite app_nil_r, drop_drop. f_equal; [f_equal; lia|f_equal; lia].
Qed.

(** The two steps of [vga_scroll_up]. *)
Lemma scroll_screen v : length v = 2000%nat ->
  scroll_rows (Z.to_nat (VGA_HEIGHT - 1)) 0 v = Ok (drop 80 v ++ drop 1920 v).
Proof.
  intros Hl. change 0 with (Z.of_nat 0). change (Z.to_nat (VGA_HEIGHT - 1)) with 24%nat.
  rewrite scroll_rows_spec by (done || lia). change (0 * 80)%nat with 0%nat. change ((0 + 1) * 80)%nat with 80%nat.
  change ((0 + 24) * 80)%nat with 1920%nat. change (24 * 80)%nat with 1920%nat.
  by rewrite take_0, (take_ge (drop 80 _)) by (rewrite length_drop; lia).
Qed.

Lemma clear_row v b : length v = 2000%nat ->
  blit (drop 80 v ++ drop 1920 v) ((VGA_HEIGHT - 1) * VGA_WIDTH) (replicate (Z.to_nat VGA_WIDTH) b) =
  Ok (drop 80 v ++ replicate 80 b).
Proof.
  intros Hl. change ((VGA_HEIGHT - 1) * VGA_WIDTH) with 1920. change (Z.to_nat VGA_WIDTH) with 80%nat.
  pose proof (blit_app (drop 80 v) (drop 1920 v) [] 1920 (replicate 80 b)) as E. rewrite !app_nil_r in E.
  apply E; rewrite ?length_drop, ?length_replicate; lia.
Qed.

Section screen.
Context `{Hardware}.

(** [m] has a result, whatever the serial port answers, and ends in [Q]. *)
Definition does {A} (m : M monitor A) (Q : A -> monitor * list io_event -> Prop) (st : monitor * list io_event) : Prop :=
  succeeds (m st) (fun r => Q r.1 r.2).

Lemma does_bind {A B} (m : M monitor A) (f : A -> M monitor B) Q st :
  does m (fun a st' => does (f a) Q st') st -> does (m ≫= f) Q st.
Proof. intros ([a st'] & E & H'). unfold does, mbind, M_bind. by rewrite E. Qed.

Lemma does_mono {A} (m : M monitor A) (P Q : A -> monitor * list io_event -> Prop) st :
  does m P st -> (forall a st', P a st' -> Q a st') -> does m Q st.
Proof. intros (r & E & H') HQ. exists r. auto. Qed.

Lemma does_ret {A} (a : A) (Q : A -> monitor * list io_event -> Prop) st : Q a st -> does (mret a) Q st.
Proof. intros. by exists (a, st). Qed.

(** What printing does to a state. *)
Definition prints (m : M monitor unit) (f : list Z -> list Z) : Prop :=
  forall t st, screen_is t (fst st) ->
    does m (fun _ st' => screen_is (f t) (fst st') /\ frame (fst st') = frame (fst st)) st.

Lemma on_serial_ok {A} (m : M devices A) (P : A -> Prop) Q st : settles m -> mkeeps devices_ok m P ->
  devices_ok (m_devices (fst st)) ->
  (forall a d tr, devices_ok d -> P a -> Q a (set_m_devices d (fst st), tr)) -> does (on_serial m) Q st.
Proof.
  intros Hs Hm Hd HQ. destruct st as [s tr]. pose proof (Hm (m_devices s, tr) Hd) as Hwp. pose proof (Hs (m_devices s, tr)) as Hn.
  unfold wp, does, on_serial in *. destruct (m (m_devices s, tr)) as [[a [d tr']]|[]]; try done.
  destruct Hwp as [H1 H2]. eexists. split; [done|]. by apply HQ.
Qed.

Lemma sync_ok (Q : unit -> monitor * list io_event -> Prop) st :
  (forall tr, Q tt (fst st, tr)) -> does vga_sync_cursor Q st.
Proof.
  destruct st as [s tr]. intros HQ. unfold does, vga_sync_cursor, mbind, M_bind, Ports.get, outb, port_out. cbn [fst snd].
  eexists. split; [reflexivity|]. apply HQ.
Qed.

Lemma put_entry_ok row col c new_col (Q : unit -> monitor * list io_event -> Prop) st :
  0 <= row * 80 + col < Z.of_nat (length (g_vga (fst st))) ->
  Q tt (Main64.set_screen (<[Z.to_nat (row * 80 + col) := entry64 c]> (g_vga (fst st))) row new_col (fst st), snd st) ->
  does (put_entry row col c new_col) Q st.
Proof.
  intros Hp HQ. unfold put_entry, does, mbind, M_bind, Ports.get, lift, modify. cbn [fst snd].
  unfold VGA_WIDTH. rewrite blit_one by done. cbn [fst snd]. eexists. by split.
Qed.

(** A complete row: the cursor goes to the next one, over a scroll if need be. *)
Lemma next_row_ok k r t (Q : unit -> monitor * list io_event -> Prop) st :
  length t = (80 * (k + r + 1))%nat -> (r < 25)%nat -> (k = 0 \/ r = 24)%nat ->
  g_vga (fst st) = shown k t -> g_row (fst st) = Z.of_nat r ->
  devices_ok (m_devices (fst st)) ->
  (forall s, screen_is t s -> frame s = frame (fst st) -> Q tt (s, snd st)) ->
  does next_row Q st.
Proof.
  intros Hl Hr Hk Hv Hrow Hd HQ. destruct st as [s tr]. cbn [fst snd] in *. unfold next_row, does, mbind, M_bind, Ports.get, modify.
  cbn [fst snd]. rewrite Hrow. rewrite Z.geb_leb. change VGA_HEIGHT with 25.
  assert (Hlen : length (shown k t) = 2000%nat) by (apply shown_length; lia).
  destruct (rows_of (k + r + 1) 0 (length t) ltac:(lia) ltac:(lia)) as [Ed Em].
  destruct (Z.leb_spec 25 (Z.of_nat r + 1)) as [Hfull|Hroom].
  - unfold vga_scroll_up, mbind, M_bind, Ports.get, lift, modify. cbn [fst snd g_vga Main64.set_screen].
    rewrite Hv, scroll_screen by done. cbn [fst snd]. rewrite clear_row by done. cbn [fst snd]. rewrite shown_scroll by lia.
    eexists. split; [reflexivity|]. apply HQ; [|done].
    assert (gone t = S k) as Eg by (unfold gone; lia).
    split; cbn [g_vga g_row g_col m_devices Main64.set_screen]; rewrite ?Eg, ?Ed, ?Em; [done|change VGA_HEIGHT with 25; lia|lia|done].
  - eexists. split; [reflexivity|]. apply HQ; [|done]. assert (gone t = k) as Eg by (unfold gone; lia).
    split; cbn [g_vga g_row g_col m_devices Main64.set_screen]; rewrite ?Eg, ?Ed, ?Em; [done|lia|lia|done].
Qed.

(** A text that ends within the row [r] of the window. *)
Lemma inside t k r c s : length t = (80 * (k + r) + c)%nat -> (c < 80)%nat -> (r < 25)%nat -> (k = 0 \/ r = 24)%nat ->
  g_vga s = shown k t -> g_row s = Z.of_nat r -> g_col s = Z.of_nat c -> devices_ok (m_devices s) -> screen_is t s.
Proof.
  intros Hl Hc Hr Hk Hv Hrow Hcol Hd. destruct (rows_of (k + r) c (length t) Hl Hc) as [Ed Em].
  assert (gone t = k) as Eg by (unfold gone; lia). split; rewrite ?Eg, ?Ed, ?Em; [done|rewrite Hrow; lia|done|done].
Qed.

(** The window holds the end of the text, and the cursor is on it. *)
Lemma window t s : screen_is t s -> exists k r c,
  length t = (80 * (k + r) + c)%nat /\ (c < 80)%nat /\ (r < 25)%nat /\ (k = 0 \/ r = 24)%nat /\ gone t = k /\
  (length t mod 80 = c)%nat /\ g_vga s = shown k t /\ g_row s = Z.of_nat r /\ g_col s = Z.of_nat c /\ length (g_vga s) = 2000%nat.
Proof.
  intros [Hv Hr Hc _]. destruct (tape_split t) as (R & c & Hl & Hlt & Ed & Em).
  exists (gone t), (R - gone t)%nat, c. rewrite Hr, Hc, Ed, Em, Hv. assert (gone t = (R - 24)%nat) as Eg by (unfold gone; lia).
  rewrite Eg. rewrite shown_length by lia. repeat split; lia.
Qed.

Lemma mputc_ok c : prints (term_putc c) (fun t => tape_putc t c).
Proof.
  intros t st Hs. pose proof (si_devices _ _ Hs) as Hd. destruct (window t (fst st) Hs) as (k & r & col & Hl & Hc & Hr & Hk & Hg & Em & Hv & Hrow & Hcol & Hlen).
  unfold term_putc, tape_putc. destruct (c =? 10).
  - apply does_bind. eapply on_serial_ok; [apply settles_putc|apply dkeeps_putc|done|]. intros [] d tr Hd' _. apply does_bind.
    rewrite Em. apply next_row_ok with (k := k) (r := r) (t := t ++ replicate (80 - col) blank64); try done.
    + rewrite length_app, length_replicate. lia.
    + rewrite shown_blanks by lia. done.
    + intros s' Hs' Hf. apply sync_ok. intros tr'. done.
  - destruct (c =? 8).
    + unfold Ports.get. apply does_bind. eexists. split; [reflexivity|]. cbn [fst snd]. rewrite Hcol, Em.
      destruct (Nat.eqb_spec col 0) as [->|Hn]; [by apply does_ret|].
      rewrite Z.gtb_ltb. destruct (Z.ltb_spec 0 (Z.of_nat col)) as [_|]; [|lia].
      apply does_bind, put_entry_ok; [lia|]. apply sync_ok. intros tr. cbn [fst snd]. split; [|done].
      replace (Z.to_nat _) with (length t - 1 - 80 * k)%nat by lia. rewrite Hv. change (entry64 (ch " ")) with blank64.
      rewrite shown_back by lia. assert (length (removelast t) = (length t - 1)%nat) as Hb by (rewrite List.removelast_firstn_len, length_take; lia).
      apply inside with (k := k) (r := r) (c := (col - 1)%nat); cbn [g_vga g_row g_col m_devices Main64.set_screen]; lia || done.
    + apply does_bind. eapply on_serial_ok; [apply settles_putc|apply dkeeps_putc|done|]. intros [] d tr Hd' _.
      unfold Ports.get. apply does_bind. eexists. split; [reflexivity|]. cbn [fst snd].
      apply does_bind, put_entry_ok; [cbn [fst snd g_vga g_row g_col set_m_devices]; lia|]. cbn [fst snd g_vga g_row g_col set_m_devices].
      rewrite Hv, Hrow, Hcol. replace (Z.to_nat _) with (length t - 80 * k)%nat by lia. rewrite shown_put by lia.
      assert (length (t ++ [entry64 c]) = (80 * (k + r) + (col + 1))%nat) as Hl' by (rewrite length_app; cbn [length]; lia).
      apply does_bind. rewrite Z.geb_leb. change VGA_WIDTH with 80. destruct (Z.leb_spec 80 (Z.of_nat col + 1)) as [Hfull|Hroom].
      * apply next_row_ok with (k := k) (r := r) (t := t ++ [entry64 c]); try done; [lia|].
        intros s' Hs' Hf. apply sync_ok. intros tr'. done.
      * apply does_ret, sync_ok. intros tr'. split; [|done].
        apply inside with (k := k) (r := r) (c := (col + 1)%nat); cbn [fst snd g_vga g_row g_col m_devices Main64.set_screen set_m_devices]; lia || done.
Qed.

Lemma print_all_ok s : prints (print_all s) (tape_puts s).
Proof.
  induction s as [|c s IH]; intros t st Hs; cbn [print_all tape_puts fold_left]; [by apply does_ret|].
  apply does_bind. eapply does_mono; [by apply mputc_ok|]. intros [] st' [Hs' Hf]. eapply does_mono; [by apply IH|].
  cbn beta. intros [] st'' [Hs'' Hf']. split; [done|congruence].
Qed.

Lemma mputs_ok s : prints (term_puts s) (tape_puts (buf_text s)).
Proof. apply print_all_ok. Qed.

Lemma mclear_ok (Q : unit -> monitor * list io_event -> Prop) st :
  devices_ok (m_devices (fst st)) ->
  (forall s tr, screen_is [] s -> frame s = frame (fst st) -> Q tt (s, tr)) -> does term_clear Q st.
Proof.
  intros Hd HQ. unfold term_clear. apply does_bind. eexists. split; [reflexivity|]. apply sync_ok. intros tr.
  apply HQ; [|done]. by split.
Qed.
End screen.

(** * The commands *)

(** The file system of the monitor is the one it boots with, in some directory:
    no command writes. *)
Definition in_dir (c : nat) (st : fs) : fs :=
  Fs c (fs_data_free st) (fs_node_type st) (fs_node_parent st) (fs_node_first_child st) (fs_node_next_sibling st)
    (fs_node_size st) (fs_node_data_off st) (fs_node_name st) (fs_data_pool st).

Definition booted (st : fs) : Prop := exists boot c, ramdisk_init = Ok boot /\ link_ok c /\ st = in_dir c boot.

(** The chain of siblings from a node ends within [n] steps. *)
Fixpoint chain_ends (n : nat) (st : fs) (it : nat) : bool :=
  match n with
  | O => false
  | S n => (it =? 0)%nat || match fs_node_next_sibling st !! it with Some nx => chain_ends n st nx | None => false end
  end.

Definition ends_ok {A} (m : outcome A) : bool := match m with Ok _ => true | Stuck _ => false end.

(** [java] and [jarinfo] on the first bytes of a node. *)
Definition node_runs (st : fs) (node : nat) : bool :=
  match fs_read st node 4096 with
  | Ok (buf, n) =>
    if n <=? 0 then true
    else match java_detect_format buf n with
         | Ok fmt => ends_ok (jarinfo_of buf n fmt) && ends_ok (java_of buf n fmt)
         | Stuck _ => false
         end
  | Stuck _ => false
  end.

Lemma boot_checks : match ramdisk_init with
  | Ok st => fs_check st && forallb (fun n => node_runs st n && chain_ends 64 st n) (seq 0 64)
  | Stuck _ => false
  end = true.
Proof. vm_compute. reflexivity. Qed.

#[local] Opaque ramdisk_init.

Lemma boot_node boot n : ramdisk_init = Ok boot -> link_ok n -> node_runs boot n = true /\ chain_ends 64 boot n = true.
Proof.
  intros Hb Hn. pose proof boot_checks as H. rewrite Hb in H. apply andb_prop in H as [_ H]. rewrite forallb_forall in H.
  apply andb_prop, H, List.in_seq. unfold link_ok, RAMDISK_MAX_NODES in Hn. lia.
Qed.

Lemma booted_wf st : booted st -> well_formed st.
Proof.
  intros (boot & c & Hb & Hc & ->). destruct ramdisk_init_wf as (boot' & Hb' & kids & rank & [wf_lengths]). rewrite Hb in Hb'. injection Hb' as <-. clear Hb.
  exists kids, rank. split; try assumption. destruct wf_lengths. split; assumption.
Qed.

Lemma booted_ok st : booted st -> fs_ok st.
Proof.
  intros (boot & c & Hb & Hc & ->). pose proof boot_checks as H. rewrite Hb in H. apply andb_prop in H as [H _].
  clear Hb. destruct (fs_check_ok boot H) as [[] ? ? ? ? ? ?]. split; try assumption. split; assumption.
Qed.

(** The commands end: no fault is allowed. *)
Abbreviation never := (fun _ : fault => False).
Abbreviation bkeeps := (ckeeps never booted).

Lemma b_resolve path : bkeeps (resolve path) link_ok.
Proof.
  apply ckeeps_ask. intros st Hst. destruct (booted_wf st Hst) as (kids & rank & Hwf).
  pose proof (resolve_safe (eq NoFuel) eq_refl st (Some path) (booted_ok st Hst)) as H.
  by rewrite (fs_resolve_checked_spec st kids rank Hwf path) in *.
Qed.
Lemma b_look {A} (f : fs -> A) : bkeeps (look f) any.
Proof. by apply ckeeps_look. Qed.
Lemma b_cwd : bkeeps (look fs_cwd_get) link_ok.
Proof. apply ckeeps_look. intros st Hst. by destruct (booted_ok st Hst). Qed.
Lemma b_set_cwd n : bkeeps (update (fun st => fs_cwd_set st n)) any.
Proof.
  apply ckeeps_update. intros st Hst. unfold fs_cwd_set. destruct (_ && _) eqn:En; [|done].
  apply andb_prop in En as [Hn%Nat.ltb_lt _]. destruct Hst as (boot & c & Hb & Hc & ->). exists boot, n.
  split; [exact Hb|]. split; [exact Hn|reflexivity].
Qed.
Lemma b_path : bkeeps (query (fun st => fs_build_path st (fs_cwd_get st) 64)) any.
Proof. apply ckeeps_query. intros st Hst. apply build_path_safe. by apply booted_ok. Qed.
Lemma b_read n size : 0 <= size -> bkeeps (query (fun st => fs_read st n size))
  (fun r => (r.2 <= size /\ Z.of_nat (length r.1) = Z.max 0 r.2) /\ exists boot, ramdisk_init = Ok boot /\ fs_read boot n size = Ok r).
Proof.
  intros Hs. apply ckeeps_query. intros st Hst. pose proof (read_safe_fs never st n size (booted_ok st Hst) Hs) as H.
  destruct Hst as (boot & c & Hb & Hc & ->). change (fs_read (in_dir c boot) n size) with (fs_read boot n size) in *.
  destruct (fs_read boot n size) as [r|e] eqn:E; [|done]. split; [exact H|]. exists boot. split; [exact Hb|exact E].
Qed.
Lemma b_list_begin dir : link_ok dir -> bkeeps (list_begin dir) link_ok.
Proof.
  intros Hd. apply ckeeps_ask. intros st [[] ? Hf ? ? ? ?]%booted_ok. unfold fs_list_begin. destruct (negb _); [done|].
  destruct (lookup_lt_is_Some_2 (fs_node_first_child st) dir) as [n Hn]; [by rewrite len_first|]. unfold get. rewrite Hn. cbn.
  pose proof (Forall_lookup_1 _ _ _ _ fs_firsts Hn). by destruct (n =? 0)%nat.
Qed.

Lemma chain_same n : forall st st' it, fs_node_next_sibling st = fs_node_next_sibling st' -> chain_ends n st it = chain_ends n st' it.
Proof.
  induction n as [|n IH]; intros st st' it H; [done|]. cbn [chain_ends]. rewrite H. f_equal.
  destruct (_ !! it); [by apply IH|done].
Qed.

Lemma booted_next st st' : booted st -> booted st' -> fs_node_next_sibling st = fs_node_next_sibling st'.
Proof. intros (boot & c & Hb & _ & ->) (boot' & c' & Hb' & _ & ->). rewrite Hb in Hb'. by injection Hb' as ->. Qed.

Lemma b_then {A B} (m : cmd fs A) (f : A -> cmd fs B) P st :
  goes never (m st) (fun r => match r.2 with
    | Some a => goes never (f a r.1.2) (fun r => booted r.1.2 /\ holds_if P r.2)
    | None => booted r.1.2
    end) -> goes never ((m ≫= f) st) (fun r => booted r.1.2 /\ holds_if P r.2).
Proof.
  unfold mbind, cmd_bind. destruct (m st) as [[[o st1] [a|]]|e]; cbn; try done.
  by destruct (f a st1) as [[[o' st2] r]|e].
Qed.

(** The children of a directory: the chain from [it] ends. *)
Lemma b_each_child f : (forall c, link_ok c -> bkeeps (f c) any) -> forall it, link_ok it -> bkeeps (each_child 64 it f) any.
Proof.
  intros Hf it Hit st Hst. assert (He : chain_ends 64 st it = true).
  { destruct Hst as (boot & c & Hb & Hc & ->). rewrite (chain_same 64 _ boot) by reflexivity. by destruct (boot_node boot it Hb Hit). }
  revert it Hit st Hst He. generalize 64%nat. induction n as [|n IH]; intros it Hit st Hst He; [done|]. cbn [each_child chain_ends] in *.
  pose proof (booted_ok st Hst) as [[] ? ? ? Hnexts ? ?]. apply b_then. unfold query, fs_list_next.
  destruct (it =? 0)%nat; [done|]. cbn [orb] in He. destruct (fs_node_next_sibling st !! it) as [nx|] eqn:En; [|done].
  unfold get. rewrite En. cbn [of_option mbind outcome_bind goes fst snd]. apply b_then.
  eapply goes_mono; [by apply Hf|]. intros [[o st1] [a|]] [Hst1 _]; [|done]. apply IH; try done.
  - apply (Forall_lookup_1 _ _ _ _ Hnexts En).
  - by rewrite (chain_same n _ st) by (by apply booted_next).
Qed.

Lemma b_nodes path : bkeeps (resolve_node path) link_ok.
Proof. unfold resolve_node. destruct (nonempty path); [apply b_resolve|apply b_cwd]. Qed.
#[local] Hint Resolve b_resolve b_cwd b_set_cwd b_path b_list_begin b_nodes : keeps.
#[local] Hint Extern 1 (ckeeps _ _ (look _) _) => apply b_look : keeps.
#[local] Hint Extern 1 (ckeeps _ _ (is_dir _) _) => apply b_look : keeps.
#[local] Hint Extern 1 (ckeeps _ _ (is_file _) _) => apply b_look : keeps.

Lemma b_ls args : bkeeps (Main64.cmd_ls args) any.
Proof. unfold Main64.cmd_ls. keeps. apply b_each_child; [|done]. intros c Hc. unfold ls_line. keeps. Qed.
Lemma b_cd args : bkeeps (Main64.cmd_cd args) any.
Proof. unfold Main64.cmd_cd. keeps. Qed.
Lemma b_pwd : bkeeps Main64.cmd_pwd any.
Proof. unfold Main64.cmd_pwd. keeps. Qed.
Lemma b_cat args : bkeeps (Main64.cmd_cat args) any.
Proof.
  unfold Main64.cmd_cat. destruct (nonempty args) as [a|]; [|keeps]. eapply ckeeps_bind; [keeps|]. intros n Hn.
  eapply ckeeps_bind; [keeps|]. intros b _. destruct (negb b); [keeps|].
  eapply ckeeps_bind; [by apply b_read|]. intros [buf k] [[Hk Hl] _]. cbn [fst snd] in *. destruct (Z.ltb_spec k 0); [keeps|].
  eapply ckeeps_bind; [keeps|]. intros _ _. eapply ckeeps_bind with (P := any); [|intros c _; keeps]. apply ckeeps_eval.
  rewrite Z.gtb_ltb. destruct (Z.ltb_spec 0 k); [|done]. rewrite read_ok by lia. done.
Qed.

Lemma print_u32_ends n base : goes never (term_print_u32 n base) (fun r => holds_if any r.2).
Proof. done. Qed.
Lemma b_info c : bkeeps (cmd_info c) any.
Proof. unfold cmd_info. keeps; apply ckeeps_console, print_u32_ends. Qed.

(** A file that was read: [java] and [jarinfo] end on it. *)
Lemma b_load path : bkeeps (load_file_to_buf path 4096)
  (fun r => let '(buf, n, fmt) := r in ends_ok (jarinfo_of buf n fmt) && ends_ok (java_of buf n fmt) = true).
Proof.
  unfold load_file_to_buf. destruct (nonempty path) as [p|]; [|keeps].
  eapply ckeeps_bind; [keeps|]. intros n Hn. eapply ckeeps_bind; [keeps|]. intros b _. destruct (negb b); [keeps|].
  eapply ckeeps_bind; [by apply b_read|]. intros [buf k] [_ (boot & Hb & Hr)].
  destruct (boot_node boot n Hb Hn) as [H _]. unfold node_runs in H. rewrite Hr in H. destruct (k <=? 0); [keeps|].
  destruct (java_detect_format buf k) as [fmt|] eqn:Ef; [|done]. eapply ckeeps_bind with (P := eq fmt); [by apply ckeeps_eval|].
  intros ? <-. by apply ckeeps_ret.
Qed.

Lemma ends_goes {A} (m : prog A) : ends_ok m = true -> goes never m (fun r => holds_if any r.2).
Proof. destruct m as [[o [a|]]|e]; done. Qed.

Lemma b_jarinfo args : bkeeps (cmd_jarinfo args) any.
Proof.
  unfold cmd_jarinfo. eapply ckeeps_bind; [apply b_load|]. intros [[buf n] fmt] [H _]%andb_prop. by apply ckeeps_console, ends_goes.
Qed.
Lemma b_java args : bkeeps (cmd_java args) any.
Proof.
  unfold cmd_java. eapply ckeeps_bind; [apply b_load|]. intros [[buf n] fmt] [_ H]%andb_prop. by apply ckeeps_console, ends_goes.
Qed.

Lemma text_command_ok cpu name args c : text_command cpu name args = Some c -> bkeeps c any.
Proof.
  unfold text_command. repeat (destruct (_ =? 0); [intros [= <-]; auto using b_info, b_pwd, b_cd, b_ls, b_cat, b_jarinfo, b_java|]). done.
Qed.

(** * The line *)

Definition printable (c : Z) : Prop := 32 <= c <= 126.

(** What stands before and after the first space. *)
Fixpoint cut (s : list Z) : list Z * list Z :=
  match s with
  | [] => ([], [])
  | c :: s' => if c =? ch " " then ([], s') else let '(w, r) := cut s' in (c :: w, r)
  end.

(** The command name of a line, in lower case, and its arguments. *)
Definition command_of (text : list Z) : list Z * option (list Z) :=
  let '(w, r) := cut text in
  (map ascii_lower w, match FsCmd.skip_spaces r with [] => None | a => Some a end).

Lemma printable_nul s : Forall printable s -> nul_free s.
Proof. intros H. eapply Forall_impl; [exact H|]. unfold printable. lia. Qed.

Lemma cut_strchr s : Forall printable s ->
  match strchr s (ch " ") with
  | None => cut s = (s, [])
  | Some i => exists w r, s = w ++ ch " " :: r /\ length w = i /\ cut s = (w, r)
  end.
Proof.
  induction 1 as [|c s Hc Hs IH]; [done|]. cbn [strchr cut]. unfold printable in Hc. change (u8 (ch " ")) with 32. change (ch " ") with 32 in *.
  destruct (Z.eqb_spec c 32) as [->|Hn]; [by exists [], s|].
  destruct (Z.eqb_spec c 0) as [|_]; [lia|]. destruct (strchr s 32) as [i|]; cbn.
  - destruct IH as (w & r & -> & <- & ->). by exists (c :: w), r.
  - by rewrite IH.
Qed.

Lemma lower_text_app w rest : Forall printable w -> lower_text (w ++ 0 :: rest) = map ascii_lower w ++ 0 :: rest.
Proof.
  induction 1 as [|c w Hc _ IH]; [done|]. cbn [app lower_text map]. unfold printable in Hc. destruct (Z.eqb_spec c 0); [lia|]. by rewrite IH.
Qed.

Lemma lower_nul w : Forall printable w -> nul_free (map ascii_lower w).
Proof.
  intros H. apply Forall_map. eapply Forall_impl; [exact H|]. unfold printable, ascii_lower. intros c Hc. chars. destruct (_ && _); lia.
Qed.

Lemma skip_spaces_nul r : nul_free r -> (hd0 (FsCmd.skip_spaces r) =? 0) = true <-> FsCmd.skip_spaces r = [].
Proof.
  induction 1 as [|c r Hc _ IH]; [done|]. cbn [FsCmd.skip_spaces]. destruct (c =? ch " "); [done|].
  unfold hd0, byte_at. cbn. split; [|done]. rewrite Z.eqb_eq. lia.
Qed.

Lemma drop_S_app {A} (w l : list A) x : drop (S (length w)) (w ++ x :: l) = l.
Proof. by induction w. Qed.

Lemma split_line_ok text rest : Forall printable text -> exists b, split_line (text ++ 0 :: rest) = Ok (b, (command_of text).2) /\
  buf_text b = (command_of text).1 /\ nul_free (command_of text).1 /\ length b = length (text ++ 0 :: rest).
Proof.
  intros Ht. pose proof (printable_nul _ Ht) as Hn. unfold split_line. rewrite buf_text_app by done.
  pose proof (cut_strchr text Ht) as Hcut. destruct (strchr text (ch " ")) as [i|].
  - destruct Hcut as (w & r & -> & <- & Hcut). apply Forall_app in Ht as [Hw Hr]. apply Forall_app in Hn as [Hnw Hnr].
    rewrite <- app_assoc. cbn [app].
    change (ch " " :: r ++ 0 :: rest) with ([ch " "] ++ (r ++ 0 :: rest)). rewrite blit_app by done. cbn [mbind outcome_bind app].
    eexists. unfold command_of. rewrite Hcut. cbn [fst snd]. split; [|split; [|split]].
    + do 2 f_equal. rewrite drop_S_app.
      inversion Hnr as [|? ? _ Hnr']; subst. rewrite buf_text_app by done.
      pose proof (skip_spaces_nul r Hnr') as H. destruct (FsCmd.skip_spaces r) as [|a l]; [done|].
      destruct (hd0 (a :: l) =? 0); [|done]. discriminate (proj1 H eq_refl).
    + rewrite lower_text_app by done. apply buf_text_app, lower_nul, Hw.
    + apply lower_nul, Hw.
    + rewrite lower_text_app, !length_app by done. cbn [length]. by rewrite length_map.
  - eexists. unfold command_of. rewrite Hcut. cbn [fst snd FsCmd.skip_spaces]. split; [done|].
    rewrite lower_text_app by done. split; [apply buf_text_app, lower_nul, Ht|]. split; [apply lower_nul, Ht|].
    by rewrite !length_app, length_map.
Qed.

(** * The abstract monitor

    The text printed so far, the line being typed and the file system. *)

Record terminal64 := Terminal64 { a_tape : list Z; a_line : list Z; a_fs : fs }.

Definition help_text : list Z := concat (map (fun l => l ++ [10]) cmd_help).
Definition prompt : list Z := bs "x64> ".

(** What a line does to the text and the file system; [None]: the machine stops. *)
Definition line_effect (cpu : cpu_info64_t) (st : fs) (text : list Z) : option ((list Z -> list Z) * fs) :=
  let '(name, args) := command_of text in
  if decide (name = bs "help") then Some (tape_puts help_text, st)
  else if decide (name = bs "clear") then Some (fun _ => [], st)
  else
    match text_command cpu name args with
    | Some c => match c st with Ok (out, st', _) => Some (tape_puts out, st') | Stuck _ => None end
    | None =>
      if decide (name = bs "reboot" \/ name = bs "halt") then None
      else Some (tape_puts (bs "Unknown command: " ++ name ++ [10]), st)
    end.

Definition key_effect (cpu : cpu_info64_t) (a : terminal64) (key : Z) : option terminal64 :=
  let '(Terminal64 t text st) := a in
  if (key =? KEY_ENTER) || (key =? 10) then
    match (if decide (text = []) then Some (id, st) else line_effect cpu st text) with
    | Some (f, st') => Some (Terminal64 (tape_puts prompt (f (tape_putc t 10))) [] st')
    | None => None
    end
  else if (key =? KEY_BACKSPACE) || (key =? 8) then
    Some (if decide (text = []) then a else Terminal64 (tape_putc t 8) (removelast text) st)
  else if (32 <=? key) && (key <=? 126) && (length text <? 255)%nat then
    Some (Terminal64 (tape_putc t key) (text ++ [key]) st)
  else Some a.

Fixpoint keys_effect (cpu : cpu_info64_t) (a : terminal64) (keys : list Z) : option terminal64 :=
  match keys with [] => Some a | k :: keys => match key_effect cpu a k with Some a => keys_effect cpu a keys | None => None end end.

(** The monitor's globals show the abstract state. *)
Record shows (a : terminal64) (s : monitor) : Prop := {
  sh_screen : screen_is (a_tape a) s;
  sh_line : exists rest, line s = a_line a ++ 0 :: rest;
  sh_room : length (line s) = 256%nat;
  sh_len : len s = Z.of_nat (length (a_line a));
  sh_text : Forall printable (a_line a);
  sh_fs : m_fs s = a_fs a;
  sh_booted : booted (m_fs s) }.

Section keys.
Context `{Hardware}.

Definition ends_in (cpu : cpu_info64_t) (k : kbd) (a : terminal64) (s : monitor) : Prop :=
  shows a s /\ g_cpu s = cpu /\ m_kbd s = k.

(** [m] ends in a state that satisfies what [o] says, or stops the machine. *)
Definition follows (m : M monitor unit) (o : option (monitor -> Prop)) (st : monitor * list io_event) : Prop :=
  match o with
  | Some Q => does m (fun _ st' => Q (fst st')) st
  | None => m st = Stuck NoFuel
  end.

Lemma follows_bind {A} (m : M monitor A) (f : A -> M monitor unit) o st :
  does m (fun a st' => follows (f a) o st') st -> follows (m ≫= f) o st.
Proof. destruct o as [Q|]; [apply does_bind|]. intros ([a st'] & E & H'). unfold follows, mbind, M_bind. by rewrite E. Qed.

Lemma follows_halt o st : o = None -> follows halt_forever o st.
Proof. by intros ->. Qed.

(** Printing, then a step whose effect depends on the text and the rest of the state. *)
Lemma printing m f t st (Q : unit -> monitor * list io_event -> Prop) : prints m f -> screen_is t (fst st) ->
  (forall s tr, screen_is (f t) s -> frame s = frame (fst st) -> Q tt (s, tr)) -> does m Q st.
Proof. intros Hm Hs HQ. eapply does_mono; [by apply Hm|]. intros [] [s tr] [H1 H2]. by apply HQ. Qed.

Lemma does_modify f st (Q : unit -> monitor * list io_event -> Prop) : Q tt (f (fst st), snd st) -> does (modify f) Q st.
Proof. intros HQ. destruct st. eexists. by split. Qed.

Lemma does_get st (Q : monitor -> monitor * list io_event -> Prop) : Q (fst st) st -> does Ports.get Q st.
Proof. intros HQ. destruct st. eexists. by split. Qed.

Lemma does_lift {A} (o : outcome A) a (Q : A -> monitor * list io_event -> Prop) st : o = Ok a -> Q a st -> does (Ports.lift o) Q st.
Proof. intros -> HQ. destruct st. eexists. by split. Qed.

Lemma screen_line t s b n : screen_is t s -> screen_is t (set_m_line b n s).
Proof. by intros []. Qed.
Lemma screen_fs t s st : screen_is t s -> screen_is t (set_m_fs st s).
Proof. by intros []. Qed.

(** A printable key. *)
Lemma char_ok t text st c cpu k s : ends_in cpu k (Terminal64 t text st) (fst s) -> printable c -> (length text < 255)%nat ->
  does (monitor_key c) (fun _ s' => ends_in cpu k (Terminal64 (tape_putc t c) (text ++ [c]) st) (fst s')) s.
Proof.
  intros ([Hs [rest Hl] Hroom Hlen Ht Hf Hb] & Hcpu & Hk) Hc Hlt. cbn [a_tape a_line a_fs] in *. unfold printable in Hc.
  unfold monitor_key. apply does_bind, does_get. unfold KEY_ENTER, KEY_BACKSPACE.
  replace ((c =? 260) || (c =? 10)) with false by lia. replace ((c =? 261) || (c =? 8)) with false by lia.
  replace ((c >=? 32) && (c <=? 126) && (len (fst s) <? 256 - 1)) with true by lia. rewrite u8_small by (unfold is_u8; lia).
  rewrite Hl in Hroom. rewrite length_app in Hroom. cbn [length] in Hroom. destruct rest as [|x rest]; [cbn in Hroom; lia|]. cbn [length] in Hroom.
  apply does_bind. eapply does_lift.
  { rewrite Hl, Hlen. exact (blit_app text [0] (x :: rest) _ [c] eq_refl eq_refl). }
  apply does_bind. eapply does_lift.
  { change (text ++ [c] ++ x :: rest) with (text ++ [c] ++ [x] ++ rest). rewrite app_assoc, Hlen. apply blit_app; [|done]. rewrite length_app. cbn [length]. lia. }
  apply does_bind, does_modify. eapply printing; [apply mputc_ok|apply screen_line; exact Hs|]. cbn [fst snd].
  intros s' tr Hs' [= Ec Ek Ef El En]. split; [|cbn [fst]; by rewrite Ec, Ek].
  split; cbn [fst a_tape a_line a_fs]; rewrite ?El, ?En, ?Ef, ?length_app, ?Hlen; cbn [length]; try done; try lia.
  - by exists rest.
  - apply Forall_app. split; [done|]. by apply Forall_singleton.
Qed.

(** Backspace. *)
Lemma back_ok t text st key cpu k s : ends_in cpu k (Terminal64 t text st) (fst s) -> key = KEY_BACKSPACE \/ key = 8 ->
  does (monitor_key key) (fun _ s' => ends_in cpu k
    (if decide (text = []) then Terminal64 t text st else Terminal64 (tape_putc t 8) (removelast text) st) (fst s')) s.
Proof.
  intros He Hkey. pose proof He as ([Hs [rest Hl] Hroom Hlen Ht Hf Hb] & Hcpu & Hk). cbn [a_tape a_line a_fs] in *.
  unfold monitor_key. apply does_bind, does_get.
  replace ((key =? KEY_ENTER) || (key =? 10)) with false by (unfold KEY_ENTER, KEY_BACKSPACE in *; lia).
  replace ((key =? KEY_BACKSPACE) || (key =? 8)) with true by lia.
  destruct (decide (text = [])) as [->|Hne]; [rewrite Hlen; by apply does_ret|].
  destruct (exists_last Hne) as (w & x & ->). rewrite removelast_last. rewrite length_app in Hlen. cbn [length] in Hlen.
  rewrite Z.gtb_ltb. destruct (Z.ltb_spec 0 (len (fst s))); [|lia].
  apply does_bind. eapply does_lift.
  { rewrite Hl, Hlen, <- app_assoc. apply (blit_app w [x] (0 :: rest)); [lia|done]. }
  apply does_bind, does_modify. eapply printing; [apply mputc_ok|apply screen_line; exact Hs|]. cbn [fst snd].
  intros s' tr Hs' [= Ec Ek Ef El En]. split; [|cbn [fst]; by rewrite Ec, Ek].
  split; cbn [fst a_tape a_line a_fs]; rewrite ?El, ?En, ?Ef; try done; try lia.
  - by eexists.
  - rewrite <- Hroom, Hl, !length_app. cbn. lia.
  - by apply Forall_app in Ht as [].
Qed.

(** After a command: the line is scratch. *)
Record ran (t : list Z) (st : fs) (cpu : cpu_info64_t) (k : kbd) (s : monitor) : Prop := {
  ra_screen : screen_is t s;
  ra_room : length (line s) = 256%nat;
  ra_fs : m_fs s = st;
  ra_booted : booted (m_fs s);
  ra_cpu : g_cpu s = cpu;
  ra_kbd : m_kbd s = k }.

Lemma strcmp_decide {A} name lit (x y : A) : nul_free name -> nul_free lit ->
  (if strcmp name lit =? 0 then x else y) = if decide (name = lit) then x else y.
Proof.
  intros Hn Hl. pose proof (strcmp_eq name lit Hn Hl). destruct (Z.eqb_spec (strcmp name lit) 0), (decide (name = lit)); tauto.
Qed.

Lemma ran_print m f t st cpu k s (Q : unit -> monitor * list io_event -> Prop) : prints m f -> ran t st cpu k (fst s) ->
  (forall s tr, ran (f t) st cpu k s -> Q tt (s, tr)) -> does m Q s.
Proof.
  intros Hm [] HQ. eapply printing; [exact Hm|done|]. intros s' tr Hs' [= Ec Ek Ef El En]. apply HQ.
  split; rewrite ?El, ?Ef, ?Ec, ?Ek; done.
Qed.

Lemma prints_seq m m' f f' : prints m f -> prints m' f' -> prints (m;; m') (fun t => f' (f t)).
Proof.
  intros Hm Hm' t st Hs. apply does_bind. eapply does_mono; [by apply Hm|]. intros [] st' [Hs' Hf]. eapply does_mono; [by apply Hm'|].
  cbn beta. intros [] st'' [Hs'' Hf']. split; [done|congruence].
Qed.

Lemma tape_puts_app a b t : tape_puts (a ++ b) t = tape_puts b (tape_puts a t).
Proof. apply fold_left_app. Qed.

Lemma unknown_ok name : nul_free name ->
  prints (term_puts (bs "Unknown command: ");; term_puts name;; term_puts [10]) (tape_puts (bs "Unknown command: " ++ name ++ [10])).
Proof.
  intros Hn t st Hs. rewrite !tape_puts_app. assert (buf_text name = name) as En by (unfold buf_text; by rewrite strlen_nul_free, firstn_all).
  pose proof (mputs_ok name) as Hp. rewrite En in Hp.
  exact (prints_seq _ _ _ _ (mputs_ok (bs "Unknown command: ")) (prints_seq _ _ _ _ Hp (mputs_ok [10])) t st Hs).
Qed.

Lemma run_text_ok c t st cpu k s : bkeeps c any -> ran t st cpu k (fst s) ->
  match c st with
  | Ok (out, st', _) => does (run_text c) (fun _ s' => ran (tape_puts out t) st' cpu k (fst s')) s
  | Stuck _ => False
  end.
Proof.
  intros Hc [Hs Hr Hf Hb Hcpu Hk]. rewrite Hf in Hb. pose proof (Hc st Hb) as Hrun. destruct (c st) as [[[out st'] r]|e] eqn:E; [|done].
  destruct Hrun as [Hb' _]. cbn [fst snd] in Hb'. unfold run_text. apply does_bind, does_get. rewrite Hf. apply does_bind. eapply does_lift; [exact E|].
  apply does_bind, does_modify. eapply ran_print; [apply print_all_ok| |done].
  split; cbn [fst m_fs line g_cpu m_kbd set_m_fs]; try done. by apply screen_fs.
Qed.

Lemma lit_nul l : forallb (fun c => negb (c =? 0)) l = true -> nul_free l.
Proof. rewrite forallb_forall. intros Hl. apply Forall_forall. intros c Hc ->. discriminate (Hl 0). by apply list_elem_of_In. Qed.

Lemma exec_ok t text st cpu k s : text <> [] -> ends_in cpu k (Terminal64 t text st) (fst s) ->
  follows shell_exec_line (r ← line_effect cpu st text; Some (ran (r.1 t) r.2 cpu k)) s.
Proof.
  intros Hne ([Hs [rest Hl] Hroom Hlen Ht Hf Hb] & Hcpu & Hk). cbn [a_tape a_line a_fs] in *.
  destruct (split_line_ok text rest Ht) as (b & Hsplit & Hname & Hnul & Hbl). rewrite <- Hl in Hsplit, Hbl.
  unfold shell_exec_line, line_effect. destruct (command_of text) as [name args]. cbn [fst snd] in *.
  apply follows_bind, does_get. destruct text as [|x text]; [done|]. rewrite Hl. change (hd0 ((x :: text) ++ 0 :: rest)) with x.
  inversion Ht as [|? ? Hx _]; subst. unfold printable in Hx. destruct (Z.eqb_spec x 0); [lia|]. rewrite <- Hl.
  apply follows_bind. eapply does_lift; [exact Hsplit|]. apply follows_bind, does_modify. cbn zeta.
  set (s1 := (set_m_line b _ (fst s), snd s)). assert (Hran : ran t (m_fs (fst s)) (g_cpu (fst s)) (m_kbd (fst s)) (fst s1)).
  { split; cbn; [by apply screen_line|congruence|done..]. }
  rewrite !(strcmp_decide (buf_text b)) by (done || by apply lit_nul).
  destruct (decide (buf_text b = bs "help")). { eapply ran_print; [apply print_all_ok|exact Hran|done]. }
  destruct (decide (buf_text b = bs "clear")).
  { destruct Hran as [Hs1 Hr1 Hf1 Hb1 Hc1 Hk1]. apply mclear_ok; [by apply (si_devices _ _ Hs1)|]. intros s' tr Hs' [= Ec Ek Ef El En].
    split; cbn [fst snd]; rewrite ?El, ?Ef, ?Ec, ?Ek; done. }
  destruct (text_command _ (buf_text b) args) as [c|] eqn:Ec.
  { pose proof (run_text_ok c t (m_fs (fst s)) _ _ s1 (text_command_ok _ _ _ _ Ec) Hran) as Hc.
    by destruct (c (m_fs (fst s))) as [[[out st'] r]|]. }
  destruct (decide (buf_text b = bs "reboot")) as [Er|Er].
  { rewrite decide_True by tauto. apply follows_bind. eexists. split; [reflexivity|]. by apply follows_halt. }
  destruct (decide (buf_text b = bs "halt")) as [Eh|Eh].
  { rewrite decide_True by tauto. apply follows_bind. eapply does_mono; [apply (mputs_ok _ t), Hran|]. intros. by apply follows_halt. }
  rewrite decide_False by tauto. eapply ran_print; [by apply unknown_ok|exact Hran|done].
Qed.

(** Enter: the line runs and a new one begins. *)
Lemma enter_ok t text st key cpu k s : ends_in cpu k (Terminal64 t text st) (fst s) -> key = KEY_ENTER \/ key = 10 ->
  follows (monitor_key key) (a ← key_effect cpu (Terminal64 t text st) key; Some (ends_in cpu k a)) s.
Proof.
  intros He Hkey. pose proof He as ([Hs [rest Hl] Hroom Hlen Ht Hf Hb] & Hcpu & Hk). cbn [a_tape a_line a_fs] in *.
  unfold monitor_key, key_effect. replace ((key =? KEY_ENTER) || (key =? 10)) with true by lia.
  apply follows_bind, does_get. apply follows_bind. eapply does_lift.
  { rewrite Hl, Hlen. exact (blit_app text [0] rest _ [0] eq_refl eq_refl). }
  apply follows_bind, does_modify. apply follows_bind. eapply printing; [apply mputc_ok|apply screen_line; exact Hs|]. cbn [fst snd].
  intros s1 tr1 Hs1 [= Ec Ek Ef El En]. change (text ++ [0] ++ rest) with (text ++ 0 :: rest) in El.
  assert (Hlast : forall t' st' s, ran t' st' cpu k (fst s) ->
    does (s ← Ports.get; b ← Ports.lift (blit (line s) 0 [0]); modify (set_m_line b 0);; term_puts (bs "x64> "))
      (fun _ s' => ends_in cpu k (Terminal64 (tape_puts prompt t') [] st') (fst s')) s).
  { clear. intros t' st' s [Hs Hr Hf Hb Hc Hk]. apply does_bind, does_get. destruct (line (fst s)) as [|x l] eqn:El; [done|].
    apply does_bind. eapply does_lift; [exact (blit_app [] [x] l 0 [0] eq_refl eq_refl)|]. apply does_bind, does_modify.
    eapply printing; [apply mputs_ok|apply screen_line; exact Hs|]. cbn [fst snd]. intros s' tr Hs' [= Ec' Ek' Ef' El' En'].
    split; [|cbn [fst]; by rewrite Ec', Ek']. split; cbn [fst a_tape a_line a_fs]; rewrite ?El', ?En', ?Ef'; try done. by exists l. }
  destruct (decide (text = [])) as [->|Hne].
  - rewrite Hlen. change (Z.of_nat (length []) >? 0) with false. apply follows_bind, does_ret.
    apply (Hlast (tape_putc t 10) st). split; cbn [fst]; rewrite ?El, ?Ef, ?Ec, ?Ek; try done. by rewrite <- Hl.
  - assert (0 < len (fst s)) as Hpos by (rewrite Hlen; destruct text; [done|cbn [length]; lia]).
    rewrite Z.gtb_ltb, (proj2 (Z.ltb_lt _ _)) by exact Hpos.
    assert (He1 : ends_in cpu k (Terminal64 (tape_putc t 10) text st) s1).
    { split; [|by rewrite Ec, Ek]. split; cbn [a_tape a_line a_fs]; rewrite ?El, ?Ef, ?En; try done; [by eexists|by rewrite <- Hl]. }
    pose proof (exec_ok _ _ _ _ _ (s1, tr1) Hne He1) as Hexec. destruct (line_effect cpu st text) as [[f st']|].
    + apply follows_bind. eapply does_mono with (P := fun _ s2 => ran (f (tape_putc t 10)) st' cpu k (fst s2)); [exact Hexec|].
      intros [] s2 Hran. by apply Hlast.
    + cbn in Hexec |- *. unfold mbind, M_bind. by rewrite Hexec.
Qed.

Lemma key_ok a key cpu k s : ends_in cpu k a (fst s) ->
  follows (monitor_key key) (a ← key_effect cpu a key; Some (ends_in cpu k a)) s.
Proof.
  destruct a as [t text st]. intros He. destruct ((key =? KEY_ENTER) || (key =? 10)) eqn:E1; [apply enter_ok; [done|lia]|].
  unfold key_effect. rewrite E1. destruct ((key =? KEY_BACKSPACE) || (key =? 8)) eqn:E2; [apply back_ok; [done|lia]|].
  destruct ((32 <=? key) && (key <=? 126) && (length text <? 255)%nat) eqn:E3.
  { apply andb_prop in E3 as [E3 E4%Nat.ltb_lt]. apply char_ok; [done|unfold printable; lia|exact E4]. }
  unfold monitor_key. apply follows_bind, does_get. rewrite E1, E2. pose proof (sh_len _ _ (proj1 He)) as Hlen. cbn [a_line] in Hlen.
  assert ((key >=? 32) && (key <=? 126) && (len (fst s) <? 256 - 1) = false) as ->; [|by apply does_ret].
  destruct (Nat.ltb_spec (length text) 255); lia.
Qed.

End keys.

(** * Starting and polling *)

Definition banner (cpu : cpu_info64_t) : list Z :=
  bs "HeatOS x64 kernel (phase 2)" ++ [10] ++ bs "Long mode active. Interactive monitor enabled." ++ [10; 10] ++ bs "CPU: " ++
  buf_text (vendor cpu) ++ bs "  LM=" ++ yes_no (has_long_mode cpu) ++ [10] ++
  bs "Ramdisk online (/home, /java, /docs...)." ++ [10] ++ bs "Java phase 1: HJAR execution + ZIP/JAR inspection." ++ [10] ++
  bs "Type 'help'." ++ [10; 10].

(** The scan codes the tables have entries for. *)
Definition in_tables (sc : Z) : bool := Z.land sc 127 <? 113.

Lemma bytes_decode64 : forallb (fun k => forallb (fun sc => negb (in_tables sc) || ends_ok (ps2_byte sc k)) (seqZ 0 256)) kbds = true.
Proof. vm_compute. reflexivity. Qed.

Lemma ps2_byte_ok sc k : is_u8 sc -> in_tables sc = true -> exists key k', ps2_byte sc k = Ok (key, k').
Proof.
  intros Hsc Hin. pose proof bytes_decode64 as Hall. rewrite forallb_forall in Hall.
  assert (Hk : List.In k kbds) by (destruct k as [[] [] []]; cbn; tauto). specialize (Hall k Hk). rewrite forallb_forall in Hall.
  specialize (Hall sc). rewrite Hin in Hall. destruct (ps2_byte sc k) as [[key k']|e]; [by exists key, k'|].
  discriminate Hall. apply list_elem_of_In, elem_of_seqZ. unfold is_u8 in Hsc. lia.
Qed.

Section boot.
Context `{Hardware}.
Variable cpuid : Z -> Z -> Z * Z * Z * Z.
Variable wakes : list io_event -> bool.

(** The keyboard sends no code that the tables lack. *)
Definition codes_ok : Prop := forall tr, in_tables (u8 (answer tr W8 KB_DATA_PORT)) = true.

Lemma boot_cwd boot : ramdisk_init = Ok boot -> fs_cwd_set boot 0 = in_dir 0 boot.
Proof.
  intros Hb. destruct ramdisk_init_wf as (boot' & Hb' & kids & rank & Hwf). rewrite Hb in Hb'. injection Hb' as <-. clear Hb.
  unfold fs_cwd_set. rewrite (proj2 (fs_is_dir_spec boot 0) (wf_root _ _ _ Hwf)). reflexivity.
Qed.

Lemma yes_no_text b : buf_text (yes_no b) = yes_no b.
Proof. by destruct b. Qed.

Ltac print_step :=
  match goal with Hs : screen_is ?t ?s, Hf : frame ?s = _ |- _ =>
    apply does_bind; eapply printing; [apply mputs_ok|exact Hs|]; cbn [fst];
    let s' := fresh "s" in let tr := fresh "tr" in let Hs' := fresh "Hs" in let Hf' := fresh "Hf" in
    intros s' tr Hs' Hf'; rewrite Hf in Hf'; clear Hs Hf
  end.

Lemma mstart_ok screen stack tr : length stack = 256%nat -> exists boot, ramdisk_init = Ok boot /\
  does (monitor_start cpuid) (fun _ st' =>
    ends_in (cpu_collect cpuid) kbd_boot (Terminal64 (tape_puts (banner (cpu_collect cpuid) ++ prompt) []) [] (in_dir 0 boot)) (fst st'))
    (monitor_image screen stack, tr).
Proof.
  intros Hstack. destruct ramdisk_init_wf as (boot & Hb & _). exists boot. split; [done|].
  unfold monitor_start. apply does_bind. eapply on_serial_ok; [apply settles_serial_init|apply dkeeps_serial_init|by split|].
  intros [] d tr1 Hd _. cbn [fst]. set (cpu := cpu_collect cpuid). cbn zeta. apply does_bind, does_modify, does_bind, mclear_ok; [done|].
  intros s tr2 Hs Hf. cbn [fst snd] in *. change (frame s = (cpu, kbd_boot, ramdisk_clear, stack, 0)) in Hf.
  do 7 print_step. apply does_bind. eapply does_lift; [exact Hb|]. apply does_bind, does_modify. cbn [fst snd].
  rewrite (boot_cwd boot Hb).
  match goal with Hf : frame ?s = _, Hs : screen_is _ ?s |- _ =>
    apply (screen_fs _ _ (in_dir 0 boot)) in Hs; assert (Hf' : frame (set_m_fs (in_dir 0 boot) s) = (cpu, kbd_boot, in_dir 0 boot, stack, 0))
      by (injection Hf as E1 E2 E3 E4 E5; unfold frame; cbn; by rewrite E1, E2, E4, E5); clear Hf end.
  assert (Hbooted : booted (in_dir 0 boot)) by (exists boot, 0%nat; split; [exact Hb|]; split; [apply zero_link|reflexivity]). clear Hb.
  do 4 print_step. apply does_bind, does_get. cbn [fst snd].
  match goal with Hf : frame ?s = _, Hs : screen_is ?t ?s |- _ => injection Hf as E1 E2 E3 E4 E5;
    assert (t = tape_puts (banner cpu ++ prompt) []) as Et by (rewrite <- !tape_puts_app, yes_no_text; f_equal; unfold banner; rewrite <- !app_assoc; reflexivity);
    rewrite Et in Hs; clear Et; set (final := s) in *; rename Hs into Hfinal end.
  rewrite E4. destruct stack as [|x rest]; [done|]. apply does_bind. eapply does_lift; [exact (blit_app [] [x] rest 0 [0] eq_refl eq_refl)|].
  apply does_modify. cbn [fst snd]. split; [|by split].
  split; cbn [a_tape a_line a_fs m_fs line len set_m_line app length]; [by apply screen_line|by exists rest|done|done|done|done|by rewrite E3].
Qed.

(** ** Safety *)

Definition session_ok (s : monitor) : Prop := exists a, shows a s.

Lemma follows_wp m o s (R : monitor -> Prop) : follows m o s -> (forall Q s, o = Some Q -> Q s -> R s) ->
  wp m (fun _ s' => R (fst s') /\ any tt) s.
Proof.
  intros Hm HR. unfold wp. destruct o as [Q|]; cbn in Hm.
  - destruct Hm as ([[] s'] & -> & HQ). split; [by apply (HR Q)|done].
  - by rewrite Hm.
Qed.

Lemma poll_keeps : codes_ok -> mkeeps session_ok keyboard_poll_ps2 any.
Proof.
  intros Hcodes [s tr] Hs. unfold keyboard_poll_ps2, wp, mbind, M_bind, inb, port_in, Ports.get, Ports.lift, modify. cbn [fst snd trunc].
  destruct (_ =? 0); [done|]. cbn [fst snd].
  match goal with |- context [ps2_byte ?sc ?k] => destruct (ps2_byte_ok sc k) as (key & k' & ->) end; [apply u8_range|apply Hcodes|].
  cbn [fst snd]. split; [|done]. destruct Hs as (a & [[] ? ? ? ? ? ?]). exists a. by split; [split|..].
Qed.

Lemma turn_keeps : codes_ok -> mkeeps session_ok (monitor_turn wakes) any.
Proof.
  intros Hcodes. unfold monitor_turn. eapply mkeeps_bind; [by apply poll_keeps|]. intros key _. destruct (key =? 0).
  - intros st Hst. unfold hlt64, wp. by destruct (wakes (snd st)).
  - intros st (a & Ha). eapply wp_mono; [eapply (follows_wp _ _ _ session_ok); [by apply (key_ok a key (g_cpu (fst st)) (m_kbd (fst st)))|]|].
    + intros Q s HQ Hs. destruct (key_effect _ a key) as [a'|]; [|done]. injection HQ as <-. destruct Hs as [Hs _]. by exists a'.
    + intros [] s' H'. exact H'.
Qed.

Lemma loop_keeps n : codes_ok -> mkeeps session_ok (monitor_loop wakes n) any.
Proof.
  intros Hcodes. induction n as [|n IH]; cbn [monitor_loop]; [apply mkeeps_skip|].
  eapply mkeeps_bind; [by apply turn_keeps|]. by intros _ _.
Qed.

(** C21: printing on the 64-bit monitor refines a tape: whatever the serial port
    answers, [term_puts] ends; the screen is then the 25-row window on the end
    of everything printed since it was cleared (a new line fills its row with
    blanks, a backspace takes back a cell of its row, a full screen scrolls),
    the cursor stands after the last cell, and nothing else changes. *)
Theorem monitor_prints s t st (Hs : screen_is t (fst st)) :
  succeeds (term_puts s st) (fun r =>
    screen_is (tape_puts (buf_text s) t) (fst r.2) /\ frame (fst r.2) = frame (fst st)).
Proof. exact (mputs_ok s t st Hs). Qed.

(** C4: the 64-bit kernel never leaves its objects and never traps: with any
    hardware, processor and wake-ups, provided the keyboard sends no scan code
    that [scancode_shift] lacks, [kernel_main64] runs any number of turns of
    its loop with its line, screen and file system consistent. *)
Theorem monitor_safe screen stack tr n (Hstack : length stack = 256%nat) (Hcodes : codes_ok) :
  wp (kernel_main64 cpuid wakes n) (fun _ st' => session_ok (fst st')) (monitor_image screen stack, tr).
Proof.
  destruct (mstart_ok screen stack tr Hstack) as (boot & _ & ([[] st'] & Hstart & Hs & _)). cbn [fst snd] in Hs.
  apply wp_bind. unfold wp at 1. rewrite Hstart. eapply wp_mono; [apply (loop_keeps n Hcodes)|by intros [] s []]. by eexists.
Qed.
End boot.

(** ** Concrete runs *)

#[local] Transparent ramdisk_init.

(** A machine where nothing answers, and a processor without extensions. *)
Definition quiet : Hardware := fun _ _ _ => 0.
Definition plain_cpu (leaf subleaf : Z) : Z * Z * Z * Z := (0, 0, 0, 0).

Definition boot_files : fs := match ramdisk_init with Ok st => st | Stuck _ => ramdisk_clear end.
Definition cleared : monitor :=
  Monitor (replicate 2000 blank64) 0 0 cpu_zero kbd_boot (devices_boot []) ramdisk_clear (replicate 256 0) 0.

Lemma monitor_prints_witness :
  succeeds (term_puts (H := quiet) (bs "hi" ++ [10] ++ bs "ho" ++ [8]) (cleared, [])) (fun r =>
    screen_is (map entry64 (bs "hi") ++ replicate 78 blank64 ++ [entry64 (ch "h")]) (fst r.2) /\ frame (fst r.2) = frame cleared).
Proof. apply (@monitor_prints quiet (bs "hi" ++ [10] ++ bs "ho" ++ [8]) [] (cleared, [])). by split. Defined.

Lemma monitor_safe_witness :
  wp (kernel_main64 (H := quiet) plain_cpu (fun _ => true) 100) (fun _ st' => session_ok (fst st'))
    (monitor_image (replicate 2000 0) (replicate 256 255), []).
Proof. apply (@monitor_safe quiet plain_cpu (fun _ => true)); [reflexivity|]. intros tr. reflexivity. Defined.

(** A key of the shift table's missing rows, 0x71 to 0x7f, with Shift held. *)
Example shift_reads_past : ps2_byte 113 (Kbd true false false) = Stuck OutOfBounds.
Proof. reflexivity. Qed.
