(* ===== verification/Main64Keys.v ===== *)
(** The 64-bit monitor at its keyboard: the scan codes in the controller are
    decoded and typed one after the other. *)
From Stdlib Require Import ZArith Lia Ascii String.
From stdpp Require Import base tactics option numbers list.
From S2P Require Import Prelude Buffer CString Console Command Ports Vga Terminal Input InputProps Devices.
From S2P Require Import Ramdisk RamdiskInit Main64 Main64Props.
#[local] Open Scope Z_scope.

(** * What does not read the keyboard *)

(** [m] takes no byte from the controller. *)
Definition leaves_kbd {G A} (m : M G A) : Prop := forall st,
  match m st with Ok (_, st') => data_reads (snd st') = data_reads (snd st) | Stuck _ => True end.

Section leaves.
Context `{Hardware} {G : Type}.

Lemma leaves_bind {A B} (m : M G A) (f : A -> M G B) : leaves_kbd m -> (forall a, leaves_kbd (f a)) -> leaves_kbd (m ≫= f).
Proof.
  intros Hm Hf st. unfold mbind, M_bind. specialize (Hm st). destruct (m st) as [[a st']|e]; [|done].
  specialize (Hf a st'). destruct (f a st') as [[b st'']|e]; [congruence|done].
Qed.
Lemma leaves_ret {A} (a : A) : leaves_kbd (G := G) (mret a).
Proof. done. Qed.
Lemma leaves_get : leaves_kbd (G := G) Ports.get.
Proof. done. Qed.
Lemma leaves_gets {A} (f : G -> A) : leaves_kbd (gets f).
Proof. done. Qed.
Lemma leaves_modify (f : G -> G) : leaves_kbd (modify f).
Proof. done. Qed.
Lemma leaves_lift {A} (o : outcome A) : leaves_kbd (G := G) (Ports.lift o).
Proof. intros st. unfold Ports.lift. by destruct o. Qed.
Lemma leaves_outb p v : leaves_kbd (G := G) (outb p v).
Proof. done. Qed.
Lemma leaves_inb p : (p =? KB_DATA_PORT) = false -> leaves_kbd (G := G) (inb p).
Proof. intros Hp st. unfold inb, port_in, data_reads. cbn [fst snd List.filter]. by rewrite Hp. Qed.
Lemma leaves_if {A} (b : bool) (m m' : M G A) : leaves_kbd m -> leaves_kbd m' -> leaves_kbd (if b then m else m').
Proof. by destruct b. Qed.
Lemma leaves_mrepeat {R} (body : M G (option R)) n : leaves_kbd body -> leaves_kbd (mrepeat n body).
Proof. intros Hb. induction n; cbn [mrepeat]; [done|]. apply leaves_bind; [done|]. by intros []. Qed.
End leaves.

Create HintDb leaves discriminated.

(** Follows the text of a computation; the database has its calls. *)
Ltac leaves :=
  repeat lazymatch goal with
  | |- leaves_kbd (_ ≫= _) => apply leaves_bind; [|intros ?]
  | |- leaves_kbd (if _ then _ else _) => apply leaves_if
  | |- leaves_kbd (mret _) => apply leaves_ret
  | |- leaves_kbd Ports.get => apply leaves_get
  | |- leaves_kbd (gets _) => apply leaves_gets
  | |- leaves_kbd (modify _) => apply leaves_modify
  | |- leaves_kbd (Ports.lift _) => apply leaves_lift
  | |- leaves_kbd skip => apply leaves_ret
  | |- leaves_kbd (outb _ _) => apply leaves_outb
  | |- leaves_kbd (inb _) => apply leaves_inb; reflexivity
  | |- leaves_kbd (mrepeat _ _) => apply leaves_mrepeat
  end; auto with leaves.

Section monitor.
Context `{Hardware}.

Lemma leaves_on_serial {A} (m : M devices A) : leaves_kbd m -> leaves_kbd (on_serial m).
Proof.
  intros Hm [s tr]. unfold on_serial. specialize (Hm (m_devices s, tr)). by destruct (m (m_devices s, tr)) as [[a [d tr']]|e].
Qed.

Lemma leaves_send c : leaves_kbd (serial_send c).
Proof.
  unfold serial_send, serial_tx_ready. leaves. destruct a; leaves.
Qed.
Hint Resolve leaves_send leaves_on_serial : leaves.

Lemma leaves_serial_putc c : leaves_kbd (serial_putc c).
Proof. unfold serial_putc, serial_is_ready. leaves. Qed.
Lemma leaves_serial_init : leaves_kbd serial_init.
Proof. unfold serial_init. leaves. Qed.
Hint Resolve leaves_serial_putc leaves_serial_init : leaves.

Lemma leaves_sync : leaves_kbd vga_sync_cursor.
Proof. unfold vga_sync_cursor. leaves. Qed.
Lemma leaves_put row col c n : leaves_kbd (put_entry row col c n).
Proof. unfold put_entry. leaves. Qed.
Lemma leaves_next_row : leaves_kbd next_row.
Proof. unfold next_row, Main64.vga_scroll_up. leaves. Qed.
Hint Resolve leaves_sync leaves_put leaves_next_row : leaves.

Lemma leaves_putc c : leaves_kbd (Main64.term_putc c).
Proof. unfold Main64.term_putc. leaves. Qed.
Hint Resolve leaves_putc : leaves.
Lemma leaves_print s : leaves_kbd (print_all s).
Proof. induction s; cbn [print_all]; leaves. Qed.
Hint Resolve leaves_print : leaves.
Lemma leaves_puts s : leaves_kbd (Main64.term_puts s).
Proof. apply leaves_print. Qed.
Lemma leaves_clear : leaves_kbd Main64.term_clear.
Proof. unfold Main64.term_clear. leaves. Qed.
Hint Resolve leaves_puts leaves_clear : leaves.

Lemma leaves_run_text c : leaves_kbd (run_text c).
Proof. unfold run_text. apply leaves_bind; [leaves|]. intros s. apply leaves_bind; [leaves|]. intros [[out st] r]. leaves. Qed.
Hint Resolve leaves_run_text : leaves.

Lemma leaves_exec : leaves_kbd shell_exec_line.
Proof.
  unfold shell_exec_line, halt_forever. apply leaves_bind; [leaves|]. intros s. apply leaves_if; [leaves|].
  apply leaves_bind; [leaves|]. intros [b args]. apply leaves_bind; [leaves|]. intros _. cbv zeta.
  do 2 (apply leaves_if; [leaves|]). destruct (text_command _ _ _); leaves.
Qed.
Hint Resolve leaves_exec : leaves.

Lemma leaves_key key : leaves_kbd (monitor_key key).
Proof. unfold monitor_key. leaves. Qed.

Lemma leaves_start cpuid : leaves_kbd (monitor_start cpuid).
Proof. unfold monitor_start. leaves. Qed.
End monitor.

(** * Scan codes *)

(** The keys of a sequence of scan codes, the modifiers being [k]. *)
Fixpoint decode64 (k : kbd) (codes : list Z) : list Z :=
  match codes with
  | [] => []
  | sc :: codes =>
    match ps2_byte sc k with
    | Ok (key, k') => (if key =? 0 then [] else [key]) ++ decode64 k' codes
    | Stuck _ => []
    end
  end.

(** The controller holds [codes]: its status says whether one is left, and a
    read of the data port takes it.  The other ports answer anything. *)
Record holds_codes (H : Hardware) (codes : list Z) : Prop := {
  hc_status : forall tr, (Z.land (u8 (answer tr W8 KB_STATUS_PORT)) KB_STATUS_OBF =? 0) = bool_decide (drop (data_reads tr) codes = []);
  hc_data : forall tr sc l, drop (data_reads tr) codes = sc :: l -> u8 (answer tr W8 KB_DATA_PORT) = sc;
  hc_bytes : Forall (fun sc => is_u8 sc /\ in_tables sc = true) codes }.

(** What each of [n] polls returns, 0 when there is no key. *)
Fixpoint polled (k : kbd) (codes : list Z) (n : nat) : list Z :=
  match n, codes with
  | O, _ => []
  | S n, [] => 0 :: polled k [] n
  | S n, sc :: codes => match ps2_byte sc k with Ok (key, k') => key :: polled k' codes n | Stuck _ => [] end
  end.

(** What a sequence of turns does, each with the key it polled and whether a
    [hlt] in it returns; [None]: the machine stops. *)
Fixpoint turns_effect (cpu : cpu_info64_t) (a : terminal64) (turns : list (Z * bool)) : option terminal64 :=
  match turns with
  | [] => Some a
  | (key, wakes) :: turns =>
    match (if key =? 0 then if wakes then Some a else None else key_effect cpu a key) with
    | Some a => turns_effect cpu a turns
    | None => None
    end
  end.

(** Machines that no [hlt] stops, and that every [hlt] stops. *)
Lemma turns_awake cpu n : forall codes k a, Forall (fun sc => is_u8 sc /\ in_tables sc = true) codes ->
  (length codes <= n)%nat ->
  turns_effect cpu a (zip (polled k codes n) (replicate n true)) = keys_effect cpu a (decode64 k codes).
Proof.
  induction n as [|n IH]; intros codes k a Hc Hn; [by destruct codes; [|cbn in Hn; lia]|].
  destruct codes as [|sc codes].
  - change (polled k [] (S n)) with (0 :: polled k [] n). cbn [replicate zip zip_with turns_effect]. change (0 =? 0) with true. cbv iota.
    apply (IH [] k a); [constructor|cbn; lia].
  - apply Forall_cons in Hc as [[Hsc Hin] Hc]. cbn [length] in Hn. destruct (ps2_byte_ok sc k Hsc Hin) as (key & k' & E).
    cbn [polled decode64]. rewrite E. cbn [replicate zip zip_with turns_effect].
    destruct (key =? 0); cbn [app keys_effect]; [apply IH; [done|lia]|].
    destruct (key_effect cpu a key); [apply IH; [done|lia]|done].
Qed.

Lemma turns_asleep cpu n : forall keys a, (length keys <= n)%nat -> 0 ∈ keys ->
  turns_effect cpu a (zip keys (replicate n false)) = None.
Proof.
  induction n as [|n IH]; intros [|key keys] a Hn H0; cbn in Hn; try lia; [by inversion H0..|].
  cbn [replicate zip zip_with turns_effect]. destruct (Z.eqb_spec key 0) as [|Hk]; [done|].
  apply elem_of_cons in H0 as [|H0]; [lia|]. destruct (key_effect cpu a key); [|done]. apply IH; [lia|done].
Qed.

Lemma answers_replicate {A} (b : A) l n : length l = n -> Forall (fun x => x = b) l -> l = replicate n b.
Proof. intros <-. induction 1 as [|x l -> _ IH]; [done|]. cbn. by f_equal. Qed.

Lemma polled_length n : forall codes k, Forall (fun sc => is_u8 sc /\ in_tables sc = true) codes ->
  length (polled k codes n) = n.
Proof.
  induction n as [|n IH]; intros [|sc codes] k Hc; cbn [polled length]; [done..| |].
  - by rewrite IH.
  - apply Forall_cons in Hc as [[Hsc Hin] Hc]. destruct (ps2_byte_ok sc k Hsc Hin) as (key & k' & ->). cbn [length]. by rewrite IH.
Qed.

Section typing.
Context `{hw : Hardware} (codes : list Z) (Hc : holds_codes hw codes) (wakes : list io_event -> bool).

Definition left_codes (st : monitor * list io_event) : list Z := drop (data_reads (snd st)) codes.

Lemma left_bytes st : Forall (fun sc => is_u8 sc /\ in_tables sc = true) (left_codes st).
Proof. apply Forall_drop, (hc_bytes _ _ Hc). Qed.

(** A poll takes the next code, if there is one. *)
Lemma poll_code st : exists key k st', keyboard_poll_ps2 st = Ok (key, st') /\ fst st' = set_m_kbd k (fst st) /\
  match left_codes st with
  | [] => key = 0 /\ k = m_kbd (fst st) /\ left_codes st' = []
  | sc :: l => ps2_byte sc (m_kbd (fst st)) = Ok (key, k) /\ left_codes st' = l
  end.
Proof.
  pose proof (left_bytes st) as Hb. destruct st as [s tr]. unfold left_codes in *. cbn [fst snd] in *.
  unfold keyboard_poll_ps2, mbind, M_bind, inb, port_in, Ports.get, Ports.lift, modify. cbn [fst snd trunc].
  rewrite (hc_status _ _ Hc). destruct (drop (data_reads tr) codes) as [|sc l] eqn:El.
  - rewrite bool_decide_true by done. exists 0, (m_kbd s). eexists. split; [reflexivity|]. cbn [fst snd]. by destruct s.
  - rewrite bool_decide_false by done. cbn [fst snd].
    set (tr1 := In W8 KB_STATUS_PORT _ :: tr). assert (E1 : data_reads tr1 = data_reads tr) by done.
    rewrite (hc_data _ _ Hc tr1 sc l) by by rewrite E1. inversion Hb as [|? ? [Hsc Hin] _]; subst.
    destruct (ps2_byte_ok sc (m_kbd s) Hsc Hin) as (key & k' & ->). exists key, k'. eexists. split; [reflexivity|]. cbn [fst snd].
    split; [done|]. split; [done|]. change (data_reads (In W8 KB_DATA_PORT sc :: tr1)) with (S (data_reads tr)).
    by rewrite <- Nat.add_1_r, <- drop_drop, El.
Qed.

Lemma set_kbd_ends cpu k k' a s : ends_in cpu k a s -> ends_in cpu k' a (set_m_kbd k' s).
Proof. intros ([[] ? ? ? ? ? ?] & ? & ?). by split; [split; [split|..]|]. Qed.

(** A turn: what it polls, and what it does then; [tr1] is what had happened
    before its [hlt]. *)
Lemma turn_ok a cpu k st : ends_in cpu k a (fst st) -> exists key k' l' tr1,
  match left_codes st with [] => key = 0 /\ k' = k /\ l' = [] | sc :: l => ps2_byte sc k = Ok (key, k') /\ l' = l end /\
  match (if key =? 0 then if wakes tr1 then Some a else None else key_effect cpu a key) with
  | Some a' => does (monitor_turn wakes) (fun _ st' => ends_in cpu k' a' (fst st') /\ left_codes st' = l') st
  | None => monitor_turn wakes st = Stuck NoFuel
  end.
Proof.
  intros Ha. destruct (poll_code st) as (key & k' & st1 & Epoll & Es & Hst). exists key, k', (left_codes st1), (snd st1).
  pose proof Ha as (_ & _ & Hk). rewrite Hk in Hst. split.
  { destruct (left_codes st); destruct Hst as [? Hst]; [by destruct Hst as [-> ->]|done]. }
  apply (set_kbd_ends _ _ k') in Ha. rewrite <- Es in Ha. unfold monitor_turn. destruct (key =? 0) eqn:E0.
  - destruct (wakes (snd st1)) eqn:Ew.
    + apply does_bind. eexists. split; [exact Epoll|]. cbn [fst snd]. rewrite E0. exists (tt, st1). split; [|by split].
      unfold hlt64. by rewrite Ew.
    + unfold mbind, M_bind. rewrite Epoll, E0. unfold hlt64. by rewrite Ew.
  - pose proof (key_ok a key cpu k' st1 Ha) as Hkey. pose proof (leaves_key key st1) as Hleft.
    destruct (key_effect cpu a key) as [a'|].
    + apply does_bind. eexists. split; [exact Epoll|]. cbn [fst snd]. rewrite E0. destruct Hkey as ([[] st2] & E2 & Ha2).
      exists (tt, st2). split; [exact E2|]. split; [exact Ha2|]. rewrite E2 in Hleft. unfold left_codes in *. cbn [fst snd]. by rewrite Hleft.
    + unfold mbind, M_bind. rewrite Epoll, E0. exact Hkey.
Qed.

Lemma polled_step k codes' key k' l' n :
  match codes' with [] => key = 0 /\ k' = k /\ l' = [] | sc :: l => ps2_byte sc k = Ok (key, k') /\ l' = l end ->
  polled k codes' (S n) = key :: polled k' l' n.
Proof. destruct codes' as [|sc l]; [by intros (-> & -> & ->)|]. intros [E ->]. cbn [polled]. by rewrite E. Qed.

Lemma loop_ok n : forall a cpu k st, ends_in cpu k a (fst st) -> exists ws,
  length ws = n /\ Forall (fun w => exists tr, w = wakes tr) ws /\
  follows (monitor_loop wakes n) (a ← turns_effect cpu a (zip (polled k (left_codes st) n) ws); Some (shows a)) st.
Proof.
  induction n as [|n IH]; intros a cpu k st Ha.
  { exists []. split_and!; [done|constructor|]. destruct (left_codes st); apply does_ret, Ha. }
  destruct (turn_ok a cpu k st Ha) as (key & k' & l' & tr1 & Hnext & Hturn). rewrite (polled_step _ _ _ _ _ n Hnext).
  cbn [monitor_loop]. destruct (if key =? 0 then _ else _) as [a'|] eqn:Ea.
  - destruct Hturn as ([[] st1] & E1 & Ha1 & Hl1). destruct (IH a' cpu k' st1 Ha1) as (ws & Hlen & Hws & Hrun).
    cbn [fst snd] in Ha1, Hl1. rewrite Hl1 in Hrun.
    exists (wakes tr1 :: ws). split_and!; [cbn; lia|constructor; [by exists tr1|done]|].
    cbn [zip zip_with turns_effect]. rewrite Ea. apply follows_bind. exists (tt, st1). by split.
  - exists (replicate (S n) (wakes tr1)). split_and!; [apply length_replicate|apply Forall_replicate; by exists tr1|].
    cbn [replicate zip zip_with turns_effect]. rewrite Ea. cbn. unfold mbind, M_bind. by rewrite Hturn.
Qed.
End typing.

(** C3: the 64-bit kernel is its abstract monitor: from any screen, when the
    controller holds scan codes that its tables have, whatever the other ports
    answer and whichever [hlt]s return, [kernel_main64] prints its banner and in
    each turn of its loop polls the next code and does what [turns_effect] says:
    printable keys extend the line and echo, Backspace takes one back, Enter runs
    the line's command (its name in lower case up to the first space, its
    arguments after the spaces) over the boot file system and prompts again; a
    turn without a key (an empty controller, the release of a key, a modifier)
    halts, and goes on only if that [hlt] returns; every command ends, and
    [reboot] and [halt] stop the machine.  So when every [hlt] returns, all the
    keys of the codes have their effect one after the other.  When none does, as
    in this kernel, which has the interrupts off and no non-maskable one, the
    first turn without a key stops it for good. *)
Theorem monitor_session {hw : Hardware} cpuid wakes screen stack codes boot n (Hstack : length stack = 256%nat)
    (Hboot : ramdisk_init = Ok boot) (Hcodes : holds_codes hw codes) :
  let cpu := cpu_collect cpuid in
  let start := Terminal64 (tape_puts (banner cpu ++ prompt) []) [] (in_dir 0 boot) in
  let keys := polled kbd_boot codes n in
  let st := (monitor_image screen stack, []) in
  (exists ws, length ws = n /\ Forall (fun w => exists tr, w = wakes tr) ws /\ length keys = n /\
     follows (kernel_main64 cpuid wakes n) (a ← turns_effect cpu start (zip keys ws); Some (shows a)) st) /\
  ((forall tr, wakes tr = true) -> (length codes <= n)%nat ->
     follows (kernel_main64 cpuid wakes n) (a ← keys_effect cpu start (decode64 kbd_boot codes); Some (shows a)) st) /\
  ((forall tr, wakes tr = false) -> 0 ∈ keys -> kernel_main64 cpuid wakes n st = Stuck NoFuel).
Proof.
  intros cpu start keys st.
  assert (Hkeys : length keys = n) by apply polled_length, (hc_bytes _ _ Hcodes).
  assert (Hrun : exists ws, length ws = n /\ Forall (fun w => exists tr, w = wakes tr) ws /\
    follows (kernel_main64 cpuid wakes n) (a ← turns_effect cpu start (zip keys ws); Some (shows a)) st).
  { destruct (mstart_ok cpuid screen stack [] Hstack) as (boot' & Hb & ([[] st1] & Estart & Hst)).
    rewrite Hboot in Hb. injection Hb as <-. cbn [fst snd] in Hst. pose proof (leaves_start cpuid (monitor_image screen stack, [])) as Hleft. rewrite Estart in Hleft.
    assert (El : left_codes codes st1 = codes) by (unfold left_codes; rewrite Hleft; apply drop_0).
    destruct (loop_ok codes Hcodes wakes n _ _ _ st1 Hst) as (ws & Hlen & Hws & Hrun). rewrite El in Hrun.
    exists ws. split; [exact Hlen|]. split; [exact Hws|]. apply follows_bind. exists (tt, st1). split; [exact Estart|]. exact Hrun. }
  destruct Hrun as (ws & Hlen & Hws & Hrun). assert (Hconst : forall b, (forall tr, wakes tr = b) -> ws = replicate n b).
  { intros b Hb. apply answers_replicate; [done|]. eapply Forall_impl; [exact Hws|]. intros w [tr ->]. apply Hb. }
  split; [|split].
  - exists ws. exact (conj Hlen (conj Hws (conj Hkeys Hrun))).
  - intros Hw Hn. rewrite (Hconst true Hw) in Hrun. unfold keys in Hrun. rewrite turns_awake in Hrun; [done|apply (hc_bytes _ _ Hcodes)|done].
  - intros Hw H0. rewrite (Hconst false Hw) in Hrun.
    rewrite (turns_asleep cpu n keys start) in Hrun; [exact Hrun|by rewrite Hkeys|exact H0].
Qed.

(** A controller, and nothing behind the other ports. *)
Definition controller (codes : list Z) : Hardware := fun tr _ port =>
  if port =? KB_STATUS_PORT then (if decide (drop (data_reads tr) codes = []) then 0 else KB_STATUS_OBF)
  else if port =? KB_DATA_PORT then default 0 (head (drop (data_reads tr) codes)) else 0.

Lemma controller_holds codes : Forall (fun sc => is_u8 sc /\ in_tables sc = true) codes -> holds_codes (controller codes) codes.
Proof.
  intros Hc. split; [| |done].
  - intros tr. unfold answer, controller. change (KB_STATUS_PORT =? KB_STATUS_PORT) with true. cbv iota.
    destruct (decide (drop (data_reads tr) codes = [])); [by rewrite bool_decide_true|by rewrite bool_decide_false].
  - intros tr sc l El. unfold answer, controller. change (KB_DATA_PORT =? KB_STATUS_PORT) with false.
    change (KB_DATA_PORT =? KB_DATA_PORT) with true. cbv iota. rewrite El. cbn. apply u8_small.
    apply (Forall_drop _ (data_reads tr)) in Hc. rewrite El in Hc. by inversion Hc as [|? ? [] _].
Qed.

(** [cd /java], then LX, Backspace, S, with the releases of the keys. *)
Definition typed_codes : list Z :=
  concat (map (fun c => [c; Z.lor c 128]) [46; 32; 57; 53; 36; 30; 47; 30; 28]) ++
  [42] ++ concat (map (fun c => [c; Z.lor c 128]) [38; 45; 14; 31]) ++ [170; 28; 156].

(** With every [hlt] returning, the two commands; without, the press of the
    first letter is read and its release stops the machine. *)
Lemma monitor_session_witness :
  let st := (monitor_image (replicate 2000 0) (replicate 256 255), []) in
  follows (kernel_main64 (H := controller typed_codes) plain_cpu (fun _ => true) 100)
    (Some (shows (Terminal64
      (tape_puts (banner (cpu_collect plain_cpu) ++ prompt ++ bs "cd /java" ++ [10] ++ prompt ++ bs "LS" ++ [10] ++
        bs "[F] sample.jar" ++ [10] ++ bs "[F] hello.jar" ++ [10] ++ bs "[F] hello.class" ++ [10] ++ bs "[F] tinyjvm.jar" ++ [10] ++ prompt) [])
      [] (in_dir 4 boot_files)))) st /\
  follows (kernel_main64 (H := controller typed_codes) plain_cpu (fun _ => false) 1)
    (Some (shows (Terminal64 (tape_puts (banner (cpu_collect plain_cpu) ++ prompt ++ bs "c") []) (bs "c") (in_dir 0 boot_files)))) st /\
  kernel_main64 (H := controller typed_codes) plain_cpu (fun _ => false) 2 st = Stuck NoFuel.
Proof.
  intros st.
  assert (Hboot : ramdisk_init = Ok boot_files) by (vm_compute; reflexivity).
  assert (Hcodes : holds_codes (controller typed_codes) typed_codes) by (apply controller_holds; repeat constructor; vm_compute; done).
  pose proof (fun wakes n => monitor_session (hw := controller typed_codes) plain_cpu wakes (replicate 2000 0) (replicate 256 255)
    typed_codes boot_files n eq_refl Hboot Hcodes) as Hrun. split; [|split].
  - destruct (Hrun (fun _ => true) 100%nat) as (_ & Hwake & _). specialize (Hwake (fun _ => eq_refl) ltac:(vm_compute; lia)).
    match type of Hwake with follows _ (?o ≫= _) _ =>
      assert (Hkeys : o = Some (Terminal64 (tape_puts (banner (cpu_collect plain_cpu) ++ prompt ++ bs "cd /java" ++ [10] ++ prompt ++ bs "LS" ++ [10] ++
          bs "[F] sample.jar" ++ [10] ++ bs "[F] hello.jar" ++ [10] ++ bs "[F] hello.class" ++ [10] ++ bs "[F] tinyjvm.jar" ++ [10] ++ prompt) [])
        [] (in_dir 4 boot_files))) by (vm_compute; reflexivity) end.
    rewrite Hkeys in Hwake. exact Hwake.
  - destruct (Hrun (fun _ => false) 1%nat) as ((ws & Hlen & _ & _ & Hone) & _). destruct ws as [|w [|]]; [discriminate Hlen| |discriminate Hlen].
    match type of Hone with follows _ (?o ≫= _) _ =>
      assert (Hkeys : o = Some (Terminal64 (tape_puts (banner (cpu_collect plain_cpu) ++ prompt ++ bs "c") []) (bs "c") (in_dir 0 boot_files)))
        by (destruct w; vm_compute; reflexivity) end.
    rewrite Hkeys in Hone. exact Hone.
  - destruct (Hrun (fun _ => false) 2%nat) as (_ & _ & Hstop). apply Hstop; [reflexivity|].
    apply (bool_decide_unpack _). vm_compute. exact I.
Defined.
